(** * robot_vision: the synthetic-dataset generator [generate_blender.py]

    A shallow embedding of the generation script and the properties its
    specification states about it.

    Modelling conventions.
    - Python floats are idealised as exact rationals ([Q]); [math.pi] is the
      rational value of the double constant.  Comparisons, [min] and [max]
      follow Python's rules (the first of two equal candidates wins).  A
      float negative zero, which prints with a sign, has no counterpart
      among the rationals.
    - The 3-D host (the [bpy] API) is an explicit [World]: the object
      collection [bpy.data.objects] with pointer identities, the render
      settings, the active camera of the scene, the bound background image,
      the file system, the console and a history of the external calls made
      so far.
    - What the host computes and the script cannot see into (glTF import,
      the renaming of objects whose name is taken, mesh evaluation, camera
      projection, trigonometry, the random source, the directory listing)
      is a record [Env] of functions.
    - The calls that reach outside the process (listing and creating
      directories, importing a model, loading an image, rendering, opening
      a file) can fail: [host_error] tells, for a call and the world it is
      made in, whether the host answers with an error and with which.
    - Exceptions are the [Raise] outcome of the monad [M]; the [while] loop
      of [main] runs on fuel and reports exhaustion as [None].
    - The two helper scripts of the repository, [background_generator.py]
      and [apply_texture.py], are modelled in modules of their own, each
      with the part of the outside world it touches. *)

From Stdlib Require Import QArith Qabs ZArith Lia Lqa Ascii String List Sorted Decimal DecimalString DecimalNat.
From Stdlib Require DecimalFacts DecimalPos DecimalZ.
From stdpp Require Import gmap strings list fin_maps.

Local Open Scope string_scope.
Local Open Scope list_scope.

(* ===================================================================== *)
(** * Python primitives                                                     *)
(* ===================================================================== *)

Module Py.

(** ** Numbers *)

(** [a < b] on floats. *)
Definition ltb (a b : Q) : bool := negb (Qle_bool b a).
(** [a <= b] on floats. *)
Definition leb (a b : Q) : bool := Qle_bool a b.

(** [max(a, b)]: the second argument is taken only when it is greater. *)
Definition max (a b : Q) : Q := if ltb a b then b else a.
(** [min(a, b)]: the second argument is taken only when it is smaller. *)
Definition min (a b : Q) : Q := if ltb b a then b else a.

(** [min(xs)] and [max(xs)] over a sequence: [None] stands for the
    [ValueError] raised on an empty sequence. *)
Fixpoint min_from (cur : Q) (xs : list Q) : Q :=
  match xs with
  | [] => cur
  | x :: xs' => min_from (if ltb x cur then x else cur) xs'
  end.
Fixpoint max_from (cur : Q) (xs : list Q) : Q :=
  match xs with
  | [] => cur
  | x :: xs' => max_from (if ltb cur x then x else cur) xs'
  end.
Definition min_seq (xs : list Q) : option Q :=
  match xs with [] => None | x :: xs' => Some (min_from x xs') end.
Definition max_seq (xs : list Q) : option Q :=
  match xs with [] => None | x :: xs' => Some (max_from x xs') end.

(** [math.pi], the double nearest to pi, as an exact fraction. *)
Definition pi : Q := 884279719003555 # 281474976710656.
(** [math.radians(x)]: [x * (pi / 180)]. *)
Definition radians (x : Q) : Q := (x * (pi / 180))%Q.

(** ** Strings *)

(** [str(n)] for a non-negative int. *)
Definition str_nat (n : nat) : string := NilZero.string_of_uint (Nat.to_uint n).
(** [str(z)] for an int. *)
Definition str_int (z : Z) : string := NilZero.string_of_int (Z.to_int z).

Fixpoint repeat_char (c : ascii) (n : nat) : string :=
  match n with 0 => "" | S k => String c (repeat_char c k) end.

(** Left padding with zeros up to [width] (the [0w] of a format spec, on
    the digits of a non-negative number): longer strings are unchanged. *)
Definition zfill (width : nat) (s : string) : string :=
  repeat_char "0" (width - String.length s) +:+ s.

(** [f'{n:05d}'] for a non-negative int. *)
Definition format_05d (n : nat) : string := zfill 5 (str_nat n).

(** Rounding a non-negative fraction to the nearest integer, ties to even. *)
Definition round_half_even (q : Q) : Z :=
  let num := Qnum q in
  let den := Zpos (Qden q) in
  let quo := (num / den)%Z in
  let rem := (num mod den)%Z in
  if (2 * rem <? den)%Z then quo
  else if (den <? 2 * rem)%Z then (quo + 1)%Z
  else if Z.even quo then quo else (quo + 1)%Z.

(** [f'{v:.6f}']: sign, integer part, a dot and exactly six decimals. *)
Definition format_6f (v : Q) : string :=
  let n := round_half_even (Qabs v * 1000000) in
  (if ltb v 0 then "-" else "")
    +:+ str_int (n / 1000000) +:+ "." +:+ zfill 6 (str_int (n mod 1000000)).

(** [s.lower()] on ASCII text. *)
Definition lower_char (c : ascii) : ascii :=
  let n := nat_of_ascii c in
  if ((65 <=? n) && (n <=? 90))%nat then ascii_of_nat (n + 32) else c.
Fixpoint lower (s : string) : string :=
  match s with
  | "" => ""
  | String c s' => String (lower_char c) (lower s')
  end.

(** [s.startswith(p)] and [s.endswith(p)]. *)
Fixpoint startswith (s p : string) : bool :=
  match p, s with
  | "", _ => true
  | String _ _, "" => false
  | String b p', String a s' => if Ascii.eqb a b then startswith s' p' else false
  end.
Fixpoint endswith (s p : string) : bool :=
  if String.eqb s p then true
  else match s with
       | "" => false
       | String _ s' => endswith s' p
       end.
(** [sub in s]. *)
Fixpoint contains (s sub : string) : bool :=
  if startswith s sub then true
  else match s with
       | "" => false
       | String _ s' => contains s' sub
       end.

(** [s.rfind(c)] for a one-character needle: the last index, or [-1]. *)
Fixpoint rfind_from (i : Z) (c : ascii) (s : string) (found : Z) : Z :=
  match s with
  | "" => found
  | String a s' => rfind_from (i + 1) c s' (if Ascii.eqb a c then i else found)
  end.
Definition rfind (s : string) (c : ascii) : Z := rfind_from 0 c s (-1).

(** [s[i:]] and [s[i:i+1]] for [0 <= i]. *)
Fixpoint drop_str (n : nat) (s : string) : string :=
  match n, s with
  | 0, _ => s
  | S k, "" => ""
  | S k, String _ s' => drop_str k s'
  end.
Definition char_at (s : string) (i : nat) : string :=
  match drop_str i s with "" => "" | String a _ => String a "" end.

(** [os.path.splitext(p)[1]] on POSIX: the text from the last dot of the
    last path component, unless that component has only leading dots. *)
Fixpoint splitext_scan (fuel : nat) (p : string) (filenameIndex dotIndex : Z) : string :=
  match fuel with
  | 0 => ""
  | S k =>
      if (filenameIndex <? dotIndex)%Z then
        if negb (String.eqb (char_at p (Z.to_nat filenameIndex)) ".")
        then drop_str (Z.to_nat dotIndex) p
        else splitext_scan k p (filenameIndex + 1) dotIndex
      else ""
  end.
Definition splitext_ext (p : string) : string :=
  let sepIndex := rfind p "/" in
  let dotIndex := rfind p "." in
  if (sepIndex <? dotIndex)%Z
  then splitext_scan (String.length p) p (sepIndex + 1) dotIndex
  else "".

(** [os.path.join(a, b)] on POSIX. *)
Definition path_join (a b : string) : string :=
  if startswith b "/" then b
  else if String.eqb a "" || endswith a "/" then a +:+ b
  else a +:+ "/" +:+ b.

(** The line feed. *)
Definition newline : string := String (ascii_of_nat 10) "".

(** [random.uniform(a, b)] from the underlying draw [u] of
    [random.random()]: [a + (b - a) * u]. *)
Definition uniform_of (a b u : Q) : Q := (a + (b - a) * u)%Q.

End Py.


(* ===================================================================== *)
(** * The host: scene, files, console                                        *)
(* ===================================================================== *)

Record Vec3 := mkVec3 { vx : Q; vy : Q; vz : Q }.

Definition vec3_sub (a b : Vec3) : Vec3 :=
  mkVec3 (vx a - vx b) (vy a - vy b) (vz a - vz b).

(** A rotation quaternion, opaque to the script. *)
Definition Quat : Type := (Q * Q * Q * Q)%type.

(** The [type] of a scene object (the kinds the script can meet). *)
Inductive obj_type := MESH | CAMERA | LIGHT | EMPTY | ARMATURE | CURVE.

Inductive light_kind := SUN | POINT.

(** The data block an object carries. *)
Inductive obj_data :=
| NoData
| CameraData (lens : Q)
| LightData (kind : light_kind) (energy : Q)
| MeshData (vertices : list Vec3).

Record Obj := mkObj {
  name : string;
  type : obj_type;
  scale : Vec3;
  rotation_euler : Vec3;
  location : Vec3;
  data : obj_data
}.

(** What a file holds: a rendered still (determined by the scene, the
    bound background and the active camera at render time) or text. *)
Inductive File :=
| PngImage (scene : list (nat * Obj)) (background : option string) (camera : option nat)
| TextFile (content : string).

(** External calls, in the order they happen. *)
Inductive Event :=
| EvChoice (picked : string)
| EvMakedirs (path : string)
| EvSetupRenderer
| EvSetupCompositor
| EvImport (path : string)
| EvNewObject (o : nat)
| EvRemoveObject (o : nat)
| EvLoadImage (path : string)
| EvRemoveImage (path : string)
| EvViewLayerUpdate
| EvDepsgraph
| EvToMesh (o : nat)
| EvToMeshClear (o : nat)
| EvProject (p : Vec3)
| EvRender (path : string)
| EvWriteFile (path : string).

(** The state the script acts on.  [objects] is [bpy.data.objects] keyed by
    pointer identity; Python variables holding objects hold keys.
    [scene_camera] is [bpy.context.scene.camera]. *)
Record World := mkWorld {
  objects : gmap nat Obj;
  render_filepath : string;
  node_image : option string;
  files : gmap string File;
  rng : nat;
  stdout : list string;
  history : list Event;
  scene_camera : option nat
}.

(** The calls that reach outside the process. *)
Inductive HostCall :=
| CallListdir (dir : string)
| CallMakedirs (dir : string)
| CallImport (path : string)
| CallLoadImage (path : string)
| CallRender (path : string)
| CallOpen (path : string).

(** What the host and the libraries compute. *)
Record Env := mkEnv {
  (** the objects [bpy.ops.import_scene.gltf] creates for a file in a scene
      holding the given objects, in the order
      [bpy.context.selected_objects] lists them, each with the name the
      file asks for *)
  gltf_import : string → gmap nat Obj → list Obj;
  (** the name the host gives a new object when the name asked for is
      taken, from the names in use and the name asked for *)
  renamed : gset string → string → string;
  (** the vertices of [evaluated_obj.to_mesh()] *)
  evaluated_vertices : Obj → list Vec3;
  (** [evaluated_obj.matrix_world @ v] *)
  matrix_world : Obj → Vec3 → Vec3;
  (** [world_to_camera_view(scene, cam, p)] *)
  world_to_camera_view : Obj → Vec3 → Vec3;
  (** [math.cos], [math.sin] *)
  cos : Q → Q;
  sin : Q → Q;
  (** [direction.to_track_quat(track, up)] and [quat.to_euler()] *)
  to_track_quat : Vec3 → string → string → Quat;
  to_euler : Quat → Vec3;
  (** the [k]-th value [random.random()] returns *)
  random : nat → Q;
  (** the index the [k]-th draw picks in a sequence of the given length *)
  randbelow : nat → nat → nat;
  (** what [os.listdir] returns when it succeeds *)
  listdir : string → list string;
  (** the error, if any, the host answers a call with in a given world *)
  host_error : HostCall → World → option string
}.

(** The CONFIG block at the top of the script. *)
Record Config := mkConfig {
  MODELS : list string;
  BACKGROUNDS_DIR : string;
  NUM_IMAGES : nat;
  OUTPUT_DIR : string;
  IMAGE_RES : nat * nat;
  CLASS_ID : Z;
  CAM_RAD_MIN : Q; CAM_RAD_MAX : Q;
  CAM_ELEV_MIN : Q; CAM_ELEV_MAX : Q;
  FOCAL_MIN : Q; FOCAL_MAX : Q;
  SCALE_MIN : Q; SCALE_MAX : Q;
  POS_X_MIN : Q; POS_X_MAX : Q;
  POS_Y_MIN : Q; POS_Y_MAX : Q;
  LIGHT_PWR_MIN : Q; LIGHT_PWR_MAX : Q
}.

(** The values the repository ships. *)
Definition shipped_config : Config := {|
  MODELS := ["/home/janga/YOLO/models/yerba_mate_final.glb"];
  BACKGROUNDS_DIR := "/home/janga/YOLO/backgrounds";
  NUM_IMAGES := 1000;
  OUTPUT_DIR := "/home/janga/YOLO/output_blender";
  IMAGE_RES := (640, 640)%nat;
  CLASS_ID := 0;
  CAM_RAD_MIN := 6 # 10; CAM_RAD_MAX := 12 # 10;
  CAM_ELEV_MIN := 10; CAM_ELEV_MAX := 50;
  FOCAL_MIN := 40; FOCAL_MAX := 80;
  SCALE_MIN := 12 # 10; SCALE_MAX := 18 # 10;
  POS_X_MIN := - (2 # 10); POS_X_MAX := 2 # 10;
  POS_Y_MIN := - (2 # 10); POS_Y_MAX := 2 # 10;
  LIGHT_PWR_MIN := 800; LIGHT_PWR_MAX := 1500
|}.

(* ===================================================================== *)
(** * The monad of the script: state and exceptions                          *)
(* ===================================================================== *)

Inductive Res (A : Type) :=
| Ok (a : A) (w : World)
| Raise (msg : string) (w : World).
Arguments Ok {A} a w.
Arguments Raise {A} msg w.

Definition M (A : Type) : Type := World → Res A.

Definition ret {A} (a : A) : M A := λ w, Ok a w.
Definition bind {A B} (m : M A) (k : A → M B) : M B :=
  λ w, match m w with
       | Ok a w' => k a w'
       | Raise e w' => Raise e w'
       end.
Definition raise {A} (msg : string) : M A := λ w, Raise msg w.

Declare Scope script_scope.
Delimit Scope script_scope with script.
Notation "'let*' x := m 'in' k" := (bind m (λ x, k))
  (at level 10, x pattern, m at level 99, k at level 200) : script_scope.
Notation "m >> k" := (bind m (λ _, k))
  (at level 100, k at level 200, right associativity) : script_scope.
Local Open Scope script_scope.

Definition gets {A} (f : World → A) : M A := λ w, Ok (f w) w.
Definition modify (f : World → World) : M unit := λ w, Ok tt (f w).

Definition set_objects (m : gmap nat Obj) (w : World) : World :=
  mkWorld m (render_filepath w) (node_image w) (files w) (rng w) (stdout w) (history w)
    (scene_camera w).
Definition set_render_filepath (p : string) (w : World) : World :=
  mkWorld (objects w) p (node_image w) (files w) (rng w) (stdout w) (history w)
    (scene_camera w).
Definition set_node_image (i : option string) (w : World) : World :=
  mkWorld (objects w) (render_filepath w) i (files w) (rng w) (stdout w) (history w)
    (scene_camera w).
Definition set_files (fs : gmap string File) (w : World) : World :=
  mkWorld (objects w) (render_filepath w) (node_image w) fs (rng w) (stdout w) (history w)
    (scene_camera w).
Definition set_rng (n : nat) (w : World) : World :=
  mkWorld (objects w) (render_filepath w) (node_image w) (files w) n (stdout w) (history w)
    (scene_camera w).
Definition set_stdout (out : list string) (w : World) : World :=
  mkWorld (objects w) (render_filepath w) (node_image w) (files w) (rng w) out (history w)
    (scene_camera w).
Definition set_history (h : list Event) (w : World) : World :=
  mkWorld (objects w) (render_filepath w) (node_image w) (files w) (rng w) (stdout w) h
    (scene_camera w).
Definition set_scene_camera (c : option nat) (w : World) : World :=
  mkWorld (objects w) (render_filepath w) (node_image w) (files w) (rng w) (stdout w)
    (history w) c.

(** An external call is recorded at the end of the history. *)
Definition emit (e : Event) : M unit :=
  modify (λ w, set_history (history w ++ [e]) w).
(** [print(s)] *)
Definition print (s : string) : M unit :=
  modify (λ w, set_stdout (stdout w ++ [s]) w).

(** A call that reaches outside the process: the host's error, if it
    answers with one, is raised. *)
Definition host (env : Env) (c : HostCall) : M unit :=
  λ w, match host_error env c w with
       | Some msg => Raise msg w
       | None => Ok tt w
       end.

(** [for x in xs: body(x)] *)
Fixpoint for_each {A} (xs : list A) (body : A → M unit) : M unit :=
  match xs with
  | [] => ret tt
  | x :: xs' => body x >> for_each xs' body
  end.
(** [[f(x) for x in xs]] with an effectful [f] *)
Fixpoint map_m {A B} (f : A → M B) (xs : list A) : M (list B) :=
  match xs with
  | [] => ret []
  | x :: xs' => let* y := f x in let* ys := map_m f xs' in ret (y :: ys)
  end.

(** ** The object collection *)

(** Reading through a reference; a reference to a removed object raises
    the host's [ReferenceError]. *)
Definition get_obj (o : nat) : M Obj :=
  let* objs := gets objects in
  match objs !! o with
  | Some x => ret x
  | None => raise "ReferenceError: StructRNA of type Object has been removed"
  end.
(** Assigning to attributes of an object through a reference. *)
Definition update_obj (o : nat) (f : Obj → Obj) : M unit :=
  let* x := get_obj o in
  modify (λ w, set_objects (<[o := f x]> (objects w)) w).

Definition with_name (nm : string) (x : Obj) : Obj :=
  mkObj nm (type x) (scale x) (rotation_euler x) (location x) (data x).
Definition with_scale (v : Vec3) (x : Obj) : Obj :=
  mkObj (name x) (type x) v (rotation_euler x) (location x) (data x).
Definition with_rotation_euler (v : Vec3) (x : Obj) : Obj :=
  mkObj (name x) (type x) (scale x) v (location x) (data x).
Definition with_location (v : Vec3) (x : Obj) : Obj :=
  mkObj (name x) (type x) (scale x) (rotation_euler x) v (data x).
Definition with_data (d : obj_data) (x : Obj) : Obj :=
  mkObj (name x) (type x) (scale x) (rotation_euler x) (location x) d.

(** [data.lens = v] on a camera, [data.energy = v] on a light. *)
Definition with_lens (v : Q) (x : Obj) : Obj :=
  match data x with
  | CameraData _ => with_data (CameraData v) x
  | _ => x
  end.
Definition with_energy (v : Q) (x : Obj) : Obj :=
  match data x with
  | LightData k _ => with_data (LightData k v) x
  | _ => x
  end.

(** The names in use in [bpy.data.objects]. *)
Definition names (m : gmap nat Obj) : gset string := map_img (name <$> m).

(** Names are unique in [bpy.data.objects]: a new object takes the name
    asked for when it is free (names are taken to be within the host's
    length limit) and the name the host makes up otherwise. *)
Definition unique_name (env : Env) (taken : gset string) (nm : string) : string :=
  if decide (nm ∈ taken) then renamed env taken nm else nm.

(** A new object enters the collection under a new identity and a name of
    its own. *)
Definition add_object (env : Env) (x : Obj) : M nat :=
  let* objs := gets objects in
  let o := fresh (dom objs) in
  let nm := unique_name env (names objs) (name x) in
  modify (λ w, set_objects (<[o := with_name nm x]> (objects w)) w) >>
  emit (EvNewObject o) >>
  ret o.
(** [bpy.data.objects.new(name, data)] followed by linking it to the
    collection: unit scale, zero rotation and location. *)
Definition new_object (env : Env) (nm : string) (ty : obj_type) (d : obj_data) : M nat :=
  add_object env (mkObj nm ty (mkVec3 1 1 1) (mkVec3 0 0 0) (mkVec3 0 0 0) d).
(** [bpy.data.objects.remove(obj, do_unlink=True)] *)
Definition remove_object (o : nat) : M unit :=
  let* _ := get_obj o in
  modify (λ w, set_objects (delete o (objects w)) w) >>
  emit (EvRemoveObject o).

(** [[o for o in bpy.data.objects if p(o)]] *)
Definition objects_where (p : Obj → bool) : M (list nat) :=
  let* objs := gets objects in
  ret (map fst (filter (λ kx, p (snd kx) = true) (map_to_list objs))).

(** ** The random module *)

(** [random.random()] *)
Definition random_random (env : Env) : M Q :=
  let* k := gets rng in
  modify (set_rng (S k)) >>
  ret (random env k).
(** [random.uniform(a, b)] *)
Definition random_uniform (env : Env) (a b : Q) : M Q :=
  let* u := random_random env in
  ret (Py.uniform_of a b u).
(** [random.choice(seq)] *)
Definition random_choice (env : Env) (seq : list string) : M string :=
  match seq with
  | [] => raise "IndexError: Cannot choose from an empty sequence"
  | _ =>
      let* k := gets rng in
      modify (set_rng (S k)) >>
      let picked := nth (randbelow env k (length seq) mod length seq) seq "" in
      emit (EvChoice picked) >>
      ret picked
  end.

(* ===================================================================== *)
(** * The script                                                             *)
(* ===================================================================== *)

Section Script.

Context (cfg : Config) (env : Env).

(** [o.type not in {'CAMERA', 'LIGHT'}] *)
Definition not_camera_or_light (x : Obj) : bool :=
  match type x with
  | CAMERA | LIGHT => false
  | _ => true
  end.

Definition clean_scene : M unit :=
  let* doomed := objects_where not_camera_or_light in
  for_each doomed remove_object.

Definition setup_renderer : M unit := emit EvSetupRenderer.

Definition setup_compositor : M unit := emit EvSetupCompositor.

Definition is_camera (x : Obj) : bool :=
  match type x with CAMERA => true | _ => false end.

Definition ensure_camera : M nat :=
  let* cams := objects_where is_camera in
  match cams with
  | c :: _ => ret c
  | [] =>
      let* cam_obj := new_object env "Camera" CAMERA (CameraData 50) in
      modify (set_scene_camera (Some cam_obj)) >>
      ret cam_obj
  end.

(** [o.type == 'LIGHT' and 'Fill' in o.name] *)
Definition is_fill (x : Obj) : bool :=
  match type x with
  | LIGHT => Py.contains (name x) "Fill"
  | _ => false
  end.
(** [o.type == 'LIGHT' and o.name == 'Sun'] *)
Definition is_sun (x : Obj) : bool :=
  match type x with
  | LIGHT => String.eqb (name x) "Sun"
  | _ => false
  end.

Definition ensure_light : M unit :=
  let* fills := objects_where is_fill in
  for_each fills remove_object >>
  let* suns := objects_where is_sun in
  (match suns with
   | [] =>
       let* e := random_uniform env 2 5 in
       let* sun := new_object env "Sun" LIGHT (LightData SUN e) in
       update_obj sun (with_location (mkVec3 5 (-5) 5)) >>
       update_obj sun (with_rotation_euler (mkVec3 (7 # 10) (2 # 10) (- (7 # 10))))
   | _ :: _ => ret tt
   end) >>
  let* fill := new_object env "Fill" LIGHT (LightData POINT 10) in
  let* e := random_uniform env (LIGHT_PWR_MIN cfg) (LIGHT_PWR_MAX cfg) in
  update_obj fill (with_energy e) >>
  let* x := random_uniform env (-4) 4 in
  let* y := random_uniform env (-4) 4 in
  let* z := random_uniform env 1 4 in
  update_obj fill (with_location (mkVec3 x y z)).

(** [ext in {'.glb', '.gltf'}] *)
Definition supported_ext (ext : string) : bool :=
  String.eqb ext ".glb" || String.eqb ext ".gltf".

Definition import_model (path : string) : M (list nat) :=
  let ext := Py.lower (Py.splitext_ext path) in
  if supported_ext ext then
    emit (EvImport path) >>
    host env (CallImport path) >>
    let* objs := gets objects in
    map_m (add_object env) (gltf_import env path objs)
  else
    raise ("Unsupported model format: " +:+ path).

Definition randomise_object (obj : nat) : M unit :=
  let* s := random_uniform env (SCALE_MIN cfg) (SCALE_MAX cfg) in
  update_obj obj (with_scale (mkVec3 s s s)) >>
  let* a := random_uniform env 0 (2 * Py.pi) in
  update_obj obj (with_rotation_euler (mkVec3 a a a)) >>
  let* x := random_uniform env (POS_X_MIN cfg) (POS_X_MAX cfg) in
  let* y := random_uniform env (POS_Y_MIN cfg) (POS_Y_MAX cfg) in
  update_obj obj (with_location (mkVec3 x y 0)).

Definition randomise_camera (cam_obj : nat) : M unit :=
  let* lens := random_uniform env (FOCAL_MIN cfg) (FOCAL_MAX cfg) in
  update_obj cam_obj (with_lens lens) >>
  let* r := random_uniform env (CAM_RAD_MIN cfg) (CAM_RAD_MAX cfg) in
  let* e := random_uniform env (CAM_ELEV_MIN cfg) (CAM_ELEV_MAX cfg) in
  let elev := Py.radians e in
  let* azim := random_uniform env 0 (2 * Py.pi) in
  update_obj cam_obj (with_location (mkVec3
    (r * cos env azim * cos env elev)
    (r * sin env azim * cos env elev)
    (r * sin env elev))) >>
  let* tx := random_uniform env (POS_X_MIN cfg) (POS_X_MAX cfg) in
  let* ty := random_uniform env (POS_Y_MIN cfg) (POS_Y_MAX cfg) in
  let target_pos := mkVec3 (tx / 2) (ty / 2) 0 in
  let* cam_now := get_obj cam_obj in
  let direction := vec3_sub target_pos (location cam_now) in
  let rot_quat := to_track_quat env direction "-Z" "Y" in
  update_obj cam_obj (with_rotation_euler (to_euler env rot_quat)).

(** [0.0 <= c.x <= 1.0 and 0.0 <= c.y <= 1.0 and c.z > 0] *)
Definition visible (c : Vec3) : bool :=
  Py.leb 0 (vx c) && Py.leb (vx c) 1 && Py.leb 0 (vy c) && Py.leb (vy c) 1
  && Py.ltb 0 (vz c).

Definition visible_coords (coords_2d : list Vec3) : list Vec3 :=
  List.filter visible coords_2d.

(** [min(max(v, 0.0), 1.0)] *)
Definition clamp (v : Q) : Q := Py.min (Py.max v 0) 1.

(** [for i in range(len(bbox_vals)): bbox_vals[i] = min(max(bbox_vals[i], 0.0), 1.0)] *)
Fixpoint clamp_loop (range : list nat) (bbox_vals : list Q) : list Q :=
  match range with
  | [] => bbox_vals
  | i :: range' =>
      clamp_loop range' (<[i := clamp (default 0%Q (bbox_vals !! i))]> bbox_vals)
  end.

(** The final f-string of [calc_yolo_bbox]. *)
Definition format_label (bbox_vals : list Q) : string :=
  Py.str_int (CLASS_ID cfg) +:+ " " +:+
  Py.format_6f (default 0%Q (bbox_vals !! 0%nat)) +:+ " " +:+
  Py.format_6f (default 0%Q (bbox_vals !! 1%nat)) +:+ " " +:+
  Py.format_6f (default 0%Q (bbox_vals !! 2%nat)) +:+ " " +:+
  Py.format_6f (default 0%Q (bbox_vals !! 3%nat)).

(** [min(xs)] / [max(xs)] inside the monad. *)
Definition seq_extreme (r : option Q) : M Q :=
  match r with
  | Some v => ret v
  | None => raise "ValueError: arg is an empty sequence"
  end.

(** The values [cx, cy, w, h] before the clamping loop. *)
Definition raw_bbox (xmin xmax ymin ymax : Q) : list Q :=
  [ ((xmin + xmax) / 2)%Q;
    (1 - ((ymin + ymax) / 2))%Q;
    (xmax - xmin)%Q;
    (ymax - ymin)%Q ].

(** The types [to_mesh()] makes a mesh of (of those the script can meet). *)
Definition has_geometry (x : Obj) : bool :=
  match type x with
  | MESH | CURVE => true
  | _ => false
  end.

(** [evaluated_obj.to_mesh()]: the host refuses an object without
    geometry. *)
Definition to_mesh (obj : nat) (evaluated_obj : Obj) : M (list Vec3) :=
  emit (EvToMesh obj) >>
  if has_geometry evaluated_obj then ret (evaluated_vertices env evaluated_obj)
  else raise "RuntimeError: Error: Object does not have geometry data".

(** [world_to_camera_view(scene, cam, p)], one host call per point; it
    reads the view frame off the camera data, which only a camera has. *)
Definition project (cam_obj : Obj) (p : Vec3) : M Vec3 :=
  emit (EvProject p) >>
  if is_camera cam_obj then ret (world_to_camera_view env cam_obj p)
  else raise "AttributeError: object has no attribute 'view_frame'".

Definition calc_yolo_bbox (obj cam : nat) : M (option string) :=
  emit EvDepsgraph >>
  let* evaluated_obj := get_obj obj in
  let* mesh_vertices := to_mesh obj evaluated_obj in
  match mesh_vertices with
  | [] =>
      emit (EvToMeshClear obj) >>
      ret None
  | _ :: _ =>
      let coords_3d := map (matrix_world env evaluated_obj) mesh_vertices in
      let* cam_obj := get_obj cam in
      let* coords_2d := map_m (project cam_obj) coords_3d in
      emit (EvToMeshClear obj) >>
      let visible_coords := visible_coords coords_2d in
      match visible_coords with
      | [] => ret None
      | _ :: _ =>
          let xs := map vx visible_coords in
          let ys := map vy visible_coords in
          let* xmin := seq_extreme (Py.min_seq xs) in
          let* xmax := seq_extreme (Py.max_seq xs) in
          let* ymin := seq_extreme (Py.min_seq ys) in
          let* ymax := seq_extreme (Py.max_seq ys) in
          let bbox_vals := raw_bbox xmin xmax ymin ymax in
          let bbox_vals := clamp_loop (seq 0 (length bbox_vals)) bbox_vals in
          ret (Some (format_label bbox_vals))
      end
  end.

(** The same function with the clamping loop deleted. *)
Definition calc_yolo_bbox_unclamped (obj cam : nat) : M (option string) :=
  emit EvDepsgraph >>
  let* evaluated_obj := get_obj obj in
  let* mesh_vertices := to_mesh obj evaluated_obj in
  match mesh_vertices with
  | [] =>
      emit (EvToMeshClear obj) >>
      ret None
  | _ :: _ =>
      let coords_3d := map (matrix_world env evaluated_obj) mesh_vertices in
      let* cam_obj := get_obj cam in
      let* coords_2d := map_m (project cam_obj) coords_3d in
      emit (EvToMeshClear obj) >>
      let visible_coords := visible_coords coords_2d in
      match visible_coords with
      | [] => ret None
      | _ :: _ =>
          let xs := map vx visible_coords in
          let ys := map vy visible_coords in
          let* xmin := seq_extreme (Py.min_seq xs) in
          let* xmax := seq_extreme (Py.max_seq xs) in
          let* ymin := seq_extreme (Py.min_seq ys) in
          let* ymax := seq_extreme (Py.max_seq ys) in
          let bbox_vals := raw_bbox xmin xmax ymin ymax in
          ret (Some (format_label bbox_vals))
      end
  end.

(** ** The main generation loop *)

(** [f.lower().endswith(('.png', '.jpg', '.jpeg'))] *)
Definition is_image_name (f : string) : bool :=
  existsb (Py.endswith (Py.lower f)) [".png"; ".jpg"; ".jpeg"].

(** The list comprehension over [os.listdir(BACKGROUNDS_DIR)], once the
    listing is there. *)
Definition background_files : list string :=
  map (Py.path_join (BACKGROUNDS_DIR cfg))
      (List.filter is_image_name (listdir env (BACKGROUNDS_DIR cfg))).

Definition img_dir : string := Py.path_join (OUTPUT_DIR cfg) "images".
Definition lbl_dir : string := Py.path_join (OUTPUT_DIR cfg) "labels".

(** [f'synth_{frame_num:05d}'] and the two paths built from it. *)
Definition base_filename (frame_num : nat) : string :=
  "synth_" +:+ Py.format_05d frame_num.
Definition image_path (frame_num : nat) : string :=
  Py.path_join img_dir (base_filename frame_num +:+ ".png").
Definition label_path (frame_num : nat) : string :=
  Py.path_join lbl_dir (base_filename frame_num +:+ ".txt").

(** [os.makedirs(d, exist_ok=True)] *)
Definition makedirs (d : string) : M unit :=
  emit (EvMakedirs d) >>
  host env (CallMakedirs d).

(** [bg_image_node.image = bpy.data.images.load(path)] *)
Definition images_load (path : string) : M unit :=
  emit (EvLoadImage path) >>
  host env (CallLoadImage path) >>
  modify (set_node_image (Some path)).
(** [bpy.data.images.remove(bg_image_node.image)] *)
Definition images_remove : M unit :=
  let* img := gets node_image in
  match img with
  | Some path =>
      emit (EvRemoveImage path) >>
      modify (set_node_image None)
  | None => raise "TypeError: BlendDataImages.remove(): error with argument 1"
  end.

(** [bpy.ops.render.render(write_still=True)]: the still goes to
    [scene.render.filepath]. *)
Definition render_still : M unit :=
  let* path := gets render_filepath in
  let* objs := gets objects in
  let* bg := gets node_image in
  let* cam := gets scene_camera in
  emit (EvRender path) >>
  host env (CallRender path) >>
  modify (λ w, set_files (<[path := PngImage (map_to_list objs) bg cam]> (files w)) w).

(** [with open(path, 'w') as f: f.write(text)] *)
Definition write_text (path text : string) : M unit :=
  emit (EvWriteFile path) >>
  host env (CallOpen path) >>
  modify (λ w, set_files (<[path := TextFile text]> (files w)) w).

(** The search for the first MESH among the imported objects. *)
Fixpoint find_mesh (imported_objs : list nat) : M (option nat) :=
  match imported_objs with
  | [] => ret None
  | o :: rest =>
      let* x := get_obj o in
      match type x with
      | MESH => ret (Some o)
      | _ => find_mesh rest
      end
  end.

(** Import a model chosen at random and pick its mesh. *)
Definition select_model : M (option nat) :=
  let* path := random_choice env (MODELS cfg) in
  let* imported_objs := import_model path in
  find_mesh imported_objs.

(** The head of the loop body: reset the scene, then import and pick. *)
Definition import_and_select : M (option nat) :=
  clean_scene >>
  select_model.

(** The middle of the loop body: randomise, light, bind a background. *)
Definition randomise_scene (obj cam : nat) (background_files : list string) : M unit :=
  randomise_object obj >>
  randomise_camera cam >>
  ensure_light >>
  let* bg := random_choice env background_files in
  images_load bg >>
  emit EvViewLayerUpdate.

Definition msg_no_mesh (frame_num : nat) : string :=
  "ERROR: No MESH object found in the imported model. Skipping frame "
    +:+ Py.str_nat frame_num +:+ ".".
Definition msg_not_visible (frame_num : nat) : string :=
  "Object not visible in frame " +:+ Py.str_nat frame_num
    +:+ ", trying new randomisation.".
Definition msg_rendered (rendered frame_num : nat) : string :=
  "Rendered " +:+ Py.str_nat rendered +:+ "/" +:+ Py.str_nat (NUM_IMAGES cfg)
    +:+ " -> " +:+ base_filename frame_num +:+ ".png".

(** The loop body after the mesh search; the result is the pair
    [(rendered, frame_num)] the next pass starts from. *)
Definition frame_tail (cam : nat) (background_files : list string)
    (rendered frame_num : nat) (obj : option nat) : M (nat * nat) :=
  match obj with
  | None =>
      let frame_num := S frame_num in
      print (msg_no_mesh frame_num) >>
      ret (rendered, frame_num)
  | Some obj =>
      randomise_scene obj cam background_files >>
      let* bbox := calc_yolo_bbox obj cam in
      match bbox with
      | None =>
          let frame_num := S frame_num in
          print (msg_not_visible frame_num) >>
          images_remove >>
          ret (rendered, frame_num)
      | Some bbox =>
          modify (set_render_filepath (image_path frame_num)) >>
          render_still >>
          write_text (label_path frame_num) (bbox +:+ Py.newline) >>
          images_remove >>
          let rendered := S rendered in
          print (msg_rendered rendered frame_num) >>
          let frame_num := S frame_num in
          ret (rendered, frame_num)
      end
  end.

(** One pass through the body of [while rendered < NUM_IMAGES]. *)
Definition frame (cam : nat) (background_files : list string)
    (rendered frame_num : nat) : M (nat * nat) :=
  let* obj := import_and_select in
  frame_tail cam background_files rendered frame_num obj.

(** [while rendered < NUM_IMAGES: ...] on fuel: [None] when the fuel ends
    before the target is reached. *)
Fixpoint generation_loop (fuel : nat) (cam : nat) (background_files : list string)
    (rendered frame_num : nat) : M (option (nat * nat)) :=
  if (rendered <? NUM_IMAGES cfg)%nat then
    match fuel with
    | 0 => ret None
    | S fuel' =>
        let* next := frame cam background_files rendered frame_num in
        generation_loop fuel' cam background_files (fst next) (snd next)
    end
  else ret (Some (rendered, frame_num)).

Definition msg_done : string :=
  Py.newline +:+ "✅ DONE — Synthetic dataset with " +:+ Py.str_nat (NUM_IMAGES cfg)
    +:+ " images stored in " +:+ OUTPUT_DIR cfg.

(** The part of [main] before the loop; it returns the camera. *)
Definition main_setup : M nat :=
  match MODELS cfg with
  | [] => raise "MODELS list is empty. Set valid paths at top of script."
  | _ :: _ =>
      host env (CallListdir (BACKGROUNDS_DIR cfg)) >>
      match background_files with
      | [] => raise ("No background images found in " +:+ BACKGROUNDS_DIR cfg +:+ ".")
      | _ :: _ =>
          makedirs img_dir >>
          makedirs lbl_dir >>
          setup_renderer >>
          let* cam := ensure_camera in
          setup_compositor >>
          ret cam
      end
  end.

Definition main (fuel : nat) : M (option unit) :=
  let* cam := main_setup in
  let* final := generation_loop fuel cam background_files 0 0 in
  match final with
  | None => ret None
  | Some _ =>
      print msg_done >>
      ret (Some tt)
  end.

End Script.

(* ===================================================================== *)
(** * Vocabulary of the statements                                           *)
(* ===================================================================== *)

(** The least and the greatest element of a non-empty sequence. *)
Definition least (m : Q) (xs : list Q) : Prop :=
  In m xs ∧ ∀ x, In x xs → (m <= x)%Q.
Definition greatest (m : Q) (xs : list Q) : Prop :=
  In m xs ∧ ∀ x, In x xs → (x <= m)%Q.

(** The points [coords_2d] of [calc_yolo_bbox] for an object and a camera
    in given states. *)
Definition projected_points (env : Env) (xo xc : Obj) : list Vec3 :=
  map (world_to_camera_view env xc)
      (map (matrix_world env xo) (evaluated_vertices env xo)).

(** A value of the unit interval. *)
Definition unit_interval (v : Q) : Prop := (0 <= v)%Q ∧ (v <= 1)%Q.

(** The history a call of [calc_yolo_bbox] adds when the mesh has vertices. *)
Definition bbox_events (env : Env) (obj : nat) (xo : Obj) : list Event :=
  [EvDepsgraph; EvToMesh obj]
    ++ map EvProject (map (matrix_world env xo) (evaluated_vertices env xo))
    ++ [EvToMeshClear obj].

Definition is_project (e : Event) : bool :=
  match e with EvProject _ => true | _ => false end.
Definition is_render (e : Event) : bool :=
  match e with EvRender _ => true | _ => false end.
Definition is_write (e : Event) : bool :=
  match e with EvWriteFile _ => true | _ => false end.

(** [keeps R m]: however [m] ends, the world it leaves is [R]-related to
    the world it started from. *)
Definition keeps {A} (R : World → World → Prop) (m : M A) : Prop :=
  ∀ w, match m w with
       | Ok _ w' => R w w'
       | Raise _ w' => R w w'
       end.

(** The file system is untouched and nothing was rendered or written. *)
Definition silent (w w' : World) : Prop :=
  files w' = files w
  ∧ ∃ evs, history w' = history w ++ evs
           ∧ Forall (λ e, is_render e = false ∧ is_write e = false) evs.

(** A component of the world is the same before and after. *)
Definition same {A} (f : World → A) (w w' : World) : Prop := f w' = f w.

(** The world a discarded frame leaves, from the world [w] it reached. *)
Definition after_no_mesh (cfg : Config) (frame_num : nat) (w : World) : World :=
  set_stdout (stdout w ++ [msg_no_mesh frame_num]) w.
Definition after_not_visible (cfg : Config) (frame_num : nat) (bg : string)
    (w : World) : World :=
  set_node_image None
    (set_history (history w ++ [EvRemoveImage bg])
       (set_stdout (stdout w ++ [msg_not_visible frame_num]) w)).
(** The world an accepted frame leaves. *)
Definition after_accept (cfg : Config) (rendered frame_num : nat) (bg lbl : string)
    (w : World) : World :=
  mkWorld (objects w) (image_path cfg frame_num) None
    (<[label_path cfg frame_num := TextFile (lbl +:+ Py.newline)]>
       (<[image_path cfg frame_num
          := PngImage (map_to_list (objects w)) (Some bg) (scene_camera w)]>
          (files w)))
    (rng w)
    (stdout w ++ [msg_rendered cfg rendered frame_num])
    (history w ++ [EvRender (image_path cfg frame_num);
                   EvWriteFile (label_path cfg frame_num);
                   EvRemoveImage bg])
    (scene_camera w).

(** The world in which the still of a frame is rendered, and the one in
    which its label file is opened, from the world the box was computed
    in. *)
Definition rendering (cfg : Config) (frame_num : nat) (w : World) : World :=
  set_history (history w ++ [EvRender (image_path cfg frame_num)])
    (set_render_filepath (image_path cfg frame_num) w).
Definition writing (cfg : Config) (frame_num : nat) (w : World) : World :=
  set_history (history w ++ [EvRender (image_path cfg frame_num);
                             EvWriteFile (label_path cfg frame_num)])
    (set_files
       (<[image_path cfg frame_num
          := PngImage (map_to_list (objects w)) (node_image w) (scene_camera w)]> (files w))
       (set_render_filepath (image_path cfg frame_num) w)).

(** The element [random.choice(seq)] returns when [k] draws were made. *)
Definition pick (env : Env) (seq : list string) (k : nat) : string :=
  nth (randbelow env k (length seq) mod length seq) seq "".

(** The value [random.uniform(a, b)] returns at draw [k]: the point of
    [a, b] that the [k]-th value of the random source marks. *)
Definition draw (env : Env) (a b : Q) (k : nat) : Q :=
  (a + (b - a) * random env k)%Q.

(** The keys of the objects a predicate selects, in iteration order. *)
Definition keys_where (p : Obj → bool) (m : gmap nat Obj) : list nat :=
  map fst (filter (λ kx, p (snd kx) = true) (map_to_list m)).

(** The collection without the objects a predicate selects. *)
Definition without (p : Obj → bool) (m : gmap nat Obj) : gmap nat Obj :=
  filter (λ kx, p (snd kx) = false) m.

(** The object as it enters a collection: under the name asked for if that
    is free, under the host's replacement otherwise. *)
Definition entering (env : Env) (m : gmap nat Obj) (x : Obj) : Obj :=
  with_name (unique_name env (names m) (name x)) x.

(** The keys and the collection after adding objects one by one. *)
Fixpoint add_all (env : Env) (xs : list Obj) (m : gmap nat Obj)
    : list nat * gmap nat Obj :=
  match xs with
  | [] => ([], m)
  | x :: xs' =>
      let o := fresh (dom m) in
      let r := add_all env xs' (<[o := entering env m x]> m) in
      (o :: fst r, snd r)
  end.

(** The first key, in list order, that holds a MESH. *)
Fixpoint first_mesh (m : gmap nat Obj) (os : list nat) : option nat :=
  match os with
  | [] => None
  | o :: rest =>
      match m !! o with
      | Some x =>
          match type x with
          | MESH => Some o
          | _ => first_mesh m rest
          end
      | None => None
      end
  end.

(** The object [randomise_object] leaves, drawing from position [k] on. *)
Definition randomised_object (cfg : Config) (env : Env) (k : nat) (x : Obj) : Obj :=
  let s := draw env (SCALE_MIN cfg) (SCALE_MAX cfg) k in
  let a := draw env 0 (2 * Py.pi) (k + 1) in
  let px := draw env (POS_X_MIN cfg) (POS_X_MAX cfg) (k + 2) in
  let py := draw env (POS_Y_MIN cfg) (POS_Y_MAX cfg) (k + 3) in
  mkObj (name x) (type x) (mkVec3 s s s) (mkVec3 a a a) (mkVec3 px py 0) (data x).

(** The camera [randomise_camera] leaves, drawing from position [k] on. *)
Definition camera_position (cfg : Config) (env : Env) (k : nat) : Vec3 :=
  let r := draw env (CAM_RAD_MIN cfg) (CAM_RAD_MAX cfg) (k + 1) in
  let elev := (draw env (CAM_ELEV_MIN cfg) (CAM_ELEV_MAX cfg) (k + 2) * (Py.pi / 180))%Q in
  let azim := draw env 0 (2 * Py.pi) (k + 3) in
  mkVec3 (r * cos env azim * cos env elev)
         (r * sin env azim * cos env elev)
         (r * sin env elev).
Definition camera_target (cfg : Config) (env : Env) (k : nat) : Vec3 :=
  mkVec3 (draw env (POS_X_MIN cfg) (POS_X_MAX cfg) (k + 4) / 2)
         (draw env (POS_Y_MIN cfg) (POS_Y_MAX cfg) (k + 5) / 2)
         0.
(** The direction from the camera to its target, component by component. *)
Definition camera_direction (cfg : Config) (env : Env) (k : nat) : Vec3 :=
  mkVec3 (vx (camera_target cfg env k) - vx (camera_position cfg env k))
         (vy (camera_target cfg env k) - vy (camera_position cfg env k))
         (vz (camera_target cfg env k) - vz (camera_position cfg env k)).
Definition randomised_camera (cfg : Config) (env : Env) (k : nat) (x : Obj) : Obj :=
  mkObj (name x) (type x) (scale x)
    (to_euler env (to_track_quat env (camera_direction cfg env k) "-Z" "Y"))
    (camera_position cfg env k)
    (match data x with
     | CameraData _ => CameraData (draw env (FOCAL_MIN cfg) (FOCAL_MAX cfg) k)
     | d => d
     end).

(** The scene after the reset at the head of a frame. *)
Definition reset_objects (m : gmap nat Obj) : gmap nat Obj :=
  without not_camera_or_light m.

(** The objects the importer makes of the model chosen in world [w], whose
    scene has been reset by then. *)
Definition imported (cfg : Config) (env : Env) (w : World) : list Obj :=
  gltf_import env (pick env (MODELS cfg) (rng w)) (reset_objects (objects w)).

(** The world in which the importer is called for the model chosen in
    world [w]: the scene reset, the choice made, the call on record. *)
Definition importing (cfg : Config) (env : Env) (w : World) : World :=
  let p := pick env (MODELS cfg) (rng w) in
  mkWorld (reset_objects (objects w)) (render_filepath w) (node_image w) (files w)
    (S (rng w)) (stdout w)
    (history w
       ++ map EvRemoveObject (keys_where not_camera_or_light (objects w))
       ++ [EvChoice p; EvImport p])
    (scene_camera w).

(** The world [import_and_select] leaves when the chosen model imports. *)
Definition imported_world (cfg : Config) (env : Env) (w : World) : World :=
  let p := pick env (MODELS cfg) (rng w) in
  let r := add_all env (imported cfg env w) (reset_objects (objects w)) in
  mkWorld (snd r) (render_filepath w) (node_image w) (files w) (S (rng w)) (stdout w)
    (history w
       ++ map EvRemoveObject (keys_where not_camera_or_light (objects w))
       ++ [EvChoice p; EvImport p]
       ++ map EvNewObject (fst r))
    (scene_camera w).

(** The path has an extension [import_model] accepts. *)
Definition supported (path : string) : bool :=
  supported_ext (Py.lower (Py.splitext_ext path)).

(** The world a run ends in, however it ends. *)
Definition world_of {A} (r : Res A) : World :=
  match r with
  | Ok _ w => w
  | Raise _ w => w
  end.

Definition raises {A} (r : Res A) : Prop :=
  match r with
  | Ok _ _ => False
  | Raise _ _ => True
  end.

(** [random.random()] returns values of the half-open unit interval. *)
Definition unit_draws (env : Env) : Prop :=
  ∀ k, (0 <= random env k)%Q ∧ (random env k < 1)%Q.

(** Geometry: whatever is neither a camera nor a light. *)
Definition geometry_keys (m : gmap nat Obj) : list nat :=
  keys_where not_camera_or_light m.

(** Every piece of geometry of the later world sits where the earlier world
    had one. *)
Definition no_new_geometry (w w' : World) : Prop :=
  ∀ k x', objects w' !! k = Some x' → not_camera_or_light x' = true →
          ∃ x, objects w !! k = Some x ∧ not_camera_or_light x = true.

(** The sun [ensure_light] creates, with the name the host gave it and the
    energy drawn for it. *)
Definition sun_object (nm : string) (e : Q) : Obj :=
  mkObj nm LIGHT (mkVec3 1 1 1) (mkVec3 (7 # 10) (2 # 10) (- (7 # 10)))
        (mkVec3 5 (-5) 5) (LightData SUN e).
(** The fill light [ensure_light] creates. *)
Definition fill_object (nm : string) (e x y z : Q) : Obj :=
  mkObj nm LIGHT (mkVec3 1 1 1) (mkVec3 0 0 0) (mkVec3 x y z) (LightData POINT e).

(** The fill light drawn from position [k] of the random source on. *)
Definition drawn_fill (cfg : Config) (env : Env) (nm : string) (k : nat) : Obj :=
  fill_object nm (draw env (LIGHT_PWR_MIN cfg) (LIGHT_PWR_MAX cfg) k)
              (draw env (-4) 4 (k + 1)) (draw env (-4) 4 (k + 2)) (draw env 1 4 (k + 3)).

(** The world [ensure_light] leaves when a light named Sun is there. *)
Definition relit_world (cfg : Config) (env : Env) (w : World) : World :=
  let m1 := without is_fill (objects w) in
  let f := fresh (dom m1) in
  mkWorld (<[f := drawn_fill cfg env (unique_name env (names m1) "Fill") (rng w)]> m1)
    (render_filepath w) (node_image w) (files w) (rng w + 4) (stdout w)
    (history w ++ map EvRemoveObject (keys_where is_fill (objects w)) ++ [EvNewObject f])
    (scene_camera w).

(** The world [ensure_light] leaves when no light named Sun is there. *)
Definition first_lit_world (cfg : Config) (env : Env) (w : World) : World :=
  let m1 := without is_fill (objects w) in
  let s := fresh (dom m1) in
  let m2 := <[s := sun_object (unique_name env (names m1) "Sun") (draw env 2 5 (rng w))]> m1 in
  let f := fresh (dom m2) in
  mkWorld (<[f := drawn_fill cfg env (unique_name env (names m2) "Fill") (rng w + 1)]> m2)
    (render_filepath w) (node_image w) (files w) (rng w + 5) (stdout w)
    (history w ++ map EvRemoveObject (keys_where is_fill (objects w))
       ++ [EvNewObject s; EvNewObject f])
    (scene_camera w).

(** The reference [k] points at an object of type [t]. *)
Definition has_type (t : obj_type) (k : nat) (w : World) : Prop :=
  ∃ x, objects w !! k = Some x ∧ type x = t.

(** A label line body: the class id and four values of the unit interval,
    each written with six decimals. *)
Definition is_label (cfg : Config) (lbl : string) : Prop :=
  ∃ cx cy bw bh,
    unit_interval cx ∧ unit_interval cy ∧ unit_interval bw ∧ unit_interval bh
    ∧ lbl = Py.str_int (CLASS_ID cfg) +:+ " " +:+ Py.format_6f cx +:+ " "
              +:+ Py.format_6f cy +:+ " " +:+ Py.format_6f bw +:+ " "
              +:+ Py.format_6f bh.

(** The path lies under the directory: it starts with the directory and
    its separator. *)
Definition under (dir p : string) : bool :=
  Py.startswith p (Py.path_join dir "").

(** The files of the file system that lie under a directory. *)
Definition files_under (dir : string) (fs : gmap string File) : gset string :=
  filter (λ p, under dir p = true) (dom fs).

(** Reading a decimal numeral, leading zeros allowed. *)
Definition parse_nat (s : string) : option nat :=
  option_map Nat.of_uint (NilEmpty.uint_of_string s).

(** An accepted frame: its index, the still rendered and the label. *)
Definition Accepted : Type := (nat * File * string)%type.
Definition acc_index (a : Accepted) : nat := fst (fst a).
Definition acc_image (a : Accepted) : File := snd (fst a).
Definition acc_label (a : Accepted) : string := snd a.

(** The two writes of an accepted frame. *)
Definition write_pair (cfg : Config) (fs : gmap string File) (a : Accepted)
    : gmap string File :=
  <[label_path cfg (acc_index a) := TextFile (acc_label a +:+ Py.newline)]>
    (<[image_path cfg (acc_index a) := acc_image a]> fs).

Definition is_png (f : File) : Prop :=
  match f with
  | PngImage _ _ _ => True
  | TextFile _ => False
  end.

(** How an attempted frame ended. *)
Inductive Outcome :=
| NoMesh
| NotVisible
| Rendered (png : File) (lbl : string).

(** The accepted frames among the outcomes of consecutive attempts, the
    first of which had frame index [f]. *)
Fixpoint accepted_of (f : nat) (outs : list Outcome) : list Accepted :=
  match outs with
  | [] => []
  | Rendered png lbl :: rest => (f, png, lbl) :: accepted_of (S f) rest
  | _ :: rest => accepted_of (S f) rest
  end.

(** The lines the attempts print, from counters [(r, f)] on. *)
Fixpoint log_lines (cfg : Config) (r f : nat) (outs : list Outcome) : list string :=
  match outs with
  | [] => []
  | NoMesh :: rest => msg_no_mesh (S f) :: log_lines cfg r (S f) rest
  | NotVisible :: rest => msg_not_visible (S f) :: log_lines cfg r (S f) rest
  | Rendered _ _ :: rest => msg_rendered cfg (S r) f :: log_lines cfg (S r) (S f) rest
  end.

(** Every still is a PNG and every label is a label line body. *)
Definition well_formed (cfg : Config) (o : Outcome) : Prop :=
  match o with
  | Rendered png lbl => is_png png ∧ is_label cfg lbl
  | _ => True
  end.

(** The number of line feeds in a text. *)
Fixpoint line_feeds (s : string) : nat :=
  match s with
  | "" => 0
  | String c s' => (if Ascii.eqb c (ascii_of_nat 10) then 1 else 0) + line_feeds s'
  end.

(** The counters and the world the loop has after [k] more frames, if it
    gets that far: [None] when the target is reached or a frame raises
    before. *)
Fixpoint frame_start (cfg : Config) (env : Env) (k : nat) (cam : nat)
    (bgs : list string) (r f : nat) (w : World) : option (nat * nat * World) :=
  match k with
  | 0 => Some (r, f, w)
  | S k' =>
      if (r <? NUM_IMAGES cfg)%nat then
        match frame cfg env cam bgs r f w with
        | Ok next w' => frame_start cfg env k' cam bgs (fst next) (snd next) w'
        | Raise _ _ => None
        end
      else None
  end.

(** The part of the collection a predicate selects. *)
Definition only (p : Obj → bool) (m : gmap nat Obj) : gmap nat Obj :=
  filter (λ kx, p (snd kx) = true) m.

Definition is_light (x : Obj) : bool :=
  match type x with LIGHT => true | _ => false end.

(** The lights named Sun and the fill lights of a world. *)
Definition suns (w : World) : gmap nat Obj := only is_sun (objects w).
Definition fills (w : World) : gmap nat Obj := only is_fill (objects w).

(** The directional lights: those of kind SUN, whatever their name. *)
Definition is_directional (x : Obj) : bool :=
  match type x, data x with
  | LIGHT, LightData SUN _ => true
  | _, _ => false
  end.

(** The world [ensure_light] leaves. *)
Definition lit_world (cfg : Config) (env : Env) (w : World) : World :=
  match keys_where is_sun (without is_fill (objects w)) with
  | [] => first_lit_world cfg env w
  | _ :: _ => relit_world cfg env w
  end.

(** No model brings an object that asks for the name Sun. *)
Definition imports_leave_sun (env : Env) : Prop :=
  ∀ p m x, x ∈ gltf_import env p m → name x ≠ "Sun".

(** In the scene only lights bear the name Sun. *)
Definition sun_names_lights (m : gmap nat Obj) : Prop :=
  ∀ k x, m !! k = Some x → name x = "Sun" → type x = LIGHT.

(** A decimal digit. *)
Definition is_digit (c : ascii) : bool :=
  ((48 <=? nat_of_ascii c) && (nat_of_ascii c <=? 57))%nat.

Fixpoint drop_digits (cs : list ascii) : list ascii :=
  match cs with
  | [] => []
  | c :: cs' => if is_digit c then drop_digits cs' else cs
  end.

(** The name without a trailing dot and number: Cube.001 and Cube have the
    stem Cube. *)
Definition name_stem (nm : string) : string :=
  match drop_digits (rev (list_ascii_of_string nm)) with
  | "."%char :: rest => string_of_list_ascii (rev rest)
  | _ => nm
  end.

(** The host renames by numbering: the replacement of a taken name is its
    stem, a dot and a number of at least three digits (Sun.001). *)
Definition numbers_on_clash (env : Env) : Prop :=
  ∀ taken nm, ∃ n : nat,
    renamed env taken nm = name_stem nm +:+ "." +:+ Py.zfill 3 (Py.str_nat n).

(** The call never fails; every call succeeds. *)
Definition succeeds (env : Env) (c : HostCall) : Prop :=
  ∀ w, host_error env c w = None.
Definition reliable (env : Env) : Prop := ∀ c, succeeds env c.

(** The error is one the host answered a call with. *)
Definition host_failure (env : Env) (msg : string) : Prop :=
  ∃ c w, host_error env c w = Some msg.

(** A light as [ensure_light] creates the sun: named Sun, of kind SUN, at
    its fixed place, with an energy between 2 and 5. *)
Definition sun_in_range (x : Obj) : Prop :=
  ∃ e, x = sun_object "Sun" e ∧ (2 <= e)%Q ∧ (e <= 5)%Q.

(** A light as [ensure_light] creates the fill: a point light whose name
    holds Fill, with its energy and its position in their ranges. *)
Definition fill_in_range (cfg : Config) (x : Obj) : Prop :=
  ∃ nm e px py pz,
    x = fill_object nm e px py pz
    ∧ Py.contains nm "Fill" = true
    ∧ (LIGHT_PWR_MIN cfg <= e)%Q ∧ (e <= LIGHT_PWR_MAX cfg)%Q
    ∧ (-4 <= px)%Q ∧ (px <= 4)%Q
    ∧ (-4 <= py)%Q ∧ (py <= 4)%Q
    ∧ (1 <= pz)%Q ∧ (pz <= 4)%Q.

(** The character occurs in the text. *)
Fixpoint has_char (c : ascii) (s : string) : bool :=
  match s with
  | "" => false
  | String a s' => Ascii.eqb a c || has_char c s'
  end.

(** The history has only grown, and by events of one kind. *)
Definition adds (q : Event → bool) (w w' : World) : Prop :=
  ∃ evs, history w' = history w ++ evs ∧ Forall (λ e, q e = true) evs.

(** Loading or removing an image. *)
Definition is_image_event (e : Event) : bool :=
  match e with
  | EvLoadImage _ | EvRemoveImage _ => true
  | _ => false
  end.
Definition no_image_event (e : Event) : bool := negb (is_image_event e).

(** ** Reading a label line back *)

(** [s.split(c)] *)
Fixpoint split_on (c : ascii) (s : string) : list string :=
  match s with
  | "" => [""]
  | String a s' =>
      if Ascii.eqb a c then "" :: split_on c s'
      else match split_on c s' with
           | [] => [String a ""]
           | h :: t => String a h :: t
           end
  end.

(** A run of decimal digits as a number. *)
Definition parse_Z (s : string) : option Z :=
  option_map Z.of_uint (NilEmpty.uint_of_string s).

(** A number written with exactly six decimals and no sign. *)
Definition parse_unsigned6 (s : string) : option Q :=
  match split_on "." s with
  | [a; b] =>
      if (String.length b =? 6)%nat then
        match parse_Z a, parse_Z b with
        | Some i, Some f => Some (Qmake (i * 1000000 + f) 1000000)
        | _, _ => None
        end
      else None
  | _ => None
  end.

(** A number written with exactly six decimals, with a minus sign or
    without: -0.000000 reads as zero. *)
Definition parse_fixed6 (s : string) : option Q :=
  match s with
  | String "-" s' => option_map Qopp (parse_unsigned6 s')
  | _ => parse_unsigned6 s
  end.

(** A decimal numeral with a minus sign or without. *)
Definition parse_int (s : string) : option Z :=
  match s with
  | String "-" s' => option_map Z.opp (parse_Z s')
  | _ => parse_Z s
  end.

(** What [f'{x:.6f}'] can print for a float of the value [v]: the digits
    of [v], with a minus sign in front when the float is a negative
    zero. *)
Definition printed_6f (v : Q) (s : string) : Prop :=
  s = Py.format_6f v ∨ ((v == 0)%Q ∧ s = "-" +:+ Py.format_6f v).

Fixpoint parse_all (ss : list string) : option (list Q) :=
  match ss with
  | [] => Some []
  | s :: ss' =>
      match parse_fixed6 s, parse_all ss' with
      | Some v, Some vs => Some (v :: vs)
      | _, _ => None
      end
  end.

(** A label line body: the class id, then the numbers, separated by single
    spaces. *)
Definition parse_label (s : string) : option (Z * list Q) :=
  match split_on " " s with
  | c :: vals =>
      match parse_int c, parse_all vals with
      | Some k, Some vs => Some (k, vs)
      | _, _ => None
      end
  | [] => None
  end.

(** Two numbers differ by at most half a unit of the sixth decimal. *)
Definition close6 (d v : Q) : Prop := (Qabs (d - v) <= 1 # 2000000)%Q.

(* ===================================================================== *)
(** * A small studio to run the script in                                    *)
(* ===================================================================== *)

Module Demo.

Definition unit_scale : Vec3 := mkVec3 1 1 1.
Definition origin : Vec3 := mkVec3 0 0 0.

Definition camera_obj : Obj :=
  mkObj "Camera" CAMERA unit_scale origin origin (CameraData 50).
Definition root_obj : Obj :=
  mkObj "Root" EMPTY unit_scale origin origin NoData.
(** A can whose two corner vertices span x in 0.3..0.7 and y in 0.2..0.8. *)
Definition can_obj : Obj :=
  mkObj "Can" MESH unit_scale origin origin
    (MeshData [mkVec3 (3 # 10) (2 # 10) 1; mkVec3 (7 # 10) (8 # 10) 1]).
(** A mesh the camera never sees. *)
Definition far_obj : Obj :=
  mkObj "Far" MESH unit_scale origin origin (MeshData [mkVec3 5 5 1]).
(** A mesh of one vertex, in view. *)
Definition dot_obj : Obj :=
  mkObj "Dot" MESH unit_scale origin origin (MeshData [mkVec3 (1 # 2) (1 # 4) 1]).
(** A mesh without a single vertex. *)
Definition void_obj : Obj :=
  mkObj "Void" MESH unit_scale origin origin (MeshData []).

(** The replacement of a taken name: the stem with the first number, from
    [k] on, that gives a free name. *)
Fixpoint first_free (taken : gset string) (stem : string) (fuel k : nat) : string :=
  let candidate := stem +:+ "." +:+ Py.zfill 3 (Py.str_nat k) in
  match fuel with
  | 0 => candidate
  | S fuel' =>
      if decide (candidate ∈ taken) then first_free taken stem fuel' (S k)
      else candidate
  end.
Definition number_from_one (taken : gset string) (nm : string) : string :=
  first_free taken (name_stem nm) (size taken) 1.

(** The model files of the studio. *)
Definition models (path : string) : list Obj :=
  if String.eqb path "/m/can.glb" then [root_obj; can_obj]
  else if String.eqb path "/m/rig.glb" then [root_obj]
  else if String.eqb path "/m/far.glb" then [far_obj]
  else if String.eqb path "/m/void.glb" then [void_obj]
  else [].

(** The host: four model files, names numbered from .001, vertices taken
    from the mesh data, objects moved by their location only, a camera that
    sees the unit square as it is, a random source stuck at one half, and
    no call that fails. *)
Definition env : Env := {|
  gltf_import := λ path _, models path;
  renamed := number_from_one;
  evaluated_vertices := λ x,
    match data x with MeshData vs => vs | _ => [] end;
  matrix_world := λ x v,
    mkVec3 (vx v + vx (location x)) (vy v + vy (location x)) (vz v + vz (location x));
  world_to_camera_view := λ _ p, p;
  cos := λ _, 1%Q;
  sin := λ _, 0%Q;
  to_track_quat := λ _ _ _, (0, 0, 0, 1)%Q;
  to_euler := λ _, origin;
  random := λ _, (1 # 2)%Q;
  randbelow := λ _ _, 0%nat;
  listdir := λ _, ["a.jpg"; "B.PNG"; "notes.txt"];
  host_error := λ _ _, None
|}.

(** The same host with another importer, another choice among the entries
    of a sequence, or other answers to the calls that can fail. *)
Definition with_import (f : string → gmap nat Obj → list Obj) (e : Env) : Env := {|
  gltf_import := f;
  renamed := renamed e;
  evaluated_vertices := evaluated_vertices e;
  matrix_world := matrix_world e;
  world_to_camera_view := world_to_camera_view e;
  cos := cos e;
  sin := sin e;
  to_track_quat := to_track_quat e;
  to_euler := to_euler e;
  random := random e;
  randbelow := randbelow e;
  listdir := listdir e;
  host_error := host_error e
|}.
Definition with_randbelow (f : nat → nat → nat) (e : Env) : Env := {|
  gltf_import := gltf_import e;
  renamed := renamed e;
  evaluated_vertices := evaluated_vertices e;
  matrix_world := matrix_world e;
  world_to_camera_view := world_to_camera_view e;
  cos := cos e;
  sin := sin e;
  to_track_quat := to_track_quat e;
  to_euler := to_euler e;
  random := random e;
  randbelow := f;
  listdir := listdir e;
  host_error := host_error e
|}.
Definition with_host_error (f : HostCall → World → option string) (e : Env) : Env := {|
  gltf_import := gltf_import e;
  renamed := renamed e;
  evaluated_vertices := evaluated_vertices e;
  matrix_world := matrix_world e;
  world_to_camera_view := world_to_camera_view e;
  cos := cos e;
  sin := sin e;
  to_track_quat := to_track_quat e;
  to_euler := to_euler e;
  random := random e;
  randbelow := randbelow e;
  listdir := listdir e;
  host_error := f
|}.

(** What the host answers when a call fails. *)
Definition complaint (c : HostCall) : string :=
  match c with
  | CallListdir d => "FileNotFoundError: [Errno 2] No such file or directory: " +:+ d
  | CallMakedirs d => "PermissionError: [Errno 13] Permission denied: " +:+ d
  | CallImport p => "RuntimeError: Error: glTF import failed: " +:+ p
  | CallLoadImage p => "RuntimeError: Error: Cannot read image: " +:+ p
  | CallRender p => "RuntimeError: Error: Cannot write image: " +:+ p
  | CallOpen p => "PermissionError: [Errno 13] Permission denied: " +:+ p
  end.
(** The same host, on which the calls that [bad] selects fail. *)
Definition failing (bad : HostCall → bool) : Env :=
  with_host_error (λ c _, if bad c then Some (complaint c) else None) env.
Definition is_listdir (c : HostCall) : bool :=
  match c with CallListdir _ => true | _ => false end.
Definition is_makedirs (c : HostCall) : bool :=
  match c with CallMakedirs _ => true | _ => false end.
Definition is_import (c : HostCall) : bool :=
  match c with CallImport _ => true | _ => false end.
Definition is_load_image (c : HostCall) : bool :=
  match c with CallLoadImage _ => true | _ => false end.
Definition is_render_call (c : HostCall) : bool :=
  match c with CallRender _ => true | _ => false end.
Definition is_open (c : HostCall) : bool :=
  match c with CallOpen _ => true | _ => false end.

(** The same host with a random source that picks the entries of a sequence
    in turn: the choice at draw [k] is entry [k mod length]. *)
Definition turning : Env := with_randbelow (λ k _, k) env.

(** The same host with an importer whose every model is the can together
    with a camera of its own. *)
Definition rigged : Env :=
  with_import
    (λ _ _, [can_obj; mkObj "ModelCam" CAMERA unit_scale origin origin (CameraData 35)])
    env.

(** The same host with an importer whose every model is a can that asks
    for the name Sun, and with one whose every model is the can together
    with a sun lamp of its own, named Sun, of energy 100. *)
Definition sun_can_obj : Obj :=
  mkObj "Sun" MESH unit_scale origin origin
    (MeshData [mkVec3 (3 # 10) (2 # 10) 1; mkVec3 (7 # 10) (8 # 10) 1]).
Definition lamp_obj : Obj :=
  mkObj "Sun" LIGHT unit_scale origin origin (LightData SUN 100).
Definition sun_named : Env := with_import (λ _ _, [sun_can_obj]) env.
Definition lamp_lit : Env := with_import (λ _ _, [can_obj; lamp_obj]) env.

(** The shipped ranges with a model list and a target chosen for the run. *)
Definition cfg (models : list string) (n : nat) : Config := {|
  MODELS := models;
  BACKGROUNDS_DIR := "/bg";
  NUM_IMAGES := n;
  OUTPUT_DIR := "/out";
  IMAGE_RES := IMAGE_RES shipped_config;
  CLASS_ID := CLASS_ID shipped_config;
  CAM_RAD_MIN := CAM_RAD_MIN shipped_config; CAM_RAD_MAX := CAM_RAD_MAX shipped_config;
  CAM_ELEV_MIN := CAM_ELEV_MIN shipped_config; CAM_ELEV_MAX := CAM_ELEV_MAX shipped_config;
  FOCAL_MIN := FOCAL_MIN shipped_config; FOCAL_MAX := FOCAL_MAX shipped_config;
  SCALE_MIN := SCALE_MIN shipped_config; SCALE_MAX := SCALE_MAX shipped_config;
  POS_X_MIN := POS_X_MIN shipped_config; POS_X_MAX := POS_X_MAX shipped_config;
  POS_Y_MIN := POS_Y_MIN shipped_config; POS_Y_MAX := POS_Y_MAX shipped_config;
  LIGHT_PWR_MIN := LIGHT_PWR_MIN shipped_config; LIGHT_PWR_MAX := LIGHT_PWR_MAX shipped_config
|}.

(** Nothing at all, and a stage with only the camera (key 0). *)
Definition nothing : World := mkWorld ∅ "" None ∅ 0 [] [] None.
Definition stage : World :=
  mkWorld {[ 0%nat := camera_obj ]} "" None ∅ 0 [] [] (Some 0%nat).
(** A stage whose camera bears the name Sun. *)
Definition sun_stage : World :=
  mkWorld {[ 0%nat := mkObj "Sun" CAMERA unit_scale origin origin (CameraData 50) ]}
    "" None ∅ 0 [] [] (Some 0%nat).
(** Nothing but an image an earlier run left in the output directory. *)
Definition leftover : World :=
  mkWorld ∅ "" None {[ "/out/images/synth_00007.png" := PngImage [] None None ]} 0 [] []
    None.
(** The camera (key 0) looking at the can (key 1). *)
Definition set_up : World :=
  mkWorld {[ 0%nat := camera_obj; 1%nat := can_obj ]} "" None ∅ 0 [] [] (Some 0%nat).

(** The camera (key 0) looking at the dot (key 1). *)
Definition dot_set_up : World :=
  mkWorld {[ 0%nat := camera_obj; 1%nat := dot_obj ]} "" None ∅ 0 [] [] (Some 0%nat).

Definition backgrounds : list string := ["/bg/a.jpg"; "/bg/B.PNG"].

End Demo.

(* ===================================================================== *)
(** * The background downloader [background_generator.py]                    *)
(* ===================================================================== *)

Module BackgroundGenerator.

(** A response of the web server. *)
Record Response := mkResponse { status_code : Z; content : string }.

(** The network as the script meets it: [requests.get] raises, with the
    text of the exception, or hands back a response; [raise_for_status]
    raises for the client and server error codes, with the text the library
    words for the code and the address. *)
Record Net := mkNet {
  get : string → string + Response;
  http_error_text : Z → string → string
}.

(** Directories made, files written (binary content as text) and lines
    printed. *)
Record Disk := mkDisk {
  made : list string;
  files : gmap string string;
  stdout : list string
}.

Definition urls : list string :=
  [ "https://upload.wikimedia.org/wikipedia/commons/0/08/Kitchen_Background_1.jpg";
    "https://upload.wikimedia.org/wikipedia/commons/9/94/Kitchen_Background_2.jpg" ].

(** [os.makedirs(d, exist_ok=True)] *)
Definition makedirs (d : string) (s : Disk) : Disk :=
  mkDisk (made s ++ [d]) (files s) (stdout s).
(** [with open(path, "wb") as f: f.write(data)] *)
Definition write_bytes (path data : string) (s : Disk) : Disk :=
  mkDisk (made s) (<[path := data]> (files s)) (stdout s).
Definition print (line : string) (s : Disk) : Disk :=
  mkDisk (made s) (files s) (stdout s ++ [line]).

(** [r.raise_for_status()]: the exception text, if it raises. *)
Definition raise_for_status (net : Net) (url : string) (r : Response) : option string :=
  if ((400 <=? status_code r) && (status_code r <? 600))%Z
  then Some (http_error_text net (status_code r) url)
  else None.

(** [url.split('/')[-1]] *)
Definition last_segment (url : string) : string := List.last (split_on "/" url) "".

(** [f"backgrounds/bg_{i}.jpg"] and [f"bg_{i}.jpg"] *)
Definition bg_name (i : nat) : string := "bg_" +:+ Py.str_nat i +:+ ".jpg".
Definition bg_path (i : nat) : string := "backgrounds/" +:+ bg_name i.

Definition msg_ok (i : nat) : string := "✅ " +:+ bg_name i.
Definition msg_failed (url e : string) : string :=
  "❌ " +:+ last_segment url +:+ " — " +:+ e.

(** What the [try] block comes to for one address: the exception it ends
    with, or the body to write. *)
Definition attempt (net : Net) (url : string) : string + string :=
  match get net url with
  | inl e => inl e
  | inr r =>
      match raise_for_status net url r with
      | Some e => inl e
      | None => inr (content r)
      end
  end.

(** The body of the loop, [try] and [except] together. *)
Definition download (net : Net) (i : nat) (url : string) (s : Disk) : Disk :=
  match attempt net url with
  | inr body => print (msg_ok i) (write_bytes (bg_path i) body s)
  | inl e => print (msg_failed url e) s
  end.

(** [for i, url in enumerate(us): ...], counting from [i]. *)
Fixpoint for_enumerate (net : Net) (i : nat) (us : list string) (s : Disk) : Disk :=
  match us with
  | [] => s
  | url :: us' => for_enumerate net (S i) us' (download net i url s)
  end.

(** The script, for a list of addresses. *)
Definition run (net : Net) (us : list string) (s : Disk) : Disk :=
  for_enumerate net 0 us (makedirs "backgrounds" s).

Definition script (net : Net) (s : Disk) : Disk := run net urls s.

(** The line the loop prints for address number [i]. *)
Definition line_of (net : Net) (i : nat) (url : string) : string :=
  match attempt net url with
  | inr _ => msg_ok i
  | inl e => msg_failed url e
  end.

End BackgroundGenerator.

(* ===================================================================== *)
(** * The texture script [apply_texture.py]                                  *)
(* ===================================================================== *)

Module ApplyTexture.

Definition TEXTURE_FILE_PATH : string :=
  "/home/janga/Downloads/yerba-mate/source/Scaniverse/Scaniverse.jpg".
Definition OUTPUT_GLB_PATH : string := "/home/janga/YOLO/models/yerba_mate_FINAL.glb".

(** A shader node, a material with the nodes of its tree once
    [use_nodes] is on, and an object of the file with its material slots
    (a slot may be empty). *)
Record Node := mkNode { node_name : string; node_type : string }.
Record Material := mkMaterial { mat_name : string; tree_nodes : list Node }.
Record SceneObject := mkSceneObject {
  ob_name : string;
  ob_type : obj_type;
  material_slots : list (option Material)
}.

(** What [bpy.ops.wm.quit_blender()] does to the script that calls it: the
    call returns and the script goes on, the process ends there, or the
    call raises. *)
Inductive Quit := QuitReturns | QuitExits | QuitRaises (e : string).

(** The host: the objects of the file in the order of [bpy.data.objects],
    the behaviour of the quit operator, [os.path.exists], and the name the
    host gives a new image texture node. *)
Record Host := mkHost {
  data_objects : list SceneObject;
  quit_blender : Quit;
  path_exists : string → bool;
  new_node_name : string
}.

(** What the script does to the outside, in order. *)
Inductive Event :=
| Print (line : string)
| QuitBlender
| NodesNew (type : string)
| ImagesLoad (path : string)
| LinksNew (src dst : string)
| Makedirs (path : string)
| SelectAll (action : string)
| SelectSet (ob : string)
| ExportGltf (path : string).

(** How a run ends when it does not reach its last line. *)
Inductive Stop := Exited | Raised (e : string).

(** The script's monad: a trace, and a value or a stop. *)
Definition S (A : Type) : Type := list Event → list Event * (A + Stop).

Definition ret {A} (a : A) : S A := λ t, (t, inl a).
Definition bind {A B} (m : S A) (k : A → S B) : S B :=
  λ t, match m t with
       | (t', inl a) => k a t'
       | (t', inr e) => (t', inr e)
       end.
Definition raise {A} (e : string) : S A := λ t, (t, inr (Raised e)).
Definition emit (e : Event) : S unit := λ t, (t ++ [e], inl tt).
Definition print (line : string) : S unit := emit (Print line).

Declare Scope texture_scope.
Notation "'let*' x := m 'in' k" := (bind m (λ x, k))
  (at level 10, x pattern, m at level 99, k at level 200) : texture_scope.
Notation "m >> k" := (bind m (λ _, k))
  (at level 100, k at level 200, right associativity) : texture_scope.
Local Open Scope texture_scope.

(** [bpy.ops.wm.quit_blender()] *)
Definition quit (h : Host) : S unit :=
  emit QuitBlender >>
  match quit_blender h with
  | QuitReturns => ret tt
  | QuitExits => λ t, (t, inr Exited)
  | QuitRaises e => raise e
  end.

(** [x.attr] where [x] may be [None]. *)
Definition attr_of {A} (x : option A) (attr : string) : S A :=
  match x with
  | Some a => ret a
  | None => raise ("AttributeError: 'NoneType' object has no attribute '" +:+ attr +:+ "'")
  end.

(** The names bound in the module when line 58 is reached: the two
    imports and the variables assigned so far.  A name that is neither
    among them nor a builtin raises [NameError] when it is evaluated. *)
Definition module_names : list string :=
  [ "bpy"; "os"; "TEXTURE_FILE_PATH"; "OUTPUT_GLB_PATH"; "obj"; "mat"; "nodes"; "links";
    "principled_node"; "tex_image_node" ].
Definition builtin_names : list string := [ "print"; "next"; "None"; "True" ].
Definition name_lookup (n : string) : S unit :=
  if existsb (String.eqb n) (module_names ++ builtin_names) then ret tt
  else raise ("NameError: name '" +:+ n +:+ "' is not defined").

Definition is_mesh (o : SceneObject) : bool :=
  match ob_type o with MESH => true | _ => false end.

(** [os.path.dirname] on POSIX: the text up to the last separator, without
    trailing separators unless it consists of them. *)
Fixpoint take_str (n : nat) (s : string) : string :=
  match n, s with
  | 0, _ => ""
  | Datatypes.S k, "" => ""
  | Datatypes.S k, String a s' => String a (take_str k s')
  end.
Fixpoint rstrip_sep (s : string) : string :=
  match s with
  | "" => ""
  | String a s' =>
      match rstrip_sep s' with
      | "" => if Ascii.eqb a "/" then "" else String a ""
      | t => String a t
      end
  end.
Definition dirname (p : string) : string :=
  let head := take_str (Z.to_nat (Py.rfind p "/" + 1)) p in
  match rstrip_sep head with
  | "" => head
  | t => t
  end.

(** The script, top to bottom. *)
Definition script (h : Host) : S unit :=
  print "Starting command-line texture and export script..." >>
  let obj := List.find is_mesh (data_objects h) in
  (match obj with
   | None => print "ERROR: No mesh object found in the file. Quitting." >> quit h
   | Some _ => ret tt
   end) >>
  let* o := attr_of obj "name" in
  print ("Found object: '" +:+ ob_name o +:+ "'") >>
  (match material_slots o with
   | [] =>
       print ("ERROR: Object '" +:+ ob_name o +:+ "' has no material slots. Quitting.") >>
       quit h
   | _ :: _ => ret tt
   end) >>
  let* mat :=
    match material_slots o with
    | [] => raise "IndexError: bpy_prop_collection[index]: index 0 out of range, size 0"
    | slot :: _ => ret slot
    end in
  (match mat with
   | None =>
       print ("ERROR: No material found in the first slot of '" +:+ ob_name o
                +:+ "'. Quitting.") >>
       quit h
   | Some _ => ret tt
   end) >>
  let* m := attr_of mat "name" in
  print ("Found material: '" +:+ mat_name m +:+ "'") >>
  let nodes := tree_nodes m in
  let principled_node :=
    match List.find (λ n, String.eqb (node_name n) "Principled BSDF") nodes with
    | Some n => Some n
    | None => List.find (λ n, String.eqb (node_type n) "BSDF_PRINCIPLED") nodes
    end in
  (match principled_node with
   | None =>
       print "ERROR: Could not find the main 'Principled BSDF' shader node. Quitting." >>
       quit h
   | Some _ => ret tt
   end) >>
  emit (NodesNew "ShaderNodeTexImage") >>
  let* p := attr_of principled_node "location" in
  name_lookup "Vector" >>
  print ("Loading texture from: " +:+ TEXTURE_FILE_PATH) >>
  (if path_exists h TEXTURE_FILE_PATH then ret tt
   else
     print ("ERROR: Texture file not found at '" +:+ TEXTURE_FILE_PATH
              +:+ "'. Check the path.") >>
     quit h) >>
  (if path_exists h TEXTURE_FILE_PATH then emit (ImagesLoad TEXTURE_FILE_PATH)
   else raise ("RuntimeError: Error: Cannot read '" +:+ TEXTURE_FILE_PATH
                 +:+ "': No such file or directory")) >>
  print ("Connecting '" +:+ new_node_name h +:+ "' to '" +:+ node_name p +:+ "'...") >>
  emit (LinksNew (new_node_name h) (node_name p)) >>
  print ("Exporting packed .glb file to: " +:+ OUTPUT_GLB_PATH) >>
  emit (Makedirs (dirname OUTPUT_GLB_PATH)) >>
  emit (SelectAll "DESELECT") >>
  emit (SelectSet (ob_name o)) >>
  emit (ExportGltf OUTPUT_GLB_PATH) >>
  print (Py.newline +:+ "✅ DONE. Command-line process complete. "
           +:+ "'yerba_mate_FINAL.glb' has been created.").

(** Running the script from an empty trace. *)
Definition run (h : Host) : list Event * (unit + Stop) := script h [].

(** The calls that change something outside the material in memory. *)
Definition is_output (e : Event) : bool :=
  match e with
  | ImagesLoad _ | LinksNew _ _ | Makedirs _ | ExportGltf _ => true
  | _ => false
  end.

(** The first mesh has a material in its first slot, and the tree of that
    material holds a Principled BSDF node: the case the script is written
    for. *)
Definition ready (h : Host) : Prop :=
  ∃ o m n rest,
    List.find is_mesh (data_objects h) = Some o
    ∧ material_slots o = Some m :: rest
    ∧ match List.find (λ n, String.eqb (node_name n) "Principled BSDF") (tree_nodes m) with
      | Some n' => Some n'
      | None => List.find (λ n, String.eqb (node_type n) "BSDF_PRINCIPLED") (tree_nodes m)
      end = Some n.

End ApplyTexture.

#[local] Set Warnings "-clear-no-such-hyp".

(** Rational arithmetic stays folded under simplification. *)
Arguments Qplus : simpl never.
Arguments Qminus : simpl never.
Arguments Qmult : simpl never.
Arguments Qdiv : simpl never.
Arguments Qopp : simpl never.
Arguments Qinv : simpl never.
Arguments Py.pi : simpl never.

(* ===================================================================== *)
(** * Comparisons, extremes and the clamp                                    *)
(* ===================================================================== *)

Lemma ltb_true (a b : Q) : Py.ltb a b = true ↔ (a < b)%Q.
Proof.
  unfold Py.ltb. rewrite negb_true_iff. split.
  - intros H. apply Qnot_le_lt. intros Hle.
    apply Qle_bool_iff in Hle. congruence.
  - intros H. destruct (Qle_bool b a) eqn:E; [|reflexivity].
    apply Qle_bool_iff in E. exfalso. exact (Qlt_not_le _ _ H E).
Qed.

Lemma ltb_false (a b : Q) : Py.ltb a b = false ↔ (b <= a)%Q.
Proof.
  unfold Py.ltb. rewrite negb_false_iff. apply Qle_bool_iff.
Qed.

Lemma leb_true (a b : Q) : Py.leb a b = true ↔ (a <= b)%Q.
Proof. apply Qle_bool_iff. Qed.

Lemma min_from_spec (xs : list Q) : ∀ cur,
  (Py.min_from cur xs = cur ∨ In (Py.min_from cur xs) xs)
  ∧ (Py.min_from cur xs <= cur)%Q
  ∧ (∀ x, In x xs → Py.min_from cur xs <= x)%Q.
Proof.
  induction xs as [|x xs IH]; intros cur; simpl.
  - split; [by left|]. split; [apply Qle_refl|]. intros ? [].
  - destruct (IH (if Py.ltb x cur then x else cur)) as (Hin & Hle & Hall).
    destruct (Py.ltb x cur) eqn:E.
    + apply ltb_true in E. split; [|split].
      * destruct Hin as [->|Hin]; [right; by left | right; by right].
      * eapply Qle_trans; [exact Hle|]. by apply Qlt_le_weak.
      * intros y [<-|Hy]; [exact Hle | by apply Hall].
    + apply ltb_false in E. split; [|split].
      * destruct Hin as [->|Hin]; [by left | right; by right].
      * exact Hle.
      * intros y [<-|Hy]; [by eapply Qle_trans | by apply Hall].
Qed.

Lemma max_from_spec (xs : list Q) : ∀ cur,
  (Py.max_from cur xs = cur ∨ In (Py.max_from cur xs) xs)
  ∧ (cur <= Py.max_from cur xs)%Q
  ∧ (∀ x, In x xs → x <= Py.max_from cur xs)%Q.
Proof.
  induction xs as [|x xs IH]; intros cur; simpl.
  - split; [by left|]. split; [apply Qle_refl|]. intros ? [].
  - destruct (IH (if Py.ltb cur x then x else cur)) as (Hin & Hle & Hall).
    destruct (Py.ltb cur x) eqn:E.
    + apply ltb_true in E. split; [|split].
      * destruct Hin as [->|Hin]; [right; by left | right; by right].
      * eapply Qle_trans; [|exact Hle]. by apply Qlt_le_weak.
      * intros y [<-|Hy]; [exact Hle | by apply Hall].
    + apply ltb_false in E. split; [|split].
      * destruct Hin as [->|Hin]; [by left | right; by right].
      * exact Hle.
      * intros y [<-|Hy]; [by eapply Qle_trans | by apply Hall].
Qed.

Lemma min_seq_least (xs : list Q) :
  xs ≠ [] → ∃ m, Py.min_seq xs = Some m ∧ least m xs.
Proof.
  destruct xs as [|x xs]; [done|]. intros _. eexists. split; [reflexivity|].
  destruct (min_from_spec xs x) as (Hin & Hle & Hall). split.
  - destruct Hin as [->|Hin]; [by left | by right].
  - intros y [<-|Hy]; [exact Hle | by apply Hall].
Qed.

Lemma max_seq_greatest (xs : list Q) :
  xs ≠ [] → ∃ m, Py.max_seq xs = Some m ∧ greatest m xs.
Proof.
  destruct xs as [|x xs]; [done|]. intros _. eexists. split; [reflexivity|].
  destruct (max_from_spec xs x) as (Hin & Hle & Hall). split.
  - destruct Hin as [->|Hin]; [by left | by right].
  - intros y [<-|Hy]; [exact Hle | by apply Hall].
Qed.

Lemma clamp_range (v : Q) : (0 <= clamp v)%Q ∧ (clamp v <= 1)%Q.
Proof.
  unfold clamp, Py.min, Py.max.
  destruct (Py.ltb v 0) eqn:E0.
  - replace (Py.ltb 1 0) with false by reflexivity. split; [apply Qle_refl | done].
  - apply ltb_false in E0. destruct (Py.ltb 1 v) eqn:E1.
    + split; [done | apply Qle_refl].
    + apply ltb_false in E1. by split.
Qed.

(** Inside the unit interval the clamp hands its argument back, the very
    same value. *)
Lemma clamp_id (v : Q) : (0 <= v)%Q → (v <= 1)%Q → clamp v = v.
Proof.
  intros H0 H1. unfold clamp, Py.min, Py.max.
  apply ltb_false in H0. rewrite H0.
  apply ltb_false in H1. by rewrite H1.
Qed.

(** Below the unit interval the clamp answers 0, above it 1. *)
Lemma clamp_below (v : Q) : (v < 0)%Q → clamp v = 0%Q.
Proof.
  intros H. unfold clamp, Py.min, Py.max. apply ltb_true in H. by rewrite H.
Qed.

Lemma clamp_above (v : Q) : (1 < v)%Q → clamp v = 1%Q.
Proof.
  intros H. unfold clamp, Py.min, Py.max.
  assert (H0 : Py.ltb v 0 = false) by (apply ltb_false; lra).
  apply ltb_true in H. by rewrite H0, H.
Qed.

Lemma clamp_loop_raw_bbox (a b c d : Q) :
  clamp_loop (seq 0 (length (raw_bbox a b c d))) (raw_bbox a b c d)
  = map clamp (raw_bbox a b c d).
Proof. reflexivity. Qed.

Lemma visible_bounds (c : Vec3) :
  visible c = true →
  (0 <= vx c)%Q ∧ (vx c <= 1)%Q ∧ (0 <= vy c)%Q ∧ (vy c <= 1)%Q ∧ (0 < vz c)%Q.
Proof.
  unfold visible. rewrite !andb_true_iff, !leb_true, ltb_true. tauto.
Qed.

Lemma visible_coords_bounds (coords : list Vec3) (c : Vec3) :
  In c (visible_coords coords) →
  In c coords ∧ (0 <= vx c)%Q ∧ (vx c <= 1)%Q ∧ (0 <= vy c)%Q ∧ (vy c <= 1)%Q
  ∧ (0 < vz c)%Q.
Proof.
  unfold visible_coords. rewrite filter_In. intros [Hin Hv].
  split; [done|]. by apply visible_bounds.
Qed.

Lemma visible_coords_iff (coords : list Vec3) (c : Vec3) :
  In c (visible_coords coords)
  ↔ In c coords ∧ (0 <= vx c)%Q ∧ (vx c <= 1)%Q ∧ (0 <= vy c)%Q ∧ (vy c <= 1)%Q
    ∧ (0 < vz c)%Q.
Proof.
  unfold visible_coords, visible.
  rewrite filter_In, !andb_true_iff, !leb_true, ltb_true. tauto.
Qed.

(** The four raw values stay in the unit interval when the extremes come
    from points of the unit square. *)
Lemma raw_bbox_unit (xmin xmax ymin ymax : Q) :
  (0 <= xmin)%Q → (xmin <= xmax)%Q → (xmax <= 1)%Q →
  (0 <= ymin)%Q → (ymin <= ymax)%Q → (ymax <= 1)%Q →
  Forall (λ v, (0 <= v)%Q ∧ (v <= 1)%Q) (raw_bbox xmin xmax ymin ymax).
Proof.
  intros. unfold raw_bbox.
  assert (Hhalf : ∀ a b : Q, (0 <= a)%Q → (a <= 1)%Q → (0 <= b)%Q → (b <= 1)%Q →
            (0 <= (a + b) / 2)%Q ∧ ((a + b) / 2 <= 1)%Q).
  { intros a b ????. split.
    - apply Qle_shift_div_l; [reflexivity|]. lra.
    - apply Qle_shift_div_r; [reflexivity|]. lra. }
  destruct (Hhalf xmin xmax) as [? ?]; [lra..|].
  destruct (Hhalf ymin ymax) as [? ?]; [lra..|].
  repeat constructor; lra.
Qed.

(* ===================================================================== *)
(** * Running the monad                                                      *)
(* ===================================================================== *)

Lemma bind_ok {A B} (m : M A) (k : A → M B) w a w1 :
  m w = Ok a w1 → bind m k w = k a w1.
Proof. unfold bind. by intros ->. Qed.

Lemma bind_raise {A B} (m : M A) (k : A → M B) w e w1 :
  m w = Raise e w1 → bind m k w = Raise e w1.
Proof. unfold bind. by intros ->. Qed.

Lemma bind_ok_inv {A B} (m : M A) (k : A → M B) w b w' :
  bind m k w = Ok b w' → ∃ a w1, m w = Ok a w1 ∧ k a w1 = Ok b w'.
Proof. unfold bind. destruct (m w) as [a w1|e w1]; [eauto | done]. Qed.

Lemma bind_raise_inv {A B} (m : M A) (k : A → M B) w e w' :
  bind m k w = Raise e w' →
  m w = Raise e w' ∨ ∃ a w1, m w = Ok a w1 ∧ k a w1 = Raise e w'.
Proof.
  unfold bind. destruct (m w) as [a w1|e1 w1]; [eauto|].
  intros [= -> ->]. by left.
Qed.

Lemma world_eta (w : World) :
  mkWorld (objects w) (render_filepath w) (node_image w) (files w) (rng w)
          (stdout w) (history w) (scene_camera w) = w.
Proof. by destruct w. Qed.

(** Computes the components of worlds built by the setters. *)
Ltac wsimpl :=
  cbn [objects render_filepath node_image files rng stdout history scene_camera
       set_objects set_render_filepath set_node_image set_files set_rng
       set_stdout set_history set_scene_camera] in *.

Lemma get_obj_ok (o : nat) (x : Obj) (w : World) :
  objects w !! o = Some x → get_obj o w = Ok x w.
Proof. unfold get_obj, bind, gets, ret. by intros ->. Qed.

Lemma get_obj_missing (o : nat) (w : World) :
  objects w !! o = None → ∃ e, get_obj o w = Raise e w.
Proof. unfold get_obj, bind, gets, raise. intros ->. eauto. Qed.

Lemma map_m_project (env : Env) (xc : Obj) (ps : list Vec3) :
  is_camera xc = true → ∀ w,
  map_m (project env xc) ps w
  = Ok (map (world_to_camera_view env xc) ps)
       (set_history (history w ++ map EvProject ps) w).
Proof.
  intros Hc. induction ps as [|p ps IH]; intros w; simpl.
  - unfold ret, set_history. rewrite app_nil_r. by rewrite world_eta.
  - unfold bind at 1. unfold project at 1. rewrite Hc. unfold bind at 1. unfold emit, modify.
    unfold ret at 1. unfold bind at 1. rewrite IH. unfold ret, set_history; cbn.
    by rewrite <- app_assoc.
Qed.

(** A host call that succeeds, and one that fails. *)
Lemma host_ok (env : Env) (c : HostCall) (w : World) :
  host_error env c w = None → host env c w = Ok tt w.
Proof. unfold host. by intros ->. Qed.

Lemma host_fails (env : Env) (c : HostCall) (w : World) (msg : string) :
  host_error env c w = Some msg → host env c w = Raise msg w.
Proof. unfold host. by intros ->. Qed.

Lemma host_ok_inv (env : Env) (c : HostCall) (w : World) (u : unit) (w' : World) :
  host env c w = Ok u w' → w' = w ∧ host_error env c w = None.
Proof. unfold host. destruct (host_error env c w); [done|]. by intros [= <-]. Qed.

Lemma host_raise_inv (env : Env) (c : HostCall) (w : World) (msg : string) (w' : World) :
  host env c w = Raise msg w' → w' = w ∧ host_error env c w = Some msg.
Proof. unfold host. destruct (host_error env c w); [|done]. by intros [= <- <-]. Qed.

Lemma to_mesh_ok (env : Env) (obj : nat) (xo : Obj) (w : World) :
  has_geometry xo = true →
  to_mesh env obj xo w
  = Ok (evaluated_vertices env xo) (set_history (history w ++ [EvToMesh obj]) w).
Proof. intros H. unfold to_mesh, bind, emit, modify. by rewrite H. Qed.

Lemma mesh_has_geometry (x : Obj) : type x = MESH → has_geometry x = true.
Proof. unfold has_geometry. by intros ->. Qed.

(* ===================================================================== *)
(** * The bounding box                                                       *)
(* ===================================================================== *)

Section BoundingBox.

Context (cfg : Config) (env : Env).

(** No vertices: the answer is [None] after three host calls. *)
Lemma calc_yolo_bbox_no_vertices obj cam w xo :
  objects w !! obj = Some xo →
  has_geometry xo = true →
  evaluated_vertices env xo = [] →
  calc_yolo_bbox cfg env obj cam w
  = Ok None (set_history (history w ++ [EvDepsgraph; EvToMesh obj; EvToMeshClear obj]) w).
Proof.
  intros Hobj Hg Hv. unfold calc_yolo_bbox.
  unfold bind at 1. unfold emit at 1, modify at 1.
  erewrite bind_ok; [|apply get_obj_ok; exact Hobj].
  erewrite bind_ok; [|by apply to_mesh_ok].
  rewrite Hv. unfold bind, emit, modify, ret, set_history; cbn.
  by rewrite <- !app_assoc.
Qed.

(** Vertices but none visible: [None] again, after projecting them all. *)
Lemma calc_yolo_bbox_none_visible obj cam w xo xc :
  objects w !! obj = Some xo →
  objects w !! cam = Some xc →
  has_geometry xo = true →
  is_camera xc = true →
  evaluated_vertices env xo ≠ [] →
  visible_coords (projected_points env xo xc) = [] →
  calc_yolo_bbox cfg env obj cam w
  = Ok None (set_history (history w ++ bbox_events env obj xo) w).
Proof.
  intros Hobj Hcam Hg Hc Hv Hvis. unfold calc_yolo_bbox.
  unfold bind at 1. unfold emit at 1, modify at 1.
  erewrite bind_ok; [|apply get_obj_ok; exact Hobj].
  erewrite bind_ok; [|by apply to_mesh_ok].
  destruct (evaluated_vertices env xo) as [|v vs] eqn:Ev; [done|].
  erewrite bind_ok; [|apply get_obj_ok; exact Hcam].
  erewrite bind_ok; [|by apply map_m_project].
  unfold projected_points in Hvis. rewrite Ev in Hvis.
  unfold bind at 1. unfold emit at 1, modify at 1.
  rewrite Hvis. unfold ret, bbox_events, set_history; cbn. rewrite Ev.
  by rewrite <- !app_assoc.
Qed.

(** Something visible: the label of the clamped box. *)
Lemma calc_yolo_bbox_some_visible obj cam w xo xc :
  objects w !! obj = Some xo →
  objects w !! cam = Some xc →
  has_geometry xo = true →
  is_camera xc = true →
  visible_coords (projected_points env xo xc) ≠ [] →
  ∃ xmin xmax ymin ymax,
    Py.min_seq (map vx (visible_coords (projected_points env xo xc))) = Some xmin
    ∧ Py.max_seq (map vx (visible_coords (projected_points env xo xc))) = Some xmax
    ∧ Py.min_seq (map vy (visible_coords (projected_points env xo xc))) = Some ymin
    ∧ Py.max_seq (map vy (visible_coords (projected_points env xo xc))) = Some ymax
    ∧ calc_yolo_bbox cfg env obj cam w
      = Ok (Some (format_label cfg (map clamp (raw_bbox xmin xmax ymin ymax))))
           (set_history (history w ++ bbox_events env obj xo) w).
Proof.
  intros Hobj Hcam Hg Hc Hvis.
  set (vis := visible_coords (projected_points env xo xc)) in *.
  assert (Hxs : map vx vis ≠ []) by (destruct vis; done).
  assert (Hys : map vy vis ≠ []) by (destruct vis; done).
  destruct (min_seq_least _ Hxs) as (xmin & Exmin & _).
  destruct (max_seq_greatest _ Hxs) as (xmax & Exmax & _).
  destruct (min_seq_least _ Hys) as (ymin & Eymin & _).
  destruct (max_seq_greatest _ Hys) as (ymax & Eymax & _).
  exists xmin, xmax, ymin, ymax. do 4 (split; [done|]).
  unfold calc_yolo_bbox.
  unfold bind at 1. unfold emit at 1, modify at 1.
  erewrite bind_ok; [|apply get_obj_ok; exact Hobj].
  erewrite bind_ok; [|by apply to_mesh_ok].
  destruct (evaluated_vertices env xo) as [|v vs] eqn:Ev.
  { exfalso. apply Hvis. unfold vis, projected_points. by rewrite Ev. }
  erewrite bind_ok; [|apply get_obj_ok; exact Hcam].
  erewrite bind_ok; [|by apply map_m_project].
  unfold bind at 1. unfold emit at 1, modify at 1.
  assert (Evis : visible_coords
            (map (world_to_camera_view env xc) (map (matrix_world env xo) (v :: vs))) = vis).
  { unfold vis, projected_points. by rewrite Ev. }
  rewrite Evis. destruct vis as [|c cs] eqn:Ec; [done|]. rewrite <- Ec in *.
  rewrite Exmin, Exmax, Eymin, Eymax.
  unfold seq_extreme, bind, ret. rewrite clamp_loop_raw_bbox.
  unfold bbox_events, set_history; cbn. rewrite Ev.
  by rewrite <- !app_assoc.
Qed.

End BoundingBox.

(* ===================================================================== *)
(** * Footprints                                                             *)
(* ===================================================================== *)

Section Keeps.

Context (R : World → World → Prop) `{!PreOrder R}.

Lemma keeps_ret {A} (a : A) : keeps R (ret a).
Proof. intros w. unfold ret. reflexivity. Qed.

Lemma keeps_raise {A} (e : string) : keeps R (@raise A e).
Proof. intros w. unfold raise. reflexivity. Qed.

Lemma keeps_gets {A} (f : World → A) : keeps R (gets f).
Proof. intros w. unfold gets. reflexivity. Qed.

Lemma keeps_modify (f : World → World) : (∀ w, R w (f w)) → keeps R (modify f).
Proof. intros H w. unfold modify. apply H. Qed.

Lemma keeps_bind {A B} (m : M A) (k : A → M B) :
  keeps R m → (∀ a, keeps R (k a)) → keeps R (bind m k).
Proof.
  intros Hm Hk w. unfold bind. specialize (Hm w).
  destruct (m w) as [a w1|e w1]; [|done].
  specialize (Hk a w1). destruct (k a w1); by etrans.
Qed.

Lemma keeps_for_each {A} (xs : list A) (body : A → M unit) :
  (∀ x, keeps R (body x)) → keeps R (for_each xs body).
Proof.
  intros H. induction xs as [|x xs IH]; simpl.
  - apply keeps_ret.
  - apply keeps_bind; [apply H | by intros _].
Qed.

Lemma keeps_map_m {A B} (f : A → M B) (xs : list A) :
  (∀ x, keeps R (f x)) → keeps R (map_m f xs).
Proof.
  intros H. induction xs as [|x xs IH]; simpl.
  - apply keeps_ret.
  - apply keeps_bind; [apply H|]. intros y.
    apply keeps_bind; [apply IH|]. intros ys. apply keeps_ret.
Qed.

Lemma keeps_host (env : Env) (c : HostCall) : keeps R (host env c).
Proof. intros w. unfold host. destruct (host_error env c w); reflexivity. Qed.

Lemma keeps_ok {A} (m : M A) w a w' : keeps R m → m w = Ok a w' → R w w'.
Proof. intros H E. specialize (H w). by rewrite E in H. Qed.

Lemma keeps_raised {A} (m : M A) w e w' : keeps R m → m w = Raise e w' → R w w'.
Proof. intros H E. specialize (H w). by rewrite E in H. Qed.

End Keeps.

(** Lemmas to try before an operation is unfolded. *)
Ltac keeps_hook := fail.

(** Peels one layer off a [keeps] goal. *)
Ltac keeps_step :=
  first [ keeps_hook | keeps_layer ]
with keeps_layer :=
  lazymatch goal with
  | |- keeps _ (bind _ _) => apply keeps_bind; [try apply _ | | intros ?]
  | |- keeps _ (ret _) => apply keeps_ret; try apply _
  | |- keeps _ (raise _) => apply keeps_raise; try apply _
  | |- keeps _ (gets _) => apply keeps_gets; try apply _
  | |- keeps _ (host _ _) => apply keeps_host; try apply _
  | |- keeps _ (for_each _ _) => apply keeps_for_each; [try apply _ | intros ?]
  | |- keeps _ (map_m _ _) => apply keeps_map_m; [try apply _ | intros ?]
  | |- keeps _ (modify _) => apply keeps_modify; intros ?
  | |- keeps _ (match ?x with _ => _ end) => destruct x
  end.

(** Unfolds the operation a [keeps] goal is about, unless it is recursive. *)
Ltac op_head t :=
  lazymatch t with
  | ?f _ => op_head f
  | _ => t
  end.
Ltac keeps_unfold :=
  lazymatch goal with
  | |- keeps _ ?m =>
      let h := op_head m in
      lazymatch h with
      | @find_mesh => fail
      | @for_each => fail
      | @map_m => fail
      | @generation_loop => fail
      | _ => unfold h at 1
      end
  end.

Ltac keeps_auto := repeat first [keeps_step | keeps_unfold].

Global Instance silent_preorder : PreOrder silent.
Proof.
  split.
  - intros w. split; [done|]. exists []. by rewrite app_nil_r.
  - intros w1 w2 w3 (Hf1 & evs1 & Hh1 & Hq1) (Hf2 & evs2 & Hh2 & Hq2).
    split; [congruence|]. exists (evs1 ++ evs2).
    rewrite Hh2, Hh1, app_assoc. split; [done|]. by apply Forall_app.
Qed.

Ltac silent_prim :=
  split; [reflexivity|];
  first [ by (exists []; cbn; rewrite app_nil_r)
        | by (eexists [_]; cbn; split; [reflexivity | repeat constructor]) ].

Section Silent.

Context (cfg : Config) (env : Env).

Lemma find_mesh_keeps (R : World → World → Prop) `{!PreOrder R} (os : list nat) :
  keeps R (find_mesh os).
Proof.
  induction os as [|o os IH]; simpl.
  - by apply keeps_ret.
  - keeps_auto; try apply IH.
Qed.

Lemma import_and_select_silent : keeps silent (import_and_select cfg env).
Proof.
  keeps_auto; try silent_prim. apply find_mesh_keeps, _.
Qed.

Lemma randomise_scene_silent obj cam bgs :
  keeps silent (randomise_scene cfg env obj cam bgs).
Proof. keeps_auto; silent_prim. Qed.

Lemma calc_yolo_bbox_silent obj cam :
  keeps silent (calc_yolo_bbox cfg env obj cam).
Proof. keeps_auto; silent_prim. Qed.

End Silent.

Global Instance same_preorder {A} (f : World → A) : PreOrder (same f).
Proof. split; [by intros w | intros w1 w2 w3; unfold same; congruence]. Qed.

(* ===================================================================== *)
(** * One pass of the loop                                                   *)
(* ===================================================================== *)

Section Frame.

Context (cfg : Config) (env : Env).

Lemma calc_yolo_bbox_same_node_image obj cam :
  keeps (same node_image) (calc_yolo_bbox cfg env obj cam).
Proof. keeps_auto; reflexivity. Qed.

Lemma randomise_scene_binds_image obj cam bgs w w' :
  randomise_scene cfg env obj cam bgs w = Ok tt w' →
  ∃ bg, node_image w' = Some bg.
Proof.
  unfold randomise_scene. intros H.
  apply bind_ok_inv in H as (? & w1 & _ & H).
  apply bind_ok_inv in H as (? & w2 & _ & H).
  apply bind_ok_inv in H as (? & w3 & _ & H).
  apply bind_ok_inv in H as (bg & w4 & _ & H).
  exists bg. unfold images_load, emit, bind, modify, host in H.
  destruct (host_error env _ _); [done|]. by injection H as <-.
Qed.

Lemma makedirs_run d w :
  host_error env (CallMakedirs d) (set_history (history w ++ [EvMakedirs d]) w) = None →
  makedirs env d w = Ok tt (set_history (history w ++ [EvMakedirs d]) w).
Proof. intros H. unfold makedirs, bind, emit, modify, host. by rewrite H. Qed.

Lemma images_load_run path w :
  host_error env (CallLoadImage path) (set_history (history w ++ [EvLoadImage path]) w)
  = None →
  images_load env path w
  = Ok tt (set_node_image (Some path) (set_history (history w ++ [EvLoadImage path]) w)).
Proof. intros H. unfold images_load, bind, emit, modify, host. by rewrite H. Qed.

Lemma render_still_run w :
  host_error env (CallRender (render_filepath w))
    (set_history (history w ++ [EvRender (render_filepath w)]) w) = None →
  render_still env w
  = Ok tt (set_files
             (<[render_filepath w
                := PngImage (map_to_list (objects w)) (node_image w) (scene_camera w)]>
                (files w))
             (set_history (history w ++ [EvRender (render_filepath w)]) w)).
Proof. intros H. unfold render_still, bind, gets, emit, modify, host. by rewrite H. Qed.

Lemma write_text_run path text w :
  host_error env (CallOpen path) (set_history (history w ++ [EvWriteFile path]) w) = None →
  write_text env path text w
  = Ok tt (set_files (<[path := TextFile text]> (files w))
             (set_history (history w ++ [EvWriteFile path]) w)).
Proof. intros H. unfold write_text, bind, emit, modify, host. by rewrite H. Qed.

Lemma images_load_fails path w msg :
  host_error env (CallLoadImage path) (set_history (history w ++ [EvLoadImage path]) w)
  = Some msg →
  images_load env path w = Raise msg (set_history (history w ++ [EvLoadImage path]) w).
Proof. intros H. unfold images_load, bind, emit, modify, host. by rewrite H. Qed.

Lemma render_still_fails w msg :
  host_error env (CallRender (render_filepath w))
    (set_history (history w ++ [EvRender (render_filepath w)]) w) = Some msg →
  render_still env w
  = Raise msg (set_history (history w ++ [EvRender (render_filepath w)]) w).
Proof. intros H. unfold render_still, bind, gets, emit, modify, host. by rewrite H. Qed.

Lemma write_text_fails path text w msg :
  host_error env (CallOpen path) (set_history (history w ++ [EvWriteFile path]) w)
  = Some msg →
  write_text env path text w
  = Raise msg (set_history (history w ++ [EvWriteFile path]) w).
Proof. intros H. unfold write_text, bind, emit, modify, host. by rewrite H. Qed.

Lemma frame_no_mesh cam bgs rendered frame_num w w1 :
  import_and_select cfg env w = Ok None w1 →
  frame cfg env cam bgs rendered frame_num w
  = Ok (rendered, S frame_num) (after_no_mesh cfg (S frame_num) w1).
Proof.
  intros H. unfold frame. erewrite bind_ok; [|exact H]. reflexivity.
Qed.

Lemma frame_not_visible cam bgs rendered frame_num w w1 obj w2 w3 :
  import_and_select cfg env w = Ok (Some obj) w1 →
  randomise_scene cfg env obj cam bgs w1 = Ok tt w2 →
  calc_yolo_bbox cfg env obj cam w2 = Ok None w3 →
  ∃ bg, node_image w3 = Some bg
        ∧ frame cfg env cam bgs rendered frame_num w
          = Ok (rendered, S frame_num) (after_not_visible cfg (S frame_num) bg w3).
Proof.
  intros H1 H2 H3.
  destruct (randomise_scene_binds_image _ _ _ _ _ H2) as [bg Hbg].
  assert (Hbg3 : node_image w3 = Some bg).
  { rewrite <- Hbg. exact (keeps_ok _ _ _ _ _ (calc_yolo_bbox_same_node_image obj cam) H3). }
  exists bg. split; [done|].
  unfold frame. erewrite bind_ok; [|exact H1]. unfold frame_tail.
  erewrite bind_ok; [|exact H2]. erewrite bind_ok; [|exact H3]. cbv beta iota.
  unfold bind, print, modify, images_remove, gets, emit; cbn. rewrite Hbg3.
  reflexivity.
Qed.

(** The end of an accepted frame, from the world the box was computed in:
    the still, the label file, the release of the background. *)
Lemma frame_write_run rendered frame_num lbl bg w3 :
  node_image w3 = Some bg →
  (modify (set_render_filepath (image_path cfg frame_num)) >>
   render_still env >>
   write_text env (label_path cfg frame_num) (lbl +:+ Py.newline) >>
   images_remove >>
   print (msg_rendered cfg (S rendered) frame_num) >>
   ret (S rendered, S frame_num))%script w3
  = match host_error env (CallRender (image_path cfg frame_num))
            (rendering cfg frame_num w3) with
    | Some msg => Raise msg (rendering cfg frame_num w3)
    | None =>
        match host_error env (CallOpen (label_path cfg frame_num))
                (writing cfg frame_num w3) with
        | Some msg => Raise msg (writing cfg frame_num w3)
        | None => Ok (S rendered, S frame_num)
                     (after_accept cfg (S rendered) frame_num bg lbl w3)
        end
    end.
Proof.
  intros Hbg3. destruct w3 as [objs rf ni fs k out h sc]. cbn in Hbg3. subst ni.
  unfold bind at 1, modify at 1.
  destruct (host_error env (CallRender _) (rendering _ _ _)) as [msg|] eqn:Er.
  { erewrite bind_raise; [reflexivity|]. apply render_still_fails. exact Er. }
  erewrite bind_ok; [|apply render_still_run; exact Er].
  assert (Ew : writing cfg frame_num (mkWorld objs rf (Some bg) fs k out h sc)
               = set_history
                   (history (set_files
                      (<[image_path cfg frame_num := PngImage (map_to_list objs) (Some bg) sc]>
                         fs)
                      (rendering cfg frame_num (mkWorld objs rf (Some bg) fs k out h sc)))
                    ++ [EvWriteFile (label_path cfg frame_num)])
                   (set_files
                      (<[image_path cfg frame_num := PngImage (map_to_list objs) (Some bg) sc]>
                         fs)
                      (rendering cfg frame_num (mkWorld objs rf (Some bg) fs k out h sc)))).
  { unfold writing, rendering, set_history, set_files, set_render_filepath; cbn.
    by rewrite <- app_assoc. }
  rewrite Ew.
  destruct (host_error env (CallOpen _) _) as [msg|] eqn:Eo.
  { erewrite bind_raise; [reflexivity|]. apply write_text_fails. exact Eo. }
  erewrite bind_ok; [|apply write_text_run; exact Eo].
  unfold bind, print, modify, images_remove, gets, emit, rendering; cbn.
  unfold after_accept, bind, modify, ret; cbn.
  by rewrite <- !app_assoc.
Qed.

Lemma frame_reaches_write cam bgs rendered frame_num w w1 obj w2 lbl w3 :
  import_and_select cfg env w = Ok (Some obj) w1 →
  randomise_scene cfg env obj cam bgs w1 = Ok tt w2 →
  calc_yolo_bbox cfg env obj cam w2 = Ok (Some lbl) w3 →
  ∃ bg, node_image w3 = Some bg
        ∧ frame cfg env cam bgs rendered frame_num w
          = match host_error env (CallRender (image_path cfg frame_num))
                    (rendering cfg frame_num w3) with
            | Some msg => Raise msg (rendering cfg frame_num w3)
            | None =>
                match host_error env (CallOpen (label_path cfg frame_num))
                        (writing cfg frame_num w3) with
                | Some msg => Raise msg (writing cfg frame_num w3)
                | None => Ok (S rendered, S frame_num)
                             (after_accept cfg (S rendered) frame_num bg lbl w3)
                end
            end.
Proof.
  intros H1 H2 H3.
  destruct (randomise_scene_binds_image _ _ _ _ _ H2) as [bg Hbg].
  assert (Hbg3 : node_image w3 = Some bg).
  { rewrite <- Hbg. exact (keeps_ok _ _ _ _ _ (calc_yolo_bbox_same_node_image obj cam) H3). }
  exists bg. split; [done|].
  unfold frame. erewrite bind_ok; [|exact H1]. unfold frame_tail.
  erewrite bind_ok; [|exact H2]. erewrite bind_ok; [|exact H3]. cbv beta iota.
  by apply frame_write_run.
Qed.

Lemma frame_accept cam bgs rendered frame_num w w1 obj w2 lbl w3 :
  import_and_select cfg env w = Ok (Some obj) w1 →
  randomise_scene cfg env obj cam bgs w1 = Ok tt w2 →
  calc_yolo_bbox cfg env obj cam w2 = Ok (Some lbl) w3 →
  host_error env (CallRender (image_path cfg frame_num)) (rendering cfg frame_num w3) = None →
  host_error env (CallOpen (label_path cfg frame_num)) (writing cfg frame_num w3) = None →
  ∃ bg, node_image w3 = Some bg
        ∧ frame cfg env cam bgs rendered frame_num w
          = Ok (S rendered, S frame_num)
               (after_accept cfg (S rendered) frame_num bg lbl w3).
Proof.
  intros H1 H2 H3 Hr Ho.
  destruct (frame_reaches_write cam bgs rendered frame_num w w1 obj w2 lbl w3 H1 H2 H3)
    as (bg & Hbg & Hf).
  exists bg. split; [done|]. by rewrite Hf, Hr, Ho.
Qed.

End Frame.

(* ===================================================================== *)
(** * The object collection and the random module, step by step              *)
(* ===================================================================== *)

Section Steps.

Context (env : Env).

Lemma random_uniform_run (a b : Q) (w : World) :
  random_uniform env a b w = Ok (draw env a b (rng w)) (set_rng (S (rng w)) w).
Proof. reflexivity. Qed.

Lemma random_choice_run (seq : list string) (w : World) :
  seq ≠ [] →
  random_choice env seq w
  = Ok (pick env seq (rng w))
       (set_history (history w ++ [EvChoice (pick env seq (rng w))])
          (set_rng (S (rng w)) w)).
Proof. destruct seq; [done|]. reflexivity. Qed.

Lemma pick_in (seq : list string) (k : nat) : seq ≠ [] → In (pick env seq k) seq.
Proof.
  intros H. unfold pick. apply nth_In. apply Nat.mod_upper_bound.
  destruct seq; simpl; [done | lia].
Qed.

Lemma update_obj_run (o : nat) (f : Obj → Obj) (x : Obj) (w : World) :
  objects w !! o = Some x →
  update_obj o f w = Ok tt (set_objects (<[o := f x]> (objects w)) w).
Proof.
  intros H. unfold update_obj. erewrite bind_ok; [|by apply get_obj_ok].
  reflexivity.
Qed.

Lemma new_object_run (nm : string) (ty : obj_type) (d : obj_data) (w : World) :
  new_object env nm ty d w
  = Ok (fresh (dom (objects w)))
       (set_history (history w ++ [EvNewObject (fresh (dom (objects w)))])
          (set_objects (<[fresh (dom (objects w))
                          := mkObj (unique_name env (names (objects w)) nm) ty
                               (mkVec3 1 1 1) (mkVec3 0 0 0) (mkVec3 0 0 0) d]>
                          (objects w)) w)).
Proof. reflexivity. Qed.

Lemma add_object_run (x : Obj) (w : World) :
  add_object env x w
  = Ok (fresh (dom (objects w)))
       (set_history (history w ++ [EvNewObject (fresh (dom (objects w)))])
          (set_objects (<[fresh (dom (objects w)) := entering env (objects w) x]>
                          (objects w)) w)).
Proof. reflexivity. Qed.

(** The names in use. *)
Lemma elem_of_names (m : gmap nat Obj) (nm : string) :
  nm ∈ names m ↔ ∃ k x, m !! k = Some x ∧ name x = nm.
Proof.
  unfold names. rewrite elem_of_map_img. split.
  - intros (k & Hk). rewrite lookup_fmap in Hk.
    destruct (m !! k) as [x|] eqn:E; [|done]. injection Hk as <-. eauto.
  - intros (k & x & Hk & <-). exists k. by rewrite lookup_fmap, Hk.
Qed.

Lemma unique_name_free (taken : gset string) (nm : string) :
  nm ∉ taken → unique_name env taken nm = nm.
Proof. intros H. unfold unique_name. by rewrite decide_False. Qed.

Lemma unique_name_taken (taken : gset string) (nm : string) :
  nm ∈ taken → unique_name env taken nm = renamed env taken nm.
Proof. intros H. unfold unique_name. by rewrite decide_True. Qed.

Lemma fresh_key_free (m : gmap nat Obj) : m !! fresh (dom m) = None.
Proof. apply not_elem_of_dom. apply is_fresh. Qed.

Lemma remove_object_run (o : nat) (w : World) :
  is_Some (objects w !! o) →
  remove_object o w
  = Ok tt (set_history (history w ++ [EvRemoveObject o])
             (set_objects (delete o (objects w)) w)).
Proof.
  intros [x H]. unfold remove_object. erewrite bind_ok; [|by apply get_obj_ok].
  reflexivity.
Qed.

Lemma objects_where_run (p : Obj → bool) (w : World) :
  objects_where p w = Ok (keys_where p (objects w)) w.
Proof. reflexivity. Qed.

Lemma foldr_delete_delete (ks : list nat) (m : gmap nat Obj) (k : nat) :
  foldr delete (delete k m) ks = delete k (foldr delete m ks).
Proof.
  induction ks as [|j ks IH]; simpl; [done|].
  rewrite IH. apply delete_delete.
Qed.

(** Removing a list of distinct live keys one after the other. *)
Lemma for_each_remove_run (ks : list nat) : ∀ w,
  NoDup ks → (∀ k, k ∈ ks → is_Some (objects w !! k)) →
  for_each ks remove_object w
  = Ok tt (set_history (history w ++ map EvRemoveObject ks)
             (set_objects (foldr delete (objects w) ks) w))
.
Proof.
  induction ks as [|k ks IH]; intros w Hnd Hlive; simpl.
  - unfold ret, set_history, set_objects; cbn. rewrite app_nil_r. by rewrite world_eta.
  - apply NoDup_cons in Hnd as [Hk Hnd].
    erewrite bind_ok; [|apply remove_object_run; apply Hlive; by left].
    rewrite IH; [|done|].
    + unfold set_history, set_objects; cbn. rewrite <- app_assoc. cbn.
      do 2 f_equal. apply foldr_delete_delete.
    + intros j Hj. cbn. rewrite lookup_delete_ne; [apply Hlive; by right|].
      intros ->. done.
Qed.

Lemma keys_where_NoDup (p : Obj → bool) (m : gmap nat Obj) : NoDup (keys_where p m).
Proof.
  unfold keys_where. eapply NoDup_fmap_fst.
  - intros k x y Hx Hy. apply list_elem_of_filter in Hx as [_ Hx], Hy as [_ Hy].
    apply elem_of_map_to_list in Hx, Hy. congruence.
  - apply NoDup_filter, NoDup_map_to_list.
Qed.

Lemma elem_of_keys_where (p : Obj → bool) (m : gmap nat Obj) (k : nat) :
  k ∈ keys_where p m ↔ ∃ x, m !! k = Some x ∧ p x = true.
Proof.
  unfold keys_where. rewrite list_elem_of_fmap. split.
  - intros ([k' x] & -> & H). apply list_elem_of_filter in H as [Hp H].
    apply elem_of_map_to_list in H. eauto.
  - intros (x & Hm & Hp). exists (k, x). split; [done|].
    apply list_elem_of_filter. split; [done|]. by apply elem_of_map_to_list.
Qed.

Lemma foldr_delete_lookup (ks : list nat) (m : gmap nat Obj) (k : nat) :
  foldr delete m ks !! k = if decide (k ∈ ks) then None else m !! k.
Proof.
  induction ks as [|j ks IH]; simpl; [done|].
  destruct (decide (j = k)) as [->|Hne].
  - rewrite lookup_delete_eq. rewrite decide_True; [done | by left].
  - rewrite lookup_delete_ne by done. rewrite IH.
    destruct (decide (k ∈ ks)) as [Hin|Hin].
    + rewrite decide_True; [done | by right].
    + rewrite decide_False; [done|]. intros [->|?]%elem_of_cons; done.
Qed.

Lemma foldr_delete_keys_where (p : Obj → bool) (m : gmap nat Obj) :
  foldr delete m (keys_where p m) = without p m.
Proof.
  apply map_eq. intros k. rewrite foldr_delete_lookup. unfold without.
  destruct (decide (k ∈ keys_where p m)) as [Hin|Hin].
  - apply elem_of_keys_where in Hin as (x & Hm & Hp). symmetry.
    apply map_lookup_filter_None. right. intros y Hy. cbn.
    assert (y = x) as -> by congruence. by rewrite Hp.
  - destruct (m !! k) as [x|] eqn:Hm.
    + symmetry. apply map_lookup_filter_Some. split; [done|]. cbn.
      destruct (p x) eqn:Hp; [|done]. exfalso. apply Hin.
      apply elem_of_keys_where. eauto.
    + symmetry. apply map_lookup_filter_None. by left.
Qed.

(** Removing every object a predicate selects. *)
Lemma remove_all_run (p : Obj → bool) (w : World) :
  for_each (keys_where p (objects w)) remove_object w
  = Ok tt (set_history (history w ++ map EvRemoveObject (keys_where p (objects w)))
             (set_objects (without p (objects w)) w)).
Proof.
  rewrite for_each_remove_run.
  - by rewrite foldr_delete_keys_where.
  - apply keys_where_NoDup.
  - intros k (x & Hx & _)%elem_of_keys_where. eauto.
Qed.

Lemma remove_where_run (p : Obj → bool) (w : World) :
  bind (objects_where p) (λ ks, for_each ks remove_object) w
  = Ok tt (set_history (history w ++ map EvRemoveObject (keys_where p (objects w)))
             (set_objects (without p (objects w)) w)).
Proof.
  erewrite bind_ok; [|apply objects_where_run]. apply remove_all_run.
Qed.

Lemma without_lookup_Some (p : Obj → bool) (m : gmap nat Obj) (k : nat) (x : Obj) :
  without p m !! k = Some x ↔ m !! k = Some x ∧ p x = false.
Proof. unfold without. by rewrite map_lookup_filter_Some. Qed.

End Steps.

Section Operations.

Context (cfg : Config) (env : Env).

Lemma clean_scene_run (w : World) :
  clean_scene w
  = Ok tt (set_history
             (history w ++ map EvRemoveObject (keys_where not_camera_or_light (objects w)))
             (set_objects (without not_camera_or_light (objects w)) w)).
Proof. unfold clean_scene. apply remove_where_run. Qed.

Lemma map_m_add_object_run (xs : list Obj) : ∀ w,
  map_m (add_object env) xs w
  = Ok (fst (add_all env xs (objects w)))
       (set_history (history w ++ map EvNewObject (fst (add_all env xs (objects w))))
          (set_objects (snd (add_all env xs (objects w))) w)).
Proof.
  induction xs as [|x xs IH]; intros w; simpl.
  - unfold ret, set_history, set_objects; cbn. rewrite app_nil_r. by rewrite world_eta.
  - erewrite bind_ok; [|apply add_object_run].
    erewrite bind_ok; [|apply IH]. unfold ret, set_history, set_objects; cbn.
    by rewrite <- app_assoc.
Qed.

(** What adding objects does to the collection: each object enters under
    a key that was free, changed in nothing but, possibly, its name. *)
Lemma add_all_spec (xs : list Obj) : ∀ m,
  Forall2 (λ o x, ∃ nm, snd (add_all env xs m) !! o = Some (with_name nm x))
          (fst (add_all env xs m)) xs
  ∧ (∀ k, k ∈ fst (add_all env xs m) → m !! k = None)
  ∧ (∀ k, k ∉ fst (add_all env xs m) → snd (add_all env xs m) !! k = m !! k)
  ∧ NoDup (fst (add_all env xs m)).
Proof.
  induction xs as [|x xs IH]; intros m; simpl.
  - split; [constructor|]. split; [by intros k ?%elem_of_nil|].
    split; [done | constructor].
  - destruct (IH (<[fresh (dom m) := entering env m x]> m)) as (Hall & Hfresh & Hold & Hnd).
    assert (Hnew : fresh (dom m)
                   ∉ fst (add_all env xs (<[fresh (dom m) := entering env m x]> m))).
    { intros Hin. apply Hfresh in Hin. by rewrite lookup_insert_eq in Hin. }
    split; [|split; [|split]].
    + constructor; [|done]. eexists. rewrite Hold by done. apply lookup_insert_eq.
    + intros k [->|Hk]%elem_of_cons; [apply fresh_key_free|].
      apply Hfresh in Hk. apply lookup_insert_None in Hk. tauto.
    + intros k Hk. apply not_elem_of_cons in Hk as [Hne Hk].
      rewrite Hold by done. by apply lookup_insert_ne.
    + by constructor.
Qed.

Lemma find_mesh_run (os : list nat) (w : World) :
  (∀ o, o ∈ os → is_Some (objects w !! o)) →
  find_mesh os w = Ok (first_mesh (objects w) os) w.
Proof.
  induction os as [|o os IH]; intros Hlive; simpl; [done|].
  destruct (Hlive o) as [x Hx]; [by left|].
  erewrite bind_ok; [|by apply get_obj_ok]. rewrite Hx.
  destruct (type x); try done; apply IH; intros; apply Hlive; by right.
Qed.

Lemma first_mesh_Some (m : gmap nat Obj) (os : list nat) (o : nat) :
  first_mesh m os = Some o → o ∈ os ∧ ∃ x, m !! o = Some x ∧ type x = MESH.
Proof.
  induction os as [|k os IH]; simpl; [done|].
  destruct (m !! k) as [x|] eqn:Hk; [|done].
  destruct (type x) eqn:Ht;
    try (intros H; destruct (IH H) as [? ?]; split; [by right | done]).
  intros [= <-]. split; [by left | eauto].
Qed.

Lemma first_mesh_None (m : gmap nat Obj) (os : list nat) :
  (∀ o, o ∈ os → is_Some (m !! o)) →
  first_mesh m os = None ↔ ∀ o x, o ∈ os → m !! o = Some x → type x ≠ MESH.
Proof.
  induction os as [|k os IH]; intros Hlive; simpl.
  - split; [by intros _ o x ?%elem_of_nil | done].
  - destruct (Hlive k) as [x Hx]; [by left|]. rewrite Hx.
    assert (Hrest : ∀ o, o ∈ os → is_Some (m !! o)) by (intros; apply Hlive; by right).
    specialize (IH Hrest).
    destruct (type x) eqn:Ht;
      try (rewrite IH; split;
           [ intros H o y [->|Ho]%elem_of_cons Hy;
               [assert (y = x) as -> by congruence; congruence | by eapply H]
           | intros H o y Ho; apply H; by right ]).
    split; [done|]. intros H. exfalso. eapply (H k x); [by left | done | done].
Qed.

Lemma randomise_object_run (obj : nat) (x : Obj) (w : World) :
  objects w !! obj = Some x →
  randomise_object cfg env obj w
  = Ok tt (set_rng (rng w + 4)
             (set_objects (<[obj := randomised_object cfg env (rng w) x]> (objects w)) w)).
Proof.
  intros Hx. destruct w as [objs rf ni fs k out h sc]. wsimpl.
  unfold randomise_object.
  erewrite bind_ok; [|apply random_uniform_run]. wsimpl.
  erewrite bind_ok; [|by eapply update_obj_run]. wsimpl.
  erewrite bind_ok; [|apply random_uniform_run]. wsimpl.
  erewrite bind_ok; [|eapply update_obj_run; apply lookup_insert_eq]. wsimpl.
  erewrite bind_ok; [|apply random_uniform_run]. wsimpl.
  erewrite bind_ok; [|apply random_uniform_run]. wsimpl.
  erewrite update_obj_run; [|apply lookup_insert_eq]. wsimpl.
  rewrite !insert_insert_eq.
  unfold randomised_object.
  replace (k + 4)%nat with (S (S (S (S k)))) by lia.
  replace (k + 1)%nat with (S k) by lia.
  replace (k + 2)%nat with (S (S k)) by lia.
  replace (k + 3)%nat with (S (S (S k))) by lia.
  reflexivity.
Qed.
Lemma randomise_camera_run (cam : nat) (x : Obj) (w : World) :
  objects w !! cam = Some x →
  randomise_camera cfg env cam w
  = Ok tt (set_rng (rng w + 6)
             (set_objects (<[cam := randomised_camera cfg env (rng w) x]> (objects w)) w)).
Proof.
  intros Hx. destruct w as [objs rf ni fs k out h sc]. wsimpl.
  unfold randomise_camera.
  erewrite bind_ok; [|apply random_uniform_run]. wsimpl.
  erewrite bind_ok; [|by eapply update_obj_run]. wsimpl.
  erewrite bind_ok; [|apply random_uniform_run]. wsimpl.
  erewrite bind_ok; [|apply random_uniform_run]. wsimpl.
  erewrite bind_ok; [|apply random_uniform_run]. wsimpl.
  erewrite bind_ok; [|eapply update_obj_run; apply lookup_insert_eq]. wsimpl.
  erewrite bind_ok; [|apply random_uniform_run]. wsimpl.
  erewrite bind_ok; [|apply random_uniform_run]. wsimpl.
  erewrite bind_ok; [|apply get_obj_ok; apply lookup_insert_eq]. wsimpl.
  erewrite update_obj_run; [|apply lookup_insert_eq]. wsimpl.
  rewrite !insert_insert_eq.
  unfold randomised_camera, camera_direction, camera_target, camera_position.
  replace (k + 6)%nat with (S (S (S (S (S (S k)))))) by lia.
  replace (k + 1)%nat with (S k) by lia.
  replace (k + 2)%nat with (S (S k)) by lia.
  replace (k + 3)%nat with (S (S (S k))) by lia.
  replace (k + 4)%nat with (S (S (S (S k)))) by lia.
  replace (k + 5)%nat with (S (S (S (S (S k))))) by lia.
  destruct x as [nm ty sl ro lo d]. destruct d; reflexivity.
Qed.
End Operations.

Section Head.

Context (cfg : Config) (env : Env).

Lemma import_model_run (p : string) (w : World) :
  supported p = true →
  host_error env (CallImport p) (set_history (history w ++ [EvImport p]) w) = None →
  import_model env p w
  = Ok (fst (add_all env (gltf_import env p (objects w)) (objects w)))
       (set_history
          (history w ++ [EvImport p]
             ++ map EvNewObject (fst (add_all env (gltf_import env p (objects w)) (objects w))))
          (set_objects (snd (add_all env (gltf_import env p (objects w)) (objects w))) w)).
Proof.
  intros Hs Hh. unfold import_model. unfold supported in Hs. rewrite Hs.
  unfold bind at 1. unfold emit at 1, modify at 1.
  erewrite bind_ok; [|by apply host_ok].
  unfold bind at 1, gets at 1.
  rewrite map_m_add_object_run. unfold set_history, set_objects; cbn.
  by rewrite <- app_assoc.
Qed.

Lemma import_model_fails (p : string) (w : World) (msg : string) :
  supported p = true →
  host_error env (CallImport p) (set_history (history w ++ [EvImport p]) w) = Some msg →
  import_model env p w = Raise msg (set_history (history w ++ [EvImport p]) w).
Proof.
  intros Hs Hh. unfold import_model. unfold supported in Hs. rewrite Hs.
  unfold bind at 1. unfold emit at 1, modify at 1.
  erewrite bind_raise; [reflexivity|]. by apply host_fails.
Qed.

Lemma import_model_unsupported (p : string) (w : World) :
  supported p = false →
  import_model env p w = Raise ("Unsupported model format: " +:+ p) w.
Proof.
  intros Hs. unfold import_model. unfold supported in Hs. by rewrite Hs.
Qed.

(** The world in which the importer is called. *)
Lemma import_and_select_reaches (w : World) :
  MODELS cfg ≠ [] →
  import_and_select cfg env w
  = bind (import_model env (pick env (MODELS cfg) (rng w))) find_mesh
      (set_history
         (history w ++ map EvRemoveObject (keys_where not_camera_or_light (objects w))
            ++ [EvChoice (pick env (MODELS cfg) (rng w))])
         (set_rng (S (rng w))
            (set_objects (reset_objects (objects w)) w))).
Proof.
  intros Hm. unfold import_and_select.
  erewrite bind_ok; [|apply clean_scene_run].
  unfold select_model.
  erewrite bind_ok; [|by apply random_choice_run].
  cbn [rng history objects set_history set_rng set_objects].
  unfold reset_objects, set_history, set_rng, set_objects; cbn.
  by rewrite <- app_assoc.
Qed.

Lemma imported_alive (w : World) (o : nat) :
  o ∈ fst (add_all env (imported cfg env w) (reset_objects (objects w))) →
  is_Some (objects (imported_world cfg env w) !! o).
Proof.
  intros Ho. cbn.
  destruct (add_all_spec env (imported cfg env w) (reset_objects (objects w))) as (Hall & _).
  apply list_elem_of_lookup in Ho as [i Hi].
  destruct (Forall2_lookup_l _ _ _ _ _ Hall Hi) as (x & _ & nm & Hx). eauto.
Qed.

(** The head of a frame, when the chosen model has a supported extension
    and the importer does not fail. *)
Lemma import_and_select_run (w : World) :
  MODELS cfg ≠ [] →
  supported (pick env (MODELS cfg) (rng w)) = true →
  host_error env (CallImport (pick env (MODELS cfg) (rng w))) (importing cfg env w) = None →
  import_and_select cfg env w
  = Ok (first_mesh (objects (imported_world cfg env w))
          (fst (add_all env (imported cfg env w) (reset_objects (objects w)))))
       (imported_world cfg env w).
Proof.
  intros Hm Hs Hh. rewrite import_and_select_reaches by done.
  erewrite bind_ok; [|apply import_model_run; [done|]].
  2:{ unfold importing in Hh. unfold set_history, set_rng, set_objects; cbn.
      by rewrite <- !app_assoc in *. }
  cbn [set_objects set_history set_rng objects history rng].
  rewrite find_mesh_run.
  - f_equal. unfold imported_world, imported, set_history, set_objects, set_rng; cbn.
    f_equal. rewrite <- !app_assoc. reflexivity.
  - intros o Ho. by apply imported_alive.
Qed.

(** The importer fails: the frame raises with the host's error. *)
Lemma import_and_select_fails (w : World) (msg : string) :
  MODELS cfg ≠ [] →
  supported (pick env (MODELS cfg) (rng w)) = true →
  host_error env (CallImport (pick env (MODELS cfg) (rng w))) (importing cfg env w)
  = Some msg →
  import_and_select cfg env w = Raise msg (importing cfg env w).
Proof.
  intros Hm Hs Hh. rewrite import_and_select_reaches by done.
  erewrite bind_raise; [|apply (import_model_fails _ _ msg); [done|]].
  2:{ unfold importing in Hh. unfold set_history, set_rng, set_objects; cbn.
      by rewrite <- !app_assoc in *. }
  unfold importing, set_history, set_rng, set_objects; cbn.
  by rewrite <- !app_assoc.
Qed.

(** The chosen model has an unsupported extension: the frame raises. *)
Lemma import_and_select_unsupported (w : World) :
  MODELS cfg ≠ [] →
  supported (pick env (MODELS cfg) (rng w)) = false →
  ∃ w', import_and_select cfg env w
        = Raise ("Unsupported model format: " +:+ pick env (MODELS cfg) (rng w)) w'
        ∧ history w' = history w
            ++ map EvRemoveObject (keys_where not_camera_or_light (objects w))
            ++ [EvChoice (pick env (MODELS cfg) (rng w))].
Proof.
  intros Hm Hs. unfold import_and_select.
  erewrite bind_ok; [|apply clean_scene_run].
  unfold select_model.
  erewrite bind_ok; [|by apply random_choice_run].
  cbn [rng set_history set_rng set_objects].
  erewrite bind_raise; [|by apply import_model_unsupported].
  eexists. split; [reflexivity|]. cbn. by rewrite <- app_assoc.
Qed.

(** No MESH among the imported objects: the search finds nothing. *)
Lemma first_mesh_imported_None (xs : list Obj) (m : gmap nat Obj) :
  Forall (λ x, type x ≠ MESH) xs →
  first_mesh (snd (add_all env xs m)) (fst (add_all env xs m)) = None.
Proof.
  intros Hno. destruct (add_all_spec env xs m) as (Hall & _).
  apply first_mesh_None.
  - intros o Ho. apply list_elem_of_lookup in Ho as [i Hi].
    destruct (Forall2_lookup_l _ _ _ _ _ Hall Hi) as (x & _ & nm & Hx). eauto.
  - intros o x Ho Hx. apply list_elem_of_lookup in Ho as [i Hi].
    destruct (Forall2_lookup_l _ _ _ _ _ Hall Hi) as (y & Hy & nm & Hoy).
    assert (x = with_name nm y) as -> by congruence. cbn.
    rewrite Forall_forall in Hno. apply Hno.
    apply list_elem_of_lookup. eauto.
Qed.

End Head.

Lemma bind_ext {A B} (m : M A) (k1 k2 : A → M B) (w : World) :
  (∀ a w', m w = Ok a w' → k1 a w' = k2 a w') → bind m k1 w = bind m k2 w.
Proof. intros H. unfold bind. destruct (m w) as [a w'|e w']; [by apply H | done]. Qed.

Lemma seq_extreme_ok (r : option Q) (w : World) (v : Q) (w' : World) :
  seq_extreme r w = Ok v w' → r = Some v ∧ w' = w.
Proof. destruct r; unfold seq_extreme, ret, raise; [by intros [= -> ->] | done]. Qed.

(** The extremes of the visible points and the box they give lie in the
    unit interval. *)
Lemma visible_extremes (vis : list Vec3) (xmin xmax ymin ymax : Q) :
  (∀ c, In c vis → visible c = true) →
  least xmin (map vx vis) → greatest xmax (map vx vis) →
  least ymin (map vy vis) → greatest ymax (map vy vis) →
  Forall unit_interval (raw_bbox xmin xmax ymin ymax).
Proof.
  intros Hvis [Hxmin Hxle] [Hxmax Hxge] [Hymin Hyle] [Hymax Hyge].
  assert (Hx : ∀ v, In v (map vx vis) → (0 <= v)%Q ∧ (v <= 1)%Q).
  { intros v (c & <- & Hc)%in_map_iff. apply Hvis, visible_bounds in Hc. tauto. }
  assert (Hy : ∀ v, In v (map vy vis) → (0 <= v)%Q ∧ (v <= 1)%Q).
  { intros v (c & <- & Hc)%in_map_iff. apply Hvis, visible_bounds in Hc. tauto. }
  apply raw_bbox_unit.
  - by apply Hx. - by apply Hxle. - by apply Hx.
  - by apply Hy. - by apply Hyle. - by apply Hy.
Qed.

Lemma map_clamp_unit (vs : list Q) : Forall unit_interval vs → map clamp vs = vs.
Proof.
  induction 1 as [|v vs [H0 H1] _ IH]; simpl; [done|].
  by rewrite clamp_id, IH.
Qed.

Lemma visible_coords_all (coords : list Vec3) (c : Vec3) :
  In c (visible_coords coords) → visible c = true.
Proof. unfold visible_coords. rewrite filter_In. tauto. Qed.

Lemma min_seq_Some_least (xs : list Q) (m : Q) : Py.min_seq xs = Some m → least m xs.
Proof.
  intros H. assert (Hne : xs ≠ []) by (destruct xs; done).
  destruct (min_seq_least xs Hne) as (m' & E & L). congruence.
Qed.

Lemma max_seq_Some_greatest (xs : list Q) (m : Q) :
  Py.max_seq xs = Some m → greatest m xs.
Proof.
  intros H. assert (Hne : xs ≠ []) by (destruct xs; done).
  destruct (max_seq_greatest xs Hne) as (m' & E & L). congruence.
Qed.

Lemma msg_not_visible_ne_no_mesh (m n : nat) : msg_not_visible m ≠ msg_no_mesh n.
Proof. unfold msg_not_visible, msg_no_mesh. discriminate. Qed.

(** The worlds a discarded frame leaves are silent extensions. *)
Lemma after_no_mesh_silent cfg n w : silent w (after_no_mesh cfg n w).
Proof. unfold after_no_mesh. destruct w. silent_prim. Qed.

Lemma after_not_visible_silent cfg n bg w : silent w (after_not_visible cfg n bg w).
Proof. unfold after_not_visible. destruct w. silent_prim. Qed.

(* ===================================================================== *)
(** * Uniform draws                                                          *)
(* ===================================================================== *)

(** [a + (b - a) * u] with [u] in [0, 1) lies in [a, b], and below [b] when
    the interval is not a point. *)
Lemma uniform_of_range (a b u : Q) :
  (a <= b)%Q → (0 <= u)%Q → (u < 1)%Q →
  (a <= Py.uniform_of a b u)%Q ∧ (Py.uniform_of a b u <= b)%Q
  ∧ ((a < b)%Q → (Py.uniform_of a b u < b)%Q).
Proof.
  intros Hab H0 H1. unfold Py.uniform_of.
  assert (Hd : (0 <= b - a)%Q) by lra.
  assert (Hp : (0 * (b - a) <= u * (b - a))%Q) by (apply Qmult_le_compat_r; lra).
  assert (Hq : (u * (b - a) <= 1 * (b - a))%Q) by (apply Qmult_le_compat_r; lra).
  split; [lra|]. split; [lra|].
  intros Hlt.
  assert (Hs : (u * (b - a) < 1 * (b - a))%Q) by (apply Qmult_lt_compat_r; lra).
  lra.
Qed.

Lemma two_pi_pos : (0 < 2 * Py.pi)%Q.
Proof. reflexivity. Qed.

Lemma half_range (a b v : Q) :
  (a <= v)%Q → (v <= b)%Q → (a / 2 <= v / 2)%Q ∧ (v / 2 <= b / 2)%Q.
Proof.
  intros H1 H2. unfold Qdiv. split; apply Qmult_le_compat_r; try done.
Qed.

(* ===================================================================== *)
(** * Geometry does not pile up                                              *)
(* ===================================================================== *)

Global Instance no_new_geometry_preorder : PreOrder no_new_geometry.
Proof.
  split.
  - intros w k x Hk Hg. eauto.
  - intros w1 w2 w3 H12 H23 k x3 Hk Hg.
    destruct (H23 k x3 Hk Hg) as (x2 & Hk2 & Hg2). eauto.
Qed.

Lemma update_obj_no_new_geometry (o : nat) (f : Obj → Obj) :
  (∀ x, type (f x) = type x) → keeps no_new_geometry (update_obj o f).
Proof.
  intros Hty w. unfold update_obj, get_obj, bind, gets, ret, raise, modify.
  destruct w as [objs rf ni fs k out h sc]. wsimpl.
  destruct (objs !! o) as [x|] eqn:Ho; [|reflexivity].
  intros j y. wsimpl. destruct (decide (o = j)) as [<-|Hne].
  - rewrite lookup_insert_eq. intros [= <-] Hg. exists x. split; [done|].
    unfold not_camera_or_light in *. by rewrite Hty in Hg.
  - rewrite lookup_insert_ne by done. eauto.
Qed.

Lemma remove_object_no_new_geometry (o : nat) :
  keeps no_new_geometry (remove_object o).
Proof.
  intros w. unfold remove_object, get_obj, emit, bind, gets, ret, raise, modify.
  destruct w as [objs rf ni fs k out h sc]. wsimpl.
  destruct (objs !! o) as [x|] eqn:Ho; [|reflexivity].
  intros j y. wsimpl. intros [_ Hj]%lookup_delete_Some Hg. eauto.
Qed.

Lemma new_light_no_new_geometry (env : Env) (nm : string) (d : obj_data) :
  keeps no_new_geometry (new_object env nm LIGHT d).
Proof.
  intros w. rewrite new_object_run.
  destruct w as [objs rf ni fs k out h sc]. wsimpl.
  intros j y. wsimpl. destruct (decide (fresh (dom objs) = j)) as [<-|Hne].
  - rewrite lookup_insert_eq. by intros [= <-].
  - rewrite lookup_insert_ne by done. eauto.
Qed.

Ltac geometry_hook :=
  lazymatch goal with
  | |- keeps no_new_geometry (update_obj _ _) =>
      apply update_obj_no_new_geometry; intros [? ? ? ? ? []]; reflexivity
  | |- keeps no_new_geometry (remove_object _) => apply remove_object_no_new_geometry
  | |- keeps no_new_geometry (new_object _ _ LIGHT _) => apply new_light_no_new_geometry
  end.

Ltac same_objects_prim :=
  let k := fresh in let x := fresh in
  intros k x; wsimpl; eauto.

Section Geometry.

Context (cfg : Config) (env : Env).

Ltac keeps_hook ::= geometry_hook.

Lemma frame_tail_no_new_geometry cam bgs rendered frame_num obj :
  keeps no_new_geometry (frame_tail cfg env cam bgs rendered frame_num obj).
Proof.
  keeps_auto; same_objects_prim.
Qed.

Ltac keeps_hook ::= fail.

Lemma reset_objects_no_geometry (m : gmap nat Obj) (k : nat) (x : Obj) :
  reset_objects m !! k = Some x → not_camera_or_light x = false.
Proof. unfold reset_objects. rewrite without_lookup_Some. tauto. Qed.

Lemma geometry_keys_bound (m : gmap nat Obj) (os : list nat) :
  (∀ k x, m !! k = Some x → not_camera_or_light x = true → k ∈ os) →
  (length (geometry_keys m) ≤ length os)%nat.
Proof.
  intros H. apply submseteq_length, NoDup_submseteq; [apply keys_where_NoDup|].
  intros k (x & Hk & Hg)%elem_of_keys_where. eauto.
Qed.

Lemma add_all_length (xs : list Obj) : ∀ m, length (fst (add_all env xs m)) = length xs.
Proof. induction xs as [|x xs IH]; intros m; simpl; [done | by rewrite IH]. Qed.

(** Whatever the head of a frame does, the geometry it leaves came with the
    import of this frame. *)
Lemma import_and_select_geometry (w : World) :
  ∀ k x, objects (world_of (import_and_select cfg env w)) !! k = Some x →
         not_camera_or_light x = true →
         k ∈ fst (add_all env (imported cfg env w) (reset_objects (objects w))).
Proof.
  intros k x.
  destruct (MODELS cfg) as [|m ms] eqn:Hm.
  { unfold import_and_select. erewrite bind_ok; [|apply clean_scene_run].
    unfold select_model, random_choice. rewrite Hm. unfold bind, raise.
    cbn [world_of]. wsimpl. intros Hk Hg.
    apply reset_objects_no_geometry in Hk. congruence. }
  assert (Hne : MODELS cfg ≠ []) by (rewrite Hm; done). clear Hm.
  destruct (supported (pick env (MODELS cfg) (rng w))) eqn:Hs.
  - destruct (host_error env (CallImport (pick env (MODELS cfg) (rng w)))
                (importing cfg env w)) as [msg|] eqn:Eh.
    { rewrite (import_and_select_fails cfg env w msg) by done. cbn [world_of].
      unfold importing. cbn [objects]. intros Hk Hg.
      apply reset_objects_no_geometry in Hk. congruence. }
    rewrite import_and_select_run by done. cbn [world_of].
    unfold imported_world. cbn [objects]. intros Hk Hg.
    destruct (add_all_spec env (imported cfg env w) (reset_objects (objects w)))
      as (_ & _ & Hold & _).
    destruct (decide (k ∈ fst (add_all env (imported cfg env w)
                                  (reset_objects (objects w))))) as [|Hnot]; [done|].
    rewrite Hold in Hk by done. apply reset_objects_no_geometry in Hk. congruence.
  - unfold import_and_select. erewrite bind_ok; [|apply clean_scene_run].
    unfold select_model. erewrite bind_ok; [|by apply random_choice_run]. wsimpl.
    erewrite bind_raise; [|by apply import_model_unsupported].
    cbn [world_of]. wsimpl. intros Hk Hg.
    apply reset_objects_no_geometry in Hk. congruence.
Qed.

(** At the end of a frame, however it ends, the scene holds no more
    geometry than the import of this frame created. *)
Lemma frame_geometry_bound cam bgs rendered frame_num (w : World) :
  (length (geometry_keys (objects (world_of (frame cfg env cam bgs rendered frame_num w))))
   ≤ length (imported cfg env w))%nat.
Proof.
  rewrite <- (add_all_length _ (reset_objects (objects w))).
  apply geometry_keys_bound. intros k x.
  pose proof (import_and_select_geometry w) as Hhead.
  unfold frame, bind.
  destruct (import_and_select cfg env w) as [obj w1|e w1]; cbn [world_of] in *; [|apply Hhead].
  pose proof (frame_tail_no_new_geometry cam bgs rendered frame_num obj w1) as Htail.
  destruct (frame_tail cfg env cam bgs rendered frame_num obj w1) as [r w2|e w2];
    cbn [world_of]; intros Hk Hg;
    destruct (Htail k x Hk Hg) as (y & Hy & Hgy); eauto.
Qed.

End Geometry.

(* ===================================================================== *)
(** * Lighting                                                               *)
(* ===================================================================== *)

Section Lighting.

Context (cfg : Config) (env : Env).

(** The second half of [ensure_light]: the fresh fill light. *)
Lemma new_fill_run (w : World) :
  (let* fill := new_object env "Fill" LIGHT (LightData POINT 10) in
   let* e := random_uniform env (LIGHT_PWR_MIN cfg) (LIGHT_PWR_MAX cfg) in
   update_obj fill (with_energy e) >>
   let* x := random_uniform env (-4) 4 in
   let* y := random_uniform env (-4) 4 in
   let* z := random_uniform env 1 4 in
   update_obj fill (with_location (mkVec3 x y z)))%script w
  = Ok tt (mkWorld (<[fresh (dom (objects w))
                      := drawn_fill cfg env (unique_name env (names (objects w)) "Fill")
                           (rng w)]> (objects w))
             (render_filepath w) (node_image w) (files w) (rng w + 4) (stdout w)
             (history w ++ [EvNewObject (fresh (dom (objects w)))])
             (scene_camera w)).
Proof.
  destruct w as [objs rf ni fs k out h sc]. wsimpl.
  erewrite bind_ok; [|apply new_object_run]. wsimpl.
  erewrite bind_ok; [|apply random_uniform_run]. wsimpl.
  erewrite bind_ok; [|eapply update_obj_run; apply lookup_insert_eq]. wsimpl.
  erewrite bind_ok; [|apply random_uniform_run]. wsimpl.
  erewrite bind_ok; [|apply random_uniform_run]. wsimpl.
  erewrite bind_ok; [|apply random_uniform_run]. wsimpl.
  erewrite update_obj_run; [|apply lookup_insert_eq]. wsimpl.
  rewrite !insert_insert_eq. unfold drawn_fill, fill_object.
  replace (k + 4)%nat with (S (S (S (S k)))) by lia.
  replace (k + 1)%nat with (S k) by lia.
  replace (k + 2)%nat with (S (S k)) by lia.
  replace (k + 3)%nat with (S (S (S k))) by lia.
  reflexivity.
Qed.

Lemma new_sun_run (w : World) :
  (let* e := random_uniform env 2 5 in
   let* sun := new_object env "Sun" LIGHT (LightData SUN e) in
   update_obj sun (with_location (mkVec3 5 (-5) 5)) >>
   update_obj sun (with_rotation_euler (mkVec3 (7 # 10) (2 # 10) (- (7 # 10)))))%script w
  = Ok tt (mkWorld (<[fresh (dom (objects w))
                      := sun_object (unique_name env (names (objects w)) "Sun")
                           (draw env 2 5 (rng w))]> (objects w))
             (render_filepath w) (node_image w) (files w) (S (rng w)) (stdout w)
             (history w ++ [EvNewObject (fresh (dom (objects w)))])
             (scene_camera w)).
Proof.
  destruct w as [objs rf ni fs k out h sc]. wsimpl.
  erewrite bind_ok; [|apply random_uniform_run]. wsimpl.
  erewrite bind_ok; [|apply new_object_run]. wsimpl.
  erewrite bind_ok; [|eapply update_obj_run; apply lookup_insert_eq]. wsimpl.
  erewrite update_obj_run; [|apply lookup_insert_eq]. wsimpl.
  rewrite !insert_insert_eq. reflexivity.
Qed.

Lemma ensure_light_relit (w : World) :
  keys_where is_sun (without is_fill (objects w)) ≠ [] →
  ensure_light cfg env w = Ok tt (relit_world cfg env w).
Proof.
  intros Hsun. unfold ensure_light.
  erewrite bind_ok; [|apply objects_where_run].
  erewrite bind_ok; [|apply remove_all_run].
  erewrite bind_ok; [|apply objects_where_run]. wsimpl.
  destruct (keys_where is_sun (without is_fill (objects w))) as [|s ss]; [done|].
  erewrite bind_ok; [|reflexivity].
  rewrite new_fill_run. destruct w as [objs rf ni fs k out h sc]. wsimpl.
  unfold relit_world. wsimpl. by rewrite <- app_assoc.
Qed.

Lemma ensure_light_first (w : World) :
  keys_where is_sun (without is_fill (objects w)) = [] →
  ensure_light cfg env w = Ok tt (first_lit_world cfg env w).
Proof.
  intros Hsun. unfold ensure_light.
  erewrite bind_ok; [|apply objects_where_run].
  erewrite bind_ok; [|apply remove_all_run].
  erewrite bind_ok; [|apply objects_where_run]. wsimpl.
  rewrite Hsun.
  erewrite bind_ok; [|apply new_sun_run]. wsimpl.
  rewrite new_fill_run. destruct w as [objs rf ni fs k out h sc]. wsimpl.
  unfold first_lit_world. wsimpl. rewrite <- !app_assoc.
  replace (k + 5)%nat with (S k + 4)%nat by lia.
  replace (k + 1)%nat with (S k) by lia. reflexivity.
Qed.

(** [ensure_light] always succeeds. *)
Lemma ensure_light_ok (w : World) :
  ensure_light cfg env w = Ok tt (relit_world cfg env w)
  ∨ ensure_light cfg env w = Ok tt (first_lit_world cfg env w).
Proof.
  destruct (keys_where is_sun (without is_fill (objects w))) as [|s ss] eqn:E.
  - right. by apply ensure_light_first.
  - left. apply ensure_light_relit. by rewrite E.
Qed.

End Lighting.

(* ===================================================================== *)
(** * What a frame can do                                                    *)
(* ===================================================================== *)

Section FrameCases.

Context (cfg : Config) (env : Env).

(** Whatever [calc_yolo_bbox] returns as a label is one. *)
Lemma calc_yolo_bbox_is_label obj cam w lbl w' :
  calc_yolo_bbox cfg env obj cam w = Ok (Some lbl) w' → is_label cfg lbl.
Proof.
  unfold calc_yolo_bbox. intros H.
  apply bind_ok_inv in H as ([] & w1 & _ & H).
  apply bind_ok_inv in H as (xo & w2 & _ & H).
  apply bind_ok_inv in H as ([|v vs] & w3 & _ & H).
  { apply bind_ok_inv in H as ([] & w4 & _ & H). by unfold ret in H. }
  apply bind_ok_inv in H as (xc & w4 & _ & H).
  apply bind_ok_inv in H as (coords & w5 & _ & H).
  apply bind_ok_inv in H as ([] & w6 & _ & H).
  destruct (visible_coords coords) as [|c cs]; [by unfold ret in H|].
  apply bind_ok_inv in H as (xmin & w7 & _ & H).
  apply bind_ok_inv in H as (xmax & w8 & _ & H).
  apply bind_ok_inv in H as (ymin & w9 & _ & H).
  apply bind_ok_inv in H as (ymax & w10 & _ & H).
  unfold ret in H. cbv zeta in H. injection H as <- _.
  unfold format_label. cbn [lookup list_lookup default].
  eexists _, _, _, _. repeat split; try apply clamp_range.
Qed.

(** The three ways a frame can end well. *)
Lemma frame_inv cam bgs rendered frame_num w r' f' w' :
  frame cfg env cam bgs rendered frame_num w = Ok (r', f') w' →
  (∃ w1, import_and_select cfg env w = Ok None w1
         ∧ r' = rendered ∧ f' = S frame_num
         ∧ w' = after_no_mesh cfg (S frame_num) w1)
  ∨ (∃ obj w1 w2 w3 bg,
       import_and_select cfg env w = Ok (Some obj) w1
       ∧ randomise_scene cfg env obj cam bgs w1 = Ok tt w2
       ∧ calc_yolo_bbox cfg env obj cam w2 = Ok None w3
       ∧ r' = rendered ∧ f' = S frame_num
       ∧ w' = after_not_visible cfg (S frame_num) bg w3)
  ∨ (∃ obj w1 w2 w3 bg lbl,
       import_and_select cfg env w = Ok (Some obj) w1
       ∧ randomise_scene cfg env obj cam bgs w1 = Ok tt w2
       ∧ calc_yolo_bbox cfg env obj cam w2 = Ok (Some lbl) w3
       ∧ r' = S rendered ∧ f' = S frame_num
       ∧ w' = after_accept cfg (S rendered) frame_num bg lbl w3).
Proof.
  intros H. pose proof H as H0. unfold frame in H0.
  apply bind_ok_inv in H0 as (obj & w1 & H1 & Ht).
  destruct obj as [obj|].
  - unfold frame_tail in Ht.
    apply bind_ok_inv in Ht as ([] & w2 & H2 & Ht).
    apply bind_ok_inv in Ht as (bbox & w3 & H3 & _).
    destruct bbox as [lbl|].
    + destruct (frame_reaches_write cfg env cam bgs rendered frame_num w w1 obj w2 lbl w3
                  H1 H2 H3) as (bg & _ & Hf).
      rewrite Hf in H.
      destruct (host_error env (CallRender _) _); [done|].
      destruct (host_error env (CallOpen _) _); [done|].
      injection H as <- <- <-.
      right. right. exists obj, w1, w2, w3, bg, lbl. done.
    + destruct (frame_not_visible cfg env cam bgs rendered frame_num w w1 obj w2 w3 H1 H2 H3)
        as (bg & _ & Hf).
      rewrite Hf in H. injection H as <- <- <-.
      right. left. exists obj, w1, w2, w3, bg. done.
  - rewrite (frame_no_mesh cfg env cam bgs rendered frame_num w w1 H1) in H.
    injection H as <- <- <-. left. exists w1. done.
Qed.

End FrameCases.

(* ===================================================================== *)
(** * Strings and paths                                                      *)
(* ===================================================================== *)

Lemma str_app_cons (x : ascii) (a b : string) : String x a +:+ b = String x (a +:+ b).
Proof. reflexivity. Qed.

Lemma str_app_nil_l (b : string) : "" +:+ b = b.
Proof. reflexivity. Qed.

Lemma str_app_assoc (a b c : string) : (a +:+ b) +:+ c = a +:+ (b +:+ c).
Proof. induction a as [|x a IH]; [done|]. rewrite !str_app_cons. by rewrite IH. Qed.

Lemma str_app_nil_r (a : string) : a +:+ "" = a.
Proof. induction a as [|x a IH]; [done|]. rewrite str_app_cons. by rewrite IH. Qed.

Lemma str_length_app (a b : string) :
  String.length (a +:+ b) = (String.length a + String.length b)%nat.
Proof.
  induction a as [|x a IH]; [done|]. rewrite str_app_cons.
  cbn [String.length]. by rewrite IH.
Qed.

Lemma str_app_inj_r (t a b : string) : a +:+ t = b +:+ t → a = b.
Proof.
  revert b. induction a as [|x a IH]; intros [|y b] H;
    rewrite ?str_app_cons, ?str_app_nil_l in H.
  - done.
  - apply (f_equal String.length) in H. cbn [String.length] in H.
    rewrite str_length_app in H. lia.
  - apply (f_equal String.length) in H. cbn [String.length] in H.
    rewrite str_length_app in H. lia.
  - injection H as -> H. f_equal. by apply IH.
Qed.

Lemma startswith_app (p s : string) : Py.startswith (p +:+ s) p = true.
Proof.
  induction p as [|x p IH]; [by destruct s|].
  rewrite str_app_cons. cbn [Py.startswith]. by rewrite Ascii.eqb_refl.
Qed.

Lemma startswith_app_both (p a b : string) :
  Py.startswith (p +:+ a) (p +:+ b) = Py.startswith a b.
Proof.
  induction p as [|x p IH]; [done|].
  rewrite !str_app_cons. cbn [Py.startswith]. by rewrite Ascii.eqb_refl.
Qed.

Lemma startswith_nil (s : string) : Py.startswith s "" = true.
Proof. by destruct s. Qed.

(** A path that ends in a letter does not end in a separator. *)
Lemma endswith_sep_after (a : string) (c : ascii) (t : string) :
  Py.endswith (String c t) "/" = false →
  Py.endswith (a +:+ String c t) "/" = false.
Proof.
  intros H. induction a as [|x a IH]; [done|].
  rewrite str_app_cons. cbn [Py.endswith]. rewrite IH.
  destruct (String.eqb (String x (a +:+ String c t)) "/") eqn:E; [|done].
  apply String.eqb_eq in E. injection E as _ E. by destruct a.
Qed.

(** Joining a relative name: the directory with its separator, then the name. *)
Lemma path_join_relative (a b : string) :
  Py.startswith b "/" = false →
  Py.path_join a b = Py.path_join a "" +:+ b.
Proof.
  intros Hb. unfold Py.path_join. rewrite Hb. cbn [Py.startswith].
  destruct (String.eqb a "" || Py.endswith a "/").
  - by rewrite str_app_nil_r.
  - rewrite str_app_assoc. reflexivity.
Qed.

Section Paths.

Context (cfg : Config).

(** The directory of the output with its separator. *)
Let out := Py.path_join (OUTPUT_DIR cfg) "".

Lemma img_dir_eq : img_dir cfg = out +:+ "images".
Proof. unfold img_dir, out. by apply path_join_relative. Qed.

Lemma lbl_dir_eq : lbl_dir cfg = out +:+ "labels".
Proof. unfold lbl_dir, out. by apply path_join_relative. Qed.

Lemma img_prefix_eq : Py.path_join (img_dir cfg) "" = out +:+ "images/".
Proof.
  rewrite img_dir_eq. unfold Py.path_join at 1. cbn [Py.startswith].
  rewrite (endswith_sep_after out "i" "mages") by reflexivity.
  replace (String.eqb (out +:+ "images") "") with false by (by destruct out).
  cbn [orb]. by rewrite str_app_nil_r, str_app_assoc.
Qed.

Lemma lbl_prefix_eq : Py.path_join (lbl_dir cfg) "" = out +:+ "labels/".
Proof.
  rewrite lbl_dir_eq. unfold Py.path_join at 1. cbn [Py.startswith].
  rewrite (endswith_sep_after out "l" "abels") by reflexivity.
  replace (String.eqb (out +:+ "labels") "") with false by (by destruct out).
  cbn [orb]. by rewrite str_app_nil_r, str_app_assoc.
Qed.

Lemma image_path_eq (i : nat) :
  image_path cfg i = out +:+ "images/synth_" +:+ Py.format_05d i +:+ ".png".
Proof.
  unfold image_path, base_filename. rewrite path_join_relative by reflexivity.
  rewrite img_prefix_eq. rewrite !str_app_assoc. reflexivity.
Qed.

Lemma label_path_eq (i : nat) :
  label_path cfg i = out +:+ "labels/synth_" +:+ Py.format_05d i +:+ ".txt".
Proof.
  unfold label_path, base_filename. rewrite path_join_relative by reflexivity.
  rewrite lbl_prefix_eq. rewrite !str_app_assoc. reflexivity.
Qed.

Lemma parse_zeros (k : nat) (s : string) :
  parse_nat (Py.repeat_char "0" k +:+ s) = parse_nat s.
Proof.
  induction k as [|k IH]; [done|]. unfold parse_nat in *.
  cbn [Py.repeat_char]. rewrite str_app_cons. cbn [NilEmpty.uint_of_string].
  destruct (NilEmpty.uint_of_string (Py.repeat_char "0" k +:+ s)) as [d|];
    destruct (NilEmpty.uint_of_string s) as [d'|];
    first [done | cbn in *; by injection IH as <-].
Qed.

Lemma parse_format_05d (i : nat) : parse_nat (Py.format_05d i) = Some i.
Proof.
  unfold Py.format_05d, Py.zfill. rewrite parse_zeros.
  unfold Py.str_nat, parse_nat, NilZero.string_of_uint.
  destruct (Nat.to_uint i) as [| | | | | | | | | |] eqn:E;
    try (rewrite <- E at 1; rewrite NilEmpty.usu; cbn [option_map];
         by rewrite DecimalNat.Unsigned.of_to).
  apply (f_equal Nat.of_uint) in E. rewrite DecimalNat.Unsigned.of_to in E.
  by subst.
Qed.

Lemma format_05d_inj (i j : nat) : Py.format_05d i = Py.format_05d j → i = j.
Proof.
  intros H. apply (f_equal parse_nat) in H. rewrite !parse_format_05d in H.
  by injection H.
Qed.

Lemma image_path_inj (i j : nat) : image_path cfg i = image_path cfg j → i = j.
Proof.
  rewrite !image_path_eq. intros H. apply String.app_inj in H.
  apply (String.app_inj "images/synth_") in H.
  by apply str_app_inj_r, format_05d_inj in H.
Qed.

Lemma label_path_inj (i j : nat) : label_path cfg i = label_path cfg j → i = j.
Proof.
  rewrite !label_path_eq. intros H. apply String.app_inj in H.
  apply (String.app_inj "labels/synth_") in H.
  by apply str_app_inj_r, format_05d_inj in H.
Qed.

Lemma image_path_ne_label_path (i j : nat) : image_path cfg i ≠ label_path cfg j.
Proof.
  rewrite image_path_eq, label_path_eq. intros H. apply String.app_inj in H.
  discriminate.
Qed.

Lemma image_path_under (i : nat) :
  under (img_dir cfg) (image_path cfg i) = true
  ∧ under (lbl_dir cfg) (image_path cfg i) = false.
Proof.
  unfold under. rewrite image_path_eq, img_prefix_eq, lbl_prefix_eq. split.
  - change (out +:+ "images/synth_" +:+ Py.format_05d i +:+ ".png")
      with (out +:+ "images/" +:+ ("synth_" +:+ Py.format_05d i +:+ ".png")).
    rewrite <- str_app_assoc. apply startswith_app.
  - by rewrite startswith_app_both.
Qed.

Lemma label_path_under (i : nat) :
  under (lbl_dir cfg) (label_path cfg i) = true
  ∧ under (img_dir cfg) (label_path cfg i) = false.
Proof.
  unfold under. rewrite label_path_eq, img_prefix_eq, lbl_prefix_eq. split.
  - change (out +:+ "labels/synth_" +:+ Py.format_05d i +:+ ".txt")
      with (out +:+ "labels/" +:+ ("synth_" +:+ Py.format_05d i +:+ ".txt")).
    rewrite <- str_app_assoc. apply startswith_app.
  - by rewrite startswith_app_both.
Qed.

End Paths.

(* ===================================================================== *)
(** * The outcomes of a run                                                  *)
(* ===================================================================== *)

Section Outcomes.

Context (cfg : Config) (env : Env).

Lemma import_and_select_same_stdout : keeps (same stdout) (import_and_select cfg env).
Proof. keeps_auto; try reflexivity. apply find_mesh_keeps, _. Qed.

Lemma randomise_scene_same_stdout obj cam bgs :
  keeps (same stdout) (randomise_scene cfg env obj cam bgs).
Proof. keeps_auto; reflexivity. Qed.

Lemma calc_yolo_bbox_same_stdout obj cam :
  keeps (same stdout) (calc_yolo_bbox cfg env obj cam).
Proof. keeps_auto; reflexivity. Qed.

Lemma main_setup_same_files : keeps (same files) (main_setup cfg env).
Proof. keeps_auto; reflexivity. Qed.

Lemma main_setup_same_stdout : keeps (same stdout) (main_setup cfg env).
Proof. keeps_auto; reflexivity. Qed.

(** One frame, one outcome. *)
Lemma frame_outcome cam bgs r f w r' f' w' :
  frame cfg env cam bgs r f w = Ok (r', f') w' →
  ∃ o, well_formed cfg o
       ∧ f' = S f
       ∧ r' = (r + length (accepted_of f [o]))%nat
       ∧ files w' = foldl (write_pair cfg) (files w) (accepted_of f [o])
       ∧ stdout w' = stdout w ++ log_lines cfg r f [o].
Proof.
  intros H. apply frame_inv in H
    as [(w1 & H1 & -> & -> & ->)
       |[(obj & w1 & w2 & w3 & bg & H1 & H2 & H3 & -> & -> & ->)
        |(obj & w1 & w2 & w3 & bg & lbl & H1 & H2 & H3 & -> & -> & ->)]].
  - exists NoMesh. split; [done|]. split; [done|]. split; [cbn; lia|].
    pose proof (keeps_ok _ _ _ _ _ (import_and_select_silent cfg env) H1) as [Hf _].
    pose proof (keeps_ok _ _ _ _ _ import_and_select_same_stdout H1) as Hs.
    unfold same in Hs. unfold after_no_mesh. destruct w1. wsimpl.
    cbn [foldl accepted_of log_lines]. by rewrite Hf, Hs.
  - exists NotVisible. split; [done|]. split; [done|]. split; [cbn; lia|].
    pose proof (keeps_ok _ _ _ _ _ (import_and_select_silent cfg env) H1) as [Hf1 _].
    pose proof (keeps_ok _ _ _ _ _ (randomise_scene_silent cfg env obj cam bgs) H2) as [Hf2 _].
    pose proof (keeps_ok _ _ _ _ _ (calc_yolo_bbox_silent cfg env obj cam) H3) as [Hf3 _].
    pose proof (keeps_ok _ _ _ _ _ import_and_select_same_stdout H1) as Hs1.
    pose proof (keeps_ok _ _ _ _ _ (randomise_scene_same_stdout obj cam bgs) H2) as Hs2.
    pose proof (keeps_ok _ _ _ _ _ (calc_yolo_bbox_same_stdout obj cam) H3) as Hs3.
    unfold same in *. unfold after_not_visible. destruct w3. wsimpl.
    cbn [foldl accepted_of log_lines]. split; congruence.
  - exists (Rendered (PngImage (map_to_list (objects w3)) (Some bg) (scene_camera w3)) lbl).
    split; [split; [done | by eapply calc_yolo_bbox_is_label]|].
    split; [done|]. split; [cbn; lia|].
    pose proof (keeps_ok _ _ _ _ _ (import_and_select_silent cfg env) H1) as [Hf1 _].
    pose proof (keeps_ok _ _ _ _ _ (randomise_scene_silent cfg env obj cam bgs) H2) as [Hf2 _].
    pose proof (keeps_ok _ _ _ _ _ (calc_yolo_bbox_silent cfg env obj cam) H3) as [Hf3 _].
    pose proof (keeps_ok _ _ _ _ _ import_and_select_same_stdout H1) as Hs1.
    pose proof (keeps_ok _ _ _ _ _ (randomise_scene_same_stdout obj cam bgs) H2) as Hs2.
    pose proof (keeps_ok _ _ _ _ _ (calc_yolo_bbox_same_stdout obj cam) H3) as Hs3.
    unfold same in *. unfold after_accept. wsimpl.
    cbn [foldl accepted_of log_lines]. unfold write_pair, acc_index, acc_image, acc_label.
    cbn [fst snd]. split; congruence.
Qed.

Lemma accepted_of_cons (f : nat) (o : Outcome) (outs : list Outcome) :
  accepted_of f (o :: outs) = accepted_of f [o] ++ accepted_of (S f) outs.
Proof. by destruct o. Qed.

Lemma log_lines_cons (r f : nat) (o : Outcome) (outs : list Outcome) :
  log_lines cfg r f (o :: outs)
  = log_lines cfg r f [o]
      ++ log_lines cfg (r + length (accepted_of f [o])) (S f) outs.
Proof.
  destruct o; cbn [log_lines accepted_of length app];
    rewrite ?Nat.add_0_r, ?Nat.add_1_r; reflexivity.
Qed.

(** The loop, when it ends, is summed up by the outcomes of its attempts. *)
Lemma generation_loop_outcomes cam bgs (fuel : nat) : ∀ r f w r' f' w',
  generation_loop cfg env fuel cam bgs r f w = Ok (Some (r', f')) w' →
  ∃ outs,
    Forall (well_formed cfg) outs
    ∧ f' = (f + length outs)%nat
    ∧ r' = (r + length (accepted_of f outs))%nat
    ∧ files w' = foldl (write_pair cfg) (files w) (accepted_of f outs)
    ∧ stdout w' = stdout w ++ log_lines cfg r f outs
    ∧ (NUM_IMAGES cfg ≤ r')%nat
    ∧ ((r ≤ NUM_IMAGES cfg)%nat → (r' ≤ NUM_IMAGES cfg)%nat).
Proof.
  induction fuel as [|fuel IH]; intros r f w r' f' w' H; cbn [generation_loop] in H.
  - destruct (r <? NUM_IMAGES cfg)%nat eqn:E; [done|].
    apply Nat.ltb_ge in E. unfold ret in H. injection H as <- <- <-.
    exists []. cbn. rewrite !Nat.add_0_r, app_nil_r. repeat split; try done.
  - destruct (r <? NUM_IMAGES cfg)%nat eqn:E.
    + apply Nat.ltb_lt in E.
      apply bind_ok_inv in H as ([r1 f1] & w1 & Hframe & Hrest). cbn [fst snd] in Hrest.
      apply frame_outcome in Hframe as (o & Ho & -> & -> & Hf1 & Hs1).
      apply IH in Hrest as (outs & Houts & -> & -> & Hf & Hs & Hge & Hle).
      exists (o :: outs). split; [by constructor|].
      split; [cbn; lia|].
      rewrite (accepted_of_cons f o outs), (log_lines_cons r f o outs), length_app, foldl_app.
      split; [lia|]. split; [by rewrite Hf, Hf1|].
      split; [by rewrite Hs, Hs1, <- app_assoc|].
      split; [done|]. intros _. apply Hle. destruct o; cbn; lia.
    + apply Nat.ltb_ge in E. unfold ret in H. injection H as <- <- <-.
      exists []. cbn. rewrite !Nat.add_0_r, app_nil_r. repeat split; try done.
Qed.

(** A completed run, summed up. *)
Lemma main_outcomes (fuel : nat) (w w' : World) :
  main cfg env fuel w = Ok (Some tt) w' →
  ∃ outs,
    Forall (well_formed cfg) outs
    ∧ length (accepted_of 0 outs) = NUM_IMAGES cfg
    ∧ files w' = foldl (write_pair cfg) (files w) (accepted_of 0 outs)
    ∧ stdout w' = stdout w ++ log_lines cfg 0 0 outs ++ [msg_done cfg].
Proof.
  unfold main. intros H.
  apply bind_ok_inv in H as (cam & w0 & Hsetup & H).
  apply bind_ok_inv in H as (final & w1 & Hloop & H).
  destruct final as [[r' f']|]; [|by unfold ret in H].
  apply bind_ok_inv in H as ([] & w2 & Hprint & H).
  unfold ret in H. injection H as <-.
  unfold print, modify in Hprint. injection Hprint as <-.
  apply generation_loop_outcomes in Hloop as (outs & Houts & _ & Hr & Hf & Hs & Hge & Hle).
  pose proof (keeps_ok _ _ _ _ _ main_setup_same_files Hsetup) as Hf0.
  pose proof (keeps_ok _ _ _ _ _ main_setup_same_stdout Hsetup) as Hs0.
  unfold same in *. exists outs. split; [done|].
  split; [specialize (Hle (Nat.le_0_l _)); lia|]. wsimpl.
  split; [congruence|]. rewrite Hs, Hs0. by rewrite <- app_assoc.
Qed.

End Outcomes.

(* ===================================================================== *)
(** * The files a run leaves                                                 *)
(* ===================================================================== *)

Lemma line_feeds_app (a b : string) :
  line_feeds (a +:+ b) = (line_feeds a + line_feeds b)%nat.
Proof.
  induction a as [|c a IH]; [done|]. rewrite str_app_cons.
  cbn [line_feeds]. rewrite IH. lia.
Qed.

Lemma line_feeds_uint (d : Decimal.uint) : line_feeds (NilEmpty.string_of_uint d) = 0%nat.
Proof. induction d; cbn [NilEmpty.string_of_uint line_feeds]; try done; by rewrite IHd. Qed.

Lemma line_feeds_str_int (z : Z) : line_feeds (Py.str_int z) = 0%nat.
Proof.
  unfold Py.str_int, NilZero.string_of_int, NilZero.string_of_uint.
  destruct (Z.to_int z) as [d|d]; destruct d;
    try reflexivity; try apply line_feeds_uint;
    cbn [line_feeds]; try apply line_feeds_uint;
    try (change (String "-" ?s) with ("-" +:+ s); apply line_feeds_uint).
Qed.

Lemma line_feeds_repeat_zero (k : nat) : line_feeds (Py.repeat_char "0" k) = 0%nat.
Proof. induction k as [|k IH]; [done|]. cbn [Py.repeat_char line_feeds]. by rewrite IH. Qed.

Lemma line_feeds_format_6f (v : Q) : line_feeds (Py.format_6f v) = 0%nat.
Proof.
  unfold Py.format_6f, Py.zfill.
  rewrite !line_feeds_app, !line_feeds_str_int, line_feeds_repeat_zero.
  by destruct (Py.ltb v 0).
Qed.

(** A label followed by a line feed is a single line. *)
Lemma label_single_line (cfg : Config) (lbl : string) :
  is_label cfg lbl → line_feeds (lbl +:+ Py.newline) = 1%nat.
Proof.
  intros (cx & cy & bw & bh & _ & _ & _ & _ & ->).
  rewrite !line_feeds_app, !line_feeds_format_6f, line_feeds_str_int. reflexivity.
Qed.

Section Written.

Context (cfg : Config).

Lemma accepted_of_indices (outs : list Outcome) : ∀ f,
  Forall (λ a, (f ≤ acc_index a)%nat ∧ (acc_index a < f + length outs)%nat)
         (accepted_of f outs)
  ∧ StronglySorted lt (acc_index <$> accepted_of f outs).
Proof.
  induction outs as [|o outs IH]; intros f; cbn [accepted_of length].
  - split; constructor.
  - destruct (IH (S f)) as [Hall Hsorted].
    assert (Hall' : Forall (λ a, (f ≤ acc_index a)%nat
                               ∧ (acc_index a < f + S (length outs))%nat)
                      (accepted_of (S f) outs)).
    { eapply Forall_impl; [exact Hall|]. intros a [? ?]. split; lia. }
    destruct o; try (split; assumption).
    split.
    + constructor; [|done]. unfold acc_index. cbn. lia.
    + cbn [fmap list_fmap]. constructor; [done|].
      apply Forall_fmap. eapply Forall_impl; [exact Hall|].
      intros a [? ?]. unfold acc_index at 1. cbn. lia.
Qed.

Lemma accepted_of_well_formed (outs : list Outcome) : ∀ f,
  Forall (well_formed cfg) outs →
  Forall (λ a, is_png (acc_image a) ∧ is_label cfg (acc_label a)) (accepted_of f outs).
Proof.
  induction outs as [|o outs IH]; intros f Hwf; cbn [accepted_of]; [constructor|].
  apply Forall_cons in Hwf as [Ho Hwf].
  destruct o; try by apply IH. constructor; [exact Ho | by apply IH].
Qed.

Lemma sorted_indices_NoDup (acc : list Accepted) :
  StronglySorted lt (acc_index <$> acc) → NoDup (acc_index <$> acc).
Proof.
  induction (acc_index <$> acc) as [|i l IH]; intros H; [constructor|].
  apply StronglySorted_inv in H as [Hs Hall]. constructor; [|by apply IH].
  intros Hin. rewrite Forall_forall in Hall. specialize (Hall i Hin). lia.
Qed.

Lemma write_pair_other (fs : gmap string File) (a : Accepted) (p : string) :
  p ≠ image_path cfg (acc_index a) → p ≠ label_path cfg (acc_index a) →
  write_pair cfg fs a !! p = fs !! p.
Proof. intros H1 H2. unfold write_pair. by rewrite !lookup_insert_ne. Qed.

Lemma foldl_write_other (acc : list Accepted) (p : string) : ∀ fs,
  Forall (λ a, p ≠ image_path cfg (acc_index a) ∧ p ≠ label_path cfg (acc_index a)) acc →
  foldl (write_pair cfg) fs acc !! p = fs !! p.
Proof.
  induction acc as [|a acc IH]; intros fs H; cbn [foldl]; [done|].
  apply Forall_cons in H as [[H1 H2] H]. rewrite IH by done.
  by apply write_pair_other.
Qed.

Lemma foldl_write_lookup (acc : list Accepted) : ∀ fs a,
  NoDup (acc_index <$> acc) → a ∈ acc →
  foldl (write_pair cfg) fs acc !! image_path cfg (acc_index a) = Some (acc_image a)
  ∧ foldl (write_pair cfg) fs acc !! label_path cfg (acc_index a)
    = Some (TextFile (acc_label a +:+ Py.newline)).
Proof.
  induction acc as [|b acc IH]; intros fs a Hnd Hin; [by apply elem_of_nil in Hin|].
  cbn [fmap list_fmap] in Hnd. apply NoDup_cons in Hnd as [Hb Hnd].
  cbn [foldl]. apply elem_of_cons in Hin as [->|Hin]; [|by apply IH].
  assert (Hothers : Forall (λ c, acc_index c ≠ acc_index b) acc).
  { apply Forall_forall. intros c Hc Heq. apply Hb. rewrite <- Heq.
    apply list_elem_of_fmap. eauto. }
  split.
  - rewrite foldl_write_other.
    + unfold write_pair. rewrite lookup_insert_ne, lookup_insert_eq; [done|].
      intros H. symmetry in H. exact (image_path_ne_label_path _ _ _ H).
    + eapply Forall_impl; [exact Hothers|]. intros c Hc. split.
      * intros H. apply image_path_inj in H. congruence.
      * apply image_path_ne_label_path.
  - rewrite foldl_write_other.
    + unfold write_pair. by rewrite lookup_insert_eq.
    + eapply Forall_impl; [exact Hothers|]. intros c Hc. split.
      * intros H. symmetry in H. exact (image_path_ne_label_path _ _ _ H).
      * intros H. apply label_path_inj in H. congruence.
Qed.

Lemma dom_foldl_write (acc : list Accepted) : ∀ fs : gmap string File,
  dom (foldl (write_pair cfg) fs acc)
  = dom fs ∪ list_to_set (image_path cfg ∘ acc_index <$> acc)
           ∪ list_to_set (label_path cfg ∘ acc_index <$> acc).
Proof.
  induction acc as [|a acc IH]; intros fs; cbn [foldl fmap list_fmap list_to_set].
  - set_solver.
  - rewrite IH. unfold write_pair. rewrite !dom_insert_L. cbn. set_solver.
Qed.

Lemma files_under_images (acc : list Accepted) (fs : gmap string File) :
  files_under (img_dir cfg) fs = ∅ →
  files_under (img_dir cfg) (foldl (write_pair cfg) fs acc)
  = list_to_set (image_path cfg ∘ acc_index <$> acc).
Proof.
  intros Hfresh. unfold files_under in *. rewrite dom_foldl_write.
  apply set_eq. intros p. rewrite elem_of_filter, !elem_of_union, !elem_of_list_to_set.
  split.
  - intros [Hu [[Hd|Hi]|Hl]].
    + exfalso. assert (Hp : p ∈ filter (λ p, under (img_dir cfg) p = true) (dom fs))
        by (by apply elem_of_filter).
      rewrite Hfresh in Hp. by apply elem_of_empty in Hp.
    + done.
    + apply list_elem_of_fmap in Hl as (a & -> & _). unfold compose in Hu.
      destruct (label_path_under cfg (acc_index a)) as [_ Hn]. congruence.
  - intros Hi. split; [|by left; right].
    apply list_elem_of_fmap in Hi as (a & -> & _). unfold compose.
    apply image_path_under.
Qed.

Lemma files_under_labels (acc : list Accepted) (fs : gmap string File) :
  files_under (lbl_dir cfg) fs = ∅ →
  files_under (lbl_dir cfg) (foldl (write_pair cfg) fs acc)
  = list_to_set (label_path cfg ∘ acc_index <$> acc).
Proof.
  intros Hfresh. unfold files_under in *. rewrite dom_foldl_write.
  apply set_eq. intros p. rewrite elem_of_filter, !elem_of_union, !elem_of_list_to_set.
  split.
  - intros [Hu [[Hd|Hi]|Hl]].
    + exfalso. assert (Hp : p ∈ filter (λ p, under (lbl_dir cfg) p = true) (dom fs))
        by (by apply elem_of_filter).
      rewrite Hfresh in Hp. by apply elem_of_empty in Hp.
    + apply list_elem_of_fmap in Hi as (a & -> & _). unfold compose in Hu.
      destruct (image_path_under cfg (acc_index a)) as [_ Hn]. congruence.
    + done.
  - intros Hl. split; [|by right].
    apply list_elem_of_fmap in Hl as (a & -> & _). unfold compose.
    apply label_path_under.
Qed.

Lemma size_image_set (acc : list Accepted) :
  NoDup (acc_index <$> acc) →
  size (list_to_set (image_path cfg ∘ acc_index <$> acc) : gset string) = length acc.
Proof.
  intros Hnd. rewrite size_list_to_set.
  - by rewrite length_fmap.
  - rewrite list_fmap_compose. apply NoDup_fmap_2_strong; [|done].
    intros i j _ _. apply image_path_inj.
Qed.

Lemma size_label_set (acc : list Accepted) :
  NoDup (acc_index <$> acc) →
  size (list_to_set (label_path cfg ∘ acc_index <$> acc) : gset string) = length acc.
Proof.
  intros Hnd. rewrite size_list_to_set.
  - by rewrite length_fmap.
  - rewrite list_fmap_compose. apply NoDup_fmap_2_strong; [|done].
    intros i j _ _. apply label_path_inj.
Qed.

Lemma foldl_write_outside (acc : list Accepted) (fs : gmap string File) (p : string) :
  under (img_dir cfg) p = false → under (lbl_dir cfg) p = false →
  foldl (write_pair cfg) fs acc !! p = fs !! p.
Proof.
  intros Hi Hl. apply foldl_write_other. apply Forall_forall. intros a _. split.
  - intros ->. destruct (image_path_under cfg (acc_index a)). congruence.
  - intros ->. destruct (label_path_under cfg (acc_index a)). congruence.
Qed.

End Written.

(* ===================================================================== *)
(** * Frames do not fail, unless the model cannot be imported                *)
(* ===================================================================== *)

Section Totality.

Context (cfg : Config) (env : Env).

Lemma has_type_reset (k : nat) (w : World) :
  has_type CAMERA k w → ∃ x, reset_objects (objects w) !! k = Some x ∧ type x = CAMERA.
Proof.
  intros (x & Hk & Ht). exists x. split; [|done].
  apply without_lookup_Some. split; [done|]. unfold not_camera_or_light. by rewrite Ht.
Qed.

(** The camera is still there after the head of a frame. *)
Lemma imported_world_camera (cam : nat) (w : World) :
  has_type CAMERA cam w → has_type CAMERA cam (imported_world cfg env w).
Proof.
  intros H. apply has_type_reset in H as (x & Hk & Ht).
  exists x. split; [|done]. unfold imported_world. cbn [objects].
  destruct (add_all_spec env (imported cfg env w) (reset_objects (objects w)))
    as (_ & Hfresh & Hold & _).
  rewrite Hold; [done|]. intros Hin. apply Hfresh in Hin. congruence.
Qed.

(** Lighting leaves every object that is not a light where it is. *)
Lemma relit_world_keeps (w : World) (k : nat) (x : Obj) :
  objects w !! k = Some x → type x ≠ LIGHT →
  objects (relit_world cfg env w) !! k = Some x.
Proof.
  intros Hk Ht. unfold relit_world. cbn [objects].
  assert (H1 : without is_fill (objects w) !! k = Some x).
  { apply without_lookup_Some. split; [done|]. unfold is_fill. by destruct (type x). }
  rewrite lookup_insert_ne; [done|].
  intros E. pose proof (fresh_key_free (without is_fill (objects w))) as Hf.
  rewrite E in Hf. congruence.
Qed.

Lemma first_lit_world_keeps (w : World) (k : nat) (x : Obj) :
  objects w !! k = Some x → type x ≠ LIGHT →
  objects (first_lit_world cfg env w) !! k = Some x.
Proof.
  intros Hk Ht. unfold first_lit_world. cbn [objects].
  assert (H1 : without is_fill (objects w) !! k = Some x).
  { apply without_lookup_Some. split; [done|]. unfold is_fill. by destruct (type x). }
  set (m1 := without is_fill (objects w)) in *.
  set (m2 := <[fresh (dom m1) := _]> m1).
  assert (H2 : m2 !! k = Some x).
  { unfold m2. rewrite lookup_insert_ne; [done|].
    intros E. pose proof (fresh_key_free m1) as Hf.
    rewrite E in Hf. congruence. }
  rewrite lookup_insert_ne; [done|].
  intros E. pose proof (fresh_key_free m2) as Hf. rewrite E in Hf. congruence.
Qed.

Lemma ensure_light_keeps (w : World) :
  ∃ w', ensure_light cfg env w = Ok tt w'
        ∧ ∀ k x, objects w !! k = Some x → type x ≠ LIGHT → objects w' !! k = Some x.
Proof.
  destruct (ensure_light_ok cfg env w) as [H|H]; eexists; (split; [exact H|]).
  - apply relit_world_keeps.
  - apply first_lit_world_keeps.
Qed.

(** The middle of a frame keeps the mesh and the camera; it ends well
    unless the host fails to load the background. *)
Lemma randomise_scene_cases (obj cam : nat) (bgs : list string) (w : World) :
  has_type MESH obj w → has_type CAMERA cam w → bgs ≠ [] →
  (∃ w2, randomise_scene cfg env obj cam bgs w = Ok tt w2
         ∧ has_type MESH obj w2 ∧ has_type CAMERA cam w2)
  ∨ (∃ bg wl msg, In bg bgs
                  ∧ host_error env (CallLoadImage bg) wl = Some msg
                  ∧ randomise_scene cfg env obj cam bgs w = Raise msg wl).
Proof.
  intros (xo & Ho & Hto) (xc & Hc & Htc) Hbg.
  assert (Hne : obj ≠ cam) by (intros ->; congruence).
  unfold randomise_scene.
  erewrite bind_ok; [|by apply randomise_object_run].
  erewrite bind_ok;
    [|apply (randomise_camera_run cfg env cam xc); cbn [objects set_rng set_objects];
      by rewrite lookup_insert_ne].
  lazymatch goal with |- context [bind (ensure_light cfg env) _ ?w1] =>
    destruct (ensure_light_keeps w1) as (w3 & Hl & Hkeep) end.
  erewrite bind_ok; [|exact Hl].
  erewrite bind_ok; [|by apply random_choice_run].
  set (bg := pick env bgs (rng w3)).
  set (w4 := set_history _ (set_rng _ w3)).
  destruct (host_error env (CallLoadImage bg)
              (set_history (history w4 ++ [EvLoadImage bg]) w4)) as [msg|] eqn:Eh.
  { right. exists bg, (set_history (history w4 ++ [EvLoadImage bg]) w4), msg.
    split; [by apply pick_in|]. split; [exact Eh|].
    erewrite bind_raise; [reflexivity|]. by apply images_load_fails. }
  left. erewrite bind_ok; [|by apply images_load_run].
  eexists. split; [reflexivity|].
  cbn [objects set_rng set_objects set_history set_node_image] in *.
  split.
  - exists (randomised_object cfg env (rng w) xo). split; [|done].
    unfold w4. cbn [objects set_history set_node_image set_rng].
    apply Hkeep; [|cbn; congruence].
    rewrite lookup_insert_ne by done. apply lookup_insert_eq.
  - eexists. split.
    + unfold w4. cbn [objects set_history set_node_image set_rng].
      apply Hkeep; [apply lookup_insert_eq|].
      unfold randomised_camera. cbn [type]. congruence.
    + unfold randomised_camera. cbn [type]. done.
Qed.

(** The bounding box is computed whenever the mesh and the camera exist. *)
Lemma calc_yolo_bbox_ok (obj cam : nat) (w : World) :
  has_type MESH obj w → has_type CAMERA cam w →
  ∃ bbox w3, calc_yolo_bbox cfg env obj cam w = Ok bbox w3
             ∧ objects w3 = objects w.
Proof.
  intros (xo & Ho & Hto) (xc & Hc & Htc).
  pose proof (mesh_has_geometry xo Hto) as Hg.
  assert (Hic : is_camera xc = true) by (unfold is_camera; by rewrite Htc).
  destruct (evaluated_vertices env xo) as [|v vs] eqn:Ev.
  { eexists _, _. split; [by apply (calc_yolo_bbox_no_vertices cfg env obj cam w xo)|].
    reflexivity. }
  destruct (visible_coords (projected_points env xo xc)) as [|c cs] eqn:Evis.
  - eexists _, _.
    split; [apply (calc_yolo_bbox_none_visible cfg env obj cam w xo xc); try done;
            by rewrite Ev|].
    reflexivity.
  - destruct (calc_yolo_bbox_some_visible cfg env obj cam w xo xc Ho Hc Hg Hic)
      as (? & ? & ? & ? & _ & _ & _ & _ & H); [by rewrite Evis|].
    eexists _, _. split; [exact H | reflexivity].
Qed.

(** A frame whose model has a supported extension ends well and keeps the
    camera, unless the host answers one of its calls with an error. *)
Lemma frame_cases (cam : nat) (bgs : list string) (r f : nat) (w : World) :
  MODELS cfg ≠ [] → bgs ≠ [] → has_type CAMERA cam w →
  supported (pick env (MODELS cfg) (rng w)) = true →
  (∃ r' f' w', frame cfg env cam bgs r f w = Ok (r', f') w' ∧ has_type CAMERA cam w')
  ∨ (∃ msg w', frame cfg env cam bgs r f w = Raise msg w' ∧ host_failure env msg).
Proof.
  intros Hm Hbg Hcam Hs.
  destruct (host_error env (CallImport (pick env (MODELS cfg) (rng w)))
              (importing cfg env w)) as [msg|] eqn:Eh.
  { right. exists msg, (importing cfg env w). split; [|by eexists _, _].
    unfold frame. erewrite bind_raise; [reflexivity|].
    by apply import_and_select_fails. }
  pose proof (import_and_select_run cfg env w Hm Hs Eh) as H1.
  pose proof (imported_world_camera cam w Hcam) as Hcam1.
  destruct (first_mesh _ _) as [obj|] eqn:Emesh.
  - apply first_mesh_Some in Emesh as (_ & xo & Ho & Hto).
    assert (Hobj1 : has_type MESH obj (imported_world cfg env w)) by (exists xo; done).
    destruct (randomise_scene_cases obj cam bgs _ Hobj1 Hcam1 Hbg)
      as [(w2 & H2 & Hobj2 & Hcam2)|(bg & wl & msg & _ & Hl & H2)].
    2:{ right. exists msg, wl. split; [|by eexists _, _].
        unfold frame. erewrite bind_ok; [|exact H1]. unfold frame_tail.
        by erewrite bind_raise. }
    destruct (calc_yolo_bbox_ok obj cam w2 Hobj2 Hcam2) as (bbox & w3 & H3 & Hsame).
    assert (Hcam3 : has_type CAMERA cam w3).
    { destruct Hcam2 as (x & ? & ?). exists x. by rewrite Hsame. }
    destruct bbox as [lbl|].
    + destruct (frame_reaches_write cfg env cam bgs r f w _ obj w2 lbl w3 H1 H2 H3)
        as (bg & _ & Hf).
      destruct (host_error env (CallRender _) _) as [msg|] eqn:Er.
      { right. eexists _, _. split; [exact Hf | by eexists _, _]. }
      destruct (host_error env (CallOpen _) _) as [msg|] eqn:Eo.
      { right. eexists _, _. split; [exact Hf | by eexists _, _]. }
      left. eexists _, _, _. split; [exact Hf|]. exact Hcam3.
    + destruct (frame_not_visible cfg env cam bgs r f w _ obj w2 w3 H1 H2 H3)
        as (bg & _ & Hf).
      left. eexists _, _, _. split; [exact Hf|].
      destruct Hcam3 as (x & ? & ?). exists x. by destruct w3.
  - left. eexists _, _, _. split; [by apply frame_no_mesh|].
    destruct Hcam1 as (x & ? & ?). exists x. split; [|done].
    unfold after_no_mesh. by destruct (imported_world cfg env w).
Qed.

Lemma reliable_no_failure (msg : string) : reliable env → ¬ host_failure env msg.
Proof. intros Hr (c & w & H). by rewrite Hr in H. Qed.

(** With a host that does not fail, such a frame ends well. *)
Lemma frame_ok (cam : nat) (bgs : list string) (r f : nat) (w : World) :
  reliable env →
  MODELS cfg ≠ [] → bgs ≠ [] → has_type CAMERA cam w →
  supported (pick env (MODELS cfg) (rng w)) = true →
  ∃ r' f' w', frame cfg env cam bgs r f w = Ok (r', f') w' ∧ has_type CAMERA cam w'.
Proof.
  intros Hr Hm Hbg Hcam Hs.
  destruct (frame_cases cam bgs r f w Hm Hbg Hcam Hs) as [H|(msg & w' & _ & Hf)]; [done|].
  by apply reliable_no_failure in Hf.
Qed.

(** A frame whose model cannot be imported raises. *)
Lemma frame_unsupported (cam : nat) (bgs : list string) (r f : nat) (w : World) :
  MODELS cfg ≠ [] →
  supported (pick env (MODELS cfg) (rng w)) = false →
  ∃ w', frame cfg env cam bgs r f w
        = Raise ("Unsupported model format: " +:+ pick env (MODELS cfg) (rng w)) w'.
Proof.
  intros Hm Hs.
  destruct (import_and_select_unsupported cfg env w Hm Hs) as (w' & H & _).
  exists w'. unfold frame. by erewrite bind_raise.
Qed.

(** A frame that returns keeps the camera. *)
Lemma frame_keeps_camera (cam : nat) (bgs : list string) (r f : nat) (w : World)
    (r' f' : nat) (w' : World) :
  MODELS cfg ≠ [] → bgs ≠ [] → has_type CAMERA cam w →
  frame cfg env cam bgs r f w = Ok (r', f') w' → has_type CAMERA cam w'.
Proof.
  intros Hm Hbg Hcam Hf.
  destruct (supported (pick env (MODELS cfg) (rng w))) eqn:Hs.
  - destruct (frame_cases cam bgs r f w Hm Hbg Hcam Hs)
      as [(r1 & f1 & w1 & Hf1 & Hcam1)|(msg & w1 & Hf1 & _)]; [|congruence].
    rewrite Hf in Hf1. by injection Hf1 as <- <- <-.
  - destruct (frame_unsupported cam bgs r f w Hm Hs) as (w1 & Hf1). congruence.
Qed.

(** The camera [ensure_camera] hands out. *)
Lemma ensure_camera_ok (w : World) :
  ∃ cam w0, ensure_camera env w = Ok cam w0 ∧ has_type CAMERA cam w0
            ∧ files w0 = files w ∧ stdout w0 = stdout w.
Proof.
  unfold ensure_camera. erewrite bind_ok; [|apply objects_where_run].
  destruct (keys_where is_camera (objects w)) as [|c cs] eqn:Ec.
  - erewrite bind_ok; [|apply new_object_run].
    eexists _, _. split; [reflexivity|].
    split; [|done]. eexists. split; [apply lookup_insert_eq | reflexivity].
  - exists c, w. split; [reflexivity|]. split; [|done].
    assert (Hin : c ∈ keys_where is_camera (objects w)) by (rewrite Ec; by left).
    apply elem_of_keys_where in Hin as (x & Hx & Hcam).
    exists x. split; [done|]. unfold is_camera in Hcam. by destruct (type x).
Qed.

(** The part of the set-up after the background check. *)
Lemma main_setup_reaches (w : World) :
  MODELS cfg ≠ [] →
  main_setup cfg env w
  = (host env (CallListdir (BACKGROUNDS_DIR cfg)) >>
     match background_files cfg env with
     | [] => raise ("No background images found in " +:+ BACKGROUNDS_DIR cfg +:+ ".")
     | _ :: _ =>
         makedirs env (img_dir cfg) >>
         makedirs env (lbl_dir cfg) >>
         setup_renderer >>
         let* cam := ensure_camera env in
         setup_compositor >>
         ret cam
     end)%script w.
Proof. intros Hm. unfold main_setup. by destruct (MODELS cfg). Qed.

(** The set-up with models: the host fails, or there is no background, or
    it hands out a camera. *)
Lemma main_setup_cases (w : World) :
  MODELS cfg ≠ [] →
  (∃ msg w', main_setup cfg env w = Raise msg w' ∧ host_failure env msg)
  ∨ (background_files cfg env = []
     ∧ main_setup cfg env w
       = Raise ("No background images found in " +:+ BACKGROUNDS_DIR cfg +:+ ".") w)
  ∨ (background_files cfg env ≠ []
     ∧ ∃ cam w0, main_setup cfg env w = Ok cam w0 ∧ has_type CAMERA cam w0
                 ∧ files w0 = files w ∧ stdout w0 = stdout w).
Proof.
  intros Hm. rewrite main_setup_reaches by done.
  destruct (host_error env (CallListdir (BACKGROUNDS_DIR cfg)) w) as [msg|] eqn:E0.
  { left. exists msg, w. split; [|by eexists _, _].
    erewrite bind_raise; [reflexivity|]. by apply host_fails. }
  erewrite bind_ok; [|by apply host_ok].
  destruct (background_files cfg env) as [|b bs] eqn:Eb.
  { right. left. done. }
  set (w1 := set_history (history w ++ [EvMakedirs (img_dir cfg)]) w).
  destruct (host_error env (CallMakedirs (img_dir cfg)) w1) as [msg|] eqn:E1.
  { left. exists msg, w1. split; [|by eexists _, _].
    erewrite bind_raise; [reflexivity|].
    unfold makedirs, bind, emit, modify, host. fold w1. by rewrite E1. }
  erewrite bind_ok; [|by apply makedirs_run].
  fold w1. set (w2 := set_history (history w1 ++ [EvMakedirs (lbl_dir cfg)]) w1).
  destruct (host_error env (CallMakedirs (lbl_dir cfg)) w2) as [msg|] eqn:E2.
  { left. exists msg, w2. split; [|by eexists _, _].
    erewrite bind_raise; [reflexivity|].
    unfold makedirs, bind, emit, modify, host. fold w2. by rewrite E2. }
  erewrite bind_ok; [|by apply makedirs_run].
  fold w2. right. right. split; [done|].
  erewrite bind_ok; [|reflexivity].
  lazymatch goal with |- context [bind (ensure_camera env) _ ?w3] =>
    destruct (ensure_camera_ok w3) as (cam & w4 & Hc & Hcam & Hf & Ho) end.
  erewrite bind_ok; [|exact Hc].
  eexists _, _. split; [reflexivity|].
  unfold setup_compositor, ret, bind, emit, modify.
  destruct Hcam as (x & Hx & Ht).
  split; [exists x; split; [|done]; by destruct w4|].
  destruct w4; cbn in *. split; [by rewrite Hf | by rewrite Ho].
Qed.

(** The set-up succeeds when there are models and backgrounds and the host
    does not fail, and hands out a camera. *)
Lemma main_setup_ok (w : World) :
  reliable env →
  MODELS cfg ≠ [] → background_files cfg env ≠ [] →
  ∃ cam w0, main_setup cfg env w = Ok cam w0 ∧ has_type CAMERA cam w0.
Proof.
  intros Hr Hm Hbg.
  destruct (main_setup_cases w Hm)
    as [(msg & w' & _ & Hf)|[[E _]|(_ & cam & w0 & H & Hcam & _)]]; [|done|eauto].
  by apply reliable_no_failure in Hf.
Qed.

End Totality.

Section Fatal.

Context (cfg : Config) (env : Env).

Lemma frame_raises_iff (cam : nat) (bgs : list string) (r f : nat) (w : World) :
  reliable env →
  MODELS cfg ≠ [] → bgs ≠ [] → has_type CAMERA cam w →
  raises (frame cfg env cam bgs r f w)
  ↔ supported (pick env (MODELS cfg) (rng w)) = false.
Proof.
  intros Hr Hm Hbg Hcam. destruct (supported (pick env (MODELS cfg) (rng w))) eqn:Hs.
  - destruct (frame_ok cfg env cam bgs r f w Hr Hm Hbg Hcam Hs) as (r' & f' & w' & -> & _).
    cbn. split; [done | discriminate].
  - destruct (frame_unsupported cfg env cam bgs r f w Hm Hs) as (w' & ->).
    cbn. split; done.
Qed.

(** The camera is there at the start of every frame the loop gets to. *)
Lemma frame_start_camera (cam : nat) (bgs : list string) (k : nat) :
  ∀ r f w r' f' wk,
    MODELS cfg ≠ [] → bgs ≠ [] → has_type CAMERA cam w →
    frame_start cfg env k cam bgs r f w = Some (r', f', wk) →
    has_type CAMERA cam wk.
Proof.
  induction k as [|k IH]; intros r f w r' f' wk Hm Hbg Hcam H; cbn [frame_start] in H.
  - by injection H as <- <- <-.
  - destruct (r <? NUM_IMAGES cfg)%nat; [|done].
    destruct (frame cfg env cam bgs r f w) as [[r1 f1] w1|e w1] eqn:Hf; [|done].
    pose proof (frame_keeps_camera cfg env cam bgs r f w r1 f1 w1 Hm Hbg Hcam Hf) as Hcam1.
    cbn [fst snd] in H. by eapply IH.
Qed.

(** The loop raises exactly when it gets to a frame that chooses a model
    it cannot import, if the host does not fail. *)
Lemma generation_loop_raises_iff (cam : nat) (bgs : list string) (fuel : nat) :
  reliable env →
  ∀ r f w,
    MODELS cfg ≠ [] → bgs ≠ [] → has_type CAMERA cam w →
    raises (generation_loop cfg env fuel cam bgs r f w)
    ↔ ∃ k r' f' wk,
        (k < fuel)%nat
        ∧ frame_start cfg env k cam bgs r f w = Some (r', f', wk)
        ∧ (r' < NUM_IMAGES cfg)%nat
        ∧ supported (pick env (MODELS cfg) (rng wk)) = false.
Proof.
  intros Hrel.
  induction fuel as [|fuel IH]; intros r f w Hm Hbg Hcam; cbn [generation_loop].
  - split.
    + destruct (r <? NUM_IMAGES cfg)%nat; done.
    + intros (k & ? & ? & ? & Hk & _). lia.
  - destruct (r <? NUM_IMAGES cfg)%nat eqn:E.
    + apply Nat.ltb_lt in E.
      destruct (supported (pick env (MODELS cfg) (rng w))) eqn:Hs.
      * destruct (frame_ok cfg env cam bgs r f w Hrel Hm Hbg Hcam Hs)
          as (r1 & f1 & w1 & Hf & Hcam1).
        erewrite bind_ok; [|exact Hf]. cbn [fst snd].
        rewrite (IH r1 f1 w1 Hm Hbg Hcam1). split.
        -- intros (k & r' & f' & wk & Hk & Hst & Hr & Hu).
           exists (S k), r', f', wk. split; [lia|]. split; [|done].
           cbn [frame_start]. apply Nat.ltb_lt in E. rewrite E, Hf. done.
        -- intros (k & r' & f' & wk & Hk & Hst & Hr & Hu).
           destruct k as [|k].
           ++ cbn [frame_start] in Hst. injection Hst as <- <- <-. congruence.
           ++ cbn [frame_start] in Hst. apply Nat.ltb_lt in E. rewrite E, Hf in Hst.
              exists k, r', f', wk. split; [lia|]. done.
      * destruct (frame_unsupported cfg env cam bgs r f w Hm Hs) as (w1 & Hf).
        erewrite bind_raise; [|exact Hf]. split; [|done]. intros _.
        exists 0%nat, r, f, w. split; [lia|]. done.
    + split; [done|]. intros (k & r' & f' & wk & Hk & Hst & Hr & Hu).
      destruct k as [|k]; cbn [frame_start] in Hst.
      * injection Hst as <- <- <-. apply Nat.ltb_ge in E. lia.
      * by rewrite E in Hst.
Qed.

(** Whatever the loop raises is the message of an unsupported model among
    the configured ones or an error of the host. *)
Lemma generation_loop_raise_cause (cam : nat) (bgs : list string) (fuel : nat) :
  ∀ r f w msg w',
    MODELS cfg ≠ [] → bgs ≠ [] → has_type CAMERA cam w →
    generation_loop cfg env fuel cam bgs r f w = Raise msg w' →
    (∃ p, In p (MODELS cfg) ∧ supported p = false
          ∧ msg = "Unsupported model format: " +:+ p)
    ∨ host_failure env msg.
Proof.
  induction fuel as [|fuel IH]; intros r f w msg w' Hm Hbg Hcam H;
    cbn [generation_loop] in H.
  - destruct (r <? NUM_IMAGES cfg)%nat; done.
  - destruct (r <? NUM_IMAGES cfg)%nat eqn:E; [|done].
    destruct (supported (pick env (MODELS cfg) (rng w))) eqn:Hs.
    + destruct (frame_cases cfg env cam bgs r f w Hm Hbg Hcam Hs)
        as [(r1 & f1 & w1 & Hf & Hcam1)|(msg1 & w1 & Hf & Hfail)].
      * erewrite bind_ok in H; [|exact Hf]. cbn [fst snd] in H. by eapply IH.
      * erewrite bind_raise in H; [|exact Hf]. injection H as <- <-. by right.
    + destruct (frame_unsupported cfg env cam bgs r f w Hm Hs) as (w1 & Hf).
      erewrite bind_raise in H; [|exact Hf]. injection H as <- <-.
      left. eexists. split; [by apply pick_in|]. done.
Qed.

Lemma main_setup_inv (w : World) (cam : nat) (w0 : World) :
  main_setup cfg env w = Ok cam w0 →
  MODELS cfg ≠ [] ∧ background_files cfg env ≠ [] ∧ has_type CAMERA cam w0.
Proof.
  intros H.
  assert (Hm : MODELS cfg ≠ []).
  { intros E. unfold main_setup in H. by rewrite E in H. }
  destruct (main_setup_cases cfg env w Hm)
    as [(msg & w' & H' & _)|[[E H']|(Hbg & cam' & w0' & H' & Hcam & _)]]; [congruence..|].
  rewrite H in H'. injection H' as <- <-. done.
Qed.

Lemma main_raises_iff (fuel : nat) (w : World) :
  reliable env →
  raises (main cfg env fuel w)
  ↔ MODELS cfg = []
    ∨ background_files cfg env = []
    ∨ ∃ cam w0 k r f wk,
        main_setup cfg env w = Ok cam w0
        ∧ (k < fuel)%nat
        ∧ frame_start cfg env k cam (background_files cfg env) 0 0 w0 = Some (r, f, wk)
        ∧ (r < NUM_IMAGES cfg)%nat
        ∧ supported (pick env (MODELS cfg) (rng wk)) = false.
Proof.
  intros Hrel.
  destruct (MODELS cfg) as [|m ms] eqn:Em.
  { unfold main, main_setup. rewrite Em. unfold bind, raise. cbn [raises].
    split; [by left | done]. }
  assert (Hm : MODELS cfg ≠ []) by (rewrite Em; done). rewrite <- Em in *.
  destruct (main_setup_cases cfg env w Hm)
    as [(msg & w' & _ & Hf)|[[Eb Hsetup]|(Hbg & cam & w0 & Hsetup & Hcam & _)]].
  { by apply (reliable_no_failure env) in Hf. }
  { unfold main. erewrite bind_raise; [|exact Hsetup]. cbn [raises].
    split; [by right; left | done]. }
  unfold main. erewrite bind_ok; [|exact Hsetup].
  pose proof (generation_loop_raises_iff cam (background_files cfg env) fuel Hrel 0 0 w0
                Hm Hbg Hcam) as Hloop.
  unfold bind at 1.
  destruct (generation_loop cfg env fuel cam (background_files cfg env) 0 0 w0)
    as [final w1|e w1]; cbn [raises] in Hloop.
  - assert (Hno : ¬ raises (match final with
                            | Some _ => (print (msg_done cfg) >> ret (Some ()))%script
                            | None => ret None
                            end w1))
      by (destruct final; unfold bind, print, modify, ret; cbn [raises]; tauto).
    split; [done|]. intros [?|[?|(cam' & w0' & k & r & f & wk & Hs' & Hrest)]]; try done.
    rewrite Hsetup in Hs'. injection Hs' as <- <-.
    exfalso. apply Hloop. eauto 10.
  - cbn [raises]. split; [|done]. intros _. right. right.
    destruct Hloop as [Hloop _]. destruct (Hloop I) as (k & r & f & wk & ? & ? & ? & ?).
    exists cam, w0, k, r, f, wk. done.
Qed.

(** Whatever [main] raises is one of its three messages or an error of the
    host. *)
Lemma main_raise_cause (fuel : nat) (w : World) (msg : string) (w' : World) :
  main cfg env fuel w = Raise msg w' →
  (MODELS cfg = [] ∧ msg = "MODELS list is empty. Set valid paths at top of script.")
  ∨ (background_files cfg env = []
     ∧ msg = "No background images found in " +:+ BACKGROUNDS_DIR cfg +:+ ".")
  ∨ (∃ p, In p (MODELS cfg) ∧ supported p = false
          ∧ msg = "Unsupported model format: " +:+ p)
  ∨ host_failure env msg.
Proof.
  intros H.
  destruct (MODELS cfg) as [|m ms] eqn:Em.
  { left. split; [done|]. unfold main, main_setup in H. rewrite Em in H.
    unfold bind, raise in H. by injection H as <- _. }
  assert (Hm : MODELS cfg ≠ []) by (rewrite Em; done). rewrite <- Em in *.
  right.
  destruct (main_setup_cases cfg env w Hm)
    as [(msg1 & w1 & Hsetup & Hf)|[[Eb Hsetup]|(Hbg & cam & w0 & Hsetup & Hcam & _)]].
  { unfold main in H. erewrite bind_raise in H; [|exact Hsetup].
    injection H as <- <-. by right; right. }
  { unfold main in H. erewrite bind_raise in H; [|exact Hsetup].
    injection H as <- <-. by left. }
  right. unfold main in H. erewrite bind_ok in H; [|exact Hsetup].
  apply bind_raise_inv in H as [H|(final & w1 & _ & H)].
  - by eapply generation_loop_raise_cause.
  - destruct final; unfold bind, print, modify, ret in H; done.
Qed.

End Fatal.

(* ===================================================================== *)
(** * The sun and the fill light                                             *)
(* ===================================================================== *)

Section Only.

Context (p : Obj → bool).

Lemma only_lookup_Some (m : gmap nat Obj) (k : nat) (x : Obj) :
  only p m !! k = Some x ↔ m !! k = Some x ∧ p x = true.
Proof. unfold only. by rewrite map_lookup_filter_Some. Qed.

Lemma only_lookup_None (m : gmap nat Obj) (k : nat) :
  only p m !! k = None ↔ ∀ x, m !! k = Some x → p x = false.
Proof.
  unfold only. rewrite map_lookup_filter_None. split.
  - intros [Hn|Hall] x Hx; [congruence|]. specialize (Hall x Hx). cbn in Hall.
    by destruct (p x).
  - intros H. right. intros x Hx. cbn. rewrite (H x Hx). done.
Qed.

Lemma only_insert_out (m : gmap nat Obj) (k : nat) (x : Obj) :
  p x = false → only p m !! k = None → only p (<[k := x]> m) = only p m.
Proof.
  intros Hx Hk. apply map_eq. intros j. destruct (decide (k = j)) as [<-|Hne].
  - rewrite Hk. apply only_lookup_None. intros y. rewrite lookup_insert_eq.
    by intros [= <-].
  - destruct (only p m !! j) as [y|] eqn:E.
    + apply only_lookup_Some in E as [? ?]. apply only_lookup_Some.
      by rewrite lookup_insert_ne.
    + apply only_lookup_None. intros y. rewrite lookup_insert_ne by done.
      revert y. by apply only_lookup_None.
Qed.

Lemma only_insert_in (m : gmap nat Obj) (k : nat) (x : Obj) :
  p x = true → only p (<[k := x]> m) = <[k := x]> (only p m).
Proof.
  intros Hx. apply map_eq. intros j. destruct (decide (k = j)) as [<-|Hne].
  - rewrite lookup_insert_eq. apply only_lookup_Some. by rewrite lookup_insert_eq.
  - rewrite lookup_insert_ne by done.
    destruct (only p m !! j) as [y|] eqn:E.
    + apply only_lookup_Some in E as [? ?]. apply only_lookup_Some.
      by rewrite lookup_insert_ne.
    + apply only_lookup_None. intros y. rewrite lookup_insert_ne by done.
      revert y. by apply only_lookup_None.
Qed.

Lemma only_without (q : Obj → bool) (m : gmap nat Obj) :
  (∀ x, p x = true → q x = false) → only p (without q m) = only p m.
Proof.
  intros Hpq. apply map_eq. intros j.
  destruct (only p m !! j) as [y|] eqn:E.
  - apply only_lookup_Some in E as [? ?]. apply only_lookup_Some. split; [|done].
    apply without_lookup_Some. split; [done | by apply Hpq].
  - apply only_lookup_None. intros y [Hy _]%without_lookup_Some.
    revert y Hy. by apply only_lookup_None.
Qed.

Lemma only_add_all (env : Env) (xs : list Obj) : ∀ m,
  (∀ x m', x ∈ xs → p (entering env m' x) = false) →
  only p (snd (add_all env xs m)) = only p m.
Proof.
  induction xs as [|x xs IH]; intros m H; cbn [add_all snd]; [done|].
  rewrite IH by (intros; apply H; by right).
  apply only_insert_out; [apply H; by left|]. apply only_lookup_None. intros y.
  by rewrite fresh_key_free.
Qed.

Lemma keys_where_nil (m : gmap nat Obj) : keys_where p m = [] ↔ only p m = ∅.
Proof.
  split.
  - intros H. apply map_empty. intros k. apply only_lookup_None. intros x Hx.
    destruct (p x) eqn:Hp; [|done]. exfalso.
    assert (Hin : k ∈ keys_where p m) by (apply elem_of_keys_where; eauto).
    rewrite H in Hin. by apply elem_of_nil in Hin.
  - intros H. destruct (keys_where p m) as [|k ks] eqn:E; [done|]. exfalso.
    assert (Hin : k ∈ keys_where p m) by (rewrite E; by left).
    apply elem_of_keys_where in Hin as (x & Hx & Hp).
    assert (Hl : only p m !! k = Some x) by (by apply only_lookup_Some).
    rewrite H in Hl. by rewrite lookup_empty in Hl.
Qed.

(** An update that keeps an object outside the selection. *)
Lemma only_update_out (m : gmap nat Obj) (k : nat) (x y : Obj) :
  m !! k = Some x → p x = false → p y = false → only p (<[k := y]> m) = only p m.
Proof.
  intros Hk Hx Hy. apply only_insert_out; [done|]. apply only_lookup_None.
  intros z Hz. congruence.
Qed.

End Only.

Lemma sun_is_no_fill (x : Obj) : is_sun x = true → is_fill x = false.
Proof.
  unfold is_sun, is_fill. destruct (type x); try done.
  intros H. apply String.eqb_eq in H. by rewrite H.
Qed.

Lemma light_not_geometry (x : Obj) : is_light x = true → not_camera_or_light x = false.
Proof. unfold is_light, not_camera_or_light. by destruct (type x). Qed.

Lemma sun_is_light (x : Obj) : is_sun x = true → is_light x = true.
Proof. unfold is_sun, is_light. by destruct (type x). Qed.

Lemma fill_is_light (x : Obj) : is_fill x = true → is_light x = true.
Proof. unfold is_fill, is_light. by destruct (type x). Qed.

Lemma not_light (x : Obj) : type x ≠ LIGHT → is_light x = false.
Proof. unfold is_light. by destruct (type x). Qed.

Lemma not_light_no_sun (x : Obj) : is_light x = false → is_sun x = false.
Proof. unfold is_sun, is_light. by destruct (type x). Qed.

Lemma not_light_no_fill (x : Obj) : is_light x = false → is_fill x = false.
Proof. unfold is_fill, is_light. by destruct (type x). Qed.

Section Sun.

Context (cfg : Config) (env : Env).

Lemma ensure_light_run (w : World) :
  ensure_light cfg env w = Ok tt (lit_world cfg env w).
Proof.
  unfold lit_world.
  destruct (keys_where is_sun (without is_fill (objects w))) as [|s ss] eqn:E.
  - by apply ensure_light_first.
  - apply ensure_light_relit. by rewrite E.
Qed.

Lemma suns_without_fill (m : gmap nat Obj) :
  only is_sun (without is_fill m) = only is_sun m.
Proof. apply only_without, sun_is_no_fill. Qed.

Lemma fills_without_fill (m : gmap nat Obj) : only is_fill (without is_fill m) = ∅.
Proof.
  apply map_empty. intros k. apply only_lookup_None.
  intros x [_ Hx]%without_lookup_Some. done.
Qed.

Lemma lit_world_history (w : World) :
  ∃ created, history (lit_world cfg env w)
             = history w ++ map EvRemoveObject (keys_where is_fill (objects w))
                         ++ map EvNewObject created.
Proof.
  unfold lit_world.
  destruct (keys_where is_sun (without is_fill (objects w))) as [|s ss] eqn:E.
  - eexists [_; _]. reflexivity.
  - eexists [_]. reflexivity.
Qed.

End Sun.

Lemma only_only (p q : Obj → bool) (m : gmap nat Obj) :
  (∀ x, p x = true → q x = true) → only p (only q m) = only p m.
Proof.
  intros Hpq. apply map_eq. intros j.
  destruct (only p m !! j) as [y|] eqn:E.
  - apply only_lookup_Some in E as [? ?]. apply only_lookup_Some. split; [|done].
    apply only_lookup_Some. split; [done | by apply Hpq].
  - apply only_lookup_None. intros y [Hy _]%only_lookup_Some.
    revert y Hy. by apply only_lookup_None.
Qed.

Section Run.

Context (cfg : Config) (env : Env).

Lemma draw_in_range (a b : Q) (k : nat) :
  unit_draws env → (a <= b)%Q → (a <= draw env a b k)%Q ∧ (draw env a b k <= b)%Q.
Proof.
  intros Hu Hab. destruct (Hu k) as [H0 H1].
  destruct (uniform_of_range a b (random env k) Hab H0 H1) as (? & ? & _). done.
Qed.

Lemma drawn_fill_in_range (nm : string) (k : nat) :
  unit_draws env → (LIGHT_PWR_MIN cfg <= LIGHT_PWR_MAX cfg)%Q →
  Py.contains nm "Fill" = true →
  fill_in_range cfg (drawn_fill cfg env nm k).
Proof.
  intros Hu Hp Hnm. unfold fill_in_range, drawn_fill.
  destruct (draw_in_range (LIGHT_PWR_MIN cfg) (LIGHT_PWR_MAX cfg) k Hu Hp) as [? ?].
  destruct (draw_in_range (-4) 4 (k + 1) Hu) as [? ?]; [done|].
  destruct (draw_in_range (-4) 4 (k + 2) Hu) as [? ?]; [done|].
  destruct (draw_in_range 1 4 (k + 3) Hu) as [? ?]; [done|].
  eexists _, _, _, _, _. split; [reflexivity|]. tauto.
Qed.

Lemma drawn_sun_in_range (k : nat) :
  unit_draws env → sun_in_range (sun_object "Sun" (draw env 2 5 k)).
Proof.
  intros Hu. destruct (draw_in_range 2 5 k Hu) as [? ?]; [done|].
  eexists. split; [reflexivity|]. done.
Qed.

End Run.

(* ===================================================================== *)
(** * Extensions                                                             *)
(* ===================================================================== *)

Lemma rfind_from_absent (c : ascii) (s : string) : ∀ i found,
  has_char c s = false → Py.rfind_from i c s found = found.
Proof.
  induction s as [|a s IH]; intros i found H; cbn [Py.rfind_from]; [done|].
  cbn [has_char] in H. apply orb_false_iff in H as [Ha Hs].
  rewrite Ha. by apply IH.
Qed.

Lemma rfind_from_app (c : ascii) (a b : string) : ∀ i found,
  Py.rfind_from i c (a +:+ b) found
  = Py.rfind_from (i + Z.of_nat (String.length a)) c b (Py.rfind_from i c a found).
Proof.
  induction a as [|x a IH]; intros i found.
  - rewrite str_app_nil_l. cbn [String.length Py.rfind_from]. by rewrite Z.add_0_r.
  - rewrite str_app_cons. cbn [Py.rfind_from String.length]. rewrite IH.
    f_equal. lia.
Qed.

(** The last occurrence is the starting value or an index of the text. *)
Lemma rfind_from_bound (c : ascii) (s : string) : ∀ i found,
  Py.rfind_from i c s found = found
  ∨ (i <= Py.rfind_from i c s found < i + Z.of_nat (String.length s))%Z.
Proof.
  induction s as [|a s IH]; intros i found; cbn [Py.rfind_from String.length]; [by left|].
  destruct (IH (i + 1)%Z (if Ascii.eqb a c then i else found)) as [->|H].
  - destruct (Ascii.eqb a c); [right; lia | by left].
  - right. lia.
Qed.

Lemma drop_str_app (a b : string) : Py.drop_str (String.length a) (a +:+ b) = b.
Proof. induction a as [|x a IH]; [by destruct b|]. rewrite str_app_cons. exact IH. Qed.

Lemma char_at_app (a : string) (c : ascii) (b : string) :
  Py.char_at (a +:+ String c b) (String.length a) = String c "".
Proof. unfold Py.char_at. by rewrite drop_str_app. Qed.

(** The scan for a character that is not a dot succeeds when the character
    just before the last dot is none. *)
Lemma splitext_scan_found (p : string) (d : nat) (c : ascii) :
  Py.char_at p d = String c "" → c ≠ "."%char →
  ∀ n fuel j, (Z.of_nat d + 1 - j = Z.of_nat n)%Z → (0 <= j)%Z → (n ≤ fuel)%nat → (0 < n)%nat →
    Py.splitext_scan fuel p j (Z.of_nat d + 1) = Py.drop_str (S d) p.
Proof.
  intros Hc Hne. induction n as [|n IH]; intros fuel j Hn Hj Hfuel Hpos; [lia|].
  destruct fuel as [|fuel]; [lia|]. cbn [Py.splitext_scan].
  assert (Hlt : (j <? Z.of_nat d + 1)%Z = true) by (apply Z.ltb_lt; lia).
  rewrite Hlt.
  replace (Z.to_nat (Z.of_nat d + 1)) with (S d) by lia.
  destruct (String.eqb (Py.char_at p (Z.to_nat j)) ".") eqn:E; cbn [negb]; [|done].
  destruct n as [|n].
  - exfalso. assert (Z.to_nat j = d) as Hjd by lia. rewrite Hjd, Hc in E.
    apply String.eqb_eq in E. injection E as E. done.
  - apply (IH fuel (j + 1)%Z); lia.
Qed.

(** A name that ends in a character other than a dot or a separator,
    followed by a dot and an extension without dots and separators: the
    extension is what [splitext] splits off. *)
Lemma splitext_ext_app (stem : string) (c : ascii) (e : string) :
  c ≠ "."%char → c ≠ "/"%char → has_char "." e = false → has_char "/" e = false →
  Py.splitext_ext (stem +:+ String c ("." +:+ e)) = "." +:+ e.
Proof.
  intros Hdot Hsep Hed Hes. unfold Py.splitext_ext, Py.rfind.
  set (p := stem +:+ String c ("." +:+ e)).
  assert (Hd : Py.rfind_from 0 "." p (-1) = (Z.of_nat (String.length stem) + 1)%Z).
  { unfold p. rewrite rfind_from_app. cbn [Py.rfind_from].
    rewrite str_app_cons, str_app_nil_l. cbn [Py.rfind_from].
    rewrite Ascii.eqb_refl. rewrite rfind_from_absent by done. lia. }
  assert (Hs : (Py.rfind_from 0 "/" p (-1) < Z.of_nat (String.length stem))%Z
               ∧ (-1 <= Py.rfind_from 0 "/" p (-1))%Z).
  { unfold p. rewrite rfind_from_app. cbn [Py.rfind_from].
    rewrite str_app_cons, str_app_nil_l. cbn [Py.rfind_from].
    assert (Ec : Ascii.eqb c "/" = false) by (by apply Ascii.eqb_neq).
    rewrite Ec. cbn [Ascii.eqb Bool.eqb]. rewrite rfind_from_absent by done.
    destruct (rfind_from_bound "/" stem 0 (-1)) as [->|H]; lia. }
  rewrite Hd. destruct Hs as [Hs1 Hs2].
  assert (Hlt : (Py.rfind_from 0 "/" p (-1) <? Z.of_nat (String.length stem) + 1)%Z = true)
    by (apply Z.ltb_lt; lia).
  rewrite Hlt.
  rewrite (splitext_scan_found p (String.length stem) c) with
    (n := Z.to_nat (Z.of_nat (String.length stem) - Py.rfind_from 0 "/" p (-1))).
  - unfold p.
    change (S (String.length stem)) with (String.length (String c "") + String.length stem)%nat.
    replace (stem +:+ String c ("." +:+ e)) with ((stem +:+ String c "") +:+ ("." +:+ e))
      by (by rewrite str_app_assoc).
    replace (String.length (String c "") + String.length stem)%nat
      with (String.length (stem +:+ String c "")) by (rewrite str_length_app; cbn; lia).
    apply drop_str_app.
  - apply char_at_app.
  - done.
  - lia.
  - lia.
  - subst p. rewrite str_length_app. cbn [String.length]. lia.
  - lia.
Qed.

Lemma lower_app (a b : string) : Py.lower (a +:+ b) = Py.lower a +:+ Py.lower b.
Proof. induction a as [|x a IH]; [done|]. rewrite str_app_cons. cbn [Py.lower]. by rewrite IH. Qed.

Lemma NoDup_only_elem {A} (l : list A) (a : A) :
  NoDup l → (∀ x, x ∈ l ↔ x = a) → l = [a].
Proof.
  intros Hnd Hin. destruct l as [|x l].
  - exfalso. assert (H : a ∈ @nil A) by (by apply Hin). by apply elem_of_nil in H.
  - assert (x = a) as -> by (apply Hin; by left).
    destruct l as [|y l]; [done|]. exfalso.
    assert (y = a) as -> by (apply Hin; right; by left).
    apply NoDup_cons in Hnd as [Hna _]. apply Hna. by left.
Qed.

Lemma is_camera_type (x : Obj) : is_camera x = true ↔ type x = CAMERA.
Proof. unfold is_camera. by destruct (type x). Qed.


Lemma endswith_iff (s p : string) : Py.endswith s p = true ↔ ∃ a, s = a +:+ p.
Proof.
  split.
  - induction s as [|x s IH]; cbn [Py.endswith].
    + destruct (String.eqb "" p) eqn:E; [|done]. apply String.eqb_eq in E as <-.
      by exists "".
    + destruct (String.eqb (String x s) p) eqn:E.
      * apply String.eqb_eq in E as <-. by exists "".
      * intros [a ->]%IH. exists (String x a). by rewrite str_app_cons.
  - intros [a ->]. induction a as [|x a IH].
    + rewrite str_app_nil_l. destruct p; cbn [Py.endswith]; by rewrite String.eqb_refl.
    + rewrite str_app_cons. cbn [Py.endswith]. rewrite IH. by destruct (String.eqb _ _).
Qed.

Lemma lower_split (f a b : string) :
  Py.lower f = a +:+ b → ∃ a' b', f = a' +:+ b' ∧ Py.lower a' = a ∧ Py.lower b' = b.
Proof.
  revert f. induction a as [|x a IH]; intros f H.
  - exists "", f. by rewrite !str_app_nil_l in *.
  - destruct f as [|y f]; rewrite str_app_cons in H; cbn [Py.lower] in H; [done|].
    injection H as Hx H. destruct (IH f H) as (a' & b' & -> & <- & <-).
    exists (String y a'), b'. rewrite str_app_cons. cbn [Py.lower]. by rewrite Hx.
Qed.

Lemma lower_char_idem (c : ascii) : Py.lower_char (Py.lower_char c) = Py.lower_char c.
Proof.
  unfold Py.lower_char.
  destruct ((65 <=? nat_of_ascii c) && (nat_of_ascii c <=? 90))%nat eqn:E.
  - apply andb_true_iff in E as [H1 H2].
    apply Nat.leb_le in H1. apply Nat.leb_le in H2.
    rewrite nat_ascii_embedding by lia.
    assert (H : ((65 <=? nat_of_ascii c + 32) && (nat_of_ascii c + 32 <=? 90))%nat = false).
    { apply andb_false_iff. right. apply Nat.leb_gt. lia. }
    by rewrite H.
  - by rewrite E.
Qed.

Lemma lower_idem (s : string) : Py.lower (Py.lower s) = Py.lower s.
Proof.
  induction s as [|x s IH]; [done|]. cbn [Py.lower]. by rewrite lower_char_idem, IH.
Qed.

(** The names the background filter lets through. *)
Lemma is_image_name_iff (f : string) :
  is_image_name f = true
  ↔ ∃ a e, f = a +:+ e
           ∧ (Py.lower e = ".png" ∨ Py.lower e = ".jpg" ∨ Py.lower e = ".jpeg").
Proof.
  unfold is_image_name. cbn [existsb]. rewrite orb_false_r, !orb_true_iff, !endswith_iff.
  split.
  - intros [[a H]|[[a H]|[a H]]]; apply lower_split in H as (a' & b' & -> & _ & Hb);
      exists a', b'; tauto.
  - intros (a & e & -> & [H|[H|H]]); rewrite lower_app, H; eauto.
Qed.


Section NoMesh.

Context (cfg : Config) (env : Env).

(** Models without a mesh: the loop is still running after any number of
    frames, each of which has printed its error line and drawn one choice. *)
Lemma generation_loop_no_mesh (cam : nat) (bgs : list string) (r : nat) (fuel : nat) :
  MODELS cfg ≠ [] →
  (∀ p, In p (MODELS cfg) →
        supported p = true ∧ succeeds env (CallImport p)
        ∧ ∀ m, Forall (λ x, type x ≠ MESH) (gltf_import env p m)) →
  (r < NUM_IMAGES cfg)%nat →
  ∀ f w, ∃ w',
    generation_loop cfg env fuel cam bgs r f w = Ok None w'
    ∧ files w' = files w
    ∧ stdout w' = stdout w ++ map (msg_no_mesh) (seq (S f) fuel)
    ∧ rng w' = (rng w + fuel)%nat.
Proof.
  intros Hm Hall Hr. apply Nat.ltb_lt in Hr.
  induction fuel as [|fuel IH]; intros f w; cbn [generation_loop]; rewrite Hr.
  - exists w. cbn [seq map]. rewrite app_nil_r, Nat.add_0_r. done.
  - destruct (Hall (pick env (MODELS cfg) (rng w))) as (Hs & Hh & Hno); [by apply pick_in|].
    pose proof (import_and_select_run cfg env w Hm Hs (Hh _)) as Hrun.
    assert (Hnone : first_mesh (objects (imported_world cfg env w))
                      (fst (add_all env (imported cfg env w)
                                    (reset_objects (objects w)))) = None)
      by (apply first_mesh_imported_None, Hno).
    rewrite Hnone in Hrun.
    erewrite bind_ok; [|by apply frame_no_mesh]. cbn [fst snd].
    destruct (IH (S f) (after_no_mesh cfg (S f) (imported_world cfg env w)))
      as (w' & Hloop & Hfiles & Hout & Hrng).
    exists w'. split; [exact Hloop|]. split; [by rewrite Hfiles|].
    split.
    + rewrite Hout. cbn [seq map after_no_mesh stdout set_stdout imported_world].
      by rewrite <- app_assoc.
    + rewrite Hrng. cbn [after_no_mesh rng set_stdout imported_world]. lia.
Qed.

End NoMesh.

(* ===================================================================== *)
(** * What a frame adds to the history                                       *)
(* ===================================================================== *)

Global Instance adds_preorder (q : Event → bool) : PreOrder (adds q).
Proof.
  split.
  - intros w. exists []. by rewrite app_nil_r.
  - intros w1 w2 w3 (evs1 & Hh1 & Hq1) (evs2 & Hh2 & Hq2).
    exists (evs1 ++ evs2). rewrite Hh2, Hh1, app_assoc. split; [done|].
    by apply Forall_app.
Qed.

Ltac adds_prim :=
  first [ by (exists []; cbn; rewrite app_nil_r)
        | by (eexists [_]; cbn; split; [reflexivity | repeat constructor]) ].

Lemma filter_none {A} (q : A → bool) (l : list A) :
  Forall (λ e, negb (q e) = true) l → List.filter q l = [].
Proof.
  induction 1 as [|x l Hx _ IH]; [done|]. cbn [List.filter].
  apply negb_true_iff in Hx. by rewrite Hx.
Qed.

Section ImageEvents.

Context (cfg : Config) (env : Env).

Lemma import_and_select_no_image :
  keeps (adds no_image_event) (import_and_select cfg env).
Proof. keeps_auto; try adds_prim. apply find_mesh_keeps, _. Qed.

Lemma import_and_select_same_node_image :
  keeps (same node_image) (import_and_select cfg env).
Proof. keeps_auto; try reflexivity. apply find_mesh_keeps, _. Qed.

Lemma randomise_object_no_image obj :
  keeps (adds no_image_event) (randomise_object cfg env obj).
Proof. keeps_auto; adds_prim. Qed.

Lemma randomise_camera_no_image cam :
  keeps (adds no_image_event) (randomise_camera cfg env cam).
Proof. keeps_auto; adds_prim. Qed.

Lemma ensure_light_no_image : keeps (adds no_image_event) (ensure_light cfg env).
Proof. keeps_auto; adds_prim. Qed.

Lemma calc_yolo_bbox_no_image obj cam :
  keeps (adds no_image_event) (calc_yolo_bbox cfg env obj cam).
Proof. keeps_auto; adds_prim. Qed.

(** The middle of a frame binds one background of the list, and that is
    its only image event. *)
Lemma randomise_scene_loads obj cam bgs w w2 :
  randomise_scene cfg env obj cam bgs w = Ok tt w2 →
  ∃ bg evs,
    In bg bgs
    ∧ node_image w2 = Some bg
    ∧ history w2 = history w ++ evs
    ∧ List.filter is_image_event evs = [EvLoadImage bg].
Proof.
  unfold randomise_scene. intros H.
  apply bind_ok_inv in H as ([] & wa & Ha & H).
  apply bind_ok_inv in H as ([] & wb & Hb & H).
  apply bind_ok_inv in H as ([] & wc & Hc & H).
  apply bind_ok_inv in H as (bg & wd & Hd & H).
  destruct (keeps_ok _ _ _ _ _ (randomise_object_no_image obj) Ha) as (e1 & Hh1 & Hq1).
  destruct (keeps_ok _ _ _ _ _ (randomise_camera_no_image cam) Hb) as (e2 & Hh2 & Hq2).
  destruct (keeps_ok _ _ _ _ _ ensure_light_no_image Hc) as (e3 & Hh3 & Hq3).
  assert (Hne : bgs ≠ []) by (intros ->; discriminate Hd).
  rewrite (random_choice_run env bgs wc Hne) in Hd. injection Hd as <- <-.
  unfold images_load, emit, bind, modify, host in H.
  destruct (host_error env _ _); [done|]. injection H as <-.
  exists (pick env bgs (rng wc)),
         (e1 ++ e2 ++ e3 ++ [EvChoice (pick env bgs (rng wc));
                             EvLoadImage (pick env bgs (rng wc)); EvViewLayerUpdate]).
  split; [by apply pick_in|]. split; [reflexivity|]. split.
  - cbn [history set_history set_node_image set_rng]. rewrite Hh3, Hh2, Hh1.
    rewrite <- !app_assoc. reflexivity.
  - rewrite !List.filter_app, !filter_none by done. reflexivity.
Qed.

End ImageEvents.

Section FrameCasesBound.

Context (cfg : Config) (env : Env).

(** The three ways a frame returns, with the background it had bound. *)
Lemma frame_inv_bound cam bgs rendered frame_num w r' f' w' :
  frame cfg env cam bgs rendered frame_num w = Ok (r', f') w' →
  (∃ w1, import_and_select cfg env w = Ok None w1
         ∧ r' = rendered ∧ f' = S frame_num
         ∧ w' = after_no_mesh cfg (S frame_num) w1)
  ∨ (∃ obj w1 w2 w3 bg,
       import_and_select cfg env w = Ok (Some obj) w1
       ∧ randomise_scene cfg env obj cam bgs w1 = Ok tt w2
       ∧ calc_yolo_bbox cfg env obj cam w2 = Ok None w3
       ∧ node_image w3 = Some bg
       ∧ r' = rendered ∧ f' = S frame_num
       ∧ w' = after_not_visible cfg (S frame_num) bg w3)
  ∨ (∃ obj w1 w2 w3 bg lbl,
       import_and_select cfg env w = Ok (Some obj) w1
       ∧ randomise_scene cfg env obj cam bgs w1 = Ok tt w2
       ∧ calc_yolo_bbox cfg env obj cam w2 = Ok (Some lbl) w3
       ∧ node_image w3 = Some bg
       ∧ r' = S rendered ∧ f' = S frame_num
       ∧ w' = after_accept cfg (S rendered) frame_num bg lbl w3).
Proof.
  intros H. pose proof H as H0. unfold frame in H0.
  apply bind_ok_inv in H0 as (obj & w1 & H1 & Ht).
  destruct obj as [obj|].
  - unfold frame_tail in Ht.
    apply bind_ok_inv in Ht as ([] & w2 & H2 & Ht).
    apply bind_ok_inv in Ht as (bbox & w3 & H3 & _).
    destruct bbox as [lbl|].
    + destruct (frame_reaches_write cfg env cam bgs rendered frame_num w w1 obj w2 lbl w3
                  H1 H2 H3) as (bg & Hbg & Hf).
      rewrite Hf in H.
      destruct (host_error env (CallRender _) _); [done|].
      destruct (host_error env (CallOpen _) _); [done|].
      injection H as <- <- <-.
      right. right. exists obj, w1, w2, w3, bg, lbl. done.
    + destruct (frame_not_visible cfg env cam bgs rendered frame_num w w1 obj w2 w3 H1 H2 H3)
        as (bg & Hbg & Hf).
      rewrite Hf in H. injection H as <- <- <-.
      right. left. exists obj, w1, w2, w3, bg. done.
  - rewrite (frame_no_mesh cfg env cam bgs rendered frame_num w w1 H1) in H.
    injection H as <- <- <-. left. exists w1. done.
Qed.

End FrameCasesBound.

(* ===================================================================== *)
(** * Numbers in decimal                                                     *)
(* ===================================================================== *)

Lemma split_on_absent (c : ascii) (s : string) :
  has_char c s = false → split_on c s = [s].
Proof.
  induction s as [|a s IH]; [done|]. cbn [has_char split_on].
  intros [Ha Hs]%orb_false_iff. rewrite Ha, IH by done. done.
Qed.

Lemma split_on_app (c : ascii) (a b : string) :
  has_char c a = false → split_on c (a +:+ String c b) = a :: split_on c b.
Proof.
  induction a as [|x a IH]; intros H.
  - rewrite str_app_nil_l. cbn [split_on]. by rewrite Ascii.eqb_refl.
  - cbn [has_char] in H. apply orb_false_iff in H as [Hx Ha].
    rewrite str_app_cons. cbn [split_on]. rewrite Hx, IH by done. done.
Qed.

Lemma has_char_app (c : ascii) (a b : string) :
  has_char c (a +:+ b) = has_char c a || has_char c b.
Proof.
  induction a as [|x a IH]; [done|]. rewrite str_app_cons. cbn [has_char].
  by rewrite IH, orb_assoc.
Qed.

Lemma has_dot_uint (d : Decimal.uint) : has_char "." (NilEmpty.string_of_uint d) = false.
Proof. induction d; cbn [NilEmpty.string_of_uint has_char]; try done; by rewrite IHd. Qed.

Lemma has_space_uint (d : Decimal.uint) : has_char " " (NilEmpty.string_of_uint d) = false.
Proof. induction d; cbn [NilEmpty.string_of_uint has_char]; try done; by rewrite IHd. Qed.

Lemma has_minus_uint (d : Decimal.uint) : has_char "-" (NilEmpty.string_of_uint d) = false.
Proof. induction d; cbn [NilEmpty.string_of_uint has_char]; try done; by rewrite IHd. Qed.

Lemma has_char_zeros (c : ascii) (k : nat) :
  Ascii.eqb "0" c = false → has_char c (Py.repeat_char "0" k) = false.
Proof.
  intros H. induction k as [|k IH]; [done|]. cbn [Py.repeat_char has_char].
  by rewrite H, IH.
Qed.

(** The decimal numeral of a non-negative integer. *)
Lemma str_int_nonneg (z : Z) :
  (0 <= z)%Z →
  ∃ d, Py.str_int z = NilEmpty.string_of_uint d ∧ d ≠ Nil ∧ Z.to_int z = Decimal.Pos d.
Proof.
  intros Hz. unfold Py.str_int, NilZero.string_of_int.
  destruct z as [|p|p]; [| |lia].
  - exists (D0 Nil). done.
  - exists (Pos.to_uint p). cbn [Z.to_int]. split; [|split; [|done]].
    + unfold NilZero.string_of_uint.
      pose proof (DecimalPos.Unsigned.to_uint_nonnil p) as Hn.
      by destruct (Pos.to_uint p).
    + apply DecimalPos.Unsigned.to_uint_nonnil.
Qed.

Lemma parse_Z_str_int (z : Z) : (0 <= z)%Z → parse_Z (Py.str_int z) = Some z.
Proof.
  intros Hz. destruct (str_int_nonneg z Hz) as (d & -> & _ & Hd).
  unfold parse_Z. rewrite NilEmpty.usu. cbn [option_map]. f_equal.
  rewrite <- (DecimalZ.of_to z), Hd. reflexivity.
Qed.

Lemma parse_Z_zeros (k : nat) (s : string) :
  parse_Z (Py.repeat_char "0" k +:+ s) = parse_Z s.
Proof.
  induction k as [|k IH]; [done|]. unfold parse_Z in *.
  cbn [Py.repeat_char]. rewrite str_app_cons. cbn [NilEmpty.uint_of_string].
  destruct (NilEmpty.uint_of_string (Py.repeat_char "0" k +:+ s)) as [d|];
    destruct (NilEmpty.uint_of_string s) as [d'|];
    first [done | cbn in *; by injection IH as <-].
Qed.

Lemma has_dot_str_int (z : Z) : (0 <= z)%Z → has_char "." (Py.str_int z) = false.
Proof. intros Hz. destruct (str_int_nonneg z Hz) as (d & -> & _). apply has_dot_uint. Qed.

Lemma has_minus_str_int (z : Z) : (0 <= z)%Z → has_char "-" (Py.str_int z) = false.
Proof. intros Hz. destruct (str_int_nonneg z Hz) as (d & -> & _). apply has_minus_uint. Qed.

(** The numeral of a negative integer: a minus sign and the numeral of its
    absolute value. *)
Lemma str_int_neg (z : Z) : (z < 0)%Z → Py.str_int z = String "-" (Py.str_int (- z)).
Proof.
  intros Hz. destruct z as [|p|p]; [lia | lia |].
  unfold Py.str_int. cbn [Z.opp Z.to_int NilZero.string_of_int]. reflexivity.
Qed.

Lemma has_space_str_int (z : Z) : has_char " " (Py.str_int z) = false.
Proof.
  destruct (Z_lt_le_dec z 0) as [Hz|Hz].
  - rewrite str_int_neg by done. cbn [has_char Ascii.eqb Bool.eqb orb].
    destruct (str_int_nonneg (- z)) as (d & -> & _); [lia|]. apply has_space_uint.
  - destruct (str_int_nonneg z Hz) as (d & -> & _). apply has_space_uint.
Qed.

(** A text without a minus sign is read as it is. *)
Lemma parse_fixed6_unsigned (s : string) :
  has_char "-" s = false → parse_fixed6 s = parse_unsigned6 s.
Proof.
  destruct s as [|c s]; [done|]. cbn [has_char]. intros [Hc _]%orb_false_iff.
  unfold parse_fixed6.
  destruct c as [[] [] [] [] [] [] [] []]; try reflexivity. discriminate Hc.
Qed.

Lemma parse_int_unsigned (s : string) :
  has_char "-" s = false → parse_int s = parse_Z s.
Proof.
  destruct s as [|c s]; [done|]. cbn [has_char]. intros [Hc _]%orb_false_iff.
  unfold parse_int.
  destruct c as [[] [] [] [] [] [] [] []]; try reflexivity. discriminate Hc.
Qed.

Lemma parse_int_str_int (z : Z) : parse_int (Py.str_int z) = Some z.
Proof.
  destruct (Z_lt_le_dec z 0) as [Hz|Hz].
  - rewrite str_int_neg by done. cbn [parse_int].
    rewrite parse_Z_str_int by lia. cbn [option_map]. f_equal. lia.
  - rewrite parse_int_unsigned by (by apply has_minus_str_int). by apply parse_Z_str_int.
Qed.

Lemma length_string_of_uint (d : Decimal.uint) :
  String.length (NilEmpty.string_of_uint d) = Decimal.nb_digits d.
Proof.
  induction d; cbn [NilEmpty.string_of_uint String.length Decimal.nb_digits];
    try done; by rewrite IHd.
Qed.

(** Reading digits after an accumulator only adds to it. *)
Lemma of_uint_acc_lower (d : Decimal.uint) : ∀ acc,
  (Z.pos acc * 10 ^ Z.of_nat (Decimal.nb_digits d) <= Z.pos (Pos.of_uint_acc d acc))%Z.
Proof.
  induction d; intros acc; cbn [Pos.of_uint_acc Decimal.nb_digits];
    [ rewrite Z.pow_0_r; lia | .. ];
    (etrans; [|apply IHd]);
    rewrite Nat2Z.inj_succ, Z.pow_succ_r by lia;
    (assert (0 < 10 ^ Z.of_nat (Decimal.nb_digits d))%Z by (apply Z.pow_pos_nonneg; lia));
    nia.
Qed.

(** A numeral without leading zeros of [n] digits stands for at least
    [10 ^ (n - 1)]. *)
Lemma to_uint_digits (p : positive) (n : nat) :
  (Z.pos p < 10 ^ Z.of_nat n)%Z → (Decimal.nb_digits (Pos.to_uint p) ≤ n)%nat.
Proof.
  intros Hp.
  pose proof (DecimalPos.Unsigned.of_to p) as Hof.
  pose proof (DecimalPos.Unsigned.to_of (Pos.to_uint p)) as Hnorm.
  rewrite Hof in Hnorm. cbn [N.to_uint] in Hnorm.
  destruct (Pos.to_uint p) as [|l|l|l|l|l|l|l|l|l|l] eqn:E;
    cbn [Decimal.nb_digits]; [lia | ..].
  1:{ exfalso. rewrite DecimalFacts.unorm_D0 in Hnorm.
      assert (Hcase : l = Nil ∨ l ≠ Nil)
        by (destruct l; [by left | right; discriminate ..]).
      destruct Hcase as [->|Hl].
      - by apply (DecimalPos.Unsigned.to_uint_nonzero p).
      - pose proof (DecimalFacts.nb_digits_unorm l Hl) as Hle.
        rewrite <- Hnorm in Hle. cbn [Decimal.nb_digits] in Hle. lia. }
  all: cbn [Pos.of_uint] in Hof; injection Hof as Hof;
    lazymatch type of Hof with
    | Pos.of_uint_acc _ ?k = _ => pose proof (of_uint_acc_lower l k) as Hlow
    end;
    rewrite Hof in Hlow;
    destruct (decide (Decimal.nb_digits l < n)%nat) as [|Hge]; [lia|];
    exfalso;
    assert (10 ^ Z.of_nat n <= 10 ^ Z.of_nat (Decimal.nb_digits l))%Z
      by (apply Z.pow_le_mono_r; lia);
    nia.
Qed.

Lemma length_str_int (z : Z) (n : nat) :
  (0 <= z < 10 ^ Z.of_nat n)%Z → (0 < n)%nat → (String.length (Py.str_int z) ≤ n)%nat.
Proof.
  intros [Hz Hlt] Hn. destruct z as [|p|p]; [cbn; lia | | lia].
  unfold Py.str_int, NilZero.string_of_int. cbn [Z.to_int].
  unfold NilZero.string_of_uint.
  pose proof (DecimalPos.Unsigned.to_uint_nonnil p) as Hnn.
  pose proof (to_uint_digits p n Hlt) as Hd.
  rewrite <- length_string_of_uint in Hd.
  by destruct (Pos.to_uint p).
Qed.

Lemma length_repeat_char (c : ascii) (k : nat) : String.length (Py.repeat_char c k) = k.
Proof. induction k as [|k IH]; [done|]. cbn [Py.repeat_char String.length]. by rewrite IH. Qed.

Lemma length_zfill (k : nat) (s : string) :
  (String.length s ≤ k)%nat → String.length (Py.zfill k s) = k.
Proof.
  intros H. unfold Py.zfill. rewrite str_length_app, length_repeat_char. lia.
Qed.

(* ===================================================================== *)
(** * Six decimals                                                           *)
(* ===================================================================== *)

(** Rounding moves a non-negative fraction by at most one half. *)
Lemma round_half_even_close (q : Q) :
  (0 <= Qnum q)%Z →
  (0 <= Py.round_half_even q)%Z
  ∧ (2 * Z.abs (Py.round_half_even q * Z.pos (Qden q) - Qnum q) <= Z.pos (Qden q))%Z.
Proof.
  intros Hq. unfold Py.round_half_even.
  pose proof (Z.div_mod (Qnum q) (Z.pos (Qden q)) ltac:(lia)) as Hdm.
  pose proof (Z.mod_pos_bound (Qnum q) (Z.pos (Qden q)) ltac:(lia)) as Hm.
  pose proof (Z.div_pos (Qnum q) (Z.pos (Qden q)) Hq ltac:(lia)) as Hd.
  set (quo := (Qnum q / Z.pos (Qden q))%Z) in *.
  set (rem := (Qnum q mod Z.pos (Qden q))%Z) in *.
  destruct (2 * rem <? Z.pos (Qden q))%Z eqn:E1.
  - apply Z.ltb_lt in E1. split; nia.
  - apply Z.ltb_ge in E1.
    destruct (Z.pos (Qden q) <? 2 * rem)%Z eqn:E2.
    + apply Z.ltb_lt in E2. split; nia.
    + apply Z.ltb_ge in E2. destruct (Z.even quo); split; nia.
Qed.

(** Equal fractions round to the same integer. *)
Lemma round_half_even_Qeq (a b : Q) : (a == b)%Q → Py.round_half_even a = Py.round_half_even b.
Proof.
  unfold Qeq, Py.round_half_even. intros H.
  destruct a as [n1 d1], b as [n2 d2]. cbn [Qnum Qden] in *.
  assert (Hq : (n1 / Z.pos d1 = n2 / Z.pos d2)%Z).
  { rewrite <- (Z.div_mul_cancel_r n1 (Z.pos d1) (Z.pos d2)) by lia.
    rewrite H. rewrite (Z.mul_comm (Z.pos d1) (Z.pos d2)).
    apply Z.div_mul_cancel_r; lia. }
  pose proof (Z.div_mod n1 (Z.pos d1) ltac:(lia)) as Hdm1.
  pose proof (Z.div_mod n2 (Z.pos d2) ltac:(lia)) as Hdm2.
  rewrite <- Hq in *.
  set (quo := (n1 / Z.pos d1)%Z) in *.
  set (r1 := (n1 mod Z.pos d1)%Z) in *.
  set (r2 := (n2 mod Z.pos d2)%Z) in *.
  assert (Hr : (r1 * Z.pos d2 = r2 * Z.pos d1)%Z) by nia.
  assert (E1 : (2 * r1 <? Z.pos d1)%Z = (2 * r2 <? Z.pos d2)%Z).
  { destruct (2 * r1 <? Z.pos d1)%Z eqn:Ea; destruct (2 * r2 <? Z.pos d2)%Z eqn:Eb;
      try done; [apply Z.ltb_lt in Ea; apply Z.ltb_ge in Eb
                |apply Z.ltb_ge in Ea; apply Z.ltb_lt in Eb]; nia. }
  assert (E2 : (Z.pos d1 <? 2 * r1)%Z = (Z.pos d2 <? 2 * r2)%Z).
  { destruct (Z.pos d1 <? 2 * r1)%Z eqn:Ea; destruct (Z.pos d2 <? 2 * r2)%Z eqn:Eb;
      try done; [apply Z.ltb_lt in Ea; apply Z.ltb_ge in Eb
                |apply Z.ltb_ge in Ea; apply Z.ltb_lt in Eb]; nia. }
  by rewrite E1, E2.
Qed.

Lemma ltb_Qeq (a b c : Q) : (a == b)%Q → Py.ltb a c = Py.ltb b c.
Proof.
  intros H. unfold Py.ltb. f_equal.
  destruct (Qle_bool c a) eqn:Ea; destruct (Qle_bool c b) eqn:Eb; try done.
  - apply Qle_bool_iff in Ea. rewrite H in Ea. apply Qle_bool_iff in Ea. congruence.
  - apply Qle_bool_iff in Eb. rewrite <- H in Eb. apply Qle_bool_iff in Eb. congruence.
Qed.

(** The text written depends on the value only, not on how the fraction is
    spelt. *)
Lemma format_6f_Qeq (a b : Q) : (a == b)%Q → Py.format_6f a = Py.format_6f b.
Proof.
  intros H. unfold Py.format_6f.
  rewrite (ltb_Qeq a b 0 H).
  rewrite (round_half_even_Qeq (Qabs a * 1000000) (Qabs b * 1000000)); [done|].
  by rewrite H.
Qed.

(** The six decimals of a non-negative value: the digits of the rounded
    millionths. *)
Lemma format_6f_nonneg (v : Q) :
  (0 <= v)%Q →
  ∃ n, (0 <= n)%Z
       ∧ (2 * Z.abs (n * Z.pos (Qden v) - Qnum v * 1000000) <= Z.pos (Qden v))%Z
       ∧ Py.format_6f v
         = Py.str_int (n / 1000000) +:+ "." +:+ Py.zfill 6 (Py.str_int (n mod 1000000)).
Proof.
  intros Hv.
  assert (Hnum : (0 <= Qnum v)%Z).
  { unfold Qle in Hv. cbn in Hv. lia. }
  pose proof (round_half_even_close (Qabs v * 1000000)) as Hr.
  unfold Py.format_6f.
  set (n := Py.round_half_even (Qabs v * 1000000)) in *.
  exists n.
  assert (Hr' : (0 <= n)%Z
                ∧ (2 * Z.abs (n * Z.pos (Qden v) - Qnum v * 1000000) <= Z.pos (Qden v))%Z).
  { destruct v as [vn vd]. unfold Qmult, Qabs in Hr. cbn [Qnum Qden] in *.
    rewrite (Z.abs_eq vn), Pos.mul_1_r in Hr by lia. apply Hr. lia. }
  destruct Hr' as [Hn Hc]. split; [exact Hn|]. split; [exact Hc|].
  assert (Hs : Py.ltb v 0 = false).
  { unfold Py.ltb. apply negb_false_iff. by apply Qle_bool_iff. }
  rewrite Hs. by rewrite str_app_nil_l.
Qed.

Lemma parse_unsigned6_format_6f (v : Q) :
  (0 <= v)%Q →
  ∃ d, parse_unsigned6 (Py.format_6f v) = Some d ∧ close6 d v
       ∧ has_char " " (Py.format_6f v) = false
       ∧ has_char "-" (Py.format_6f v) = false
       ∧ (0 <= d)%Q ∧ ((v <= 1)%Q → (d <= 1)%Q).
Proof.
  intros Hv. destruct (format_6f_nonneg v Hv) as (n & Hn & Hc & ->).
  pose proof (Z.div_pos n 1000000 Hn ltac:(lia)) as Hi.
  pose proof (Z.mod_pos_bound n 1000000 ltac:(lia)) as Hf.
  pose proof (Z.div_mod n 1000000 ltac:(lia)) as Hdm.
  exists (Qmake n 1000000). split; [|split; [|split; [|split; [|split]]]].
  5:{ unfold Qle. cbn [Qnum Qden]. lia. }
  5:{ destruct v as [vn vd]. unfold Qle. cbn [Qnum Qden] in *. intros H1. nia. }
  - unfold parse_unsigned6.
    change ("." +:+ ?s) with (String "." s).
    rewrite split_on_app by (by apply has_dot_str_int).
    rewrite split_on_absent.
    2:{ unfold Py.zfill. rewrite has_char_app, (has_char_zeros "." _) by done.
        apply has_dot_str_int. lia. }
    rewrite length_zfill by (apply length_str_int; [cbn; lia | lia]).
    cbn [Nat.eqb]. rewrite parse_Z_str_int by done.
    unfold Py.zfill. rewrite parse_Z_zeros, parse_Z_str_int by lia.
    do 2 f_equal. lia.
  - unfold close6. apply Qabs_Qle_condition.
    destruct v as [vn vd]. cbn [Qnum Qden] in *.
    unfold Qle, Qminus, Qplus, Qopp; cbn [Qnum Qden]. split; lia.
  - change ("." +:+ ?s) with (String "." s).
    rewrite has_char_app. cbn [has_char Ascii.eqb Bool.eqb orb].
    rewrite has_space_str_int. unfold Py.zfill.
    rewrite has_char_app, (has_char_zeros " " _) by done.
    apply has_space_str_int.
  - change ("." +:+ ?s) with (String "." s).
    rewrite has_char_app. cbn [has_char Ascii.eqb Bool.eqb orb].
    rewrite has_minus_str_int by done. unfold Py.zfill.
    rewrite has_char_app, (has_char_zeros "-" _) by done.
    apply has_minus_str_int. lia.
Qed.

Lemma parse_fixed6_format_6f (v : Q) :
  (0 <= v)%Q →
  ∃ d, parse_fixed6 (Py.format_6f v) = Some d ∧ close6 d v
       ∧ has_char " " (Py.format_6f v) = false.
Proof.
  intros Hv. destruct (parse_unsigned6_format_6f v Hv) as (d & Hp & Hc & Hs & Hm & _).
  exists d. by rewrite parse_fixed6_unsigned.
Qed.

(** A value of the unit interval is read back as one. *)
Lemma parse_fixed6_format_6f_unit (v : Q) :
  unit_interval v →
  ∃ d, parse_fixed6 (Py.format_6f v) = Some d ∧ close6 d v ∧ unit_interval d
       ∧ has_char " " (Py.format_6f v) = false.
Proof.
  intros [Hv H1].
  destruct (parse_unsigned6_format_6f v Hv) as (d & Hp & Hc & Hs & Hm & Hd0 & Hd1).
  exists d. rewrite parse_fixed6_unsigned by done. repeat split; auto.
Qed.

(** So is what a float of that value prints, negative zero included. *)
Lemma parse_fixed6_printed (v : Q) (s : string) :
  (0 <= v)%Q → printed_6f v s →
  ∃ d, parse_fixed6 s = Some d ∧ close6 d v ∧ has_char " " s = false.
Proof.
  intros Hv [->|[H0 ->]].
  - by apply parse_fixed6_format_6f.
  - destruct (parse_unsigned6_format_6f v Hv) as (d & Hp & Hc & Hs & _ & _).
    exists (- d)%Q. change ("-" +:+ ?t) with (String "-" t).
    cbn [parse_fixed6 has_char Ascii.eqb Bool.eqb orb]. rewrite Hp. cbn [option_map].
    split; [done|]. split; [|done].
    unfold close6 in *. apply Qabs_Qle_condition in Hc. apply Qabs_Qle_condition.
    split; lra.
Qed.

(** A label line reads back as its class id and four numbers, each within
    half a millionth of the value written. *)
Lemma parse_label_printed (cfg : Config) (a b c d : Q) (sa sb sc sd : string) :
  (0 <= a)%Q → (0 <= b)%Q → (0 <= c)%Q → (0 <= d)%Q →
  printed_6f a sa → printed_6f b sb → printed_6f c sc → printed_6f d sd →
  ∃ da db dc dd,
    parse_label (Py.str_int (CLASS_ID cfg) +:+ " " +:+ sa +:+ " " +:+ sb +:+ " "
                   +:+ sc +:+ " " +:+ sd)
    = Some (CLASS_ID cfg, [da; db; dc; dd])
    ∧ close6 da a ∧ close6 db b ∧ close6 dc c ∧ close6 dd d.
Proof.
  intros Ha Hb Hc Hd Fa Fb Fc Fd.
  destruct (parse_fixed6_printed a sa Ha Fa) as (da & Pa & Ca & Sa).
  destruct (parse_fixed6_printed b sb Hb Fb) as (db & Pb & Cb & Sb).
  destruct (parse_fixed6_printed c sc Hc Fc) as (dc & Pc & Cc & Sc).
  destruct (parse_fixed6_printed d sd Hd Fd) as (dd & Pd & Cd & Sd).
  exists da, db, dc, dd. split; [|done].
  unfold parse_label.
  repeat change (" " +:+ ?s) with (String " " s).
  rewrite split_on_app by apply has_space_str_int.
  rewrite !split_on_app by done. rewrite split_on_absent by done.
  rewrite parse_int_str_int. cbn [parse_all].
  by rewrite Pa, Pb, Pc, Pd.
Qed.

(** The label line of four values of the unit interval reads back as the
    class id and four values of the unit interval. *)
Lemma parse_label_format_label_unit (cfg : Config) (a b c d : Q) :
  unit_interval a → unit_interval b → unit_interval c → unit_interval d →
  ∃ da db dc dd,
    parse_label (format_label cfg [a; b; c; d]) = Some (CLASS_ID cfg, [da; db; dc; dd])
    ∧ close6 da a ∧ close6 db b ∧ close6 dc c ∧ close6 dd d
    ∧ unit_interval da ∧ unit_interval db ∧ unit_interval dc ∧ unit_interval dd.
Proof.
  intros Ha Hb Hc Hd.
  destruct (parse_fixed6_format_6f_unit a Ha) as (da & Pa & Ca & Ua & Sa).
  destruct (parse_fixed6_format_6f_unit b Hb) as (db & Pb & Cb & Ub & Sb).
  destruct (parse_fixed6_format_6f_unit c Hc) as (dc & Pc & Cc & Uc & Sc).
  destruct (parse_fixed6_format_6f_unit d Hd) as (dd & Pd & Cd & Ud & Sd).
  exists da, db, dc, dd. split; [|done].
  unfold parse_label, format_label. cbn [lookup list_lookup default id].
  repeat change (" " +:+ ?s) with (String " " s).
  rewrite split_on_app by apply has_space_str_int.
  rewrite !split_on_app by done. rewrite split_on_absent by done.
  rewrite parse_int_str_int. cbn [parse_all].
  by rewrite Pa, Pb, Pc, Pd.
Qed.

Lemma parse_label_format_label (cfg : Config) (a b c d : Q) :
  (0 <= a)%Q → (0 <= b)%Q → (0 <= c)%Q → (0 <= d)%Q →
  ∃ da db dc dd,
    parse_label (format_label cfg [a; b; c; d]) = Some (CLASS_ID cfg, [da; db; dc; dd])
    ∧ close6 da a ∧ close6 db b ∧ close6 dc c ∧ close6 dd d.
Proof.
  intros Ha Hb Hc Hd.
  apply (parse_label_printed cfg a b c d); try done; by left.
Qed.

(* ===================================================================== *)
(** * The digits of a frame index                                            *)
(* ===================================================================== *)

Lemma usize_nb_digits (d : Decimal.uint) :
  DecimalNat.Unsigned.usize d = Decimal.nb_digits d.
Proof. induction d; cbn; try done; by rewrite IHd. Qed.

Lemma of_lu_upper (d : Decimal.uint) :
  (DecimalNat.Unsigned.of_lu d < 10 ^ DecimalNat.Unsigned.usize d)%nat.
Proof.
  induction d; cbn [DecimalNat.Unsigned.of_lu DecimalNat.Unsigned.usize];
    rewrite ?Nat.pow_succ_r'; [cbn; lia | lia ..].
Qed.

(** A numeral stands for less than ten to the number of its digits. *)
Lemma of_uint_upper (d : Decimal.uint) : (Nat.of_uint d < 10 ^ Decimal.nb_digits d)%nat.
Proof.
  rewrite DecimalNat.Unsigned.of_uint_alt.
  pose proof (of_lu_upper (Decimal.rev d)) as H.
  by rewrite usize_nb_digits, DecimalFacts.nb_digits_rev in H.
Qed.

(** The numeral of a positive number of [n] digits stands for at least ten
    to the [n - 1]. *)
Lemma to_uint_lower (n : nat) :
  n ≠ 0%nat → (10 ^ (Decimal.nb_digits (Nat.to_uint n) - 1) ≤ n)%nat.
Proof.
  intros Hn.
  pose proof (DecimalNat.Unsigned.of_to n) as Hof.
  pose proof (DecimalNat.Unsigned.to_of (Nat.to_uint n)) as Hnorm.
  rewrite Hof in Hnorm.
  destruct (Nat.to_uint n) as [|l|l|l|l|l|l|l|l|l|l] eqn:E;
    cbn [Decimal.nb_digits]; rewrite ?Nat.sub_0_r.
  1:{ cbn in Hof. lia. }
  1:{ exfalso. rewrite DecimalFacts.unorm_D0 in Hnorm.
      assert (Hcase : l = Nil ∨ l ≠ Nil)
        by (destruct l; [by left | right; discriminate ..]).
      destruct Hcase as [->|Hl].
      - cbn in Hof. lia.
      - pose proof (DecimalFacts.nb_digits_unorm l Hl) as Hle.
        rewrite <- Hnorm in Hle. cbn [Decimal.nb_digits] in Hle. lia. }
  all: unfold Nat.of_uint in Hof; cbn [Nat.of_uint_acc] in Hof;
    rewrite DecimalNat.Unsigned.of_uint_acc_spec, usize_nb_digits in Hof;
    cbn [Nat.tail_mul Nat.tail_addmul Nat.tail_add] in Hof;
    replace (S (Decimal.nb_digits l) - 1)%nat with (Decimal.nb_digits l) by lia;
    nia.
Qed.

Lemma length_str_nat (n : nat) :
  String.length (Py.str_nat n) = Decimal.nb_digits (Nat.to_uint n).
Proof.
  unfold Py.str_nat, NilZero.string_of_uint.
  destruct (Nat.to_uint n) eqn:E; try (rewrite <- length_string_of_uint; reflexivity).
  exfalso. pose proof E as E'.
  apply (f_equal Nat.of_uint) in E'. rewrite DecimalNat.Unsigned.of_to in E'. subst.
  discriminate E.
Qed.

(** The numeral of [n] has [k] digits exactly when [n] lies between the
    powers of ten. *)
Lemma str_nat_digits (n : nat) :
  n ≠ 0%nat →
  (10 ^ (String.length (Py.str_nat n) - 1) ≤ n)%nat
  ∧ (n < 10 ^ String.length (Py.str_nat n))%nat.
Proof.
  intros Hn. rewrite length_str_nat. split; [by apply to_uint_lower|].
  pose proof (of_uint_upper (Nat.to_uint n)) as H.
  by rewrite DecimalNat.Unsigned.of_to in H.
Qed.

(** Five digits up to 99999, and all the digits of the index beyond. *)
Lemma format_05d_width (n : nat) :
  ((n < 10 ^ 5)%nat → String.length (Py.format_05d n) = 5%nat)
  ∧ ((10 ^ 5 ≤ n)%nat → Py.format_05d n = Py.str_nat n
                         ∧ (6 ≤ String.length (Py.format_05d n))%nat).
Proof.
  unfold Py.format_05d. destruct (decide (n = 0%nat)) as [->|Hn].
  { split; [reflexivity|]. intros H. exfalso.
    assert (10 ^ 5 ≠ 0)%nat by (apply Nat.pow_nonzero; lia). lia. }
  destruct (str_nat_digits n Hn) as [Hlo Hhi].
  split.
  - intros Hlt. apply length_zfill.
    destruct (decide (String.length (Py.str_nat n) ≤ 5)%nat) as [|Hgt]; [done|].
    exfalso.
    assert (10 ^ 5 ≤ 10 ^ (String.length (Py.str_nat n) - 1))%nat
      by (apply Nat.pow_le_mono_r; lia).
    lia.
  - intros Hge.
    assert (Hlen : (6 ≤ String.length (Py.str_nat n))%nat).
    { destruct (decide (6 ≤ String.length (Py.str_nat n))%nat) as [|Hlt]; [done|].
      exfalso.
      assert (10 ^ String.length (Py.str_nat n) ≤ 10 ^ 5)%nat
        by (apply Nat.pow_le_mono_r; lia).
      lia. }
    unfold Py.zfill.
    replace (5 - String.length (Py.str_nat n))%nat with 0%nat by lia.
    cbn [Py.repeat_char]. rewrite str_app_nil_l. done.
Qed.

Lemma calc_yolo_bbox_same_scene_camera (cfg : Config) (env : Env) (obj cam : nat) :
  keeps (same scene_camera) (calc_yolo_bbox cfg env obj cam).
Proof. keeps_auto; reflexivity. Qed.

Lemma calc_yolo_bbox_same_objects (cfg : Config) (env : Env) (obj cam : nat) :
  keeps (same objects) (calc_yolo_bbox cfg env obj cam).
Proof. keeps_auto; reflexivity. Qed.

Section LitFrame.

Context (cfg : Config) (env : Env).

(** Lighting leaves everything that is not a fill light where it is. *)
Lemma lit_world_keeps_others (w : World) (k : nat) (x : Obj) :
  objects w !! k = Some x → is_fill x = false →
  objects (lit_world cfg env w) !! k = Some x.
Proof.
  intros Hk Hf.
  assert (H1 : without is_fill (objects w) !! k = Some x)
    by (by apply without_lookup_Some).
  assert (Hne : k ≠ fresh (dom (without is_fill (objects w)))).
  { intros E. pose proof (fresh_key_free (without is_fill (objects w))) as Hfree.
    rewrite <- E in Hfree. congruence. }
  unfold lit_world.
  destruct (keys_where is_sun (without is_fill (objects w))) as [|s ss].
  - unfold first_lit_world. cbn [objects].
    rewrite lookup_insert_ne.
    + by rewrite lookup_insert_ne.
    + intros E. eapply (f_equal (λ j, _ !! j)) in E. rewrite fresh_key_free in E.
      cbv beta in E. rewrite lookup_insert_ne in E by done. congruence.
  - unfold relit_world. cbn [objects]. by rewrite lookup_insert_ne.
Qed.

(** The mesh search answers with a MESH of the scene and changes nothing. *)
Lemma find_mesh_inv (os : list nat) (w : World) (o : nat) (w' : World) :
  find_mesh os w = Ok (Some o) w' → w' = w ∧ has_type MESH o w ∧ o ∈ os.
Proof.
  induction os as [|k os IH]; cbn [find_mesh]; [done|].
  intros H. apply bind_ok_inv in H as (x & w1 & Hx & H).
  unfold get_obj, bind, gets in Hx.
  destruct (objects w !! k) as [y|] eqn:Ek; [|done].
  unfold ret in Hx. injection Hx as <- <-.
  destruct (type y) eqn:Et;
    try (destruct (IH H) as (-> & Hm & Hin); split; [done|]; split; [done | by right]).
  unfold ret in H. injection H as <- <-.
  split; [done|]. split; [exists y; done | by left].
Qed.

Lemma import_and_select_mesh (w : World) (obj : nat) (w1 : World) :
  import_and_select cfg env w = Ok (Some obj) w1 → has_type MESH obj w1.
Proof.
  unfold import_and_select, select_model. intros H.
  apply bind_ok_inv in H as ([] & wa & _ & H).
  apply bind_ok_inv in H as (p & wb & _ & H).
  apply bind_ok_inv in H as (os & wc & _ & H).
  by apply find_mesh_inv in H as (-> & Hm & _).
Qed.

(** The middle of a frame moves the mesh and the camera, then lights. *)
Lemma randomise_scene_moves (obj cam : nat) (bgs : list string) (w : World)
    (xo xc : Obj) (w2 : World) :
  objects w !! obj = Some xo → objects w !! cam = Some xc → obj ≠ cam →
  randomise_scene cfg env obj cam bgs w = Ok tt w2 →
  ∃ wl, objects wl
        = <[cam := randomised_camera cfg env (rng w + 4) xc]>
            (<[obj := randomised_object cfg env (rng w) xo]> (objects w))
        ∧ objects w2 = objects (lit_world cfg env wl).
Proof.
  intros Ho Hc Hne H. unfold randomise_scene in H.
  erewrite bind_ok in H; [|by apply randomise_object_run].
  erewrite bind_ok in H;
    [|apply (randomise_camera_run cfg env cam xc); cbn [objects set_rng set_objects];
      by rewrite lookup_insert_ne].
  erewrite bind_ok in H; [|apply ensure_light_run].
  apply bind_ok_inv in H as (bg & wd & Hd & H).
  assert (Hbg : bgs ≠ []) by (intros ->; discriminate Hd).
  rewrite (random_choice_run env bgs _ Hbg) in Hd. injection Hd as <- <-.
  unfold images_load, emit, bind, modify, host in H.
  destruct (host_error env _ _); [done|]. injection H as <-.
  eexists. split; [|cbn [objects set_history set_node_image set_rng]; reflexivity].
  reflexivity.
Qed.

End LitFrame.

Section Abort.

Context (cfg : Config) (env : Env).

(** The frames before the [k]-th, summed up. *)
Lemma frame_start_outcomes cam bgs (k : nat) : ∀ r f w rk fk wk,
  frame_start cfg env k cam bgs r f w = Some (rk, fk, wk) →
  ∃ outs,
    length outs = k
    ∧ fk = (f + k)%nat
    ∧ rk = (r + length (accepted_of f outs))%nat
    ∧ files wk = foldl (write_pair cfg) (files w) (accepted_of f outs)
    ∧ stdout wk = stdout w ++ log_lines cfg r f outs.
Proof.
  induction k as [|k IH]; intros r f w rk fk wk H; cbn [frame_start] in H.
  - injection H as <- <- <-. exists []. cbn. rewrite !Nat.add_0_r, app_nil_r. done.
  - destruct (r <? NUM_IMAGES cfg)%nat; [|done].
    destruct (frame cfg env cam bgs r f w) as [[r1 f1] w1|] eqn:Hframe; [|done].
    cbn [fst snd] in H.
    apply frame_outcome in Hframe as (o & Ho & -> & -> & Hf1 & Hs1).
    apply IH in H as (outs & Hlen & -> & -> & Hf & Hs).
    exists (o :: outs). split; [cbn; lia|]. split; [lia|].
    rewrite (accepted_of_cons f o outs), (log_lines_cons cfg r f o outs), length_app, foldl_app.
    split; [lia|]. split; [by rewrite Hf, Hf1|]. by rewrite Hs, Hs1, <- app_assoc.
Qed.

(** The head of a frame whose model cannot be imported: the scene is reset,
    the choice is made, and the call raises. *)
Lemma import_and_select_aborts (w : World) :
  MODELS cfg ≠ [] →
  supported (pick env (MODELS cfg) (rng w)) = false →
  ∃ w', import_and_select cfg env w
        = Raise ("Unsupported model format: " +:+ pick env (MODELS cfg) (rng w)) w'
        ∧ files w' = files w ∧ stdout w' = stdout w
        ∧ objects w' = reset_objects (objects w)
        ∧ rng w' = S (rng w).
Proof.
  intros Hm Hs. unfold import_and_select.
  erewrite bind_ok; [|apply clean_scene_run].
  unfold select_model.
  erewrite bind_ok; [|by apply random_choice_run].
  cbn [rng set_history set_rng set_objects].
  erewrite bind_raise; [|by apply import_model_unsupported].
  eexists. split; [reflexivity|]. done.
Qed.

(** The loop raises at the first frame that chooses such a model. *)
Lemma generation_loop_aborts cam bgs (k : nat) : ∀ fuel r f w rk fk wk,
  MODELS cfg ≠ [] →
  frame_start cfg env k cam bgs r f w = Some (rk, fk, wk) →
  (rk < NUM_IMAGES cfg)%nat →
  supported (pick env (MODELS cfg) (rng wk)) = false →
  (k < fuel)%nat →
  ∃ w', generation_loop cfg env fuel cam bgs r f w
        = Raise ("Unsupported model format: " +:+ pick env (MODELS cfg) (rng wk)) w'
        ∧ files w' = files wk ∧ stdout w' = stdout wk
        ∧ objects w' = reset_objects (objects wk)
        ∧ rng w' = S (rng wk).
Proof.
  induction k as [|k IH]; intros fuel r f w rk fk wk Hm H Hr Hs Hk;
    (destruct fuel as [|fuel]; [lia|]); cbn [frame_start] in H; cbn [generation_loop].
  - injection H as <- <- <-. apply Nat.ltb_lt in Hr. rewrite Hr.
    destruct (import_and_select_aborts w Hm Hs) as (w' & Hrun & Hrest).
    exists w'. split; [|exact Hrest].
    unfold frame. erewrite bind_raise; [reflexivity|]. by erewrite bind_raise.
  - destruct (r <? NUM_IMAGES cfg)%nat; [|done].
    destruct (frame cfg env cam bgs r f w) as [[r1 f1] w1|] eqn:Hframe; [|done].
    cbn [fst snd] in H. erewrite bind_ok; [|exact Hframe]. cbn [fst snd].
    apply (IH fuel r1 f1 w1 rk fk wk Hm H Hr Hs). lia.
Qed.

End Abort.

Section Cameras.

Context (cfg : Config) (env : Env).

(** Adding objects one by one adds those a predicate selects to the
    selection. *)
Lemma only_add_all_size (p : Obj → bool) (xs : list Obj) :
  (∀ x nm, p (with_name nm x) = p x) → ∀ m,
  size (only p (snd (add_all env xs m)))
  = (size (only p m) + length (List.filter p xs))%nat.
Proof.
  intros Hnm.
  induction xs as [|x xs IH]; intros m; cbn [add_all snd List.filter]; [cbn [length]; lia|].
  rewrite IH. pose proof (Hnm x (unique_name env (names m) (name x))) as Hx.
  fold (entering env m x) in Hx.
  destruct (p x) eqn:Hp.
  - rewrite only_insert_in by done.
    rewrite map_size_insert_None; [cbn [length]; lia|].
    apply only_lookup_None. intros y. by rewrite fresh_key_free.
  - rewrite only_insert_out; [lia | done |].
    apply only_lookup_None. intros y. by rewrite fresh_key_free.
Qed.

(** Lighting changes lights only. *)
Lemma lit_world_only (p : Obj → bool) (w : World) :
  (∀ x, p x = true → is_light x = false) →
  only p (objects (lit_world cfg env w)) = only p (objects w).
Proof.
  intros Hp.
  assert (Hw : only p (without is_fill (objects w)) = only p (objects w)).
  { apply only_without. intros x Hx. apply not_light_no_fill. by apply Hp. }
  assert (Hnew : ∀ x, is_light x = true → p x = false).
  { intros x Hx. destruct (p x) eqn:E; [|done]. apply Hp in E. congruence. }
  unfold lit_world.
  destruct (keys_where is_sun (without is_fill (objects w))) as [|s ss].
  - unfold first_lit_world. cbn [objects].
    rewrite only_insert_out; [|by apply Hnew|].
    + rewrite only_insert_out; [done | by apply Hnew |].
      apply only_lookup_None. intros x. by rewrite fresh_key_free.
    + apply only_lookup_None. intros x. by rewrite fresh_key_free.
  - unfold relit_world. cbn [objects].
    rewrite only_insert_out; [done | by apply Hnew |].
    apply only_lookup_None. intros x. by rewrite fresh_key_free.
Qed.

End Cameras.

(* ===================================================================== *)
(** * The name Sun                                                           *)
(* ===================================================================== *)

Lemma is_sun_inv (x : Obj) : is_sun x = true ↔ type x = LIGHT ∧ name x = "Sun".
Proof.
  unfold is_sun. destruct (type x); try (split; [done | by intros [? _]]).
  rewrite String.eqb_eq. split; [done | by intros [_ ?]].
Qed.

Lemma not_named_sun (x : Obj) : name x ≠ "Sun" → is_sun x = false.
Proof.
  intros H. destruct (is_sun x) eqn:E; [|done]. by apply is_sun_inv in E as [_ ?].
Qed.

Lemma has_F_uint (d : Decimal.uint) : has_char "F" (NilEmpty.string_of_uint d) = false.
Proof. induction d; cbn [NilEmpty.string_of_uint has_char]; try done; by rewrite IHd. Qed.

Lemma has_F_str_nat (n : nat) : has_char "F" (Py.str_nat n) = false.
Proof.
  unfold Py.str_nat, NilZero.string_of_uint.
  destruct (Nat.to_uint n) eqn:E; try done; rewrite <- E; apply has_F_uint.
Qed.

(** A text that holds another holds its first character. *)
Lemma contains_has_char (c : ascii) (sub s : string) :
  Py.contains s (String c sub) = true → has_char c s = true.
Proof.
  induction s as [|a s IH]; cbn [Py.contains Py.startswith has_char]; [done|].
  destruct (Ascii.eqb a c); [done|]. cbn [orb]. exact IH.
Qed.

Lemma contains_prefix (p s : string) : Py.contains (p +:+ s) p = true.
Proof.
  assert (H : ∀ q t, Py.startswith (q +:+ t) q = true).
  { induction q as [|a q IH]; intros t; [by destruct t|].
    rewrite str_app_cons. cbn [Py.startswith]. by rewrite Ascii.eqb_refl. }
  destruct (p +:+ s) as [|a t] eqn:E; cbn [Py.contains]; rewrite <- E, H; done.
Qed.

Section Naming.

Context (env : Env).
Hypothesis Hnum : numbers_on_clash env.

Lemma renamed_has_dot (taken : gset string) (nm : string) :
  has_char "." (renamed env taken nm) = true.
Proof.
  destruct (Hnum taken nm) as [n ->]. rewrite has_char_app.
  change ("." +:+ ?s) with (String "." s). cbn [has_char Ascii.eqb Bool.eqb orb].
  apply orb_true_r.
Qed.

Lemma renamed_not_sun (taken : gset string) (nm : string) :
  renamed env taken nm ≠ "Sun".
Proof. intros E. pose proof (renamed_has_dot taken nm) as H. by rewrite E in H. Qed.

(** A name other than Sun stays other than Sun; Sun itself is given
    exactly when it is free. *)
Lemma unique_name_not_sun (taken : gset string) (nm : string) :
  nm ≠ "Sun" → unique_name env taken nm ≠ "Sun".
Proof.
  intros H. unfold unique_name. destruct (decide (nm ∈ taken)); [|done].
  apply renamed_not_sun.
Qed.

Lemma unique_name_sun (taken : gset string) :
  unique_name env taken "Sun" = "Sun" ↔ "Sun" ∉ taken.
Proof.
  unfold unique_name. destruct (decide ("Sun" ∈ taken)) as [Hin|Hout].
  - split; [|done]. intros E. by apply renamed_not_sun in E.
  - done.
Qed.

(** The name the sun gets holds no Fill; the name the fill light gets
    does. *)
Lemma unique_name_sun_no_fill (taken : gset string) :
  Py.contains (unique_name env taken "Sun") "Fill" = false.
Proof.
  unfold unique_name. destruct (decide ("Sun" ∈ taken)); [|done].
  destruct (Hnum taken "Sun") as [n ->].
  destruct (Py.contains _ "Fill") eqn:E; [|done].
  apply contains_has_char in E. rewrite !has_char_app in E.
  unfold Py.zfill in E. rewrite has_char_app, has_char_zeros, has_F_str_nat in E by done.
  done.
Qed.

Lemma unique_name_fill (taken : gset string) :
  Py.contains (unique_name env taken "Fill") "Fill" = true.
Proof.
  unfold unique_name. destruct (decide ("Fill" ∈ taken)); [|done].
  destruct (Hnum taken "Fill") as [n ->].
  change (name_stem "Fill") with "Fill". apply contains_prefix.
Qed.

Lemma entering_not_sun (m : gmap nat Obj) (x : Obj) :
  name x ≠ "Sun" → is_sun (entering env m x) = false.
Proof. intros H. apply not_named_sun. by apply unique_name_not_sun. Qed.

End Naming.

(** ** Only lights bear the name Sun *)

Lemma sun_names_lights_without (q : Obj → bool) (m : gmap nat Obj) :
  sun_names_lights m → sun_names_lights (without q m).
Proof. intros H k x [Hk _]%without_lookup_Some. by apply (H k). Qed.

Lemma sun_names_lights_insert (m : gmap nat Obj) (k : nat) (x : Obj) :
  sun_names_lights m → (name x = "Sun" → type x = LIGHT) →
  sun_names_lights (<[k := x]> m).
Proof.
  intros H Hx j y. destruct (decide (k = j)) as [<-|Hne].
  - rewrite lookup_insert_eq. by intros [= <-].
  - rewrite lookup_insert_ne by done. apply H.
Qed.

(** Without a light named Sun the name is free. *)
Lemma no_sun_name_free (m : gmap nat Obj) :
  sun_names_lights m → only is_sun m = ∅ → "Sun" ∉ names m.
Proof.
  intros H He (k & x & Hk & Hn)%elem_of_names.
  assert (Hs : only is_sun m !! k = Some x).
  { apply only_lookup_Some. split; [done|]. apply is_sun_inv. split; [|done]. by apply (H k). }
  by rewrite He, lookup_empty in Hs.
Qed.

Section SunNames.

Context (cfg : Config) (env : Env).
Hypothesis Hnum : numbers_on_clash env.

Lemma sun_names_lights_add_all (xs : list Obj) : ∀ m,
  (∀ x, x ∈ xs → name x ≠ "Sun") →
  sun_names_lights m → sun_names_lights (snd (add_all env xs m)).
Proof.
  induction xs as [|x xs IH]; intros m Hxs Hm; cbn [add_all snd]; [done|].
  apply IH; [intros; apply Hxs; by right|].
  apply sun_names_lights_insert; [done|]. cbn [entering with_name name].
  intros E. apply unique_name_not_sun in E; [done | done | apply Hxs; by left].
Qed.

(** A sun is there: lighting leaves the suns alone and draws four times. *)
Lemma lit_world_old_sun (w : World) :
  suns w ≠ ∅ →
  lit_world cfg env w = relit_world cfg env w
  ∧ suns (lit_world cfg env w) = suns w
  ∧ rng (lit_world cfg env w) = (rng w + 4)%nat.
Proof.
  intros Hsun. unfold lit_world.
  destruct (keys_where is_sun (without is_fill (objects w))) as [|s ss] eqn:E.
  { exfalso. apply Hsun. apply keys_where_nil in E. by rewrite suns_without_fill in E. }
  split; [done|]. split; [|done].
  unfold suns, relit_world. cbn [objects].
  rewrite only_insert_out; [apply suns_without_fill | |].
  - apply not_named_sun. cbn [drawn_fill fill_object name].
    apply unique_name_not_sun; done.
  - apply only_lookup_None. intros x. by rewrite fresh_key_free.
Qed.

(** No sun is there, and nothing else bears the name: lighting creates
    the sun, under that name, with the energy of the first of five
    draws. *)
Lemma lit_world_new_sun (w : World) :
  sun_names_lights (objects w) → suns w = ∅ →
  lit_world cfg env w = first_lit_world cfg env w
  ∧ suns (lit_world cfg env w)
    = {[ fresh (dom (without is_fill (objects w)))
         := sun_object "Sun" (draw env 2 5 (rng w)) ]}
  ∧ rng (lit_world cfg env w) = (rng w + 5)%nat.
Proof.
  intros Hinv Hsun. unfold lit_world.
  destruct (keys_where is_sun (without is_fill (objects w))) as [|s ss] eqn:E.
  2:{ exfalso. assert (Hnil : keys_where is_sun (without is_fill (objects w)) = []).
      { apply keys_where_nil. by rewrite suns_without_fill. }
      congruence. }
  split; [done|]. split; [|done].
  assert (Hfree : unique_name env (names (without is_fill (objects w))) "Sun" = "Sun").
  { apply unique_name_sun; [done|]. apply no_sun_name_free.
    - by apply sun_names_lights_without.
    - by rewrite suns_without_fill. }
  unfold suns, first_lit_world. cbn [objects]. rewrite Hfree.
  rewrite only_insert_out.
  - rewrite only_insert_in by done. rewrite suns_without_fill.
    unfold suns in Hsun. rewrite Hsun. apply insert_empty.
  - apply not_named_sun. cbn [drawn_fill fill_object name].
    apply unique_name_not_sun; done.
  - apply only_lookup_None. intros x. by rewrite fresh_key_free.
Qed.

(** After lighting there is exactly one fill light, the new one: drawn
    after the sun's energy when a sun had to be made. *)
Lemma lit_world_fills (w : World) :
  ∃ fl nm,
    fills (lit_world cfg env w)
    = {[ fl := drawn_fill cfg env nm
                 (rng w + (if decide (suns w = ∅) then 1 else 0)) ]}
    ∧ Py.contains nm "Fill" = true.
Proof.
  assert (Hf : ∀ taken k, is_fill (drawn_fill cfg env (unique_name env taken "Fill") k) = true).
  { intros taken k. unfold is_fill. cbn [drawn_fill fill_object type name].
    by apply unique_name_fill. }
  unfold lit_world.
  destruct (keys_where is_sun (without is_fill (objects w))) as [|s ss] eqn:E.
  - assert (He : suns w = ∅).
    { apply keys_where_nil in E. by rewrite suns_without_fill in E. }
    rewrite decide_True by done.
    eexists _, _. split; [|by apply unique_name_fill].
    unfold fills, first_lit_world. cbn [objects].
    rewrite only_insert_in by apply Hf.
    rewrite only_insert_out.
    + rewrite fills_without_fill. apply insert_empty.
    + unfold is_fill. cbn [sun_object type name]. by apply unique_name_sun_no_fill.
    + apply only_lookup_None. intros x. by rewrite fresh_key_free.
  - assert (Hne : suns w ≠ ∅).
    { intros He. assert (Hnil : keys_where is_sun (without is_fill (objects w)) = []).
      { apply keys_where_nil. by rewrite suns_without_fill. }
      congruence. }
    rewrite decide_False by done.
    eexists _, _. split; [|by apply unique_name_fill].
    unfold fills, relit_world. cbn [objects].
    rewrite only_insert_in by apply Hf.
    rewrite fills_without_fill, Nat.add_0_r. apply insert_empty.
Qed.

Lemma lit_world_sun_names (w : World) :
  sun_names_lights (objects w) → sun_names_lights (objects (lit_world cfg env w)).
Proof.
  intros H. unfold lit_world.
  destruct (keys_where is_sun (without is_fill (objects w))) as [|s ss].
  - unfold first_lit_world. cbn [objects].
    apply sun_names_lights_insert; [|done].
    apply sun_names_lights_insert; [|done].
    by apply sun_names_lights_without.
  - unfold relit_world. cbn [objects].
    apply sun_names_lights_insert; [|done].
    by apply sun_names_lights_without.
Qed.

End SunNames.
Section FrameSuns.

Context (cfg : Config) (env : Env).
Hypothesis Hnum : numbers_on_clash env.
Hypothesis Himp : imports_leave_sun env.

(** A head of a frame that returns has imported the chosen model. *)
Lemma import_and_select_inv (w : World) (o : option nat) (w1 : World) :
  MODELS cfg ≠ [] →
  import_and_select cfg env w = Ok o w1 → w1 = imported_world cfg env w.
Proof.
  intros Hm H.
  destruct (supported (pick env (MODELS cfg) (rng w))) eqn:Hs.
  2:{ destruct (import_and_select_unsupported cfg env w Hm Hs) as (wx & Hx & _).
      congruence. }
  destruct (host_error env (CallImport (pick env (MODELS cfg) (rng w)))
              (importing cfg env w)) as [msg|] eqn:Eh.
  { rewrite (import_and_select_fails cfg env w msg Hm Hs Eh) in H. done. }
  rewrite (import_and_select_run cfg env w Hm Hs Eh) in H. by injection H as _ <-.
Qed.

(** The reset and the import leave every camera and light as it is. *)
Lemma imported_world_keeps (w : World) (k : nat) (x : Obj) :
  objects w !! k = Some x → not_camera_or_light x = false →
  objects (imported_world cfg env w) !! k = Some x.
Proof.
  intros Hk Hx. unfold imported_world. cbn [objects].
  assert (Hr : reset_objects (objects w) !! k = Some x)
    by (by apply without_lookup_Some).
  destruct (add_all_spec env (imported cfg env w) (reset_objects (objects w)))
    as (_ & Hfresh & Hold & _).
  rewrite Hold; [done|]. intros Hin. apply Hfresh in Hin. congruence.
Qed.

(** They neither add nor remove a light named Sun. *)
Lemma imported_world_suns (w : World) : suns (imported_world cfg env w) = suns w.
Proof.
  unfold suns, imported_world. cbn [objects].
  rewrite only_add_all.
  - apply only_without. intros x Hx. by apply light_not_geometry, sun_is_light.
  - intros x m' Hx. apply entering_not_sun; [done|]. by eapply Himp.
Qed.

Lemma imported_world_sun_names (w : World) :
  sun_names_lights (objects w) → sun_names_lights (objects (imported_world cfg env w)).
Proof.
  intros H. unfold imported_world. cbn [objects].
  apply sun_names_lights_add_all; [done | | by apply sun_names_lights_without].
  intros x Hx. by eapply Himp.
Qed.

(** The middle of a frame: the mesh and the camera move on ten draws, then
    the lights are set. *)
Lemma randomise_scene_lit (obj cam : nat) (bgs : list string) (w : World)
    (xo xc : Obj) (w2 : World) :
  objects w !! obj = Some xo → objects w !! cam = Some xc → obj ≠ cam →
  randomise_scene cfg env obj cam bgs w = Ok tt w2 →
  ∃ wl, objects wl
        = <[cam := randomised_camera cfg env (rng w + 4) xc]>
            (<[obj := randomised_object cfg env (rng w) xo]> (objects w))
        ∧ rng wl = (rng w + 10)%nat
        ∧ objects w2 = objects (lit_world cfg env wl).
Proof.
  intros Ho Hc Hne H. unfold randomise_scene in H.
  erewrite bind_ok in H; [|by apply randomise_object_run].
  erewrite bind_ok in H;
    [|apply (randomise_camera_run cfg env cam xc); cbn [objects set_rng set_objects];
      by rewrite lookup_insert_ne].
  erewrite bind_ok in H; [|apply ensure_light_run].
  apply bind_ok_inv in H as (bg & wd & Hd & H).
  assert (Hbg : bgs ≠ []) by (intros ->; discriminate Hd).
  rewrite (random_choice_run env bgs _ Hbg) in Hd. injection Hd as <- <-.
  unfold images_load, emit, bind, modify, host in H.
  destruct (host_error env _ _); [done|]. injection H as <-.
  eexists. split; [|split; [|cbn [objects set_history set_node_image set_rng]; reflexivity]].
  - reflexivity.
  - cbn [rng set_rng set_objects]. lia.
Qed.

(** What a frame that returns does to the scene: it stops after the import
    when that had no mesh, and sets the lights eleven draws on otherwise. *)
Lemma frame_lit (cam : nat) (bgs : list string) (r f : nat) (w : World)
    (r' f' : nat) (w' : World) :
  MODELS cfg ≠ [] → has_type CAMERA cam w →
  frame cfg env cam bgs r f w = Ok (r', f') w' →
  (import_and_select cfg env w = Ok None (imported_world cfg env w)
   ∧ objects w' = objects (imported_world cfg env w)
   ∧ rng w' = rng (imported_world cfg env w))
  ∨ (∃ obj wl, import_and_select cfg env w = Ok (Some obj) (imported_world cfg env w)
        ∧ suns wl = suns w
        ∧ (sun_names_lights (objects w) → sun_names_lights (objects wl))
        ∧ rng wl = (rng w + 11)%nat
        ∧ objects w' = objects (lit_world cfg env wl)).
Proof.
  intros Hm Hcam H.
  pose proof (imported_world_camera cfg env cam w Hcam) as (xc & Hc & Htc).
  assert (Hmid : ∀ obj w2,
            import_and_select cfg env w = Ok (Some obj) (imported_world cfg env w) →
            randomise_scene cfg env obj cam bgs (imported_world cfg env w) = Ok tt w2 →
            ∃ wl, suns wl = suns w
                  ∧ (sun_names_lights (objects w) → sun_names_lights (objects wl))
                  ∧ rng wl = (rng w + 11)%nat
                  ∧ objects w2 = objects (lit_world cfg env wl)).
  { intros obj w2 H1 H2.
    destruct (import_and_select_mesh cfg env w obj _ H1) as (xo & Ho & Hto).
    assert (Hne : obj ≠ cam) by (intros ->; congruence).
    destruct (randomise_scene_lit obj cam bgs _ xo xc w2 Ho Hc Hne H2)
      as (wl & Hwl & Hk & Hobjs).
    exists wl. split; [|split; [|split; [|done]]].
    - unfold suns. rewrite Hwl.
      rewrite (only_update_out is_sun _ cam xc).
      + rewrite (only_update_out is_sun _ obj xo); [apply imported_world_suns | done | |];
          unfold is_sun; cbn [randomised_object type]; by rewrite Hto.
      + by rewrite lookup_insert_ne.
      + unfold is_sun. by rewrite Htc.
      + unfold is_sun. cbn [randomised_camera type]. by rewrite Htc.
    - intros Hinv. rewrite Hwl.
      apply sun_names_lights_insert; [|cbn [randomised_camera name type]].
      + apply sun_names_lights_insert; [by apply imported_world_sun_names|].
        cbn [randomised_object name type].
        intros E. by apply (imported_world_sun_names w Hinv obj xo).
      + intros E. by apply (imported_world_sun_names w Hinv cam xc).
    - rewrite Hk. cbn [imported_world rng]. lia. }
  apply frame_inv in H
    as [(w1 & H1 & -> & -> & ->)
       |[(obj & w1 & w2 & w3 & bg & H1 & H2 & H3 & -> & -> & ->)
        |(obj & w1 & w2 & w3 & bg & lbl & H1 & H2 & H3 & -> & -> & ->)]].
  - left. pose proof (import_and_select_inv w _ _ Hm H1) as ->. done.
  - right. pose proof (import_and_select_inv w _ _ Hm H1) as ->.
    destruct (Hmid obj w2 H1 H2) as (wl & Hs & Hinv & Hk & Hobjs).
    exists obj, wl. do 4 (split; [done|]).
    pose proof (keeps_ok _ _ _ _ _ (calc_yolo_bbox_same_objects cfg env obj cam) H3) as Hsame.
    unfold same in Hsame.
    unfold after_not_visible. cbn [objects set_node_image set_history set_stdout].
    by rewrite Hsame.
  - right. pose proof (import_and_select_inv w _ _ Hm H1) as ->.
    destruct (Hmid obj w2 H1 H2) as (wl & Hs & Hinv & Hk & Hobjs).
    exists obj, wl. do 4 (split; [done|]).
    pose proof (keeps_ok _ _ _ _ _ (calc_yolo_bbox_same_objects cfg env obj cam) H3) as Hsame.
    unfold same in Hsame.
    unfold after_accept. cbn [objects]. by rewrite Hsame.
Qed.

(** A frame leaves a sun that is there as it is, never makes a second, and
    gives the name Sun to nothing but a light. *)
Lemma frame_suns (cam : nat) (bgs : list string) (r f : nat) (w : World)
    (r' f' : nat) (w' : World) :
  MODELS cfg ≠ [] → has_type CAMERA cam w → sun_names_lights (objects w) →
  frame cfg env cam bgs r f w = Ok (r', f') w' →
  (suns w ≠ ∅ → suns w' = suns w)
  ∧ ((size (suns w) ≤ 1)%nat → (size (suns w') ≤ 1)%nat)
  ∧ sun_names_lights (objects w').
Proof.
  intros Hm Hcam Hinv H.
  destruct (frame_lit cam bgs r f w r' f' w' Hm Hcam H)
    as [(_ & Hobjs & _)|(obj & wl & _ & Hs & Hinvl & _ & Hobjs)].
  - assert (Hs : suns w' = suns w)
      by (unfold suns at 1; rewrite Hobjs; apply imported_world_suns).
    rewrite Hs, Hobjs. split; [done|]. split; [done|]. by apply imported_world_sun_names.
  - assert (Hs' : suns w' = suns (lit_world cfg env wl)) by (unfold suns; by rewrite Hobjs).
    split; [|split].
    + intros Hne. destruct (lit_world_old_sun cfg env Hnum wl) as (_ & Hold & _); [congruence|].
      by rewrite Hs', Hold.
    + intros Hle. destruct (decide (suns w = ∅)) as [He|Hne].
      * destruct (lit_world_new_sun cfg env Hnum wl) as (_ & Hnew & _);
          [by apply Hinvl | congruence|].
        rewrite Hs', Hnew, map_size_singleton. done.
      * destruct (lit_world_old_sun cfg env Hnum wl) as (_ & Hold & _); [congruence|].
        by rewrite Hs', Hold, Hs.
    + rewrite Hobjs. by apply lit_world_sun_names, Hinvl.
Qed.

(** So it is over the frames of a run. *)
Lemma frame_start_suns (cam : nat) (bgs : list string) (k : nat) :
  ∀ r f w rk fk wk,
    MODELS cfg ≠ [] → bgs ≠ [] → has_type CAMERA cam w → sun_names_lights (objects w) →
    frame_start cfg env k cam bgs r f w = Some (rk, fk, wk) →
    (suns w ≠ ∅ → suns wk = suns w)
    ∧ ((size (suns w) ≤ 1)%nat → (size (suns wk) ≤ 1)%nat)
    ∧ sun_names_lights (objects wk).
Proof.
  induction k as [|k IH]; intros r f w rk fk wk Hm Hbg Hcam Hinv H; cbn [frame_start] in H.
  - by injection H as <- <- <-.
  - destruct (r <? NUM_IMAGES cfg)%nat; [|done].
    destruct (frame cfg env cam bgs r f w) as [[r1 f1] w1|] eqn:Hf; [|done].
    cbn [fst snd] in H.
    destruct (frame_suns cam bgs r f w r1 f1 w1 Hm Hcam Hinv Hf) as (Hp & Hs & Hinv1).
    pose proof (frame_keeps_camera cfg env cam bgs r f w r1 f1 w1 Hm Hbg Hcam Hf) as Hcam1.
    destruct (IH r1 f1 w1 rk fk wk Hm Hbg Hcam1 Hinv1 H) as (Hp' & Hs' & Hinvk).
    split; [|split; [|done]].
    + intros Hne. rewrite <- (Hp Hne). apply Hp'. by rewrite (Hp Hne).
    + intros Hle. by apply Hs', Hs.
Qed.

End FrameSuns.

(** ** The studio's host *)

Lemma first_free_numbered (taken : gset string) (stem : string) (fuel : nat) : ∀ k,
  ∃ n, Demo.first_free taken stem fuel k = stem +:+ "." +:+ Py.zfill 3 (Py.str_nat n).
Proof.
  induction fuel as [|fuel IH]; intros k; cbn [Demo.first_free]; [by eexists|].
  destruct (decide (_ ∈ taken)); [apply IH | by eexists].
Qed.

Lemma studio_numbers_on_clash : numbers_on_clash Demo.env.
Proof. intros taken nm. apply first_free_numbered. Qed.

Lemma studio_imports_leave_sun : imports_leave_sun Demo.env.
Proof.
  intros p m x Hx. unfold Demo.env, gltf_import, Demo.models in Hx.
  repeat match type of Hx with context [String.eqb ?a ?b] => destruct (String.eqb a b) end.
  all: repeat (apply elem_of_cons in Hx as [Hx|Hx]; [rewrite Hx; discriminate|]).
  all: by apply elem_of_nil in Hx.
Qed.

Lemma studio_reliable : reliable Demo.env.
Proof. by intros c w. Qed.

Lemma studio_unit_draws : unit_draws Demo.env.
Proof. intros k. split; [discriminate | reflexivity]. Qed.

Section MeshStays.

Context (cfg : Config) (env : Env).

Lemma update_obj_missing (o : nat) (f : Obj → Obj) (w : World) :
  objects w !! o = None → raises (update_obj o f w).
Proof. intros H. unfold update_obj, get_obj, bind, gets. by rewrite H. Qed.

(** A camera step that returns had its object. *)
Lemma randomise_camera_inv (cam : nat) (w w' : World) :
  randomise_camera cfg env cam w = Ok tt w' → is_Some (objects w !! cam).
Proof.
  intros H. destruct (objects w !! cam) as [xc|] eqn:E; [by eexists|]. exfalso.
  unfold randomise_camera in H.
  erewrite bind_ok in H; [|apply random_uniform_run].
  apply bind_ok_inv in H as ([] & w1 & H1 & _).
  assert (Hr : raises (update_obj cam
                         (with_lens (draw env (FOCAL_MIN cfg) (FOCAL_MAX cfg) (rng w)))
                         (set_rng (S (rng w)) w)))
    by (by apply update_obj_missing).
  by rewrite H1 in Hr.
Qed.

(** The middle of a frame leaves the mesh a mesh, whatever the camera
    reference points at. *)
Lemma randomise_scene_keeps_mesh (obj cam : nat) (bgs : list string) (w w2 : World) :
  has_type MESH obj w →
  randomise_scene cfg env obj cam bgs w = Ok tt w2 →
  has_type MESH obj w2.
Proof.
  intros (xo & Ho & Hto) H. unfold randomise_scene in H.
  erewrite bind_ok in H; [|by apply randomise_object_run].
  apply bind_ok_inv in H as ([] & wb & Hcam & H).
  destruct (randomise_camera_inv _ _ _ Hcam) as [xc Hc].
  rewrite (randomise_camera_run cfg env cam xc _ Hc) in Hcam. injection Hcam as <-.
  erewrite bind_ok in H; [|apply ensure_light_run].
  apply bind_ok_inv in H as (bg & wd & Hd & H).
  assert (Hbg : bgs ≠ []) by (intros ->; discriminate Hd).
  rewrite (random_choice_run env bgs _ Hbg) in Hd. injection Hd as <- <-.
  unfold images_load, emit, bind, modify, host in H.
  destruct (host_error env _ _); [done|]. injection H as <-.
  cbn [objects set_history set_node_image set_rng set_objects] in *.
  assert (Hx : ∃ x, <[cam := randomised_camera cfg env (rng w + 4) xc]>
                      (<[obj := randomised_object cfg env (rng w) xo]> (objects w)) !! obj
                    = Some x ∧ type x = MESH).
  { destruct (decide (cam = obj)) as [->|Hne].
    - rewrite lookup_insert_eq in Hc. injection Hc as <-.
      eexists. split; [apply lookup_insert_eq | done].
    - eexists. split; [rewrite lookup_insert_ne by done; apply lookup_insert_eq | done]. }
  destruct Hx as (x & Hx & Htx). exists x. split; [|done].
  unfold has_type. cbn [objects set_history set_node_image set_rng].
  apply lit_world_keeps_others; [exact Hx|].
  unfold is_fill. by rewrite Htx.
Qed.

End MeshStays.

Section BoundingBoxFails.

Context (cfg : Config) (env : Env).

(** An object without geometry: [to_mesh] raises, after two host calls. *)
Lemma calc_yolo_bbox_no_geometry (obj cam : nat) (w : World) (xo : Obj) :
  objects w !! obj = Some xo →
  has_geometry xo = false →
  calc_yolo_bbox cfg env obj cam w
  = Raise "RuntimeError: Error: Object does not have geometry data"
      (set_history (history w ++ [EvDepsgraph; EvToMesh obj]) w).
Proof.
  intros Hobj Hg. unfold calc_yolo_bbox.
  unfold bind at 1. unfold emit at 1, modify at 1.
  erewrite bind_ok; [|apply get_obj_ok; exact Hobj].
  unfold to_mesh, bind, emit, modify, raise. rewrite Hg.
  unfold set_history; cbn. by rewrite <- !app_assoc.
Qed.

(** A camera reference that points at something else: the first projection
    raises, and the evaluated mesh is not released. *)
Lemma calc_yolo_bbox_not_camera (obj cam : nat) (w : World) (xo xc : Obj)
    (v : Vec3) (vs : list Vec3) :
  objects w !! obj = Some xo →
  objects w !! cam = Some xc →
  has_geometry xo = true →
  evaluated_vertices env xo = v :: vs →
  is_camera xc = false →
  calc_yolo_bbox cfg env obj cam w
  = Raise "AttributeError: object has no attribute 'view_frame'"
      (set_history
         (history w ++ [EvDepsgraph; EvToMesh obj; EvProject (matrix_world env xo v)]) w).
Proof.
  intros Hobj Hcam Hg Ev Hc. unfold calc_yolo_bbox.
  unfold bind at 1. unfold emit at 1, modify at 1.
  erewrite bind_ok; [|apply get_obj_ok; exact Hobj].
  erewrite bind_ok; [|by apply to_mesh_ok].
  rewrite Ev.
  erewrite bind_ok; [|apply get_obj_ok; exact Hcam].
  cbn [map map_m]. unfold project, bind, emit, modify, raise. rewrite Hc.
  unfold set_history; cbn. by rewrite <- !app_assoc.
Qed.

(** The answer depends on the object and the camera alone. *)
Lemma calc_yolo_bbox_local (obj cam : nat) (wa wb : World) (xo xc : Obj)
    (r : option string) (w3 : World) :
  objects wa !! obj = Some xo → objects wa !! cam = Some xc →
  objects wb !! obj = Some xo → objects wb !! cam = Some xc →
  calc_yolo_bbox cfg env obj cam wa = Ok r w3 →
  ∃ w4, calc_yolo_bbox cfg env obj cam wb = Ok r w4.
Proof.
  intros Hoa Hca Hob Hcb H.
  destruct (has_geometry xo) eqn:Hg.
  2:{ by rewrite (calc_yolo_bbox_no_geometry obj cam wa xo) in H. }
  destruct (evaluated_vertices env xo) as [|v vs] eqn:Ev.
  { rewrite (calc_yolo_bbox_no_vertices cfg env obj cam wa xo) in H by done.
    injection H as <- _. eexists. by apply (calc_yolo_bbox_no_vertices cfg env obj cam wb xo). }
  destruct (is_camera xc) eqn:Hc.
  2:{ by rewrite (calc_yolo_bbox_not_camera obj cam wa xo xc v vs) in H. }
  destruct (visible_coords (projected_points env xo xc)) as [|c cs] eqn:Evis.
  - rewrite (calc_yolo_bbox_none_visible cfg env obj cam wa xo xc) in H
      by (try done; by rewrite Ev).
    injection H as <- _. eexists.
    apply (calc_yolo_bbox_none_visible cfg env obj cam wb xo xc); try done. by rewrite Ev.
  - destruct (calc_yolo_bbox_some_visible cfg env obj cam wa xo xc Hoa Hca Hg Hc)
      as (xmin & xmax & ymin & ymax & E1 & E2 & E3 & E4 & Hrun); [by rewrite Evis|].
    destruct (calc_yolo_bbox_some_visible cfg env obj cam wb xo xc Hob Hcb Hg Hc)
      as (xmin' & xmax' & ymin' & ymax' & E1' & E2' & E3' & E4' & Hrun');
      [by rewrite Evis|].
    rewrite Evis in *.
    assert (xmin' = xmin) as -> by congruence. assert (xmax' = xmax) as -> by congruence.
    assert (ymin' = ymin) as -> by congruence. assert (ymax' = ymax) as -> by congruence.
    rewrite Hrun in H. injection H as <- _. eauto.
Qed.

End BoundingBoxFails.

Section Entering.

Context (env : Env).

(** Each object enters under the name it asks for, or under the host's
    replacement for it when that name is taken. *)
Lemma add_all_names (xs : list Obj) : ∀ m,
  Forall2 (λ o x, ∃ nm, snd (add_all env xs m) !! o = Some (with_name nm x)
                        ∧ (nm = name x
                           ∨ ∃ taken, name x ∈ taken ∧ nm = renamed env taken (name x)))
          (fst (add_all env xs m)) xs.
Proof.
  induction xs as [|x xs IH]; intros m; cbn [add_all fst snd]; [constructor|].
  destruct (add_all_spec env xs (<[fresh (dom m) := entering env m x]> m))
    as (_ & Hfresh & Hold & _).
  constructor; [|apply IH].
  exists (unique_name env (names m) (name x)). split.
  - rewrite Hold; [apply lookup_insert_eq|].
    intros Hin. apply Hfresh in Hin. by rewrite lookup_insert_eq in Hin.
  - unfold unique_name. destruct (decide (name x ∈ names m)); [right; eauto | by left].
Qed.

(** The first object enters under its own name exactly when no object of
    the scene bears it. *)
Lemma add_all_first_name (x : Obj) (xs : list Obj) (m : gmap nat Obj) :
  snd (add_all env (x :: xs) m) !! fresh (dom m)
  = Some (with_name (if decide (name x ∈ names m)
                     then renamed env (names m) (name x) else name x) x).
Proof.
  cbn [add_all snd].
  destruct (add_all_spec env xs (<[fresh (dom m) := entering env m x]> m))
    as (_ & Hfresh & Hold & _).
  rewrite Hold; [apply lookup_insert_eq|].
  intros Hin. apply Hfresh in Hin. by rewrite lookup_insert_eq in Hin.
Qed.

End Entering.

(* ===================================================================== *)
(** * The background downloader                                              *)
(* ===================================================================== *)

Lemma parse_nat_str_nat (i : nat) : parse_nat (Py.str_nat i) = Some i.
Proof.
  unfold Py.str_nat, parse_nat, NilZero.string_of_uint.
  destruct (Nat.to_uint i) as [| | | | | | | | | |] eqn:E;
    try (rewrite <- E at 1; rewrite NilEmpty.usu; cbn [option_map];
         by rewrite DecimalNat.Unsigned.of_to).
  apply (f_equal Nat.of_uint) in E. rewrite DecimalNat.Unsigned.of_to in E.
  by subst.
Qed.

Lemma str_nat_inj (i j : nat) : Py.str_nat i = Py.str_nat j → i = j.
Proof.
  intros H. apply (f_equal parse_nat) in H. rewrite !parse_nat_str_nat in H.
  by injection H.
Qed.

Module BackgroundGeneratorFacts.
Import BackgroundGenerator.

Lemma bg_path_inj (i j : nat) : bg_path i = bg_path j → i = j.
Proof.
  unfold bg_path, bg_name. intros H.
  apply (String.app_inj "backgrounds/") in H.
  apply (String.app_inj "bg_") in H.
  by apply str_app_inj_r, str_nat_inj in H.
Qed.

Lemma download_stdout net i url s :
  stdout (download net i url s) = stdout s ++ [line_of net i url].
Proof. unfold download, line_of. by destruct (attempt net url). Qed.

Lemma download_made net i url s : made (download net i url s) = made s.
Proof. unfold download. by destruct (attempt net url). Qed.

Lemma download_files net i url s :
  files (download net i url s)
  = match attempt net url with
    | inr body => <[bg_path i := body]> (files s)
    | inl _ => files s
    end.
Proof. unfold download. by destruct (attempt net url). Qed.

Lemma for_enumerate_made net us : ∀ i s, made (for_enumerate net i us s) = made s.
Proof.
  induction us as [|u us IH]; intros i s; cbn [for_enumerate]; [done|].
  by rewrite IH, download_made.
Qed.

Lemma for_enumerate_stdout net us : ∀ i s,
  stdout (for_enumerate net i us s) = stdout s ++ imap (λ k, line_of net (i + k)) us.
Proof.
  induction us as [|u us IH]; intros i s; cbn [for_enumerate imap].
  - by rewrite app_nil_r.
  - rewrite IH, download_stdout, <- app_assoc. cbn [app]. rewrite Nat.add_0_r.
    do 2 f_equal. apply imap_ext. intros k x _. cbn. f_equal. lia.
Qed.

(** A path the loop does not write keeps what it held. *)
Lemma for_enumerate_other net us : ∀ i s p,
  (∀ k, (k < length us)%nat → p ≠ bg_path (i + k)) →
  files (for_enumerate net i us s) !! p = files s !! p.
Proof.
  induction us as [|u us IH]; intros i s p Hp; cbn [for_enumerate]; [done|].
  rewrite IH.
  - rewrite download_files. destruct (attempt net u); [done|].
    rewrite lookup_insert_ne; [done|]. intros E. apply (Hp 0%nat); [cbn; lia|].
    by rewrite Nat.add_0_r.
  - intros k Hk. replace (S i + k)%nat with (i + S k)%nat by lia. apply Hp. cbn. lia.
Qed.

(** The path of address number [k] holds its body if the download went
    well, and what it held before otherwise. *)
Lemma for_enumerate_lookup net us : ∀ i s k url,
  us !! k = Some url →
  files (for_enumerate net i us s) !! bg_path (i + k)
  = match attempt net url with
    | inr body => Some body
    | inl _ => files s !! bg_path (i + k)
    end.
Proof.
  induction us as [|u us IH]; intros i s k url Hk; [done|]. cbn [for_enumerate].
  destruct k as [|k].
  - injection Hk as ->. rewrite Nat.add_0_r.
    rewrite for_enumerate_other.
    + rewrite download_files. destruct (attempt net url); [done|]. apply lookup_insert_eq.
    + intros j _ E. apply bg_path_inj in E. lia.
  - cbn in Hk. replace (i + S k)%nat with (S i + k)%nat by lia.
    rewrite (IH (S i) _ k url Hk). destruct (attempt net url); [|done].
    rewrite download_files. destruct (attempt net u); [done|].
    rewrite lookup_insert_ne; [done|]. intros E. apply bg_path_inj in E. lia.
Qed.

End BackgroundGeneratorFacts.

(* ===================================================================== *)
(** * The claims of the specification                                        *)
(* ===================================================================== *)

(** C1. When at least one projected point is visible - it lies in the unit
    square and has positive depth - [calc_yolo_bbox] answers with a line
    that reads back as the class id and four numbers: cx = (xmin+xmax)/2,
    cy = 1 - (ymin+ymax)/2 (the vertical axis flipped), w = xmax - xmin and
    h = ymax - ymin, each to six decimals, where the extremes are taken over
    the visible points.  The four numbers lie in the unit interval.  The
    line is the f-string of the four values after the clamping loop, which
    replaces each value by its clamp: 0 below the unit interval, 1 above it,
    the value itself inside. *)
Theorem calc_yolo_bbox_label (cfg : Config) (env : Env) (obj cam : nat) (w : World)
    (xo xc : Obj) :
  objects w !! obj = Some xo →
  objects w !! cam = Some xc →
  type xo = MESH →
  type xc = CAMERA →
  visible_coords (projected_points env xo xc) ≠ [] →
  ∃ xmin xmax ymin ymax line w' cx cy bw bh,
    least xmin (map vx (visible_coords (projected_points env xo xc)))
    ∧ greatest xmax (map vx (visible_coords (projected_points env xo xc)))
    ∧ least ymin (map vy (visible_coords (projected_points env xo xc)))
    ∧ greatest ymax (map vy (visible_coords (projected_points env xo xc)))
    ∧ (∀ c, In c (visible_coords (projected_points env xo xc))
            ↔ In c (projected_points env xo xc)
              ∧ (0 <= vx c)%Q ∧ (vx c <= 1)%Q ∧ (0 <= vy c)%Q ∧ (vy c <= 1)%Q
              ∧ (0 < vz c)%Q)
    ∧ calc_yolo_bbox cfg env obj cam w = Ok (Some line) w'
    ∧ line = format_label cfg
               (clamp_loop (seq 0 4)
                  [ ((xmin + xmax) / 2)%Q; (1 - (ymin + ymax) / 2)%Q;
                    (xmax - xmin)%Q; (ymax - ymin)%Q ])
    ∧ parse_label line = Some (CLASS_ID cfg, [cx; cy; bw; bh])
    ∧ close6 cx ((xmin + xmax) / 2)
    ∧ close6 cy (1 - (ymin + ymax) / 2)
    ∧ close6 bw (xmax - xmin)
    ∧ close6 bh (ymax - ymin)
    ∧ unit_interval cx ∧ unit_interval cy ∧ unit_interval bw ∧ unit_interval bh
    ∧ (∀ a b c d, clamp_loop (seq 0 4) [a; b; c; d] = [clamp a; clamp b; clamp c; clamp d])
    ∧ (∀ v, ((v < 0)%Q → clamp v = 0%Q)
            ∧ ((1 < v)%Q → clamp v = 1%Q)
            ∧ ((0 <= v)%Q → (v <= 1)%Q → clamp v = v)).
Proof.
  intros Hobj Hcam Hto Htc Hvis.
  assert (Hg : has_geometry xo = true) by (by apply mesh_has_geometry).
  assert (Hic : is_camera xc = true) by (unfold is_camera; by rewrite Htc).
  destruct (calc_yolo_bbox_some_visible cfg env obj cam w xo xc Hobj Hcam Hg Hic Hvis)
    as (xmin & xmax & ymin & ymax & Exmin & Exmax & Eymin & Eymax & Hrun).
  pose proof (min_seq_Some_least _ _ Exmin) as Lx.
  pose proof (max_seq_Some_greatest _ _ Exmax) as Gx.
  pose proof (min_seq_Some_least _ _ Eymin) as Ly.
  pose proof (max_seq_Some_greatest _ _ Eymax) as Gy.
  pose proof (visible_extremes _ xmin xmax ymin ymax
                (visible_coords_all (projected_points env xo xc)) Lx Gx Ly Gy) as Hunit.
  pose proof Hunit as Hraw. unfold raw_bbox in Hraw.
  apply Forall_cons in Hraw as [U1 Hraw]. apply Forall_cons in Hraw as [U2 Hraw].
  apply Forall_cons in Hraw as [U3 Hraw]. apply Forall_cons in Hraw as [U4 _].
  destruct (parse_label_format_label_unit cfg _ _ _ _ U1 U2 U3 U4)
    as (cx & cy & bw & bh & Hparse & C1 & C2 & C3 & C4 & V1 & V2 & V3 & V4).
  exists xmin, xmax, ymin, ymax. eexists _, _. exists cx, cy, bw, bh.
  do 4 (split; [done|]). split; [apply visible_coords_iff|].
  split; [exact Hrun|]. split; [reflexivity|].
  split.
  { rewrite (map_clamp_unit _ Hunit). exact Hparse. }
  do 8 (split; [done|]). split; [reflexivity|].
  intros v. split; [apply clamp_below|]. split; [apply clamp_above | apply clamp_id].
Qed.

(** C1, run on the studio: the can spans x = 0.3 .. 0.7 and y = 0.2 .. 0.8,
    and the line reads back as class 0 and the box 0.5, 0.5, 0.4, 0.6. *)
Lemma calc_yolo_bbox_label_witness :
  Demo.set_up.(objects) !! 1%nat = Some Demo.can_obj
  ∧ Demo.set_up.(objects) !! 0%nat = Some Demo.camera_obj
  ∧ type Demo.can_obj = MESH
  ∧ type Demo.camera_obj = CAMERA
  ∧ visible_coords (projected_points Demo.env Demo.can_obj Demo.camera_obj) ≠ []
  ∧ ∃ line w', calc_yolo_bbox (Demo.cfg [] 1) Demo.env 1 0 Demo.set_up = Ok (Some line) w'
               ∧ parse_label line
                 = Some (0%Z, [Qmake 500000 1000000; Qmake 500000 1000000;
                               Qmake 400000 1000000; Qmake 600000 1000000]).
Proof.
  assert (H1 : Demo.set_up.(objects) !! 1%nat = Some Demo.can_obj) by reflexivity.
  assert (H0 : Demo.set_up.(objects) !! 0%nat = Some Demo.camera_obj) by reflexivity.
  assert (Hv : visible_coords (projected_points Demo.env Demo.can_obj Demo.camera_obj) ≠ [])
    by (vm_compute; discriminate).
  do 2 (split; [assumption|]). do 2 (split; [reflexivity|]). split; [assumption|].
  destruct (calc_yolo_bbox_label (Demo.cfg [] 1) Demo.env 1 0 Demo.set_up
              Demo.can_obj Demo.camera_obj H1 H0 eq_refl eq_refl Hv)
    as (xmin & xmax & ymin & ymax & line & w' & cx & cy & bw & bh
        & _ & _ & _ & _ & _ & Hrun & _).
  exists line, w'. split; [exact Hrun|].
  assert (Hl : calc_yolo_bbox (Demo.cfg [] 1) Demo.env 1 0 Demo.set_up
               = Ok (Some "0 0.500000 0.500000 0.400000 0.600000")
                    (world_of (calc_yolo_bbox (Demo.cfg [] 1) Demo.env 1 0 Demo.set_up)))
    by (vm_compute; reflexivity).
  rewrite Hrun in Hl. injection Hl as ->. vm_compute. reflexivity.
Defined.

(** The vertical flip on the studio's can: y spans 0.2 .. 0.8 and the label
    reads cy = 0.500000; x spans 0.3 .. 0.7. *)
Example calc_yolo_bbox_demo :
  ∃ w', calc_yolo_bbox (Demo.cfg [] 1) Demo.env 1 0 Demo.set_up
        = Ok (Some "0 0.500000 0.500000 0.400000 0.600000") w'.
Proof. eexists. vm_compute. reflexivity. Qed.

(** An overshooting extent is brought back: a width of 1.07 is written as 1,
    a negative one as 0. *)
Example clamp_overshoot :
  clamp ((102 # 100) - (- (5 # 100))) = 1%Q ∧ clamp (- (5 # 100)) = 0%Q.
Proof. split; reflexivity. Qed.

(** C9. The clamping loop changes nothing: the visible points lie in the
    unit square, so cx, cy, w and h already lie in the unit interval, and
    [calc_yolo_bbox] without the loop returns the same answer and leaves the
    same world, whatever the input. *)
Theorem clamp_loop_is_noop (cfg : Config) (env : Env) (obj cam : nat) (w : World) :
  calc_yolo_bbox cfg env obj cam w = calc_yolo_bbox_unclamped cfg env obj cam w.
Proof.
  unfold calc_yolo_bbox, calc_yolo_bbox_unclamped.
  apply bind_ext. intros [] w1 _.
  apply bind_ext. intros xo w2 _.
  apply bind_ext. intros mesh_vertices w3 _.
  destruct mesh_vertices as [|v vs]; [reflexivity|].
  apply bind_ext. intros xc w4 _.
  apply bind_ext. intros coords w5 _.
  apply bind_ext. intros [] w6 _.
  destruct (visible_coords coords) as [|c cs] eqn:Ev; [reflexivity|].
  rewrite <- Ev.
  apply bind_ext. intros xmin w7 [Hxmin _]%seq_extreme_ok.
  apply bind_ext. intros xmax w8 [Hxmax _]%seq_extreme_ok.
  apply bind_ext. intros ymin w9 [Hymin _]%seq_extreme_ok.
  apply bind_ext. intros ymax w10 [Hymax _]%seq_extreme_ok.
  rewrite clamp_loop_raw_bbox, map_clamp_unit; [reflexivity|].
  apply (visible_extremes (visible_coords coords)).
  - apply visible_coords_all.
  - by apply min_seq_Some_least.
  - by apply max_seq_Some_greatest.
  - by apply min_seq_Some_least.
  - by apply max_seq_Some_greatest.
Qed.

(** C10. A mesh whose evaluated mesh has no vertex makes [calc_yolo_bbox]
    answer [None] after three host calls, none of them a projection; the
    frame is then discarded the way a frustum-excluded one is: it prints the
    'Object not visible' message (not the 'No MESH' one), releases the
    background, leaves the files alone, keeps the accepted count and moves the
    frame index by one. *)
Theorem empty_mesh_not_visible (cfg : Config) (env : Env) (cam : nat)
    (bgs : list string) (rendered frame_num : nat)
    (w w1 w2 : World) (obj : nat) (xo : Obj) :
  import_and_select cfg env w = Ok (Some obj) w1 →
  randomise_scene cfg env obj cam bgs w1 = Ok tt w2 →
  objects w2 !! obj = Some xo →
  evaluated_vertices env xo = [] →
  ∃ w3 bg,
    calc_yolo_bbox cfg env obj cam w2 = Ok None w3
    ∧ history w3 = history w2 ++ [EvDepsgraph; EvToMesh obj; EvToMeshClear obj]
    ∧ node_image w3 = Some bg
    ∧ frame cfg env cam bgs rendered frame_num w
      = Ok (rendered, S frame_num) (after_not_visible cfg (S frame_num) bg w3)
    ∧ stdout (after_not_visible cfg (S frame_num) bg w3)
      = stdout w3 ++ [msg_not_visible (S frame_num)]
    ∧ msg_not_visible (S frame_num) ≠ msg_no_mesh (S frame_num)
    ∧ silent w (after_not_visible cfg (S frame_num) bg w3).
Proof.
  intros H1 H2 Hobj Hv.
  assert (Hg : has_geometry xo = true).
  { pose proof (import_and_select_mesh cfg env w obj w1 H1) as Hmesh.
    destruct (randomise_scene_keeps_mesh cfg env obj cam bgs w1 w2 Hmesh H2)
      as (x & Hx & Htx).
    apply mesh_has_geometry. congruence. }
  pose proof (calc_yolo_bbox_no_vertices cfg env obj cam w2 xo Hobj Hg Hv) as H3.
  destruct (frame_not_visible cfg env cam bgs rendered frame_num w w1 obj w2 _ H1 H2 H3)
    as (bg & Hbg & Hframe).
  eexists _, bg. split; [exact H3|]. split; [reflexivity|].
  split; [exact Hbg|]. split; [exact Hframe|]. split; [reflexivity|].
  split; [apply msg_not_visible_ne_no_mesh|].
  etrans; [exact (keeps_ok _ _ _ _ _ (import_and_select_silent cfg env) H1)|].
  etrans; [exact (keeps_ok _ _ _ _ _ (randomise_scene_silent cfg env obj cam bgs) H2)|].
  etrans; [exact (keeps_ok _ _ _ _ _ (calc_yolo_bbox_silent cfg env obj cam) H3)|].
  apply after_not_visible_silent.
Qed.

(** C10, run on the studio with the vertex-less model. *)
Lemma empty_mesh_not_visible_witness :
  let cfg := Demo.cfg ["/m/void.glb"] 1 in
  let w1 := world_of (import_and_select cfg Demo.env Demo.stage) in
  let w2 := world_of (randomise_scene cfg Demo.env 1 0 Demo.backgrounds w1) in
  ∃ xo,
    import_and_select cfg Demo.env Demo.stage = Ok (Some 1%nat) w1
    ∧ randomise_scene cfg Demo.env 1 0 Demo.backgrounds w1 = Ok tt w2
    ∧ objects w2 !! 1%nat = Some xo
    ∧ evaluated_vertices Demo.env xo = []
    ∧ ∃ w', frame cfg Demo.env 0 Demo.backgrounds 0 0 Demo.stage = Ok (0%nat, 1%nat) w'.
Proof.
  intros cfg w1 w2.
  assert (H1 : import_and_select cfg Demo.env Demo.stage = Ok (Some 1%nat) w1)
    by (vm_compute; reflexivity).
  assert (H2 : randomise_scene cfg Demo.env 1 0 Demo.backgrounds w1 = Ok tt w2)
    by (vm_compute; reflexivity).
  destruct (objects w2 !! 1%nat) as [xo|] eqn:Hobj; [|by vm_compute in Hobj].
  assert (Hv : evaluated_vertices Demo.env xo = []).
  { vm_compute in Hobj. injection Hobj as <-. reflexivity. }
  exists xo. do 4 (split; [done|]).
  destruct (empty_mesh_not_visible cfg Demo.env 0 Demo.backgrounds 0 0
              Demo.stage w1 w2 1 xo H1 H2 Hobj Hv)
    as (w3 & bg & _ & _ & _ & Hframe & _).
  eauto.
Defined.

(** C3. A frame in which the model is imported and has no MESH object, or
    in which no point of the mesh, projected through the camera, lies in the
    unit square with positive depth, is discarded: nothing is rendered, no file is written, the
    accepted count stays, the frame index moves by exactly one, and the loop
    goes on with the next frame. *)
Theorem discarded_frame (cfg : Config) (env : Env) (cam : nat) (bgs : list string)
    (rendered frame_num : nat) (w : World) :
  (MODELS cfg ≠ []
   ∧ supported (pick env (MODELS cfg) (rng w)) = true
   ∧ host_error env (CallImport (pick env (MODELS cfg) (rng w))) (importing cfg env w)
     = None
   ∧ Forall (λ x, type x ≠ MESH) (imported cfg env w))
  ∨ (∃ obj w1 w2 xo xc,
       import_and_select cfg env w = Ok (Some obj) w1
       ∧ randomise_scene cfg env obj cam bgs w1 = Ok tt w2
       ∧ objects w2 !! obj = Some xo
       ∧ objects w2 !! cam = Some xc
       ∧ type xc = CAMERA
       ∧ visible_coords (projected_points env xo xc) = []) →
  ∃ w',
    frame cfg env cam bgs rendered frame_num w = Ok (rendered, S frame_num) w'
    ∧ files w' = files w
    ∧ (∃ evs, history w' = history w ++ evs
              ∧ Forall (λ e, is_render e = false ∧ is_write e = false) evs)
    ∧ ∀ fuel, (rendered < NUM_IMAGES cfg)%nat →
        generation_loop cfg env (S fuel) cam bgs rendered frame_num w
        = generation_loop cfg env fuel cam bgs rendered (S frame_num) w'.
Proof.
  intros Hcase.
  assert (Hframe : ∃ w', frame cfg env cam bgs rendered frame_num w
                         = Ok (rendered, S frame_num) w' ∧ silent w w').
  { destruct Hcase
      as [(Hm & Hs & Hh & Hno)
         | (obj & w1 & w2 & xo & xc & H1 & H2 & Ho & Hc & Htc & Hv)].
    - pose proof (import_and_select_run cfg env w Hm Hs Hh) as H1.
      unfold imported_world in H1 at 1. cbn [objects] in H1.
      rewrite first_mesh_imported_None in H1 by done.
      eexists. split; [by apply frame_no_mesh|].
      etrans; [exact (keeps_ok _ _ _ _ _ (import_and_select_silent cfg env) H1)|].
      apply after_no_mesh_silent.
    - assert (Hg : has_geometry xo = true).
      { pose proof (import_and_select_mesh cfg env w obj w1 H1) as Hmesh.
        destruct (randomise_scene_keeps_mesh cfg env obj cam bgs w1 w2 Hmesh H2)
          as (x & Hx & Htx).
        apply mesh_has_geometry. congruence. }
      assert (H3 : ∃ w3, calc_yolo_bbox cfg env obj cam w2 = Ok None w3).
      { destruct (evaluated_vertices env xo) as [|v vs] eqn:Ev.
        - eexists. by apply (calc_yolo_bbox_no_vertices cfg env obj cam w2 xo).
        - assert (Hic : is_camera xc = true) by (unfold is_camera; by rewrite Htc).
          eexists. apply (calc_yolo_bbox_none_visible cfg env obj cam w2 xo xc);
            [done | done | done | done | by rewrite Ev | done]. }
      destruct H3 as [w3 H3].
      destruct (frame_not_visible cfg env cam bgs rendered frame_num w w1 obj w2 w3 H1 H2 H3)
        as (bg & _ & Hf).
      eexists. split; [exact Hf|].
      etrans; [exact (keeps_ok _ _ _ _ _ (import_and_select_silent cfg env) H1)|].
      etrans; [exact (keeps_ok _ _ _ _ _ (randomise_scene_silent cfg env obj cam bgs) H2)|].
      etrans; [exact (keeps_ok _ _ _ _ _ (calc_yolo_bbox_silent cfg env obj cam) H3)|].
      apply after_not_visible_silent. }
  destruct Hframe as (w' & Hf & Hfiles & Hhist).
  exists w'. split; [exact Hf|]. split; [exact Hfiles|]. split; [exact Hhist|].
  intros fuel Hlt. cbn [generation_loop].
  apply Nat.ltb_lt in Hlt. rewrite Hlt.
  erewrite bind_ok; [|exact Hf]. reflexivity.
Qed.

(** C3, run on the studio: once with the model that has no mesh, once with
    the mesh that is out of sight. *)
Lemma discarded_frame_witness :
  (∃ w', frame (Demo.cfg ["/m/rig.glb"] 1) Demo.env 0 Demo.backgrounds 0 4 Demo.stage
         = Ok (0%nat, 5%nat) w' ∧ files w' = files Demo.stage)
  ∧ (∃ w', frame (Demo.cfg ["/m/far.glb"] 1) Demo.env 0 Demo.backgrounds 0 4 Demo.stage
           = Ok (0%nat, 5%nat) w' ∧ files w' = files Demo.stage).
Proof.
  split.
  - destruct (discarded_frame (Demo.cfg ["/m/rig.glb"] 1) Demo.env 0 Demo.backgrounds
                0 4 Demo.stage) as (w' & Hf & Hfiles & _).
    + left. split; [discriminate|]. split; [reflexivity|]. split; [reflexivity|].
      vm_compute. repeat constructor; discriminate.
    + eauto.
  - destruct (discarded_frame (Demo.cfg ["/m/far.glb"] 1) Demo.env 0 Demo.backgrounds
                0 4 Demo.stage) as (w' & Hf & Hfiles & _).
    + right.
      exists 1%nat,
        (world_of (import_and_select (Demo.cfg ["/m/far.glb"] 1) Demo.env Demo.stage)),
        (world_of (randomise_scene (Demo.cfg ["/m/far.glb"] 1) Demo.env 1 0 Demo.backgrounds
           (world_of (import_and_select (Demo.cfg ["/m/far.glb"] 1) Demo.env Demo.stage)))).
      eexists _, _. split; [vm_compute; reflexivity|]. split; [vm_compute; reflexivity|].
      split; [vm_compute; reflexivity|]. split; [vm_compute; reflexivity|].
      split; [reflexivity|]. vm_compute. reflexivity.
    + eauto.
Defined.

(** C5. [randomise_object] makes four draws from the random source, each
    turned into a uniform value a + (b - a) u.  The first, from
    [SCALE_MIN, SCALE_MAX], is the scale on all three axes; the second, from
    [0, 2 pi), is the Euler angle on all three axes; the third and fourth are
    the X and Y of the position, each from its own range, and Z is 0.
    Nothing else of the object changes, and no other object does. *)
Theorem object_transform_sampling (cfg : Config) (env : Env) (obj : nat) (x : Obj)
    (w : World) :
  objects w !! obj = Some x →
  unit_draws env →
  (SCALE_MIN cfg <= SCALE_MAX cfg)%Q →
  (POS_X_MIN cfg <= POS_X_MAX cfg)%Q →
  (POS_Y_MIN cfg <= POS_Y_MAX cfg)%Q →
  ∃ s a px py w',
    randomise_object cfg env obj w = Ok tt w'
    ∧ s = (SCALE_MIN cfg + (SCALE_MAX cfg - SCALE_MIN cfg) * random env (rng w))%Q
    ∧ a = (0 + (2 * Py.pi - 0) * random env (rng w + 1))%Q
    ∧ px = (POS_X_MIN cfg + (POS_X_MAX cfg - POS_X_MIN cfg) * random env (rng w + 2))%Q
    ∧ py = (POS_Y_MIN cfg + (POS_Y_MAX cfg - POS_Y_MIN cfg) * random env (rng w + 3))%Q
    ∧ rng w' = (rng w + 4)%nat
    ∧ objects w'
      = <[obj := mkObj (name x) (type x) (mkVec3 s s s) (mkVec3 a a a)
                       (mkVec3 px py 0) (data x)]> (objects w)
    ∧ (SCALE_MIN cfg <= s)%Q ∧ (s <= SCALE_MAX cfg)%Q
    ∧ (0 <= a)%Q ∧ (a < 2 * Py.pi)%Q
    ∧ (POS_X_MIN cfg <= px)%Q ∧ (px <= POS_X_MAX cfg)%Q
    ∧ (POS_Y_MIN cfg <= py)%Q ∧ (py <= POS_Y_MAX cfg)%Q
    ∧ (314159265 # 100000000 < Py.pi)%Q ∧ (Py.pi < 314159266 # 100000000)%Q.
Proof.
  intros Hx Hu Hs Hpx Hpy.
  destruct (Hu (rng w)) as [? ?]. destruct (Hu (rng w + 1)%nat) as [? ?].
  destruct (Hu (rng w + 2)%nat) as [? ?]. destruct (Hu (rng w + 3)%nat) as [? ?].
  destruct (uniform_of_range (SCALE_MIN cfg) (SCALE_MAX cfg) (random env (rng w)))
    as (? & ? & _); [done..|].
  destruct (uniform_of_range 0 (2 * Py.pi) (random env (rng w + 1)))
    as (? & _ & Hlt); [done..|]. specialize (Hlt two_pi_pos).
  destruct (uniform_of_range (POS_X_MIN cfg) (POS_X_MAX cfg) (random env (rng w + 2)))
    as (? & ? & _); [done..|].
  destruct (uniform_of_range (POS_Y_MIN cfg) (POS_Y_MAX cfg) (random env (rng w + 3)))
    as (? & ? & _); [done..|].
  eexists _, _, _, _, _.
  split; [by apply randomise_object_run|].
  do 4 (split; [reflexivity|]). split; [reflexivity|]. split; [reflexivity|].
  do 8 (split; [assumption|]). split; reflexivity.
Qed.

(** C5, run on the can of the studio, whose random source is stuck at one
    half: the scale is 0.65 on the three axes. *)
Lemma object_transform_sampling_witness :
  objects Demo.set_up !! 1%nat = Some Demo.can_obj
  ∧ unit_draws Demo.env
  ∧ ∃ w' v, randomise_object (Demo.cfg [] 1) Demo.env 1 Demo.set_up = Ok tt w'
            ∧ (scale <$> objects w' !! 1%nat) = Some (mkVec3 v v v)
            ∧ (v == SCALE_MIN (Demo.cfg [] 1)
                    + (SCALE_MAX (Demo.cfg [] 1) - SCALE_MIN (Demo.cfg [] 1)) * (1 # 2))%Q.
Proof.
  assert (H1 : objects Demo.set_up !! 1%nat = Some Demo.can_obj) by reflexivity.
  pose proof studio_unit_draws as Hu.
  do 2 (split; [assumption|]).
  destruct (object_transform_sampling (Demo.cfg [] 1) Demo.env 1 Demo.can_obj Demo.set_up
              H1 Hu) as (s & a & px & py & w' & Hrun & -> & _ & _ & _ & _ & Hobjs & _);
    [discriminate..|].
  eexists w', _. split; [exact Hrun|]. rewrite Hobjs, lookup_insert_eq.
  split; reflexivity.
Defined.

(** C6. [randomise_camera] makes six draws from the random source, each
    turned into a uniform value a + (b - a) u: the focal length, from
    [FOCAL_MIN, FOCAL_MAX]; the radius, from [CAM_RAD_MIN, CAM_RAD_MAX]; the
    elevation, from [CAM_ELEV_MIN, CAM_ELEV_MAX] degrees and turned into
    radians by the factor pi / 180; the azimuth, from [0, 2 pi); and the X
    and Y of the target, each from the object's position range and halved,
    its Z being 0.  The camera sits at
    (r cos(azim) cos(elev), r sin(azim) cos(elev), r sin(elev)) and is turned
    by the Euler angles of the host's track-to quaternion, asked for with
    '-Z' and 'Y', of the direction target minus position. *)
Theorem camera_transform_sampling (cfg : Config) (env : Env) (cam : nat) (x : Obj)
    (l0 : Q) (w : World) :
  objects w !! cam = Some x →
  data x = CameraData l0 →
  unit_draws env →
  (FOCAL_MIN cfg <= FOCAL_MAX cfg)%Q →
  (CAM_RAD_MIN cfg <= CAM_RAD_MAX cfg)%Q →
  (CAM_ELEV_MIN cfg <= CAM_ELEV_MAX cfg)%Q →
  (POS_X_MIN cfg <= POS_X_MAX cfg)%Q →
  (POS_Y_MIN cfg <= POS_Y_MAX cfg)%Q →
  ∃ lens r deg elev azim tx ty w',
    randomise_camera cfg env cam w = Ok tt w'
    ∧ lens = (FOCAL_MIN cfg + (FOCAL_MAX cfg - FOCAL_MIN cfg) * random env (rng w))%Q
    ∧ r = (CAM_RAD_MIN cfg
           + (CAM_RAD_MAX cfg - CAM_RAD_MIN cfg) * random env (rng w + 1))%Q
    ∧ deg = (CAM_ELEV_MIN cfg
             + (CAM_ELEV_MAX cfg - CAM_ELEV_MIN cfg) * random env (rng w + 2))%Q
    ∧ elev = (deg * (Py.pi / 180))%Q
    ∧ azim = (0 + (2 * Py.pi - 0) * random env (rng w + 3))%Q
    ∧ tx = ((POS_X_MIN cfg
             + (POS_X_MAX cfg - POS_X_MIN cfg) * random env (rng w + 4)) / 2)%Q
    ∧ ty = ((POS_Y_MIN cfg
             + (POS_Y_MAX cfg - POS_Y_MIN cfg) * random env (rng w + 5)) / 2)%Q
    ∧ rng w' = (rng w + 6)%nat
    ∧ objects w'
      = <[cam :=
            mkObj (name x) (type x) (scale x)
              (to_euler env
                 (to_track_quat env
                    (mkVec3 (tx - r * cos env azim * cos env elev)
                            (ty - r * sin env azim * cos env elev)
                            (0 - r * sin env elev))
                    "-Z" "Y"))
              (mkVec3 (r * cos env azim * cos env elev)
                      (r * sin env azim * cos env elev)
                      (r * sin env elev))
              (CameraData lens)]> (objects w)
    ∧ (FOCAL_MIN cfg <= lens)%Q ∧ (lens <= FOCAL_MAX cfg)%Q
    ∧ (CAM_RAD_MIN cfg <= r)%Q ∧ (r <= CAM_RAD_MAX cfg)%Q
    ∧ (CAM_ELEV_MIN cfg <= deg)%Q ∧ (deg <= CAM_ELEV_MAX cfg)%Q
    ∧ (0 <= azim)%Q ∧ (azim < 2 * Py.pi)%Q
    ∧ (POS_X_MIN cfg / 2 <= tx)%Q ∧ (tx <= POS_X_MAX cfg / 2)%Q
    ∧ (POS_Y_MIN cfg / 2 <= ty)%Q ∧ (ty <= POS_Y_MAX cfg / 2)%Q
    ∧ (314159265 # 100000000 < Py.pi)%Q ∧ (Py.pi < 314159266 # 100000000)%Q.
Proof.
  intros Hx Hd Hu Hf Hr He Hpx Hpy.
  destruct (Hu (rng w)) as [? ?]. destruct (Hu (rng w + 1)%nat) as [? ?].
  destruct (Hu (rng w + 2)%nat) as [? ?]. destruct (Hu (rng w + 3)%nat) as [? ?].
  destruct (Hu (rng w + 4)%nat) as [? ?]. destruct (Hu (rng w + 5)%nat) as [? ?].
  destruct (uniform_of_range (FOCAL_MIN cfg) (FOCAL_MAX cfg) (random env (rng w)))
    as (? & ? & _); [done..|].
  destruct (uniform_of_range (CAM_RAD_MIN cfg) (CAM_RAD_MAX cfg) (random env (rng w + 1)))
    as (? & ? & _); [done..|].
  destruct (uniform_of_range (CAM_ELEV_MIN cfg) (CAM_ELEV_MAX cfg) (random env (rng w + 2)))
    as (? & ? & _); [done..|].
  destruct (uniform_of_range 0 (2 * Py.pi) (random env (rng w + 3)))
    as (? & _ & Hlt); [done..|]. specialize (Hlt two_pi_pos).
  destruct (uniform_of_range (POS_X_MIN cfg) (POS_X_MAX cfg) (random env (rng w + 4)))
    as (Hx1 & Hx2 & _); [done..|].
  destruct (uniform_of_range (POS_Y_MIN cfg) (POS_Y_MAX cfg) (random env (rng w + 5)))
    as (Hy1 & Hy2 & _); [done..|].
  destruct (half_range _ _ _ Hx1 Hx2) as [? ?].
  destruct (half_range _ _ _ Hy1 Hy2) as [? ?].
  eexists _, _, _, _, _, _, _, _.
  split; [by apply randomise_camera_run|].
  do 7 (split; [reflexivity|]). split; [reflexivity|].
  split.
  { cbn [objects set_rng set_objects]. f_equal.
    unfold randomised_camera, camera_direction, camera_position, camera_target, draw.
    rewrite Hd. reflexivity. }
  do 12 (split; [assumption|]). split; reflexivity.
Qed.

(** C6, run on the camera of the studio: the lens is 60, halfway between
    the shipped 40 and 80. *)
Lemma camera_transform_sampling_witness :
  objects Demo.set_up !! 0%nat = Some Demo.camera_obj
  ∧ data Demo.camera_obj = CameraData 50
  ∧ unit_draws Demo.env
  ∧ ∃ w' lens, randomise_camera (Demo.cfg [] 1) Demo.env 0 Demo.set_up = Ok tt w'
               ∧ (data <$> objects w' !! 0%nat) = Some (CameraData lens)
               ∧ (lens == 60)%Q.
Proof.
  assert (H0 : objects Demo.set_up !! 0%nat = Some Demo.camera_obj) by reflexivity.
  assert (Hd : data Demo.camera_obj = CameraData 50) by reflexivity.
  pose proof studio_unit_draws as Hu.
  do 3 (split; [assumption|]).
  destruct (camera_transform_sampling (Demo.cfg [] 1) Demo.env 0 Demo.camera_obj 50
              Demo.set_up H0 Hd Hu)
    as (lens & r & deg & elev & azim & tx & ty & w' & Hrun & -> & _ & _ & _ & _ & _ & _
        & _ & Hobjs & _); [discriminate..|].
  eexists w', _. split; [exact Hrun|]. rewrite Hobjs, lookup_insert_eq.
  split; [reflexivity|]. vm_compute. reflexivity.
Defined.

(** C7. Every frame starts with the scene reset, and the reset removes
    exactly the objects that are neither cameras nor lights: an object is in
    the scene afterwards if and only if it was there before, unchanged, and
    is a camera or a light.  Each removed object is removed once, nothing
    else of the world changes, and at the end of the frame, however it ends,
    the scene holds no more geometry than this frame's import brought (the
    objects the importer makes of the chosen model in the reset scene). *)
Theorem scene_reset (cfg : Config) (env : Env) (w : World) :
  ∃ w',
    clean_scene w = Ok tt w'
    ∧ (∀ k x, objects w' !! k = Some x
              ↔ objects w !! k = Some x ∧ (type x = CAMERA ∨ type x = LIGHT))
    ∧ history w' = history w ++ map EvRemoveObject (geometry_keys (objects w))
    ∧ files w' = files w ∧ rng w' = rng w ∧ stdout w' = stdout w
    ∧ node_image w' = node_image w ∧ render_filepath w' = render_filepath w
    ∧ scene_camera w' = scene_camera w
    ∧ (∀ cam bgs rendered frame_num,
         frame cfg env cam bgs rendered frame_num w
         = bind (select_model cfg env) (frame_tail cfg env cam bgs rendered frame_num) w')
    ∧ (∀ cam bgs rendered frame_num,
         (length (geometry_keys
                    (objects (world_of (frame cfg env cam bgs rendered frame_num w))))
          ≤ length (imported cfg env w))%nat).
Proof.
  eexists. split; [apply clean_scene_run|].
  destruct w as [objs rf ni fs k out h sc]. wsimpl.
  split.
  { intros j x. rewrite without_lookup_Some. unfold not_camera_or_light.
    destruct (type x); split; intros [? ?]; split; try done; eauto;
      destruct H0; done. }
  do 7 (split; [reflexivity|]). split.
  - intros cam bgs rendered frame_num. unfold frame, import_and_select.
    unfold bind at 1 2. by rewrite clean_scene_run.
  - intros cam bgs rendered frame_num. apply frame_geometry_bound.
Qed.

(** The reset on a scene with a camera, a can and a light: the can goes. *)
Example scene_reset_demo :
  ∃ w', clean_scene
          (mkWorld {[ 0%nat := Demo.camera_obj; 1%nat := Demo.can_obj;
                      2%nat := mkObj "Light" LIGHT Demo.unit_scale Demo.origin Demo.origin
                                 (LightData POINT 10) ]} "" None ∅ 0 [] [] (Some 0%nat))
        = Ok tt w'
        ∧ map fst (map_to_list (objects w')) = [2%nat; 0%nat]
        ∧ history w' = [EvRemoveObject 1].
Proof. eexists. split; [vm_compute; reflexivity|]. split; reflexivity. Qed.

(** C8.  Frame [k] of a run on a host that numbers a clashing name, in a
    scene in which nothing but lights bears the name Sun and whose imports
    bring no object of that name.  A light named Sun that is there when the
    run starts is there unchanged after the frame, and so is one that is
    there when the frame starts; there is never more than one if there was
    at most one.  A frame discarded for lack of a mesh stops after the
    import: it creates and removes no light and draws nothing more.  Every
    other frame ends with exactly one fill light, created in this frame,
    with its energy a + (b - a) u in [LIGHT_PWR_MIN, LIGHT_PWR_MAX], its X
    and Y in [-4, 4] and its Z in [1, 4]; if no Sun was there it ends with
    exactly one, at its fixed place, its energy the frame's draw from
    [2, 5]. *)
Theorem sun_and_fill (cfg : Config) (env : Env) (cam : nat) (bgs : list string)
    (k r f : nat) (w : World) (rk fk : nat) (wk : World) (r' f' : nat) (w' : World) :
  MODELS cfg ≠ [] → bgs ≠ [] →
  unit_draws env →
  (LIGHT_PWR_MIN cfg <= LIGHT_PWR_MAX cfg)%Q →
  numbers_on_clash env →
  imports_leave_sun env →
  sun_names_lights (objects w) →
  has_type CAMERA cam w →
  frame_start cfg env k cam bgs r f w = Some (rk, fk, wk) →
  frame cfg env cam bgs rk fk wk = Ok (r', f') w' →
  (suns w ≠ ∅ → suns w' = suns w)
  ∧ (suns wk ≠ ∅ → suns w' = suns wk)
  ∧ ((size (suns w) ≤ 1)%nat → (size (suns w') ≤ 1)%nat)
  ∧ (∀ w1, import_and_select cfg env wk = Ok None w1 →
       objects w' = objects w1 ∧ rng w' = rng w1 ∧ suns w' = suns wk
       ∧ ∀ j x, objects wk !! j = Some x → type x = LIGHT → objects w' !! j = Some x)
  ∧ (∀ obj w1, import_and_select cfg env wk = Ok (Some obj) w1 →
       (∃ fl nm d,
          fills w'
          = {[ fl := mkObj nm LIGHT (mkVec3 1 1 1) (mkVec3 0 0 0)
                       (mkVec3 (-4 + (4 - -4) * random env (d + 1))
                               (-4 + (4 - -4) * random env (d + 2))
                               (1 + (4 - 1) * random env (d + 3)))
                       (LightData POINT
                          (LIGHT_PWR_MIN cfg
                           + (LIGHT_PWR_MAX cfg - LIGHT_PWR_MIN cfg) * random env d)) ]}
          ∧ d = (rng wk + 11 + (if decide (suns wk = ∅) then 1 else 0))%nat
          ∧ fill_in_range cfg (drawn_fill cfg env nm d))
       ∧ (suns wk = ∅ →
          ∃ s, suns w'
               = {[ s := mkObj "Sun" LIGHT (mkVec3 1 1 1)
                           (mkVec3 (7 # 10) (2 # 10) (- (7 # 10))) (mkVec3 5 (-5) 5)
                           (LightData SUN (2 + (5 - 2) * random env (rng wk + 11))) ]}
               ∧ sun_in_range (sun_object "Sun" (draw env 2 5 (rng wk + 11))))).
Proof.
  intros Hm Hbg Hu Hp Hnum Himp Hinv Hcam Hk Hf.
  assert (Hcamk : has_type CAMERA cam wk) by (by eapply frame_start_camera).
  destruct (frame_start_suns cfg env Hnum Himp cam bgs k r f w rk fk wk Hm Hbg Hcam Hinv Hk)
    as (Hrun & Hone & Hinvk).
  destruct (frame_suns cfg env Hnum Himp cam bgs rk fk wk r' f' w' Hm Hcamk Hinvk Hf)
    as (Hkeep & Hone' & _).
  split; [|split; [done|split; [|split]]].
  - intros Hne. rewrite <- (Hrun Hne). apply Hkeep. by rewrite (Hrun Hne).
  - intros Hle. by apply Hone', Hone.
  - intros w1 H1.
    pose proof (import_and_select_inv cfg env wk _ _ Hm H1) as ->.
    destruct (frame_lit cfg env Hnum Himp cam bgs rk fk wk r' f' w' Hm Hcamk Hf)
      as [(_ & Hobjs & Hrng)|(obj & wl & H1' & _)]; [|congruence].
    split; [done|]. split; [done|]. split.
    + unfold suns at 1. rewrite Hobjs. by apply imported_world_suns.
    + intros j x Hj Hx. rewrite Hobjs. apply imported_world_keeps; [done|].
      unfold not_camera_or_light. by rewrite Hx.
  - intros obj w1 H1.
    destruct (frame_lit cfg env Hnum Himp cam bgs rk fk wk r' f' w' Hm Hcamk Hf)
      as [(H1' & _)|(obj' & wl & _ & Hs & Hinvl & Hrng & Hobjs)]; [congruence|].
    split.
    + destruct (lit_world_fills cfg env Hnum wl) as (fl & nm & Hfl & Hnm).
      exists fl, nm. eexists. split; [|split; [reflexivity|]].
      * unfold fills in *. rewrite Hobjs, Hfl, Hrng, Hs. reflexivity.
      * by apply drawn_fill_in_range.
    + intros He.
      destruct (lit_world_new_sun cfg env Hnum wl) as (_ & Hnew & _);
        [by apply Hinvl | congruence |].
      eexists. split; [|by apply drawn_sun_in_range].
      unfold suns in *. rewrite Hobjs, Hnew, Hrng. reflexivity.
Qed.

(** C8, run on the studio: the first frame of a run makes the sun, the second
    finds it and leaves it as it is, and makes a new fill light. *)
Lemma sun_and_fill_witness :
  ∃ w1 w2,
    frame_start (Demo.cfg ["/m/can.glb"] 2) Demo.env 1 0 Demo.backgrounds 0 0 Demo.stage
    = Some (1%nat, 1%nat, w1)
    ∧ frame (Demo.cfg ["/m/can.glb"] 2) Demo.env 0 Demo.backgrounds 1 1 w1
      = Ok (2%nat, 2%nat) w2
    ∧ suns Demo.stage = ∅
    ∧ size (suns w1) = 1%nat
    ∧ suns w2 = suns w1
    ∧ size (fills w2) = 1%nat.
Proof.
  pose (c := Demo.cfg ["/m/can.glb"] 2).
  pose (w1 := world_of (frame c Demo.env 0 Demo.backgrounds 0 0 Demo.stage)).
  pose (w2 := world_of (frame c Demo.env 0 Demo.backgrounds 1 1 w1)).
  assert (Hk : frame_start c Demo.env 1 0 Demo.backgrounds 0 0 Demo.stage
               = Some (1%nat, 1%nat, w1)) by (vm_compute; reflexivity).
  assert (Hf : frame c Demo.env 0 Demo.backgrounds 1 1 w1 = Ok (2%nat, 2%nat) w2)
    by (vm_compute; reflexivity).
  assert (Hsel : ∃ o ws, import_and_select c Demo.env w1 = Ok (Some o) ws)
    by (vm_compute; eexists _, _; reflexivity).
  destruct Hsel as (o & ws & Hsel).
  assert (Hone : size (suns w1) = 1%nat) by (vm_compute; reflexivity).
  assert (Hne : suns w1 ≠ ∅).
  { intros He. apply (f_equal size) in He. vm_compute in He. discriminate He. }
  assert (Hinv : sun_names_lights (objects Demo.stage)).
  { intros j x Hj. unfold Demo.stage in Hj. cbn [objects] in Hj.
    apply lookup_singleton_Some in Hj as [_ <-]. discriminate. }
  assert (Hm : MODELS c ≠ []) by discriminate.
  assert (Hbg : Demo.backgrounds ≠ []) by discriminate.
  assert (Hp : (LIGHT_PWR_MIN c <= LIGHT_PWR_MAX c)%Q) by discriminate.
  assert (Hcam : has_type CAMERA 0 Demo.stage) by (eexists; split; reflexivity).
  destruct (sun_and_fill c Demo.env 0 Demo.backgrounds 1 0 0 Demo.stage 1 1 w1 2 2 w2
              Hm Hbg studio_unit_draws Hp studio_numbers_on_clash studio_imports_leave_sun
              Hinv Hcam Hk Hf) as (_ & Hkeep & _ & _ & Hlit).
  destruct (Hlit _ _ Hsel) as ((fl & nm & d & Hfl & _) & _).
  exists w1, w2. split; [exact Hk|]. split; [exact Hf|]. split; [reflexivity|].
  split; [exact Hone|]. split; [exact (Hkeep Hne)|].
  rewrite Hfl. apply map_size_singleton.
Defined.

(** Against C8 as it stands, four runs of two frames on the studio.
    - The models taken in turn, the first without a mesh: the first frame is
      discarded and leaves the scene without a sun and without a fill
      light, nothing having been created but the imported object; the
      second is the first to make them.
    - A model whose mesh asks for the name Sun: the host names the sun of
      the first frame Sun.001, the script does not find it in the second
      and makes another, Sun.002; two directional lights remain.
    - A stage whose camera bears the name Sun: the same.
    - A model that brings a lamp named Sun of energy 100: it is the light
      named Sun from the first frame on, and no sun is created. *)
Lemma sun_and_fill_counterexample :
  (∃ w1 w2,
     frame (Demo.cfg ["/m/rig.glb"; "/m/can.glb"] 1) Demo.turning 0 Demo.backgrounds 0 0
           Demo.stage
     = Ok (0%nat, 1%nat) w1
     ∧ suns w1 = ∅ ∧ fills w1 = ∅ ∧ only is_directional (objects w1) = ∅
     ∧ history w1 = [EvChoice "/m/rig.glb"; EvImport "/m/rig.glb"; EvNewObject 1%nat]
     ∧ frame (Demo.cfg ["/m/rig.glb"; "/m/can.glb"] 1) Demo.turning 0 Demo.backgrounds 0 1
             w1
       = Ok (1%nat, 2%nat) w2
     ∧ size (suns w2) = 1%nat ∧ size (fills w2) = 1%nat
     ∧ generation_loop (Demo.cfg ["/m/rig.glb"; "/m/can.glb"] 1) Demo.turning 2 0
         Demo.backgrounds 0 0 Demo.stage
       = Ok (Some (1%nat, 2%nat)) w2)
  ∧ (∃ w2,
       generation_loop (Demo.cfg ["/m/sun.glb"] 2) Demo.sun_named 2 0 Demo.backgrounds 0 0
         Demo.stage
       = Ok (Some (2%nat, 2%nat)) w2
       ∧ (name ∘ snd <$> map_to_list (only is_directional (objects w2)))
         = ["Sun.001"; "Sun.002"]
       ∧ suns w2 = ∅)
  ∧ (∃ w2,
       generation_loop (Demo.cfg ["/m/can.glb"] 2) Demo.env 2 0 Demo.backgrounds 0 0
         Demo.sun_stage
       = Ok (Some (2%nat, 2%nat)) w2
       ∧ (name ∘ snd <$> map_to_list (only is_directional (objects w2)))
         = ["Sun.002"; "Sun.001"]
       ∧ suns w2 = ∅)
  ∧ (∃ w1,
       frame (Demo.cfg ["/m/lamp.glb"] 2) Demo.lamp_lit 0 Demo.backgrounds 0 0 Demo.stage
       = Ok (1%nat, 1%nat) w1
       ∧ suns w1 = {[ 2%nat := Demo.lamp_obj ]}
       ∧ data Demo.lamp_obj = LightData SUN 100).
Proof.
  split; [|split; [|split]].
  - eexists _, _. split; [vm_compute; reflexivity|].
    repeat (split; [vm_compute; reflexivity|]). vm_compute. reflexivity.
  - eexists. split; [vm_compute; reflexivity|]. split; vm_compute; reflexivity.
  - eexists. split; [vm_compute; reflexivity|]. split; vm_compute; reflexivity.
  - eexists. split; [vm_compute; reflexivity|]. split; [|reflexivity].
    vm_compute. reflexivity.
Qed.

(** C2. A run that completes is summed up by the outcomes of its attempts:
    attempt number k (from 0) has frame index k, and only the accepted ones
    count.  On an output location that held no files before, the images
    directory then holds exactly NUM_IMAGES files and the labels directory
    exactly NUM_IMAGES files, in pairs named synth_<index>.png and
    synth_<index>.txt with the accepted frame's index zero-padded to five
    digits; each label file is one line, the class id and four values of the
    unit interval with six decimals; the accepted indices increase strictly
    (no duplicates) and stay below the number of attempts, discarded indices
    being skipped; the console shows one line per attempt, whose counters
    advance as stated; no file elsewhere is touched. *)
Theorem output_pairs (cfg : Config) (env : Env) (fuel : nat) (w w' : World) :
  main cfg env fuel w = Ok (Some tt) w' →
  files_under (img_dir cfg) (files w) = ∅ →
  files_under (lbl_dir cfg) (files w) = ∅ →
  ∃ outs : list Outcome,
    length (accepted_of 0 outs) = NUM_IMAGES cfg
    ∧ files_under (img_dir cfg) (files w')
      = list_to_set (image_path cfg ∘ acc_index <$> accepted_of 0 outs)
    ∧ files_under (lbl_dir cfg) (files w')
      = list_to_set (label_path cfg ∘ acc_index <$> accepted_of 0 outs)
    ∧ size (files_under (img_dir cfg) (files w')) = NUM_IMAGES cfg
    ∧ size (files_under (lbl_dir cfg) (files w')) = NUM_IMAGES cfg
    ∧ Forall (λ a,
        image_path cfg (acc_index a)
        = Py.path_join (Py.path_join (OUTPUT_DIR cfg) "images")
            ("synth_" +:+ Py.format_05d (acc_index a) +:+ ".png")
        ∧ label_path cfg (acc_index a)
          = Py.path_join (Py.path_join (OUTPUT_DIR cfg) "labels")
              ("synth_" +:+ Py.format_05d (acc_index a) +:+ ".txt")
        ∧ files w' !! image_path cfg (acc_index a) = Some (acc_image a)
        ∧ is_png (acc_image a)
        ∧ files w' !! label_path cfg (acc_index a)
          = Some (TextFile (acc_label a +:+ Py.newline))
        ∧ is_label cfg (acc_label a)
        ∧ line_feeds (acc_label a +:+ Py.newline) = 1%nat
        ∧ (acc_index a < length outs)%nat)
      (accepted_of 0 outs)
    ∧ StronglySorted lt (acc_index <$> accepted_of 0 outs)
    ∧ NoDup (acc_index <$> accepted_of 0 outs)
    ∧ stdout w' = stdout w ++ log_lines cfg 0 0 outs ++ [msg_done cfg]
    ∧ ∀ p, under (img_dir cfg) p = false → under (lbl_dir cfg) p = false →
           files w' !! p = files w !! p.
Proof.
  intros Hmain Himg Hlbl.
  destruct (main_outcomes cfg env fuel w w' Hmain) as (outs & Hwf & Hlen & Hfiles & Hout).
  destruct (accepted_of_indices outs 0) as [Hidx Hsorted].
  pose proof (sorted_indices_NoDup _ Hsorted) as Hnd.
  pose proof (accepted_of_well_formed cfg outs 0 Hwf) as Hacc.
  exists outs. split; [exact Hlen|]. rewrite Hfiles.
  split; [by apply files_under_images|]. split; [by apply files_under_labels|].
  split; [by rewrite files_under_images, size_image_set|].
  split; [by rewrite files_under_labels, size_label_set|].
  split.
  { apply Forall_forall. intros a Ha.
    rewrite Forall_forall in Hidx, Hacc.
    destruct (Hidx a Ha) as [_ Hlt]. destruct (Hacc a Ha) as [Hpng Hlabel].
    destruct (foldl_write_lookup cfg (accepted_of 0 outs) (files w) a Hnd Ha) as [Hi Hl].
    repeat split; try done. by eapply label_single_line. }
  split; [exact Hsorted|]. split; [exact Hnd|]. split; [exact Hout|].
  intros p Hpi Hpl. by apply foldl_write_outside.
Qed.

(** C2, run on the studio: two images wanted, two attempts, two pairs. *)
Lemma output_pairs_witness :
  let cfg := Demo.cfg ["/m/can.glb"] 2 in
  let w' := world_of (main cfg Demo.env 5 Demo.nothing) in
  main cfg Demo.env 5 Demo.nothing = Ok (Some tt) w'
  ∧ files_under (img_dir cfg) (files Demo.nothing) = ∅
  ∧ files_under (lbl_dir cfg) (files Demo.nothing) = ∅
  ∧ size (files_under (img_dir cfg) (files w')) = 2%nat
  ∧ size (files_under (lbl_dir cfg) (files w')) = 2%nat.
Proof.
  intros cfg w'.
  assert (Hmain : main cfg Demo.env 5 Demo.nothing = Ok (Some tt) w')
    by (vm_compute; reflexivity).
  assert (Himg : files_under (img_dir cfg) (files Demo.nothing) = ∅) by reflexivity.
  assert (Hlbl : files_under (lbl_dir cfg) (files Demo.nothing) = ∅) by reflexivity.
  do 3 (split; [assumption|]).
  destruct (output_pairs cfg Demo.env 5 Demo.nothing w' Hmain Himg Hlbl)
    as (outs & _ & _ & _ & Hsi & Hsl & _).
  split; [exact Hsi | exact Hsl].
Defined.

(** Against C2 as it stands: a run for one image on an output directory
    that already holds an image of an earlier run.  The run completes, and
    the images directory holds two files, the labels directory one. *)
Lemma output_pairs_counterexample :
  ∃ w',
    main (Demo.cfg ["/m/can.glb"] 1) Demo.env 5 Demo.leftover = Ok (Some tt) w'
    ∧ NUM_IMAGES (Demo.cfg ["/m/can.glb"] 1) = 1%nat
    ∧ elements (files_under (img_dir (Demo.cfg ["/m/can.glb"] 1)) (files w'))
      = ["/out/images/synth_00007.png"; "/out/images/synth_00000.png"]
    ∧ size (files_under (img_dir (Demo.cfg ["/m/can.glb"] 1)) (files w')) = 2%nat
    ∧ size (files_under (lbl_dir (Demo.cfg ["/m/can.glb"] 1)) (files w')) = 1%nat.
Proof.
  eexists. split; [vm_compute; reflexivity|].
  split; [reflexivity|]. split; [vm_compute; reflexivity|].
  split; vm_compute; reflexivity.
Qed.

(** The files of that run. *)
Example output_pairs_demo :
  (λ w', (fst <$> map_to_list (files w'),
          files w' !! "/out/labels/synth_00001.txt"))
    (world_of (main (Demo.cfg ["/m/can.glb"] 2) Demo.env 5 Demo.nothing))
  = ([ "/out/images/synth_00001.png"; "/out/images/synth_00000.png";
       "/out/labels/synth_00001.txt"; "/out/labels/synth_00000.txt" ],
     Some (TextFile ("0 0.500000 0.500000 0.400000 0.600000" +:+ Py.newline))).
Proof. vm_compute. reflexivity. Qed.

(** A frame index beyond 99999 keeps all its digits. *)
Example base_filename_wide : base_filename 123456 = "synth_123456".
Proof. vm_compute. reflexivity. Qed.

(** C4. On a host none of whose calls fails, [main] raises if and only if
    the model list is empty, or no background image is found, or the loop
    gets to a frame whose chosen model has an extension other than .glb or
    .gltf; in every frame the loop gets to, the frame raises exactly in that
    last case, so a discarded frame never aborts the run.  On any host the
    first case raises before anything else is done, an unsupported
    extension raises in the frame that chooses it, a run without
    backgrounds raises, and whatever [main] raises is one of the three
    messages or the error the host answered a call with. *)
Theorem fatal_errors (cfg : Config) (env : Env) (fuel : nat) (w : World) :
  (reliable env →
   (raises (main cfg env fuel w)
    ↔ MODELS cfg = []
      ∨ background_files cfg env = []
      ∨ ∃ cam w0 k r f wk,
          main_setup cfg env w = Ok cam w0
          ∧ (k < fuel)%nat
          ∧ frame_start cfg env k cam (background_files cfg env) 0 0 w0 = Some (r, f, wk)
          ∧ (r < NUM_IMAGES cfg)%nat
          ∧ supported (pick env (MODELS cfg) (rng wk)) = false)
   ∧ (∀ cam w0 k r f wk,
        main_setup cfg env w = Ok cam w0 →
        frame_start cfg env k cam (background_files cfg env) 0 0 w0 = Some (r, f, wk) →
        (raises (frame cfg env cam (background_files cfg env) r f wk)
         ↔ supported (pick env (MODELS cfg) (rng wk)) = false))
   ∧ (MODELS cfg ≠ [] → background_files cfg env = [] →
      main cfg env fuel w
      = Raise ("No background images found in " +:+ BACKGROUNDS_DIR cfg +:+ ".") w))
  ∧ (MODELS cfg = [] →
     main cfg env fuel w
     = Raise "MODELS list is empty. Set valid paths at top of script." w)
  ∧ (background_files cfg env = [] → raises (main cfg env fuel w))
  ∧ (∀ cam w0 k r f wk,
       main_setup cfg env w = Ok cam w0 →
       frame_start cfg env k cam (background_files cfg env) 0 0 w0 = Some (r, f, wk) →
       supported (pick env (MODELS cfg) (rng wk)) = false →
       ∃ w', frame cfg env cam (background_files cfg env) r f wk
             = Raise ("Unsupported model format: " +:+ pick env (MODELS cfg) (rng wk)) w')
  ∧ (∀ msg w',
       main cfg env fuel w = Raise msg w' →
       (MODELS cfg = []
        ∧ msg = "MODELS list is empty. Set valid paths at top of script.")
       ∨ (background_files cfg env = []
          ∧ msg = "No background images found in " +:+ BACKGROUNDS_DIR cfg +:+ ".")
       ∨ (∃ p, In p (MODELS cfg) ∧ supported p = false
               ∧ msg = "Unsupported model format: " +:+ p)
       ∨ (∃ c wc, host_error env c wc = Some msg)).
Proof.
  split; [|split; [|split; [|split]]].
  - intros Hrel. split; [by apply main_raises_iff|]. split.
    + intros cam w0 k r f wk Hsetup Hstart.
      destruct (main_setup_inv cfg env w cam w0 Hsetup) as (Hm & Hbg & Hcam).
      pose proof (frame_start_camera cfg env cam _ k 0 0 w0 r f wk Hm Hbg Hcam Hstart)
        as Hcamk.
      by apply frame_raises_iff.
    + intros Hm E. unfold main.
      destruct (main_setup_cases cfg env w Hm)
        as [(msg & w' & _ & Hf)|[(_ & Hsetup)|(Hne & _)]]; [| |done].
      * by apply reliable_no_failure in Hf.
      * by erewrite bind_raise.
  - intros E. unfold main, main_setup. rewrite E. reflexivity.
  - intros E. destruct (MODELS cfg) as [|m ms] eqn:Em.
    { unfold main, main_setup. rewrite Em. exact I. }
    assert (Hm : MODELS cfg ≠ []) by (by rewrite Em).
    unfold main.
    destruct (main_setup_cases cfg env w Hm)
      as [(msg & w' & Hsetup & _)|[(_ & Hsetup)|(Hne & _)]]; [| |done].
    + by erewrite bind_raise.
    + by erewrite bind_raise.
  - intros cam w0 k r f wk Hsetup Hstart Hs.
    destruct (main_setup_inv cfg env w cam w0 Hsetup) as (Hm & _).
    by apply frame_unsupported.
  - intros msg w' H. exact (main_raise_cause cfg env fuel w msg w' H).
Qed.

(** C4, on the studio, none of whose calls fails: a run without models
    raises. *)
Lemma fatal_errors_witness :
  reliable Demo.env
  ∧ raises (main (Demo.cfg [] 1) Demo.env 3 Demo.nothing).
Proof.
  split; [exact studio_reliable|].
  destruct (fatal_errors (Demo.cfg [] 1) Demo.env 3 Demo.nothing) as [H _].
  destruct (H studio_reliable) as (Hiff & _).
  apply Hiff. by left.
Defined.

(** Against C4 as it stands: runs on the studio with one model, of a
    supported format, and two backgrounds, so that none of the three
    conditions holds.  Whichever call of the host fails - listing the
    backgrounds, creating a directory, importing the model, loading the
    background, rendering, opening the label file - the run raises, with
    the host's error. *)
Lemma fatal_errors_counterexample :
  let cfg := Demo.cfg ["/m/can.glb"] 1 in
  MODELS cfg ≠ []
  ∧ background_files cfg Demo.env = ["/bg/a.jpg"; "/bg/B.PNG"]
  ∧ Forall (λ p, supported p = true) (MODELS cfg)
  ∧ (∃ w', main cfg (Demo.failing Demo.is_import) 3 Demo.nothing
           = Raise "RuntimeError: Error: glTF import failed: /m/can.glb" w')
  ∧ (∃ w', main cfg (Demo.failing Demo.is_listdir) 3 Demo.nothing
           = Raise "FileNotFoundError: [Errno 2] No such file or directory: /bg" w')
  ∧ (∃ w', main cfg (Demo.failing Demo.is_makedirs) 3 Demo.nothing
           = Raise "PermissionError: [Errno 13] Permission denied: /out/images" w')
  ∧ (∃ w', main cfg (Demo.failing Demo.is_load_image) 3 Demo.nothing
           = Raise "RuntimeError: Error: Cannot read image: /bg/a.jpg" w')
  ∧ (∃ w', main cfg (Demo.failing Demo.is_render_call) 3 Demo.nothing
           = Raise "RuntimeError: Error: Cannot write image: /out/images/synth_00000.png"
                   w')
  ∧ (∃ w', main cfg (Demo.failing Demo.is_open) 3 Demo.nothing
           = Raise "PermissionError: [Errno 13] Permission denied: /out/labels/synth_00000.txt"
                   w').
Proof.
  intros cfg. split; [discriminate|]. split; [reflexivity|].
  split; [repeat constructor|].
  repeat split; eexists; vm_compute; reflexivity.
Qed.

(** The three fatal cases and a run of discards on the studio. *)
Example fatal_no_models :
  main (Demo.cfg [] 1) Demo.env 3 Demo.nothing
  = Raise "MODELS list is empty. Set valid paths at top of script." Demo.nothing.
Proof. reflexivity. Qed.

Example fatal_unsupported_model :
  ∃ w', main (Demo.cfg ["/m/can.obj"] 1) Demo.env 3 Demo.nothing
        = Raise "Unsupported model format: /m/can.obj" w'.
Proof. eexists. vm_compute. reflexivity. Qed.

Example discards_are_not_fatal :
  ∃ w', main (Demo.cfg ["/m/rig.glb"] 1) Demo.env 3 Demo.nothing = Ok None w'
        ∧ stdout w'
          = [ "ERROR: No MESH object found in the imported model. Skipping frame 1.";
              "ERROR: No MESH object found in the imported model. Skipping frame 2.";
              "ERROR: No MESH object found in the imported model. Skipping frame 3." ].
Proof. eexists. split; vm_compute; reflexivity. Qed.

(* ===================================================================== *)
(** * Further properties of the script                                       *)
(* ===================================================================== *)

(** X1. [ensure_camera] never fails and hands out a camera of the scene.
    If the scene has cameras it is the first of them and nothing changes,
    the active camera of the scene included.  If it has none, one new camera
    object is added under a key that was free and becomes the active camera
    of the scene; it is named Camera when no object bears that name, and
    what the host makes of that name otherwise; nothing else changes.
    Asking again gives the same camera and changes nothing; no object of the
    scene is removed or altered. *)
Theorem ensure_camera_reuses_or_creates (env : Env) (w : World) :
  ∃ cam w',
    ensure_camera env w = Ok cam w'
    ∧ has_type CAMERA cam w'
    ∧ match keys_where is_camera (objects w) with
      | c :: _ => cam = c ∧ w' = w
      | [] =>
          objects w !! cam = None
          ∧ (∃ nm,
               objects w'
               = <[cam := mkObj nm CAMERA (mkVec3 1 1 1) (mkVec3 0 0 0) (mkVec3 0 0 0)
                            (CameraData 50)]> (objects w)
               ∧ ((∀ k x, objects w !! k = Some x → name x ≠ "Camera") → nm = "Camera")
               ∧ ((∃ k x, objects w !! k = Some x ∧ name x = "Camera") →
                  nm = renamed env (names (objects w)) "Camera"))
          ∧ scene_camera w' = Some cam
          ∧ history w' = history w ++ [EvNewObject cam]
          ∧ files w' = files w ∧ rng w' = rng w ∧ stdout w' = stdout w
          ∧ node_image w' = node_image w ∧ render_filepath w' = render_filepath w
      end
    ∧ ensure_camera env w' = Ok cam w'
    ∧ (∀ k x, objects w !! k = Some x → objects w' !! k = Some x)
    ∧ (∀ nm, nm ∈ names (objects w) ↔ ∃ k x, objects w !! k = Some x ∧ name x = nm).
Proof.
  unfold ensure_camera. rewrite (bind_ok _ _ _ _ _ (objects_where_run is_camera w)).
  destruct (keys_where is_camera (objects w)) as [|c cs] eqn:Ec.
  - erewrite bind_ok; [|apply new_object_run].
    set (cam := fresh (dom (objects w))).
    set (x := mkObj (unique_name env (names (objects w)) "Camera") CAMERA (mkVec3 1 1 1)
                (mkVec3 0 0 0) (mkVec3 0 0 0) (CameraData 50)).
    eexists _, _. split; [reflexivity|].
    assert (Hfree : objects w !! cam = None) by apply fresh_key_free.
    split; [exists x; split; [apply lookup_insert_eq | done]|].
    split; [|split; [|split; [|apply elem_of_names]]].
    + split; [done|]. split; [|done].
      exists (unique_name env (names (objects w)) "Camera"). split; [reflexivity|]. split.
      * intros Hno. apply unique_name_free. intros (k & y & Hk & Hn)%elem_of_names.
        by apply (Hno k y).
      * intros (k & y & Hk & Hn). apply unique_name_taken. apply elem_of_names. eauto.
    + erewrite bind_ok; [|apply objects_where_run].
      cbn [objects set_history set_objects set_scene_camera].
      assert (Hk : keys_where is_camera (<[cam := x]> (objects w)) = [cam]).
      { apply NoDup_only_elem; [apply keys_where_NoDup|].
        intros k. rewrite elem_of_keys_where. split.
        - intros (y & Hy & Hc). destruct (decide (k = cam)) as [->|Hne]; [done|].
          rewrite lookup_insert_ne in Hy by done.
          assert (Hin : k ∈ keys_where is_camera (objects w))
            by (apply elem_of_keys_where; eauto).
          rewrite Ec in Hin. by apply elem_of_nil in Hin.
        - intros ->. exists x. split; [apply lookup_insert_eq | done]. }
      fold cam x. rewrite Hk. reflexivity.
    + intros k y Hy. cbn [objects set_history set_objects set_scene_camera].
      rewrite lookup_insert_ne; [done|]. intros <-. congruence.
  - exists c, w. split; [reflexivity|].
    assert (Hin : c ∈ keys_where is_camera (objects w)) by (rewrite Ec; by left).
    apply elem_of_keys_where in Hin as (x & Hx & Hcam).
    split; [exists x; split; [done | by apply is_camera_type]|].
    split; [done|]. split; [|split; [done | apply elem_of_names]].
    erewrite bind_ok; [|apply objects_where_run]. by rewrite Ec.
Qed.

(** X1 on a scene without a camera in which a mesh bears the name Camera:
    the studio's host names the new camera Camera.001. *)
Example ensure_camera_renamed :
  ∃ w', ensure_camera Demo.env
          (mkWorld {[ 0%nat := mkObj "Camera" MESH Demo.unit_scale Demo.origin Demo.origin
                                 (MeshData []) ]} "" None ∅ 0 [] [] None)
        = Ok 1%nat w'
        ∧ (name <$> objects w' !! 1%nat) = Some "Camera.001"
        ∧ scene_camera w' = Some 1%nat.
Proof. eexists. split; [vm_compute; reflexivity|]. split; reflexivity. Qed.

(** X2. [import_model] looks at nothing but the extension of the path, in
    lower case.  When it is .glb or .gltf the importer is called, once.  If
    the host answers with an error, that error is raised and nothing but the
    record of the call is left.  Otherwise the keys of the objects the
    importer made of the file, in the scene as it was, are returned, one per
    object and in the importer's order; each sits under a key that was free,
    as the importer made it but for its name, which is the one it asks for or
    what the host makes of it when that name is taken; every object that was
    in the scene is still there unchanged.  For any other extension the
    importer is not called: the call raises with the path in the message and
    leaves the world as it was. *)
Theorem import_model_by_extension (env : Env) (path : string) (w : World) :
  (Py.lower (Py.splitext_ext path) = ".glb" ∨ Py.lower (Py.splitext_ext path) = ".gltf" →
   (host_error env (CallImport path) (set_history (history w ++ [EvImport path]) w) = None →
    ∃ keys w',
      import_model env path w = Ok keys w'
      ∧ Forall2 (λ k x,
                   objects w !! k = None
                   ∧ ∃ nm, objects w' !! k
                           = Some (mkObj nm (type x) (scale x) (rotation_euler x)
                                         (location x) (data x))
                           ∧ (nm = name x
                              ∨ ∃ taken, name x ∈ taken ∧ nm = renamed env taken (name x)))
                keys (gltf_import env path (objects w))
      ∧ (∀ x xs, gltf_import env path (objects w) = x :: xs →
           ∃ k ks, keys = k :: ks
                   ∧ (name <$> objects w' !! k)
                     = Some (if decide (name x ∈ names (objects w))
                             then renamed env (names (objects w)) (name x)
                             else name x))
      ∧ NoDup keys
      ∧ (∀ k x, objects w !! k = Some x → objects w' !! k = Some x)
      ∧ (∀ k, k ∉ keys → objects w' !! k = objects w !! k)
      ∧ history w' = history w ++ [EvImport path] ++ map EvNewObject keys
      ∧ files w' = files w ∧ rng w' = rng w ∧ stdout w' = stdout w)
   ∧ (∀ msg,
        host_error env (CallImport path) (set_history (history w ++ [EvImport path]) w)
        = Some msg →
        import_model env path w
        = Raise msg (set_history (history w ++ [EvImport path]) w)))
  ∧ (Py.lower (Py.splitext_ext path) ≠ ".glb" →
     Py.lower (Py.splitext_ext path) ≠ ".gltf" →
     import_model env path w = Raise ("Unsupported model format: " +:+ path) w).
Proof.
  split.
  - intros Hext.
    assert (Hs : supported path = true).
    { unfold supported, supported_ext. destruct Hext as [-> | ->]; reflexivity. }
    split; [|intros msg Hh; by apply import_model_fails].
    intros Hh. rewrite (import_model_run env path w Hs Hh).
    destruct (add_all_spec env (gltf_import env path (objects w)) (objects w))
      as (Hall & Hfresh & Hold & Hnd).
    pose proof (add_all_names env (gltf_import env path (objects w)) (objects w)) as Hnames.
    eexists _, _. split; [reflexivity|].
    cbn [objects files rng stdout history set_history set_objects].
    split; [|split; [|split; [done|split; [|split; [done|done]]]]].
    + apply Forall2_same_length_lookup. split; [by eapply Forall2_length|].
      intros i k x Hk Hx.
      destruct (Forall2_lookup_l _ _ _ _ _ Hnames Hk) as (y & Hy & nm & Hky & Hnm).
      assert (y = x) as -> by congruence.
      split; [apply Hfresh; apply list_elem_of_lookup; eauto|].
      exists nm. split; [exact Hky | exact Hnm].
    + intros x xs Ex. rewrite Ex. eexists _, _. split; [reflexivity|].
      by rewrite add_all_first_name.
    + intros k x Hx. rewrite Hold; [done|]. intros Hin. apply Hfresh in Hin. congruence.
  - intros H1 H2. apply import_model_unsupported.
    unfold supported, supported_ext. apply orb_false_iff. split.
    + by apply String.eqb_neq.
    + by apply String.eqb_neq.
Qed.

(** X2 on the studio: the can and its parent enter a scene that is empty
    but for the camera; on a host whose importer fails the call raises. *)
Example import_model_demo :
  (∃ w', import_model Demo.env "/m/can.glb" Demo.stage = Ok [1%nat; 2%nat] w'
         ∧ (name <$> objects w' !! 2%nat) = Some "Can")
  ∧ import_model (Demo.failing Demo.is_import) "/m/can.glb" Demo.stage
    = Raise "RuntimeError: Error: glTF import failed: /m/can.glb"
        (set_history [EvImport "/m/can.glb"] Demo.stage).
Proof. split; [eexists; split|]; vm_compute; reflexivity. Qed.

(** X3. The letter case of the extension does not matter and the header's
    promise of OBJ does not hold: for a path that ends in a name character,
    a dot and an extension without dots or separators, [import_model] calls
    the importer exactly when the extension is glb or gltf in any mix of
    cases - and then returns one key per object made, or raises the host's
    error - and raises its own error for every other extension. *)
Theorem import_model_extension_case (env : Env) (stem : string) (c : ascii) (e : string)
    (w : World) :
  c ≠ "."%char → c ≠ "/"%char → has_char "." e = false → has_char "/" e = false →
  (Py.lower e = "glb" ∨ Py.lower e = "gltf" →
   (host_error env (CallImport (stem +:+ String c ("." +:+ e)))
      (set_history (history w ++ [EvImport (stem +:+ String c ("." +:+ e))]) w) = None →
    ∃ keys w',
      import_model env (stem +:+ String c ("." +:+ e)) w = Ok keys w'
      ∧ length keys
        = length (gltf_import env (stem +:+ String c ("." +:+ e)) (objects w)))
   ∧ (∀ msg,
        host_error env (CallImport (stem +:+ String c ("." +:+ e)))
          (set_history (history w ++ [EvImport (stem +:+ String c ("." +:+ e))]) w)
        = Some msg →
        import_model env (stem +:+ String c ("." +:+ e)) w
        = Raise msg
            (set_history (history w ++ [EvImport (stem +:+ String c ("." +:+ e))]) w)))
  ∧ (Py.lower e ≠ "glb" → Py.lower e ≠ "gltf" →
     import_model env (stem +:+ String c ("." +:+ e)) w
     = Raise ("Unsupported model format: " +:+ stem +:+ String c ("." +:+ e)) w).
Proof.
  intros Hdot Hsep Hed Hes.
  pose proof (splitext_ext_app stem c e Hdot Hsep Hed Hes) as Hext.
  assert (Hlow : Py.lower (Py.splitext_ext (stem +:+ String c ("." +:+ e)))
                 = "." +:+ Py.lower e).
  { rewrite Hext, lower_app. reflexivity. }
  split.
  - intros He.
    assert (Hs : supported (stem +:+ String c ("." +:+ e)) = true).
    { unfold supported. rewrite Hlow. destruct He as [-> | ->]; reflexivity. }
    split; [|intros msg Hh; by apply import_model_fails].
    intros Hh. rewrite (import_model_run env _ w Hs Hh). eexists _, _. split; [reflexivity|].
    destruct (add_all_spec env (gltf_import env (stem +:+ String c ("." +:+ e)) (objects w))
                (objects w)) as (Hall & _).
    by eapply Forall2_length.
  - intros H1 H2. apply import_model_unsupported.
    unfold supported. rewrite Hlow. unfold supported_ext.
    apply orb_false_iff. split; apply String.eqb_neq; intros E.
    + apply H1. change ".glb" with ("." +:+ "glb") in E.
      rewrite !(str_app_cons "."), !str_app_nil_l in E. by injection E.
    + apply H2. change ".gltf" with ("." +:+ "gltf") in E.
      rewrite !(str_app_cons "."), !str_app_nil_l in E. by injection E.
Qed.

(** X3 on a shipped-style path: the upper-case extension is taken, the
    Wavefront one is refused. *)
Lemma import_model_extension_case_witness :
  ("e"%char ≠ "."%char ∧ "e"%char ≠ "/"%char
   ∧ has_char "." "GLB" = false ∧ has_char "/" "GLB" = false
   ∧ ∃ keys w', import_model Demo.env ("/m/yerba_mat" +:+ String "e"%char ("." +:+ "GLB"))
                  Demo.stage = Ok keys w')
  ∧ import_model Demo.env "/m/yerba_mate.obj" Demo.stage
    = Raise "Unsupported model format: /m/yerba_mate.obj" Demo.stage.
Proof.
  assert (H1 : "e"%char ≠ "."%char) by discriminate.
  assert (H2 : "e"%char ≠ "/"%char) by discriminate.
  assert (H3 : has_char "." "GLB" = false) by reflexivity.
  assert (H4 : has_char "/" "GLB" = false) by reflexivity.
  assert (H5 : has_char "." "obj" = false) by reflexivity.
  assert (H6 : has_char "/" "obj" = false) by reflexivity.
  split.
  - do 4 (split; [assumption|]).
    destruct (import_model_extension_case Demo.env "/m/yerba_mat" "e"%char "GLB" Demo.stage
                H1 H2 H3 H4) as [Hok _].
    destruct Hok as [Hok _]; [by left|].
    destruct (Hok eq_refl) as (keys & w' & Hrun & _). eauto.
  - destruct (import_model_extension_case Demo.env "/m/yerba_mat" "e"%char "obj" Demo.stage
                H1 H2 H5 H6) as [_ Hbad].
    apply Hbad; discriminate.
Defined.

(** X4. The backgrounds of a run are the entries of BACKGROUNDS_DIR whose
    name ends in .png, .jpg or .jpeg, the letter case of that ending being
    ignored; each is joined to the directory, and they come in the order of
    the listing.  Nothing else about an entry is looked at.  The list is
    empty, which is the case in which [main] raises, exactly when no entry
    has such a name. *)
Theorem background_files_by_suffix (cfg : Config) (env : Env) :
  (∀ p, p ∈ background_files cfg env
        ↔ ∃ a e, (a +:+ e) ∈ listdir env (BACKGROUNDS_DIR cfg)
                 ∧ (Py.lower e = ".png" ∨ Py.lower e = ".jpg" ∨ Py.lower e = ".jpeg")
                 ∧ p = Py.path_join (BACKGROUNDS_DIR cfg) (a +:+ e))
  ∧ (∃ kept, sublist kept (listdir env (BACKGROUNDS_DIR cfg))
             ∧ background_files cfg env = Py.path_join (BACKGROUNDS_DIR cfg) <$> kept)
  ∧ (∀ f, is_image_name (Py.lower f) = is_image_name f)
  ∧ (background_files cfg env = []
     ↔ ∀ f, f ∈ listdir env (BACKGROUNDS_DIR cfg) → is_image_name f = false).
Proof.
  unfold background_files. split; [|split; [|split]].
  - intros p. rewrite list_elem_of_In, in_map_iff. split.
    + intros (f & <- & Hf). apply filter_In in Hf as [Hin Himg].
      apply is_image_name_iff in Himg as (a & e & -> & He).
      exists a, e. by rewrite list_elem_of_In.
    + intros (a & e & Hin & He & ->). exists (a +:+ e). split; [done|].
      apply filter_In. split; [by apply list_elem_of_In|].
      apply is_image_name_iff. eauto.
  - exists (List.filter is_image_name (listdir env (BACKGROUNDS_DIR cfg))).
    split; [|done].
    induction (listdir env (BACKGROUNDS_DIR cfg)) as [|f fs IH]; cbn [List.filter].
    + constructor.
    + destruct (is_image_name f); by constructor.
  - intros f. unfold is_image_name. by rewrite lower_idem.
  - split.
    + intros H f Hf. destruct (is_image_name f) eqn:E; [|done]. exfalso.
      assert (Hin : In f (List.filter is_image_name (listdir env (BACKGROUNDS_DIR cfg))))
        by (apply filter_In; split; [by apply list_elem_of_In | done]).
      apply (in_map (Py.path_join (BACKGROUNDS_DIR cfg))) in Hin. by rewrite H in Hin.
    + intros H.
      induction (listdir env (BACKGROUNDS_DIR cfg)) as [|f fs IH]; cbn [List.filter]; [done|].
      rewrite (H f) by (by left). apply IH. intros g Hg. apply H. by right.
Qed.

(** X5. A target of zero images, on a host that lists the backgrounds and
    creates the directories without an error: [main] still insists on
    models and backgrounds, creates the two output directories, sets the
    renderer and the compositor up and makes sure of a camera; then the loop
    body is never entered, whatever the fuel.  No model is chosen or imported, no
    random value is drawn, no file is written, and the only line printed is
    the closing one. *)
Theorem zero_images_run (cfg : Config) (env : Env) (fuel : nat) (w : World) :
  NUM_IMAGES cfg = 0%nat →
  MODELS cfg ≠ [] →
  background_files cfg env ≠ [] →
  (∀ w0, host_error env (CallListdir (BACKGROUNDS_DIR cfg)) w0 = None) →
  (∀ w0, host_error env (CallMakedirs (img_dir cfg)) w0 = None) →
  (∀ w0, host_error env (CallMakedirs (lbl_dir cfg)) w0 = None) →
  ∃ cam w',
    main cfg env fuel w = Ok (Some tt) w'
    ∧ has_type CAMERA cam w'
    ∧ files w' = files w
    ∧ rng w' = rng w
    ∧ stdout w' = stdout w ++ [msg_done cfg]
    ∧ history w'
      = history w
          ++ [EvMakedirs (img_dir cfg); EvMakedirs (lbl_dir cfg); EvSetupRenderer]
          ++ match keys_where is_camera (objects w) with
             | [] => [EvNewObject cam]
             | _ :: _ => []
             end
          ++ [EvSetupCompositor]
    ∧ ∀ k x, objects w !! k = Some x → objects w' !! k = Some x.
Proof.
  intros Hn Hm Hbg Hl Hi Hb. unfold main, main_setup.
  destruct (MODELS cfg) as [|m ms]; [done|].
  destruct (background_files cfg env) as [|b bs] eqn:Eb; [done|].
  destruct w as [objs rf ni fs k out h sc].
  unfold makedirs, host, setup_renderer, setup_compositor, ensure_camera, objects_where,
    emit, bind, modify, gets, ret.
  rewrite Hl. wsimpl. rewrite Hi. wsimpl. rewrite Hb. wsimpl.
  fold (keys_where is_camera objs).
  destruct (keys_where is_camera objs) as [|c cs] eqn:Ec.
  - unfold new_object, add_object, emit, bind, modify, gets, ret. wsimpl.
    destruct fuel; cbn [generation_loop]; rewrite Hn; cbn [Nat.ltb Nat.leb];
      unfold ret, print, modify; wsimpl;
      (eexists _, _; split; [reflexivity|]); wsimpl;
      (split; [eexists; split; [apply lookup_insert_eq | reflexivity]|]);
      (do 3 (split; [reflexivity|]));
      (split; [by rewrite <- !app_assoc|]);
      intros j x Hx; (rewrite lookup_insert_ne; [done|]);
      intros <-; by rewrite fresh_key_free in Hx.
  - assert (Hin : c ∈ keys_where is_camera objs) by (rewrite Ec; by left).
    apply elem_of_keys_where in Hin as (x & Hx & Hcam).
    destruct fuel; cbn [generation_loop]; rewrite Hn; cbn [Nat.ltb Nat.leb];
      unfold ret, print, modify; wsimpl;
      (exists c; eexists; split; [reflexivity|]); wsimpl;
      (split; [exists x; split; [done | by apply is_camera_type]|]);
      (do 3 (split; [reflexivity|]));
      (split; [by rewrite <- !app_assoc|]); done.
Qed.

(** X5 on the studio: no model is touched. *)
Lemma zero_images_run_witness :
  NUM_IMAGES (Demo.cfg ["/m/can.glb"] 0) = 0%nat
  ∧ MODELS (Demo.cfg ["/m/can.glb"] 0) ≠ []
  ∧ background_files (Demo.cfg ["/m/can.glb"] 0) Demo.env ≠ []
  ∧ ∃ w', main (Demo.cfg ["/m/can.glb"] 0) Demo.env 7 Demo.nothing = Ok (Some tt) w'
          ∧ files w' = ∅.
Proof.
  assert (H1 : NUM_IMAGES (Demo.cfg ["/m/can.glb"] 0) = 0%nat) by reflexivity.
  assert (H2 : MODELS (Demo.cfg ["/m/can.glb"] 0) ≠ []) by discriminate.
  assert (H3 : background_files (Demo.cfg ["/m/can.glb"] 0) Demo.env ≠ [])
    by (vm_compute; discriminate).
  do 3 (split; [assumption|]).
  destruct (zero_images_run (Demo.cfg ["/m/can.glb"] 0) Demo.env 7 Demo.nothing H1 H2 H3)
    as (cam & w' & Hrun & _ & Hfiles & _); [reflexivity..|].
  exists w'. split; [exact Hrun | exact Hfiles].
Defined.

(** X6. The loop has no cap on its attempts.  On a host none of whose
    calls fails, when every model of the list has a supported extension but
    none holds a mesh, a run never finishes and never raises:
    after any number of frames it is still looping, has written no file,
    and has printed one 'No MESH' line per frame, numbered from 1. *)
Theorem no_mesh_never_finishes (cfg : Config) (env : Env) (fuel : nat) (w : World) :
  reliable env →
  MODELS cfg ≠ [] →
  background_files cfg env ≠ [] →
  (∀ p, In p (MODELS cfg) →
        supported p = true ∧ ∀ m, Forall (λ x, type x ≠ MESH) (gltf_import env p m)) →
  (0 < NUM_IMAGES cfg)%nat →
  ∃ w', main cfg env fuel w = Ok None w'
        ∧ files w' = files w
        ∧ stdout w' = stdout w ++ map msg_no_mesh (seq 1 fuel).
Proof.
  intros Hrel Hm Hbg Hall Hn.
  assert (Hall' : ∀ p, In p (MODELS cfg) →
            supported p = true ∧ succeeds env (CallImport p)
            ∧ ∀ m, Forall (λ x, type x ≠ MESH) (gltf_import env p m)).
  { intros p Hp. destruct (Hall p Hp) as [? ?]. split; [done|]. split; [apply Hrel | done]. }
  destruct (main_setup_ok cfg env w Hrel Hm Hbg) as (cam & w0 & Hsetup & _).
  pose proof (keeps_ok _ _ _ _ _ (main_setup_same_files cfg env) Hsetup) as Hf0.
  pose proof (keeps_ok _ _ _ _ _ (main_setup_same_stdout cfg env) Hsetup) as Hs0.
  unfold same in Hf0, Hs0.
  destruct (generation_loop_no_mesh cfg env cam (background_files cfg env) 0 fuel
              Hm Hall' Hn 0%nat w0) as (w' & Hloop & Hfiles & Hout & _).
  exists w'. unfold main. erewrite bind_ok; [|exact Hsetup].
  erewrite bind_ok; [|exact Hloop]. split; [reflexivity|].
  split; [by rewrite Hfiles|]. by rewrite Hout, Hs0.
Qed.

(** X6 on the studio, whose rig is an empty without a mesh. *)
Lemma no_mesh_never_finishes_witness :
  reliable Demo.env
  ∧ MODELS (Demo.cfg ["/m/rig.glb"] 1) ≠ []
  ∧ background_files (Demo.cfg ["/m/rig.glb"] 1) Demo.env ≠ []
  ∧ (0 < NUM_IMAGES (Demo.cfg ["/m/rig.glb"] 1))%nat
  ∧ ∃ w', main (Demo.cfg ["/m/rig.glb"] 1) Demo.env 50 Demo.nothing = Ok None w'
          ∧ files w' = ∅.
Proof.
  assert (H1 : MODELS (Demo.cfg ["/m/rig.glb"] 1) ≠ []) by discriminate.
  assert (H2 : background_files (Demo.cfg ["/m/rig.glb"] 1) Demo.env ≠ [])
    by (vm_compute; discriminate).
  assert (H3 : ∀ p, In p (MODELS (Demo.cfg ["/m/rig.glb"] 1)) →
                    supported p = true
                    ∧ ∀ m, Forall (λ x, type x ≠ MESH) (gltf_import Demo.env p m)).
  { intros p [<-|[]]. split; [reflexivity|]. intros m. repeat constructor. discriminate. }
  assert (H4 : (0 < NUM_IMAGES (Demo.cfg ["/m/rig.glb"] 1))%nat) by (cbn; lia).
  split; [exact studio_reliable|].
  split; [exact H1|]. split; [exact H2|]. split; [exact H4|].
  destruct (no_mesh_never_finishes (Demo.cfg ["/m/rig.glb"] 1) Demo.env 50 Demo.nothing
              studio_reliable H1 H2 H3 H4) as (w' & Hrun & Hfiles & _).
  exists w'. split; [exact Hrun | exact Hfiles].
Defined.

(** X7. [calc_yolo_bbox] only looks.  For a mesh and a camera that are in
    the scene it never raises, and it leaves the objects, the files, the
    random source, the console, the bound background and the active camera
    as they are.  Its host calls are, in this order: the dependency graph,
    [to_mesh], one projection per vertex of the evaluated mesh,
    [to_mesh_clear]; so the evaluated mesh is released.  The answer is
    [None] exactly when no projected vertex is visible.  For an object
    without geometry [to_mesh] raises.  For a mesh with vertices and a
    camera reference that points at something else, the first projection
    raises, and the evaluated mesh is not released. *)
Theorem calc_yolo_bbox_observes (cfg : Config) (env : Env) (obj cam : nat) (w : World)
    (xo xc : Obj) :
  objects w !! obj = Some xo →
  objects w !! cam = Some xc →
  (type xo = MESH → type xc = CAMERA →
   ∃ r w',
     calc_yolo_bbox cfg env obj cam w = Ok r w'
     ∧ (r = None ↔ visible_coords (projected_points env xo xc) = [])
     ∧ objects w' = objects w ∧ files w' = files w ∧ rng w' = rng w
     ∧ stdout w' = stdout w ∧ node_image w' = node_image w
     ∧ render_filepath w' = render_filepath w
     ∧ scene_camera w' = scene_camera w
     ∧ history w'
       = history w
           ++ [EvDepsgraph; EvToMesh obj]
           ++ map EvProject (map (matrix_world env xo) (evaluated_vertices env xo))
           ++ [EvToMeshClear obj])
  ∧ (type xo ≠ MESH → type xo ≠ CURVE →
     calc_yolo_bbox cfg env obj cam w
     = Raise "RuntimeError: Error: Object does not have geometry data"
         (set_history (history w ++ [EvDepsgraph; EvToMesh obj]) w))
  ∧ (type xo = MESH → type xc ≠ CAMERA →
     match evaluated_vertices env xo with
     | [] =>
         calc_yolo_bbox cfg env obj cam w
         = Ok None
             (set_history (history w ++ [EvDepsgraph; EvToMesh obj; EvToMeshClear obj]) w)
     | v :: _ =>
         calc_yolo_bbox cfg env obj cam w
         = Raise "AttributeError: object has no attribute 'view_frame'"
             (set_history
                (history w
                   ++ [EvDepsgraph; EvToMesh obj; EvProject (matrix_world env xo v)]) w)
     end).
Proof.
  intros Hobj Hcam. split; [|split].
  - intros Hto Htc.
    assert (Hg : has_geometry xo = true) by (by apply mesh_has_geometry).
    assert (Hic : is_camera xc = true) by (by apply is_camera_type).
    destruct (evaluated_vertices env xo) as [|v vs] eqn:Ev.
    + eexists _, _.
      split; [by apply (calc_yolo_bbox_no_vertices cfg env obj cam w xo)|].
      split; [split; [intros _|done]; unfold projected_points; by rewrite Ev|].
      cbn [objects files rng stdout node_image render_filepath scene_camera history
           set_history map].
      done.
    + destruct (visible_coords (projected_points env xo xc)) as [|c cs] eqn:Evis.
      * eexists _, _.
        split; [apply (calc_yolo_bbox_none_visible cfg env obj cam w xo xc); try done;
                by rewrite Ev|].
        split; [done|].
        cbn [objects files rng stdout node_image render_filepath scene_camera history
             set_history].
        unfold bbox_events. rewrite Ev. done.
      * destruct (calc_yolo_bbox_some_visible cfg env obj cam w xo xc Hobj Hcam Hg Hic)
          as (xmin & xmax & ymin & ymax & _ & _ & _ & _ & Hrun); [by rewrite Evis|].
        eexists _, _. split; [exact Hrun|].
        split; [split; discriminate|].
        cbn [objects files rng stdout node_image render_filepath scene_camera history
             set_history].
        unfold bbox_events. rewrite Ev. done.
  - intros H1 H2. apply (calc_yolo_bbox_no_geometry cfg env obj cam w xo Hobj).
    unfold has_geometry. by destruct (type xo).
  - intros Hto Htc.
    assert (Hg : has_geometry xo = true) by (by apply mesh_has_geometry).
    assert (Hic : is_camera xc = false).
    { destruct (is_camera xc) eqn:E; [|done]. by apply is_camera_type in E. }
    destruct (evaluated_vertices env xo) as [|v vs] eqn:Ev.
    + by apply (calc_yolo_bbox_no_vertices cfg env obj cam w xo).
    + by apply (calc_yolo_bbox_not_camera cfg env obj cam w xo xc v vs).
Qed.

(** X7 on the studio's can, and with the can in the camera's place. *)
Lemma calc_yolo_bbox_observes_witness :
  (∃ r w', calc_yolo_bbox (Demo.cfg [] 1) Demo.env 1 0 Demo.set_up = Ok r w'
           ∧ objects w' = objects Demo.set_up
           ∧ history w' = [EvDepsgraph; EvToMesh 1;
                           EvProject (mkVec3 (3 # 10) (2 # 10) 1);
                           EvProject (mkVec3 (7 # 10) (8 # 10) 1);
                           EvToMeshClear 1])
  ∧ (∃ w', calc_yolo_bbox (Demo.cfg [] 1) Demo.env 1 1 Demo.set_up
           = Raise "AttributeError: object has no attribute 'view_frame'" w'
           ∧ history w' = [EvDepsgraph; EvToMesh 1;
                           EvProject (mkVec3 (3 # 10) (2 # 10) 1)])
  ∧ (∃ w', calc_yolo_bbox (Demo.cfg [] 1) Demo.env 0 0 Demo.set_up
           = Raise "RuntimeError: Error: Object does not have geometry data" w').
Proof.
  assert (H1 : objects Demo.set_up !! 1%nat = Some Demo.can_obj) by reflexivity.
  assert (H0 : objects Demo.set_up !! 0%nat = Some Demo.camera_obj) by reflexivity.
  split; [|split].
  - destruct (calc_yolo_bbox_observes (Demo.cfg [] 1) Demo.env 1 0 Demo.set_up
                Demo.can_obj Demo.camera_obj H1 H0) as (Hok & _).
    destruct (Hok eq_refl eq_refl)
      as (r & w' & Hrun & _ & Hobjs & _ & _ & _ & _ & _ & _ & Hh).
    exists r, w'. split; [exact Hrun|]. split; [exact Hobjs|].
    rewrite Hh. vm_compute. reflexivity.
  - destruct (calc_yolo_bbox_observes (Demo.cfg [] 1) Demo.env 1 1 Demo.set_up
                Demo.can_obj Demo.can_obj H1 H1) as (_ & _ & Hbad).
    eexists. split; [apply Hbad; [reflexivity | discriminate]|]. reflexivity.
  - destruct (calc_yolo_bbox_observes (Demo.cfg [] 1) Demo.env 0 0 Demo.set_up
                Demo.camera_obj Demo.camera_obj H0 H0) as (_ & Hbad & _).
    eexists. apply Hbad; discriminate.
Defined.

(** X8. No background image is left behind.  A frame that returns either
    was discarded for lack of a mesh, and then it loaded and removed no
    image and left the binding of the compositor as it was; or it loaded
    exactly one background, an element of the list it was given, and removed
    that same image before it returned, whether the frame was accepted or
    not, leaving the compositor without an image. *)
Theorem background_image_released (cfg : Config) (env : Env) (cam : nat)
    (bgs : list string) (r f : nat) (w : World) (r' f' : nat) (w' : World) :
  frame cfg env cam bgs r f w = Ok (r', f') w' →
  ∃ evs,
    history w' = history w ++ evs
    ∧ ((List.filter is_image_event evs = [] ∧ node_image w' = node_image w
        ∧ ∃ w1, import_and_select cfg env w = Ok None w1)
       ∨ (∃ bg, In bg bgs
                ∧ List.filter is_image_event evs = [EvLoadImage bg; EvRemoveImage bg]
                ∧ node_image w' = None
                ∧ ∃ obj w1, import_and_select cfg env w = Ok (Some obj) w1)).
Proof.
  intros H. apply frame_inv_bound in H
    as [(w1 & H1 & -> & -> & ->)
       |[(obj & w1 & w2 & w3 & bg & H1 & H2 & H3 & Hb3 & -> & -> & ->)
        |(obj & w1 & w2 & w3 & bg & lbl & H1 & H2 & H3 & Hb3 & -> & -> & ->)]].
  - destruct (keeps_ok _ _ _ _ _ (import_and_select_no_image cfg env) H1)
      as (e1 & Hh1 & Hq1).
    pose proof (keeps_ok _ _ _ _ _ (import_and_select_same_node_image cfg env) H1) as Hn.
    exists e1. split; [exact Hh1|]. left.
    split; [by apply filter_none|]. split; [exact Hn | eauto].
  - destruct (keeps_ok _ _ _ _ _ (import_and_select_no_image cfg env) H1)
      as (e1 & Hh1 & Hq1).
    destruct (randomise_scene_loads cfg env obj cam bgs w1 w2 H2)
      as (bg' & e2 & Hin & Hbound & Hh2 & Hq2).
    destruct (keeps_ok _ _ _ _ _ (calc_yolo_bbox_no_image cfg env obj cam) H3)
      as (e3 & Hh3 & Hq3).
    pose proof (keeps_ok _ _ _ _ _ (calc_yolo_bbox_same_node_image cfg env obj cam) H3)
      as Hn3. unfold same in Hn3.
    assert (bg' = bg) as -> by congruence.
    exists (e1 ++ e2 ++ e3 ++ [EvRemoveImage bg]). split.
    + unfold after_not_visible. cbn [history set_history set_stdout set_node_image].
      rewrite Hh3, Hh2, Hh1, <- !app_assoc. reflexivity.
    + right. exists bg. split; [done|]. split.
      * rewrite !List.filter_app, (filter_none _ e1), (filter_none _ e3), Hq2 by done.
        reflexivity.
      * split; [reflexivity | eauto].
  - destruct (keeps_ok _ _ _ _ _ (import_and_select_no_image cfg env) H1)
      as (e1 & Hh1 & Hq1).
    destruct (randomise_scene_loads cfg env obj cam bgs w1 w2 H2)
      as (bg' & e2 & Hin & Hbound & Hh2 & Hq2).
    destruct (keeps_ok _ _ _ _ _ (calc_yolo_bbox_no_image cfg env obj cam) H3)
      as (e3 & Hh3 & Hq3).
    pose proof (keeps_ok _ _ _ _ _ (calc_yolo_bbox_same_node_image cfg env obj cam) H3)
      as Hn3. unfold same in Hn3.
    assert (bg' = bg) as -> by congruence.
    exists (e1 ++ e2 ++ e3 ++ [EvRender (image_path cfg f); EvWriteFile (label_path cfg f);
                               EvRemoveImage bg]). split.
    + unfold after_accept. cbn [history].
      rewrite Hh3, Hh2, Hh1, <- !app_assoc. reflexivity.
    + right. exists bg. split; [done|]. split.
      * rewrite !List.filter_app, (filter_none _ e1), (filter_none _ e3), Hq2 by done.
        reflexivity.
      * split; [reflexivity | eauto].
Qed.

(** X8 on the studio: the accepted frame binds and releases /bg/a.jpg. *)
Lemma background_image_released_witness :
  ∃ w' evs,
    frame (Demo.cfg ["/m/can.glb"] 1) Demo.env 0 Demo.backgrounds 0 0 Demo.stage
    = Ok (1%nat, 1%nat) w'
    ∧ history w' = history Demo.stage ++ evs
    ∧ node_image w' = None.
Proof.
  pose (w' := world_of (frame (Demo.cfg ["/m/can.glb"] 1) Demo.env 0 Demo.backgrounds 0 0
                          Demo.stage)).
  assert (Hf : frame (Demo.cfg ["/m/can.glb"] 1) Demo.env 0 Demo.backgrounds 0 0 Demo.stage
               = Ok (1%nat, 1%nat) w') by (vm_compute; reflexivity).
  destruct (background_image_released (Demo.cfg ["/m/can.glb"] 1) Demo.env 0
              Demo.backgrounds 0 0 Demo.stage 1 1 w' Hf) as (evs & Hh & _).
  exists w', evs. split; [exact Hf|]. split; [exact Hh|]. vm_compute. reflexivity.
Defined.

(** X9. A label can be read back.  When at least one projected point of
    the mesh is visible, the line [calc_yolo_bbox] answers with is the class
    id and the four values computed from the visible extremes - cx, cy, w, h
    in this order - each printed with six decimals and separated by single
    spaces.  Any such line, a zero printed as -0.000000 included (as a float
    negative zero is), splits at its spaces into the class id and four
    numbers, each of which differs from the value printed by at most half a
    millionth. *)
Theorem label_reads_back (cfg : Config) (env : Env) (obj cam : nat) (w : World)
    (xo xc : Obj) :
  objects w !! obj = Some xo →
  objects w !! cam = Some xc →
  type xo = MESH →
  type xc = CAMERA →
  visible_coords (projected_points env xo xc) ≠ [] →
  ∃ xmin xmax ymin ymax lbl w',
    least xmin (map vx (visible_coords (projected_points env xo xc)))
    ∧ greatest xmax (map vx (visible_coords (projected_points env xo xc)))
    ∧ least ymin (map vy (visible_coords (projected_points env xo xc)))
    ∧ greatest ymax (map vy (visible_coords (projected_points env xo xc)))
    ∧ calc_yolo_bbox cfg env obj cam w = Ok (Some lbl) w'
    ∧ (∃ s1 s2 s3 s4,
         printed_6f ((xmin + xmax) / 2) s1 ∧ printed_6f (1 - (ymin + ymax) / 2) s2
         ∧ printed_6f (xmax - xmin) s3 ∧ printed_6f (ymax - ymin) s4
         ∧ lbl = Py.str_int (CLASS_ID cfg) +:+ " " +:+ s1 +:+ " " +:+ s2 +:+ " "
                   +:+ s3 +:+ " " +:+ s4)
    ∧ (∀ s1 s2 s3 s4,
         printed_6f ((xmin + xmax) / 2) s1 → printed_6f (1 - (ymin + ymax) / 2) s2 →
         printed_6f (xmax - xmin) s3 → printed_6f (ymax - ymin) s4 →
         ∃ d1 d2 d3 d4,
           parse_label (Py.str_int (CLASS_ID cfg) +:+ " " +:+ s1 +:+ " " +:+ s2 +:+ " "
                          +:+ s3 +:+ " " +:+ s4)
           = Some (CLASS_ID cfg, [d1; d2; d3; d4])
           ∧ close6 d1 ((xmin + xmax) / 2)
           ∧ close6 d2 (1 - (ymin + ymax) / 2)
           ∧ close6 d3 (xmax - xmin)
           ∧ close6 d4 (ymax - ymin)).
Proof.
  intros Hobj Hcam Hto Htc Hvis.
  assert (Hg : has_geometry xo = true) by (by apply mesh_has_geometry).
  assert (Hic : is_camera xc = true) by (by apply is_camera_type).
  destruct (calc_yolo_bbox_some_visible cfg env obj cam w xo xc Hobj Hcam Hg Hic Hvis)
    as (xmin & xmax & ymin & ymax & Exmin & Exmax & Eymin & Eymax & Hrun).
  pose proof (min_seq_Some_least _ _ Exmin) as Lx.
  pose proof (max_seq_Some_greatest _ _ Exmax) as Gx.
  pose proof (min_seq_Some_least _ _ Eymin) as Ly.
  pose proof (max_seq_Some_greatest _ _ Eymax) as Gy.
  pose proof (visible_extremes _ xmin xmax ymin ymax
                (visible_coords_all (projected_points env xo xc)) Lx Gx Ly Gy) as Hunit.
  rewrite (map_clamp_unit _ Hunit) in Hrun.
  unfold raw_bbox in Hunit, Hrun.
  apply Forall_cons in Hunit as [[H1 _] Hunit].
  apply Forall_cons in Hunit as [[H2 _] Hunit].
  apply Forall_cons in Hunit as [[H3 _] Hunit].
  apply Forall_cons in Hunit as [[H4 _] _].
  exists xmin, xmax, ymin, ymax. eexists _, _.
  do 4 (split; [done|]). split; [exact Hrun|]. split.
  - eexists _, _, _, _. do 4 (split; [by left|]). reflexivity.
  - intros s1 s2 s3 s4 P1 P2 P3 P4.
    by apply (parse_label_printed cfg _ _ _ _ s1 s2 s3 s4).
Qed.

(** X9 on the studio's can: the line reads back as class 0 and the box
    0.5, 0.5, 0.4, 0.6. *)
Lemma label_reads_back_witness :
  ∃ lbl w',
    calc_yolo_bbox (Demo.cfg [] 1) Demo.env 1 0 Demo.set_up = Ok (Some lbl) w'
    ∧ parse_label lbl
      = Some (0%Z, [Qmake 500000 1000000; Qmake 500000 1000000;
                    Qmake 400000 1000000; Qmake 600000 1000000]).
Proof.
  assert (H1 : objects Demo.set_up !! 1%nat = Some Demo.can_obj) by reflexivity.
  assert (H0 : objects Demo.set_up !! 0%nat = Some Demo.camera_obj) by reflexivity.
  assert (Hv : visible_coords (projected_points Demo.env Demo.can_obj Demo.camera_obj) ≠ [])
    by (vm_compute; discriminate).
  destruct (label_reads_back (Demo.cfg [] 1) Demo.env 1 0 Demo.set_up
              Demo.can_obj Demo.camera_obj H1 H0 eq_refl eq_refl Hv)
    as (xmin & xmax & ymin & ymax & lbl & w' & _ & _ & _ & _ & Hrun & _).
  exists lbl, w'. split; [exact Hrun|].
  assert (Hl : calc_yolo_bbox (Demo.cfg [] 1) Demo.env 1 0 Demo.set_up
               = Ok (Some "0 0.500000 0.500000 0.400000 0.600000")
                    (world_of (calc_yolo_bbox (Demo.cfg [] 1) Demo.env 1 0 Demo.set_up)))
    by (vm_compute; reflexivity).
  rewrite Hrun in Hl. injection Hl as ->. vm_compute. reflexivity.
Defined.

(** A line with a negative zero in the first place reads back with a zero
    there. *)
Example label_negative_zero :
  printed_6f 0 "-0.000000"
  ∧ ∃ d, parse_label "0 -0.000000 0.500000 0.000000 0.600000"
         = Some (0%Z, [d; Qmake 500000 1000000; Qmake 0 1000000; Qmake 600000 1000000])
         ∧ (d == 0)%Q.
Proof.
  split; [right; split; reflexivity|].
  eexists. split; [vm_compute; reflexivity | reflexivity].
Qed.

(** X10. A box may have no extent.  When all visible projected points of
    the mesh share one position - a mesh seen through a single vertex, say -
    the label is
    that position (the vertical axis flipped) with width and height
    0.000000; [calc_yolo_bbox] answers with it like with any other, so the
    frame is accepted. *)
Theorem coincident_points_box (cfg : Config) (env : Env) (obj cam : nat) (w : World)
    (xo xc : Obj) (x y : Q) :
  objects w !! obj = Some xo →
  objects w !! cam = Some xc →
  type xo = MESH →
  type xc = CAMERA →
  visible_coords (projected_points env xo xc) ≠ [] →
  (∀ c, In c (visible_coords (projected_points env xo xc)) →
        (vx c == x)%Q ∧ (vy c == y)%Q) →
  ∃ w',
    calc_yolo_bbox cfg env obj cam w
    = Ok (Some (Py.str_int (CLASS_ID cfg) +:+ " " +:+ Py.format_6f x +:+ " "
                  +:+ Py.format_6f (1 - y) +:+ " 0.000000 0.000000")) w'.
Proof.
  intros Hobj Hcam Hto Htc Hvis Hsame.
  assert (Hg : has_geometry xo = true) by (by apply mesh_has_geometry).
  assert (Hic : is_camera xc = true) by (by apply is_camera_type).
  destruct (calc_yolo_bbox_some_visible cfg env obj cam w xo xc Hobj Hcam Hg Hic Hvis)
    as (xmin & xmax & ymin & ymax & Exmin & Exmax & Eymin & Eymax & Hrun).
  pose proof (min_seq_Some_least _ _ Exmin) as Lx.
  pose proof (max_seq_Some_greatest _ _ Exmax) as Gx.
  pose proof (min_seq_Some_least _ _ Eymin) as Ly.
  pose proof (max_seq_Some_greatest _ _ Eymax) as Gy.
  pose proof (visible_extremes _ xmin xmax ymin ymax
                (visible_coords_all (projected_points env xo xc)) Lx Gx Ly Gy) as Hunit.
  rewrite (map_clamp_unit _ Hunit) in Hrun.
  assert (Hx : ∀ v, In v (map vx (visible_coords (projected_points env xo xc))) → (v == x)%Q).
  { intros v (c & <- & Hc)%in_map_iff. by apply Hsame. }
  assert (Hy : ∀ v, In v (map vy (visible_coords (projected_points env xo xc))) → (v == y)%Q).
  { intros v (c & <- & Hc)%in_map_iff. by apply Hsame. }
  destruct Lx as [Lx _], Gx as [Gx _], Ly as [Ly _], Gy as [Gy _].
  apply Hx in Lx, Gx. apply Hy in Ly, Gy.
  eexists. rewrite Hrun. do 2 f_equal.
  unfold format_label, raw_bbox. cbn [lookup list_lookup default id].
  rewrite (format_6f_Qeq ((xmin + xmax) / 2) x).
  2:{ rewrite Lx, Gx. field. }
  rewrite (format_6f_Qeq (1 - (ymin + ymax) / 2) (1 - y)).
  2:{ rewrite Ly, Gy. field. }
  rewrite (format_6f_Qeq (xmax - xmin) 0) by (rewrite Lx, Gx; ring).
  rewrite (format_6f_Qeq (ymax - ymin) 0) by (rewrite Ly, Gy; ring).
  reflexivity.
Qed.

(** X10 on a mesh of one vertex at (0.5, 0.25). *)
Lemma coincident_points_box_witness :
  ∃ w', calc_yolo_bbox (Demo.cfg [] 1) Demo.env 1 0 Demo.dot_set_up
        = Ok (Some "0 0.500000 0.750000 0.000000 0.000000") w'.
Proof.
  assert (H1 : objects Demo.dot_set_up !! 1%nat = Some Demo.dot_obj) by reflexivity.
  assert (H0 : objects Demo.dot_set_up !! 0%nat = Some Demo.camera_obj) by reflexivity.
  assert (Hv : visible_coords (projected_points Demo.env Demo.dot_obj Demo.camera_obj) ≠ [])
    by (vm_compute; discriminate).
  assert (Hs : ∀ c, In c (visible_coords (projected_points Demo.env Demo.dot_obj
                                            Demo.camera_obj)) →
                    (vx c == 1 # 2)%Q ∧ (vy c == 1 # 4)%Q).
  { intros c [<-|[]]. split; reflexivity. }
  destruct (coincident_points_box (Demo.cfg [] 1) Demo.env 1 0 Demo.dot_set_up
              Demo.dot_obj Demo.camera_obj (1 # 2) (1 # 4) H1 H0 eq_refl eq_refl Hv Hs)
    as (w' & Hrun).
  exists w'. rewrite Hrun. reflexivity.
Defined.

(** X11. The frame index can be read off a file name and names never
    clash.  The base name is synth_ followed by digits that read back as the
    index: exactly five of them while the index is below 100000, and the
    plain numeral of the index, six digits or more, from there on.  Two
    frames with different indices have different image paths and different
    label paths, and no image path is a label path. *)
Theorem frame_index_in_file_name (cfg : Config) :
  (∀ n, ∃ d,
      base_filename n = "synth_" +:+ d
      ∧ parse_nat d = Some n
      ∧ ((n < 10 ^ 5)%nat → String.length d = 5%nat)
      ∧ ((10 ^ 5 ≤ n)%nat → d = Py.str_nat n ∧ (6 ≤ String.length d)%nat))
  ∧ (∀ m n, image_path cfg m = image_path cfg n → m = n)
  ∧ (∀ m n, label_path cfg m = label_path cfg n → m = n)
  ∧ (∀ m n, image_path cfg m ≠ label_path cfg n).
Proof.
  split; [|split; [|split]].
  - intros n. exists (Py.format_05d n). split; [reflexivity|].
    split; [apply parse_format_05d|]. apply format_05d_width.
  - apply image_path_inj.
  - apply label_path_inj.
  - apply image_path_ne_label_path.
Qed.

(** X12. Image and label of an accepted frame belong together.  The
    still is rendered from the very scene the box was computed on, through
    the active camera of that scene, with the background the frame had
    bound, an element of the list; the label file
    holds the line [calc_yolo_bbox] answered for that scene, followed by a
    line feed; nothing moves between the two, and the scene is still the
    same when the frame returns.  No other file is touched. *)
Theorem accepted_frame_pair (cfg : Config) (env : Env) (cam : nat) (bgs : list string)
    (r f : nat) (w : World) (f' : nat) (w' : World) :
  frame cfg env cam bgs r f w = Ok (S r, f') w' →
  ∃ obj w1 w2 w3 bg lbl,
    import_and_select cfg env w = Ok (Some obj) w1
    ∧ randomise_scene cfg env obj cam bgs w1 = Ok tt w2
    ∧ calc_yolo_bbox cfg env obj cam w2 = Ok (Some lbl) w3
    ∧ In bg bgs
    ∧ node_image w2 = Some bg
    ∧ files w' !! image_path cfg f
      = Some (PngImage (map_to_list (objects w2)) (Some bg) (scene_camera w2))
    ∧ files w' !! label_path cfg f = Some (TextFile (lbl +:+ Py.newline))
    ∧ objects w' = objects w2
    ∧ f' = S f
    ∧ ∀ p, p ≠ image_path cfg f → p ≠ label_path cfg f → files w' !! p = files w !! p.
Proof.
  intros H. apply frame_inv_bound in H
    as [(w1 & H1 & Hr & -> & ->)
       |[(obj & w1 & w2 & w3 & bg & H1 & H2 & H3 & Hb3 & Hr & -> & ->)
        |(obj & w1 & w2 & w3 & bg & lbl & H1 & H2 & H3 & Hb3 & _ & -> & ->)]];
    [lia | lia |].
  destruct (randomise_scene_loads cfg env obj cam bgs w1 w2 H2)
    as (bg' & e2 & Hin & Hbound & _).
  pose proof (keeps_ok _ _ _ _ _ (calc_yolo_bbox_same_node_image cfg env obj cam) H3) as Hn3.
  pose proof (keeps_ok _ _ _ _ _ (calc_yolo_bbox_same_objects cfg env obj cam) H3) as Ho3.
  pose proof (keeps_ok _ _ _ _ _ (calc_yolo_bbox_same_scene_camera cfg env obj cam) H3)
    as Hc3.
  unfold same in Hn3, Ho3, Hc3.
  assert (bg' = bg) as -> by congruence.
  pose proof (keeps_ok _ _ _ _ _ (import_and_select_silent cfg env) H1) as [Hf1 _].
  pose proof (keeps_ok _ _ _ _ _ (randomise_scene_silent cfg env obj cam bgs) H2) as [Hf2 _].
  pose proof (keeps_ok _ _ _ _ _ (calc_yolo_bbox_silent cfg env obj cam) H3) as [Hf3 _].
  exists obj, w1, w2, w3, bg, lbl.
  do 5 (split; [done|]).
  unfold after_accept. cbn [files objects]. split; [|split; [|split; [|split]]].
  - rewrite lookup_insert_ne by (intros E; symmetry in E; by apply image_path_ne_label_path in E).
    rewrite lookup_insert_eq. by rewrite Ho3, Hc3.
  - apply lookup_insert_eq.
  - exact Ho3.
  - reflexivity.
  - intros p Hp1 Hp2. rewrite !lookup_insert_ne by done. congruence.
Qed.

(** X12 on the studio. *)
Lemma accepted_frame_pair_witness :
  ∃ w' lbl scene,
    frame (Demo.cfg ["/m/can.glb"] 1) Demo.env 0 Demo.backgrounds 0 0 Demo.stage
    = Ok (1%nat, 1%nat) w'
    ∧ files w' !! "/out/images/synth_00000.png"
      = Some (PngImage scene (Some "/bg/a.jpg") (Some 0%nat))
    ∧ files w' !! "/out/labels/synth_00000.txt" = Some (TextFile (lbl +:+ Py.newline)).
Proof.
  pose (w' := world_of (frame (Demo.cfg ["/m/can.glb"] 1) Demo.env 0 Demo.backgrounds 0 0
                          Demo.stage)).
  assert (Hf : frame (Demo.cfg ["/m/can.glb"] 1) Demo.env 0 Demo.backgrounds 0 0 Demo.stage
               = Ok (1%nat, 1%nat) w') by (vm_compute; reflexivity).
  destruct (accepted_frame_pair (Demo.cfg ["/m/can.glb"] 1) Demo.env 0 Demo.backgrounds
              0 0 Demo.stage 1 w' Hf)
    as (obj & w1 & w2 & w3 & bg & lbl & _ & _ & _ & Hin & _ & Himg & Hlbl & _).
  assert (Hbg : ∃ s, files w' !! "/out/images/synth_00000.png"
                     = Some (PngImage s (Some "/bg/a.jpg") (Some 0%nat)))
    by (vm_compute; eexists; reflexivity).
  destruct Hbg as (s & Hs).
  exists w', lbl, s. split; [exact Hf|]. split; [exact Hs | exact Hlbl].
Defined.

(** X13. In a frame that found a mesh, only that mesh and the camera are
    moved.  When the frame returns, the selected mesh is the imported one
    with the scale, rotation and position drawn for it (the first four draws
    after the import), the camera is the old one with the lens, position and
    rotation drawn next, and every other object the import left in the
    scene - further meshes of the same model among them - is exactly as it
    was, unless it is a fill light.  If the frame is accepted, the still
    holds the whole scene, those other objects included, while the label is
    the line [calc_yolo_bbox] answers for the selected mesh and the camera,
    whatever else the scene holds. *)
Theorem only_mesh_and_camera_move (cfg : Config) (env : Env) (cam : nat)
    (bgs : list string) (r f : nat) (w : World) (r' f' : nat) (w' : World)
    (obj : nat) (w1 : World) (xo xc : Obj) :
  frame cfg env cam bgs r f w = Ok (r', f') w' →
  import_and_select cfg env w = Ok (Some obj) w1 →
  objects w1 !! obj = Some xo →
  objects w1 !! cam = Some xc →
  type xc = CAMERA →
  (let s := (SCALE_MIN cfg + (SCALE_MAX cfg - SCALE_MIN cfg) * random env (rng w1))%Q in
   let a := (0 + (2 * Py.pi - 0) * random env (rng w1 + 1))%Q in
   let px := (POS_X_MIN cfg
              + (POS_X_MAX cfg - POS_X_MIN cfg) * random env (rng w1 + 2))%Q in
   let py := (POS_Y_MIN cfg
              + (POS_Y_MAX cfg - POS_Y_MIN cfg) * random env (rng w1 + 3))%Q in
   objects w' !! obj
   = Some (mkObj (name xo) (type xo) (mkVec3 s s s) (mkVec3 a a a) (mkVec3 px py 0)
                 (data xo)))
  ∧ (let lens := (FOCAL_MIN cfg
                  + (FOCAL_MAX cfg - FOCAL_MIN cfg) * random env (rng w1 + 4))%Q in
     let rad := (CAM_RAD_MIN cfg
                 + (CAM_RAD_MAX cfg - CAM_RAD_MIN cfg) * random env (rng w1 + 4 + 1))%Q in
     let elev := ((CAM_ELEV_MIN cfg
                   + (CAM_ELEV_MAX cfg - CAM_ELEV_MIN cfg) * random env (rng w1 + 4 + 2))
                  * (Py.pi / 180))%Q in
     let azim := (0 + (2 * Py.pi - 0) * random env (rng w1 + 4 + 3))%Q in
     let tx := ((POS_X_MIN cfg
                 + (POS_X_MAX cfg - POS_X_MIN cfg) * random env (rng w1 + 4 + 4)) / 2)%Q in
     let ty := ((POS_Y_MIN cfg
                 + (POS_Y_MAX cfg - POS_Y_MIN cfg) * random env (rng w1 + 4 + 5)) / 2)%Q in
     objects w' !! cam
     = Some (mkObj (name xc) (type xc) (scale xc)
               (to_euler env
                  (to_track_quat env
                     (mkVec3 (tx - rad * cos env azim * cos env elev)
                             (ty - rad * sin env azim * cos env elev)
                             (0 - rad * sin env elev))
                     "-Z" "Y"))
               (mkVec3 (rad * cos env azim * cos env elev)
                       (rad * sin env azim * cos env elev)
                       (rad * sin env elev))
               (match data xc with
                | CameraData _ => CameraData lens
                | d => d
                end)))
  ∧ (∀ k x, k ≠ obj → k ≠ cam → objects w1 !! k = Some x → is_fill x = false →
            objects w' !! k = Some x)
  ∧ (r' = S r →
     ∃ lbl bg,
       files w' !! image_path cfg f
       = Some (PngImage (map_to_list (objects w')) (Some bg) (scene_camera w'))
       ∧ files w' !! label_path cfg f = Some (TextFile (lbl +:+ Py.newline))
       ∧ ∀ wa, objects wa !! obj = objects w' !! obj →
               objects wa !! cam = objects w' !! cam →
               ∃ wb, calc_yolo_bbox cfg env obj cam wa = Ok (Some lbl) wb).
Proof.
  intros H H1 Ho Hc Htc.
  destruct (import_and_select_mesh cfg env w obj w1 H1) as (xo' & Ho' & Hto).
  assert (xo' = xo) as -> by congruence.
  assert (Hne : obj ≠ cam) by (intros ->; congruence).
  assert (Hmoved : ∀ w2, randomise_scene cfg env obj cam bgs w1 = Ok tt w2 →
            objects w2 !! obj = Some (randomised_object cfg env (rng w1) xo)
            ∧ objects w2 !! cam = Some (randomised_camera cfg env (rng w1 + 4) xc)
            ∧ ∀ k x, k ≠ obj → k ≠ cam → objects w1 !! k = Some x → is_fill x = false →
                     objects w2 !! k = Some x).
  { intros w2 H2.
    destruct (randomise_scene_moves cfg env obj cam bgs w1 xo xc w2 Ho Hc Hne H2)
      as (wl & Hwl & ->).
    split; [|split].
    - apply lit_world_keeps_others.
      + rewrite Hwl, lookup_insert_ne by done. apply lookup_insert_eq.
      + unfold is_fill. cbn. by rewrite Hto.
    - apply lit_world_keeps_others.
      + rewrite Hwl. apply lookup_insert_eq.
      + unfold is_fill. cbn. by rewrite Htc.
    - intros k x Hko Hkc Hk Hf. apply lit_world_keeps_others; [|done].
      rewrite Hwl, !lookup_insert_ne by done. done. }
  apply frame_inv_bound in H
    as [(w1' & H1' & _)
       |[(obj' & w1' & w2 & w3 & bg & H1' & H2 & H3 & _ & Hr & _ & ->)
        |(obj' & w1' & w2 & w3 & bg & lbl & H1' & H2 & H3 & _ & Hr & _ & ->)]];
    [congruence | |];
    rewrite H1 in H1'; injection H1' as <- <-;
    pose proof (keeps_ok _ _ _ _ _ (calc_yolo_bbox_same_objects cfg env obj cam) H3) as Ho3;
    unfold same in Ho3; destruct (Hmoved w2 H2) as (Mo & Mc & Mrest).
  - unfold after_not_visible. cbn [objects set_node_image set_history set_stdout].
    rewrite Ho3. split; [exact Mo|]. split; [exact Mc|]. split; [exact Mrest|].
    intros E. lia.
  - unfold after_accept. cbn [objects files scene_camera].
    rewrite Ho3. split; [exact Mo|]. split; [exact Mc|]. split; [exact Mrest|].
    intros _. exists lbl, bg. split; [|split].
    + rewrite lookup_insert_ne
        by (intros E; symmetry in E; by apply image_path_ne_label_path in E).
      by rewrite lookup_insert_eq.
    + apply lookup_insert_eq.
    + intros wa Hao Hac. rewrite Mo in Hao. rewrite Mc in Hac.
      apply (calc_yolo_bbox_local cfg env obj cam w2 wa _ _ (Some lbl) w3 Mo Mc Hao Hac H3).
Qed.

(** X13 on the studio: the can is moved, its parent empty is not, and the
    still of the accepted frame holds both. *)
Lemma only_mesh_and_camera_move_witness :
  ∃ w', frame (Demo.cfg ["/m/can.glb"] 1) Demo.env 0 Demo.backgrounds 0 0 Demo.stage
        = Ok (1%nat, 1%nat) w'
        ∧ objects w' !! 1%nat = Some Demo.root_obj
        ∧ (∃ v, (scale <$> objects w' !! 2%nat) = Some (mkVec3 v v v))
        ∧ ∃ lbl, files w' !! "/out/labels/synth_00000.txt"
                 = Some (TextFile (lbl +:+ Py.newline)).
Proof.
  pose (c := Demo.cfg ["/m/can.glb"] 1).
  pose (w1 := world_of (import_and_select c Demo.env Demo.stage)).
  pose (w' := world_of (frame c Demo.env 0 Demo.backgrounds 0 0 Demo.stage)).
  assert (Hf : frame c Demo.env 0 Demo.backgrounds 0 0 Demo.stage = Ok (1%nat, 1%nat) w')
    by (vm_compute; reflexivity).
  assert (H1 : import_and_select c Demo.env Demo.stage = Ok (Some 2%nat) w1)
    by (vm_compute; reflexivity).
  assert (Ho : objects w1 !! 2%nat = Some Demo.can_obj) by (vm_compute; reflexivity).
  assert (Hc : objects w1 !! 0%nat = Some Demo.camera_obj) by (vm_compute; reflexivity).
  assert (Hr : objects w1 !! 1%nat = Some Demo.root_obj) by (vm_compute; reflexivity).
  assert (Ht : type Demo.camera_obj = CAMERA) by reflexivity.
  destruct (only_mesh_and_camera_move c Demo.env 0 Demo.backgrounds 0 0 Demo.stage 1 1 w'
              2 w1 Demo.can_obj Demo.camera_obj Hf H1 Ho Hc Ht)
    as (Hobj & _ & Hrest & Hacc).
  exists w'. split; [exact Hf|]. split; [|split].
  - apply (Hrest 1%nat Demo.root_obj); [lia | lia | exact Hr | reflexivity].
  - eexists. cbv zeta in Hobj. rewrite Hobj. reflexivity.
  - destruct (Hacc eq_refl) as (lbl & bg & _ & Hl & _). exists lbl. exact Hl.
Defined.

(** X14. A model with another extension is found out only when it is
    chosen.  If the loop gets to frame [k] with the target not yet reached
    and the model chosen there is not .glb or .gltf, [main] raises there,
    with that path in the message.  Nothing is undone: the image and label
    pairs of the frames accepted before are still there, and so are the
    lines printed; the scene has been reset for the frame and nothing has
    been imported into it. *)
Theorem unsupported_model_aborts_midway (cfg : Config) (env : Env) (fuel : nat)
    (w : World) (cam : nat) (w0 : World) (k r f : nat) (wk : World) :
  main_setup cfg env w = Ok cam w0 →
  frame_start cfg env k cam (background_files cfg env) 0 0 w0 = Some (r, f, wk) →
  (r < NUM_IMAGES cfg)%nat →
  supported (pick env (MODELS cfg) (rng wk)) = false →
  (k < fuel)%nat →
  ∃ w' outs,
    main cfg env fuel w
    = Raise ("Unsupported model format: " +:+ pick env (MODELS cfg) (rng wk)) w'
    ∧ length outs = k
    ∧ length (accepted_of 0 outs) = r
    ∧ files w' = foldl (write_pair cfg) (files w) (accepted_of 0 outs)
    ∧ stdout w' = stdout w ++ log_lines cfg 0 0 outs
    ∧ objects w' = reset_objects (objects wk).
Proof.
  intros Hsetup Hstart Hr Hs Hk.
  destruct (main_setup_inv cfg env w cam w0 Hsetup) as (Hm & _ & _).
  pose proof (keeps_ok _ _ _ _ _ (main_setup_same_files cfg env) Hsetup) as Hf0.
  pose proof (keeps_ok _ _ _ _ _ (main_setup_same_stdout cfg env) Hsetup) as Hs0.
  unfold same in Hf0, Hs0.
  destruct (frame_start_outcomes cfg env cam _ k 0 0 w0 r f wk Hstart)
    as (outs & Hlen & _ & Hacc & Hfiles & Hout).
  destruct (generation_loop_aborts cfg env cam _ k fuel 0 0 w0 r f wk Hm Hstart Hr Hs Hk)
    as (w' & Hloop & Hf' & Hs' & Ho' & _).
  exists w', outs. split.
  - unfold main. erewrite bind_ok; [|exact Hsetup]. by erewrite bind_raise.
  - split; [done|]. split; [lia|]. split; [congruence|]. split; [congruence | done].
Qed.

(** X14 on the studio, the models taken in turn: the can is rendered, then
    the Wavefront file is chosen and the run ends with one pair written. *)
Lemma unsupported_model_aborts_midway_witness :
  ∃ w', main (Demo.cfg ["/m/can.glb"; "/m/bad.obj"] 2) Demo.turning 9 Demo.nothing
        = Raise "Unsupported model format: /m/bad.obj" w'
        ∧ size (files w') = 2%nat.
Proof.
  pose (c := Demo.cfg ["/m/can.glb"; "/m/bad.obj"] 2).
  pose (w0 := world_of (main_setup c Demo.turning Demo.nothing)).
  pose (wk := world_of (frame c Demo.turning 0 (background_files c Demo.turning) 0 0 w0)).
  assert (H1 : main_setup c Demo.turning Demo.nothing = Ok 0%nat w0)
    by (vm_compute; reflexivity).
  assert (H2 : frame_start c Demo.turning 1 0 (background_files c Demo.turning) 0 0 w0
               = Some (1%nat, 1%nat, wk)) by (vm_compute; reflexivity).
  assert (H3 : (1 < NUM_IMAGES c)%nat) by (cbn; lia).
  assert (H4 : supported (pick Demo.turning (MODELS c) (rng wk)) = false)
    by (vm_compute; reflexivity).
  assert (H5 : (1 < 9)%nat) by lia.
  destruct (unsupported_model_aborts_midway c Demo.turning 9 Demo.nothing 0 w0 1 1 1 wk
              H1 H2 H3 H4 H5) as (w' & outs & Hrun & _).
  assert (Hp : pick Demo.turning (MODELS c) (rng wk) = "/m/bad.obj")
    by (vm_compute; reflexivity).
  rewrite Hp in Hrun.
  exists w'. split; [exact Hrun|].
  assert (Hw : w' = world_of (main c Demo.turning 9 Demo.nothing)) by (by rewrite Hrun).
  rewrite Hw. vm_compute. reflexivity.
Defined.

(** X15. Cameras that come with a model pile up.  The reset at the head of
    a frame spares every camera, also those an earlier import brought, and
    nothing else removes one: after a frame the scene holds the cameras it
    held before, unchanged but for the one the script uses, plus every
    camera among the objects this frame imported (those the importer makes
    of the chosen model in the reset scene). *)
Theorem imported_cameras_pile_up (cfg : Config) (env : Env) (cam : nat)
    (bgs : list string) (r f : nat) (w : World) (r' f' : nat) (w' : World) :
  MODELS cfg ≠ [] →
  has_type CAMERA cam w →
  frame cfg env cam bgs r f w = Ok (r', f') w' →
  size (only is_camera (objects w'))
  = (size (only is_camera (objects w))
     + length (List.filter is_camera (imported cfg env w)))%nat
  ∧ ∀ k x, objects w !! k = Some x → is_camera x = true → k ≠ cam →
           objects w' !! k = Some x.
Proof.
  intros Hm Hcam H.
  destruct (imported_world_camera cfg env cam w Hcam) as (xc & Hc1 & Htc).
  assert (Hcams : only is_camera (objects (imported_world cfg env w))
                  = only is_camera
                      (snd (add_all env (imported cfg env w)
                              (reset_objects (objects w))))) by reflexivity.
  assert (Hsize1 : size (only is_camera (objects (imported_world cfg env w)))
                   = (size (only is_camera (objects w))
                      + length (List.filter is_camera (imported cfg env w)))%nat).
  { rewrite Hcams, only_add_all_size by done. unfold reset_objects.
    rewrite only_without; [done|].
    intros x Hx. apply is_camera_type in Hx. unfold not_camera_or_light. by rewrite Hx. }
  assert (Hkeep1 : ∀ k x, objects w !! k = Some x → is_camera x = true →
                          objects (imported_world cfg env w) !! k = Some x).
  { intros k x Hk Hx.
    assert (Hr : reset_objects (objects w) !! k = Some x).
    { apply without_lookup_Some. split; [done|].
      apply is_camera_type in Hx. unfold not_camera_or_light. by rewrite Hx. }
    unfold imported_world. cbn [objects].
    destruct (add_all_spec env (imported cfg env w) (reset_objects (objects w)))
      as (_ & Hfresh & Hold & _).
    rewrite Hold; [done|]. intros Hin. apply Hfresh in Hin. congruence. }
  apply frame_inv_bound in H
    as [(w1 & H1 & _ & _ & ->)
       |[(obj & w1 & w2 & w3 & bg & H1 & H2 & H3 & _ & _ & _ & ->)
        |(obj & w1 & w2 & w3 & bg & lbl & H1 & H2 & H3 & _ & _ & _ & ->)]];
    pose proof (import_and_select_inv cfg env w _ _ Hm H1) as ->.
  - unfold after_no_mesh. cbn [objects set_stdout]. split; [exact Hsize1|].
    intros k x Hk Hx _. by apply Hkeep1.
  - pose proof (keeps_ok _ _ _ _ _ (calc_yolo_bbox_same_objects cfg env obj cam) H3) as Ho3.
    unfold same in Ho3.
    destruct (import_and_select_mesh cfg env w obj _ H1) as (xo & Ho & Hto).
    assert (Hne : obj ≠ cam) by (intros ->; congruence).
    destruct (randomise_scene_moves cfg env obj cam bgs _ xo xc w2 Ho Hc1 Hne H2)
      as (wl & Hwl & Hw2).
    unfold after_not_visible. cbn [objects set_node_image set_history set_stdout].
    rewrite Ho3, Hw2.
    rewrite lit_world_only
      by (intros x Hx; apply is_camera_type in Hx; apply not_light; congruence).
    rewrite Hwl. split.
    + rewrite only_insert_in by (apply is_camera_type; cbn; done).
      rewrite map_size_insert_Some.
      * rewrite (only_update_out is_camera _ obj xo); [exact Hsize1 | done | |];
          unfold is_camera; cbn; by rewrite Hto.
      * exists xc. rewrite (only_update_out is_camera _ obj xo);
          [by apply only_lookup_Some; split; [|apply is_camera_type]| done | |];
          unfold is_camera; cbn; by rewrite Hto.
    + intros k x Hk Hx Hkc. apply lit_world_keeps_others.
      * rewrite Hwl, lookup_insert_ne by done.
        rewrite lookup_insert_ne; [by apply Hkeep1|].
        intros <-. apply Hkeep1 in Hk; [|done]. apply is_camera_type in Hx. congruence.
      * apply not_light_no_fill, not_light. apply is_camera_type in Hx. congruence.
  - pose proof (keeps_ok _ _ _ _ _ (calc_yolo_bbox_same_objects cfg env obj cam) H3) as Ho3.
    unfold same in Ho3.
    destruct (import_and_select_mesh cfg env w obj _ H1) as (xo & Ho & Hto).
    assert (Hne : obj ≠ cam) by (intros ->; congruence).
    destruct (randomise_scene_moves cfg env obj cam bgs _ xo xc w2 Ho Hc1 Hne H2)
      as (wl & Hwl & Hw2).
    unfold after_accept. cbn [objects].
    rewrite Ho3, Hw2.
    rewrite lit_world_only
      by (intros x Hx; apply is_camera_type in Hx; apply not_light; congruence).
    rewrite Hwl. split.
    + rewrite only_insert_in by (apply is_camera_type; cbn; done).
      rewrite map_size_insert_Some.
      * rewrite (only_update_out is_camera _ obj xo); [exact Hsize1 | done | |];
          unfold is_camera; cbn; by rewrite Hto.
      * exists xc. rewrite (only_update_out is_camera _ obj xo);
          [by apply only_lookup_Some; split; [|apply is_camera_type]| done | |];
          unfold is_camera; cbn; by rewrite Hto.
    + intros k x Hk Hx Hkc. apply lit_world_keeps_others.
      * rewrite Hwl, lookup_insert_ne by done.
        rewrite lookup_insert_ne; [by apply Hkeep1|].
        intros <-. apply Hkeep1 in Hk; [|done]. apply is_camera_type in Hx. congruence.
      * apply not_light_no_fill, not_light. apply is_camera_type in Hx. congruence.
Qed.

(** X15 on the studio, with a model that brings a camera: one camera before
    the frame, two after it. *)
Lemma imported_cameras_pile_up_witness :
  ∃ w', frame (Demo.cfg ["/m/can.glb"] 1) Demo.rigged 0 Demo.backgrounds 0 0 Demo.stage
        = Ok (1%nat, 1%nat) w'
        ∧ size (only is_camera (objects Demo.stage)) = 1%nat
        ∧ size (only is_camera (objects w')) = 2%nat.
Proof.
  pose (c := Demo.cfg ["/m/can.glb"] 1).
  pose (w' := world_of (frame c Demo.rigged 0 Demo.backgrounds 0 0 Demo.stage)).
  assert (Hf : frame c Demo.rigged 0 Demo.backgrounds 0 0 Demo.stage = Ok (1%nat, 1%nat) w')
    by (vm_compute; reflexivity).
  assert (Hm : MODELS c ≠ []) by discriminate.
  assert (Hcam : has_type CAMERA 0 Demo.stage) by (eexists; split; reflexivity).
  assert (H1 : size (only is_camera (objects Demo.stage)) = 1%nat)
    by (vm_compute; reflexivity).
  destruct (imported_cameras_pile_up c Demo.rigged 0 Demo.backgrounds 0 0 Demo.stage 1 1 w'
              Hm Hcam Hf) as [Hsize _].
  exists w'. split; [exact Hf|]. split; [exact H1|].
  rewrite Hsize, H1. reflexivity.
Defined.

(** X16. The downloader [background_generator.py], for any list of
    addresses and any behaviour of the network (writing a file is taken to
    succeed).  A failed download never stops the loop: exactly one line is
    printed per address, in order, the success line or the failure line
    with the last segment of the address and the text of the exception.
    The file of address number i is backgrounds/bg_<i>.jpg, i being the
    position in the list, so failures leave gaps: it holds the body of the
    response when the download went well, and is left as it was when the
    request raised or the status was a 4xx or 5xx code.  No other path is
    touched.  Every name written ends in .jpg, so the background filter of
    the generator accepts it. *)
Theorem downloads_are_independent (net : BackgroundGenerator.Net) (us : list string)
    (s : BackgroundGenerator.Disk) :
  BackgroundGenerator.made (BackgroundGenerator.run net us s)
  = BackgroundGenerator.made s ++ ["backgrounds"]
  ∧ BackgroundGenerator.stdout (BackgroundGenerator.run net us s)
    = BackgroundGenerator.stdout s ++ imap (BackgroundGenerator.line_of net) us
  ∧ (∀ i url, us !! i = Some url →
       BackgroundGenerator.files (BackgroundGenerator.run net us s)
         !! BackgroundGenerator.bg_path i
       = match BackgroundGenerator.get net url with
         | inl _ => BackgroundGenerator.files s !! BackgroundGenerator.bg_path i
         | inr r =>
             if ((400 <=? BackgroundGenerator.status_code r)
                 && (BackgroundGenerator.status_code r <? 600))%Z
             then BackgroundGenerator.files s !! BackgroundGenerator.bg_path i
             else Some (BackgroundGenerator.content r)
         end)
  ∧ (∀ p, (∀ i, (i < length us)%nat → p ≠ BackgroundGenerator.bg_path i) →
          BackgroundGenerator.files (BackgroundGenerator.run net us s) !! p
          = BackgroundGenerator.files s !! p)
  ∧ (∀ i, is_image_name (BackgroundGenerator.bg_name i) = true).
Proof.
  unfold BackgroundGenerator.run. split; [|split; [|split; [|split]]].
  - by rewrite BackgroundGeneratorFacts.for_enumerate_made.
  - rewrite BackgroundGeneratorFacts.for_enumerate_stdout. reflexivity.
  - intros i url Hi.
    rewrite (BackgroundGeneratorFacts.for_enumerate_lookup net us 0 _ i url Hi).
    unfold BackgroundGenerator.attempt, BackgroundGenerator.raise_for_status.
    destruct (BackgroundGenerator.get net url) as [e|r]; [done|].
    by destruct ((400 <=? BackgroundGenerator.status_code r)
                 && (BackgroundGenerator.status_code r <? 600))%Z.
  - intros p Hp. rewrite BackgroundGeneratorFacts.for_enumerate_other; [done|].
    intros k Hk. by apply Hp.
  - intros i. apply is_image_name_iff.
    exists ("bg_" +:+ Py.str_nat i), ".jpg". split; [|by right; left].
    unfold BackgroundGenerator.bg_name. by rewrite str_app_assoc.
Qed.

(** The two shipped addresses when the first is answered with 404 and the
    second with a body: bg_1.jpg is written, bg_0.jpg is not. *)
Example downloads_demo :
  let net := BackgroundGenerator.mkNet
               (λ url, if Py.endswith url "_1.jpg"
                       then inr (BackgroundGenerator.mkResponse 404 "")
                       else inr (BackgroundGenerator.mkResponse 200 "JFIF"))
               (λ code _, Py.str_int code +:+ " Client Error") in
  let s' := BackgroundGenerator.script net (BackgroundGenerator.mkDisk [] ∅ []) in
  map_to_list (BackgroundGenerator.files s') = [("backgrounds/bg_1.jpg", "JFIF")]
  ∧ BackgroundGenerator.stdout s'
    = ["❌ Kitchen_Background_1.jpg — 404 Client Error"; "✅ bg_1.jpg"].
Proof. split; vm_compute; reflexivity. Qed.

(** Runs the texture script's monad on the trace at hand, using the facts
    known about the host. *)
Ltac tex_run :=
  unfold ApplyTexture.bind, ApplyTexture.print, ApplyTexture.emit,
    ApplyTexture.quit, ApplyTexture.attr_of, ApplyTexture.raise, ApplyTexture.ret,
    ApplyTexture.name_lookup; cbn.
Ltac tex_go :=
  tex_run;
  repeat (progress (repeat match goal with
                           | H : _ = _ |- _ => rewrite H
                           end); tex_run).

(** X17. The texture script [apply_texture.py] never gets to its export.
    Line 58 evaluates the name Vector, which the module neither imports nor
    defines, so a run that finds a mesh, a material in its first slot and
    the Principled BSDF node stops there with a NameError, right after it
    has added the image texture node; every other run ends at a quit or at
    an exception on what is missing: the object, the slot or the material
    before that line, the shader node at that same line, where its location
    is read.
    Whatever the file holds and whatever the quit operator does, no run
    reaches the last line, and none loads the texture, links it, makes the
    output directory or exports. *)
Theorem texture_script_never_exports (h : ApplyTexture.Host) :
  (∃ stop, snd (ApplyTexture.run h) = inr stop)
  ∧ Forall (λ e, ApplyTexture.is_output e = false) (fst (ApplyTexture.run h))
  ∧ (ApplyTexture.ready h →
     snd (ApplyTexture.run h)
     = inr (ApplyTexture.Raised "NameError: name 'Vector' is not defined")
     ∧ List.last (fst (ApplyTexture.run h)) ApplyTexture.QuitBlender
       = ApplyTexture.NodesNew "ShaderNodeTexImage").
Proof.
  unfold ApplyTexture.run, ApplyTexture.script, ApplyTexture.ready.
  destruct (ApplyTexture.quit_blender h) eqn:Eq;
  (destruct (List.find ApplyTexture.is_mesh (ApplyTexture.data_objects h)) as [o|] eqn:Eo;
   [ destruct (ApplyTexture.material_slots o) as [|[m|] rest] eqn:Es;
     [ | destruct (match List.find (λ n, String.eqb (ApplyTexture.node_name n)
                                          "Principled BSDF") (ApplyTexture.tree_nodes m) with
                   | Some n' => Some n'
                   | None => List.find (λ n, String.eqb (ApplyTexture.node_type n)
                                               "BSDF_PRINCIPLED") (ApplyTexture.tree_nodes m)
                   end) as [n|] eqn:En | ] | ]);
  (split; [tex_go; eauto | split; [tex_go; repeat constructor|]]).
  all: try (intros (o' & m' & n' & rest' & Hf & Hs & Hn); exfalso;
            first [ discriminate Hf
                  | injection Hf as <-; rewrite Es in Hs;
                    first [ discriminate Hs | injection Hs as <- <-; congruence ] ]).
  all: intros _; tex_go; done.
Qed.

(** X17 on a file with one mesh, its material and the shader node: the run
    prints three lines, adds the texture node and stops at the NameError. *)
Lemma texture_script_never_exports_witness :
  let h := ApplyTexture.mkHost
             [ApplyTexture.mkSceneObject "Can" MESH
                [Some (ApplyTexture.mkMaterial "Label"
                         [ApplyTexture.mkNode "Material Output" "OUTPUT_MATERIAL";
                          ApplyTexture.mkNode "Principled BSDF" "BSDF_PRINCIPLED"])]]
             ApplyTexture.QuitExits (λ _, true) "Image Texture" in
  ApplyTexture.ready h
  ∧ ApplyTexture.run h
    = ([ApplyTexture.Print "Starting command-line texture and export script...";
        ApplyTexture.Print "Found object: 'Can'";
        ApplyTexture.Print "Found material: 'Label'";
        ApplyTexture.NodesNew "ShaderNodeTexImage"],
       inr (ApplyTexture.Raised "NameError: name 'Vector' is not defined")).
Proof.
  intros h.
  assert (Hready : ApplyTexture.ready h).
  { eexists _, _, _, _. split; [reflexivity|]. split; reflexivity. }
  split; [exact Hready|].
  destruct (texture_script_never_exports h) as (_ & _ & Hname).
  destruct (Hname Hready) as [Hstop _].
  rewrite (surjective_pairing (ApplyTexture.run h)), Hstop.
  f_equal.
Defined.
